(** * LcdMenu: navigation, scrolling window and edit-mode engine

    A shallow embedding of [src/LcdMenu.h], [src/ItemList.h] and
    [src/ItemProgress.h].

    - Fixed-width integers ([uint8_t], [uint16_t], [int8_t]) are integers of
      [Z] with the wrap-around written out ([wrap8], [wrap16], [wrapS8]).
      Integer promotion to [int] is exact arithmetic in [Z]; the conversion
      back to the narrow type is the wrap.
    - A menu table ([MenuItem **]) is a list of items; the tables of the
      program live in a store [menus] and are named by their position in it,
      so that a sub-menu link, a header's parent link and the active table
      ([currentMenuTable]) can refer to one shared table.
    - A read [table[i]] outside the array is undefined behaviour; every
      function that reads a table returns an [option], and [None] stands for
      undefined behaviour (or for a loop that never ends).
    - Callbacks and the rendering calls ([update], [drawCursor]) are
      recorded, in order, in the [events] field of the controller: [update]
      and [drawCursor] below say that the call is made, and when.  What the
      call does is the matter of [drawMenu], [drawCursor_row] and [redraw]
      further down, which read the table and can fail where the navigation
      code does not.  A key makes its call of [update()] or [drawCursor()]
      last, on the state it returns, so a key runs to its end in the code
      when it returns a state here and [redraw] is defined on that state;
      the theorems on states that are shown ([Shown]) state both. *)

From Stdlib Require Import ZArith Bool List Lia.
From stdpp Require Import base option list.

Local Open Scope Z_scope.

(** ** Machine integers *)

Definition wrap8 (z : Z) : Z := z mod 256.
Definition wrap16 (z : Z) : Z := z mod 65536.
(** [int8_t]: two's complement on 8 bits. *)
Definition wrapS8 (z : Z) : Z := (z + 128) mod 256 - 128.

(** Arduino's [constrain(amt, low, high)] macro:
    [((amt)<(low)?(low):((amt)>(high)?(high):(amt)))]. *)
Definition constrain (amt low high : Z) : Z :=
  if amt <? low then low else if amt >? high then high else amt.

(** ** Observable effects *)

Inductive Event : Type :=
| EvUpdate                    (* update(): drawMenu() and drawCursor() ran *)
| EvDrawCursor                (* drawCursor() alone *)
| EvBlinker                   (* resetBlinker() of a text input *)
| EvCommand                   (* an ItemCommand callback *)
| EvToggle (on : bool)        (* an ItemToggle callback with the new state *)
| EvText                      (* an ItemInput callback with the text *)
| EvValueChanged (v : Z)      (* ItemList::changeCallback(index) *)
| EvCommit (v : Z).           (* getCallbackInt()(getItemIndex()) *)

(** ** ItemList.h *)

Module ItemList.

Record t : Type := mk {
  callback : bool;          (* callback != NULL *)
  changeCallback : bool;    (* changeCallback != NULL *)
  itemCount : Z;            (* const uint8_t *)
  itemIndex : Z;            (* uint16_t *)
  initialItemIndex : Z      (* uint16_t *)
}.

Definition getItemIndex (l : t) : Z := itemIndex l.

Definition getItemCount (l : t) : Z := itemCount l.

Definition restoreProgress (l : t) : t :=
  mk (callback l) (changeCallback l) (itemCount l)
     (initialItemIndex l) (initialItemIndex l).

Definition saveProgress (l : t) : t :=
  mk (callback l) (changeCallback l) (itemCount l)
     (itemIndex l) (itemIndex l).

(** [setItemIndex(uint16_t itemIndex)]: the argument is converted to
    [uint16_t] at the call, clamped, stored, and the change callback, when
    there is one, is called with the stored index. *)
Definition setItemIndex (l : t) (arg : Z) : t * list Event :=
  let itemIndex := wrap16 arg in
  let stored := wrap16 (constrain itemIndex 0 (itemCount l - 1)) in
  (mk (callback l) (changeCallback l) (itemCount l) stored
      (initialItemIndex l),
   if changeCallback l then [EvValueChanged stored] else []).

End ItemList.

(** ** ItemProgress.h

    [MIN_PROGRESS] and [MAX_PROGRESS] are macros of another header of the
    library (not embedded here); the functions that use them take them as
    parameters. *)

Module ItemProgress.

Record t : Type := mk {
  callback : bool;          (* callback != NULL *)
  progress : Z;             (* uint16_t *)
  initialProgress : Z;      (* uint16_t *)
  stepLength : Z            (* uint8_t *)
}.

Definition setProgress (p : t) (v : Z) : t :=
  mk (callback p) v (initialProgress p) (stepLength p).

Definition increment (MAX_PROGRESS : Z) (p : t) : t :=
  if progress p >=? MAX_PROGRESS then p
  else setProgress p (wrap16 (progress p + stepLength p)).

Definition decrement (MIN_PROGRESS : Z) (p : t) : t :=
  if progress p <=? MIN_PROGRESS then p
  else setProgress p (wrap16 (progress p - stepLength p)).

Definition getItemIndex (p : t) : Z := progress p.

Definition saveProgress (p : t) : t :=
  mk (callback p) (progress p) (progress p) (stepLength p).

Definition restoreProgress (p : t) : t :=
  mk (callback p) (initialProgress p) (initialProgress p) (stepLength p).

End ItemProgress.

(** ** Menu items

    [MenuItem.h] and the headers of the other item classes are not embedded
    file by file.  The classes are a tagged union here; what the
    engine needs of the base class is written out below, following the
    specification (section 3: a node has a type tag fixed at construction, a
    [hidden] flag, and a payload; the header node carries the scroll memento
    and, for a sub-menu, the link to the parent table). *)

Inductive ItemType : Type :=
| MENU_ITEM_MAIN_MENU_HEADER
| MENU_ITEM_SUB_MENU_HEADER
| MENU_ITEM_SUB_MENU
| MENU_ITEM_COMMAND
| MENU_ITEM_INPUT
| MENU_ITEM_TOGGLE
| MENU_ITEM_LIST
| MENU_ITEM_PROGRESS
| MENU_ITEM_END_OF_MENU.

Definition ItemType_eqb (a b : ItemType) : bool :=
  match a, b with
  | MENU_ITEM_MAIN_MENU_HEADER, MENU_ITEM_MAIN_MENU_HEADER
  | MENU_ITEM_SUB_MENU_HEADER, MENU_ITEM_SUB_MENU_HEADER
  | MENU_ITEM_SUB_MENU, MENU_ITEM_SUB_MENU
  | MENU_ITEM_COMMAND, MENU_ITEM_COMMAND
  | MENU_ITEM_INPUT, MENU_ITEM_INPUT
  | MENU_ITEM_TOGGLE, MENU_ITEM_TOGGLE
  | MENU_ITEM_LIST, MENU_ITEM_LIST
  | MENU_ITEM_PROGRESS, MENU_ITEM_PROGRESS
  | MENU_ITEM_END_OF_MENU, MENU_ITEM_END_OF_MENU => true
  | _, _ => false
  end.

(** The scroll memento of a header node. *)
Record Memento : Type := mkMemento {
  savedTop : Z;
  savedBottom : Z;
  savedCursorPosition : Z
}.

(** A table is named by its position in the store of tables. *)
Abbreviation TableId := nat (only parsing).

Inductive ItemKind : Type :=
| KMainHeader (m : Memento)
| KSubHeader (parent : option TableId) (m : Memento)
| KSubMenu (child : option TableId)
| KCommand (callback : bool)
| KToggle (on : bool) (callback : bool)
| KInput (callback : bool)
| KList (l : ItemList.t)
| KProgress (p : ItemProgress.t)
| KEnd.

Record MenuItem : Type := mkItem {
  hidden : bool;
  kind : ItemKind
}.

Definition isHidden (it : MenuItem) : bool := hidden it.

Definition getType (it : MenuItem) : ItemType :=
  match kind it with
  | KMainHeader _ => MENU_ITEM_MAIN_MENU_HEADER
  | KSubHeader _ _ => MENU_ITEM_SUB_MENU_HEADER
  | KSubMenu _ => MENU_ITEM_SUB_MENU
  | KCommand _ => MENU_ITEM_COMMAND
  | KToggle _ _ => MENU_ITEM_TOGGLE
  | KInput _ => MENU_ITEM_INPUT
  | KList _ => MENU_ITEM_LIST
  | KProgress _ => MENU_ITEM_PROGRESS
  | KEnd => MENU_ITEM_END_OF_MENU
  end.

(** Modelled from the spec: [MenuItem::getSubMenu] is declared in
    [MenuItem.h], which is missing.  A sub-menu link answers the child table, a sub-menu header
    the parent table, every other node [NULL]. *)
Definition getSubMenu (it : MenuItem) : option TableId :=
  match kind it with
  | KSubHeader parent _ => parent
  | KSubMenu child => child
  | _ => None
  end.

(** Modelled from the spec: the memento accessors of the header node are
    declared in [MenuItem.h], which is missing.  A header stores the three values
    and returns them verbatim; on any other node the setters do nothing. *)
Definition getMemento (it : MenuItem) : Memento :=
  match kind it with
  | KMainHeader m => m
  | KSubHeader _ m => m
  | _ => mkMemento 0 0 0
  end.

Definition withMemento (it : MenuItem) (m : Memento) : MenuItem :=
  match kind it with
  | KMainHeader _ => mkItem (hidden it) (KMainHeader m)
  | KSubHeader parent _ => mkItem (hidden it) (KSubHeader parent m)
  | _ => it
  end.

Definition getTop (it : MenuItem) : Z := savedTop (getMemento it).
Definition getBottom (it : MenuItem) : Z := savedBottom (getMemento it).
Definition getCursorPosition_item (it : MenuItem) : Z :=
  savedCursorPosition (getMemento it).

Definition setTop (it : MenuItem) (v : Z) : MenuItem :=
  let m := getMemento it in
  withMemento it (mkMemento v (savedBottom m) (savedCursorPosition m)).
Definition setBottom (it : MenuItem) (v : Z) : MenuItem :=
  let m := getMemento it in
  withMemento it (mkMemento (savedTop m) v (savedCursorPosition m)).
Definition setCursorPosition_item (it : MenuItem) (v : Z) : MenuItem :=
  let m := getMemento it in
  withMemento it (mkMemento (savedTop m) (savedBottom m) v).

(** A table: the array of item pointers.  [tableAt] is [table[i]] for an
    index of type [size_t]; a negative [i] stands for the huge value the
    index wraps to, which no array reaches. *)
Abbreviation Table := (list MenuItem) (only parsing).

Definition tableAt (tbl : Table) (i : Z) : option MenuItem :=
  if i <? 0 then None else tbl !! Z.to_nat i.

(** ** LcdMenu.h: the controller

    The fields that only concern the display ([maxCols], [blinkerPosition],
    the icons, the backlight and the timer) are left out. *)

Record LcdMenu : Type := mkMenu {
  cursorPosition : Z;         (* uint8_t *)
  top : Z;                    (* uint8_t *)
  isEditModeEnabled : bool;
  isCharPickerActive : bool;
  bottom : Z;                 (* uint8_t *)
  maxRows : Z;                (* uint8_t *)
  currentMenuTable : TableId;
  currentMenuSize : Z;        (* size_t *)
  enableUpdate : bool;
  menus : list Table;         (* the tables the pointers refer to *)
  events : list Event         (* what has been called so far, oldest first *)
}.

Definition set_cursorPosition (v : Z) (m : LcdMenu) : LcdMenu :=
  mkMenu v (top m) (isEditModeEnabled m) (isCharPickerActive m) (bottom m)
    (maxRows m) (currentMenuTable m) (currentMenuSize m) (enableUpdate m)
    (menus m) (events m).
Definition set_top (v : Z) (m : LcdMenu) : LcdMenu :=
  mkMenu (cursorPosition m) v (isEditModeEnabled m) (isCharPickerActive m)
    (bottom m) (maxRows m) (currentMenuTable m) (currentMenuSize m)
    (enableUpdate m) (menus m) (events m).
Definition set_bottom (v : Z) (m : LcdMenu) : LcdMenu :=
  mkMenu (cursorPosition m) (top m) (isEditModeEnabled m)
    (isCharPickerActive m) v (maxRows m) (currentMenuTable m)
    (currentMenuSize m) (enableUpdate m) (menus m) (events m).
Definition set_isEditModeEnabled (v : bool) (m : LcdMenu) : LcdMenu :=
  mkMenu (cursorPosition m) (top m) v (isCharPickerActive m) (bottom m)
    (maxRows m) (currentMenuTable m) (currentMenuSize m) (enableUpdate m)
    (menus m) (events m).
Definition set_currentMenu (t : TableId) (size : Z) (m : LcdMenu) : LcdMenu :=
  mkMenu (cursorPosition m) (top m) (isEditModeEnabled m)
    (isCharPickerActive m) (bottom m) (maxRows m) t size (enableUpdate m)
    (menus m) (events m).
Definition set_menus (v : list Table) (m : LcdMenu) : LcdMenu :=
  mkMenu (cursorPosition m) (top m) (isEditModeEnabled m)
    (isCharPickerActive m) (bottom m) (maxRows m) (currentMenuTable m)
    (currentMenuSize m) (enableUpdate m) v (events m).
Definition emit (evs : list Event) (m : LcdMenu) : LcdMenu :=
  mkMenu (cursorPosition m) (top m) (isEditModeEnabled m)
    (isCharPickerActive m) (bottom m) (maxRows m) (currentMenuTable m)
    (currentMenuSize m) (enableUpdate m) (menus m) (events m ++ evs).

(** The table [currentMenuTable] points to, and [currentMenuTable[i]]. *)
Definition currentTable (m : LcdMenu) : option Table :=
  menus m !! currentMenuTable m.

Definition itemAt (m : LcdMenu) (i : Z) : option MenuItem :=
  tbl ← currentTable m; tableAt tbl i.

(** A write through the pointer [currentMenuTable[i]]: the node of the
    active table is replaced in the store. *)
Definition storeItem (m : LcdMenu) (i : Z) (it : MenuItem) : LcdMenu :=
  match currentTable m with
  | Some tbl =>
      set_menus (<[currentMenuTable m := <[Z.to_nat i := it]> tbl]> (menus m)) m
  | None => m
  end.

(** [update()]: redraws the menu and the cursor unless updates are
    disabled.  The call is recorded here; [redraw] below is what it draws,
    and says when [drawMenu()] and [drawCursor()] have a defined result. *)
Definition update (m : LcdMenu) : LcdMenu :=
  if enableUpdate m then emit [EvUpdate] m else m.

Definition drawCursor (m : LcdMenu) : LcdMenu := emit [EvDrawCursor] m.

Definition isInEditMode (m : LcdMenu) : bool := isEditModeEnabled m.

Definition getCursorPosition (m : LcdMenu) : Z := cursorPosition m.

(** [setCursorPosition(uint8_t position)]. *)
Definition setCursorPosition (position : Z) (m : LcdMenu) : LcdMenu :=
  set_cursorPosition position m.

(** [getMenuSize]: the index of the first end marker, plus one.  Running off
    the array before an end marker is found is undefined behaviour. *)
Fixpoint getMenuSize_from (menu : Table) (s : Z) : option Z :=
  match menu with
  | [] => None
  | it :: rest =>
      if ItemType_eqb (getType it) MENU_ITEM_END_OF_MENU then Some (s + 1)
      else getMenuSize_from rest (s + 1)
  end.

Definition getMenuSize (menu : Table) : option Z := getMenuSize_from menu 0.

Definition isSubMenu (m : LcdMenu) : option bool :=
  it ← itemAt m 0;
  Some (ItemType_eqb (getType it) MENU_ITEM_SUB_MENU_HEADER).

(** *** Scans over the active table *)

(** The body of the loops [for (i = start; ...; i--)] that look for a node
    that is not hidden: [n] is the number of iterations the loop condition
    allows. *)
Fixpoint allHiddenDown (tbl : Table) (i : Z) (n : nat) : option bool :=
  match n with
  | O => Some true
  | S n' =>
      it ← tableAt tbl i;
      if negb (isHidden it) then Some false else allHiddenDown tbl (i - 1) n'
  end.

Fixpoint allHiddenUp (tbl : Table) (i : Z) (n : nat) : option bool :=
  match n with
  | O => Some true
  | S n' =>
      it ← tableAt tbl i;
      if negb (isHidden it) then Some false else allHiddenUp tbl (i + 1) n'
  end.

(** [checkAllAboveHidden(cursor)]: [for (size_t i = cursor - 1; i > 0; i--)].
    With [cursor = 0] the index starts at the largest [size_t] and the first
    read is outside the array. *)
Definition checkAllAboveHidden (m : LcdMenu) (cursor : Z) : option bool :=
  tbl ← currentTable m;
  if cursor =? 0 then None
  else allHiddenDown tbl (cursor - 1) (Z.to_nat (cursor - 1)).

(** [checkAllBelowHidden(cursor)]:
    [for (size_t i = cursor + 1; i < currentMenuSize - 2; i++)].
    When [currentMenuSize < 2] the bound wraps around to a huge value, and
    the scan goes on until it meets a visible node or leaves the array:
    [S (length tbl)] iterations are enough for either. *)
Definition checkAllBelowHidden (m : LcdMenu) (cursor : Z) : option bool :=
  tbl ← currentTable m;
  allHiddenUp tbl (cursor + 1)
    (if currentMenuSize m <? 2 then S (length tbl)
     else Z.to_nat (currentMenuSize m - 2 - (cursor + 1))).

(** The first node that is not hidden, scanning downwards from [i]; after
    [n] reads the index has passed 0 and wrapped around, and the next read is
    outside the array. *)
Fixpoint firstVisibleDown (tbl : Table) (i : Z) (n : nat) : option Z :=
  match n with
  | O => None
  | S n' =>
      it ← tableAt tbl i;
      if negb (isHidden it) then Some i else firstVisibleDown tbl (i - 1) n'
  end.

(** The first node that is not hidden, scanning upwards from [i] for [n]
    iterations; [Some None] when the loop ends without finding one. *)
Fixpoint firstVisibleUp (tbl : Table) (i : Z) (n : nat) : option (option Z) :=
  match n with
  | O => Some None
  | S n' =>
      it ← tableAt tbl i;
      if negb (isHidden it) then Some (Some i)
      else firstVisibleUp tbl (i + 1) n'
  end.

(** [isAtTheStart()]: [for (size_t i = cursorPosition - 1; i >= 0; i--)];
    the condition [i >= 0] always holds for a [size_t], so the loop only ends
    at a node that is not hidden. *)
Definition isAtTheStart (m : LcdMenu) : option bool :=
  tbl ← currentTable m;
  i ← firstVisibleDown tbl (cursorPosition m - 1) (Z.to_nat (cursorPosition m));
  Some (i =? 0).

(** [isAtTheEnd()]:
    [for (size_t i = cursorPosition + 1; i < currentMenuSize; i++)]. *)
Definition isAtTheEnd (m : LcdMenu) : option bool :=
  tbl ← currentTable m;
  r ← firstVisibleUp tbl (cursorPosition m + 1)
        (Z.to_nat (currentMenuSize m - (cursorPosition m + 1)));
  Some (match r with
        | Some i => i =? currentMenuSize m - 1
        | None => true
        end).

(** *** Sub-menus *)

Definition enterSubMenu (m : LcdMenu) (item : MenuItem) : option LcdMenu :=
  match getSubMenu item with
  | None => Some m
  | Some child =>
      hdr ← itemAt m 0;
      let hdr := setTop hdr (top m) in
      let hdr := setBottom hdr (bottom m) in
      let hdr := setCursorPosition_item hdr (cursorPosition m) in
      let m := storeItem m 0 hdr in
      let m := set_top 1 m in
      let m := set_bottom (maxRows m) m in
      let m := set_cursorPosition 1 m in
      tbl ← menus m !! child;
      size ← getMenuSize tbl;
      Some (update (set_currentMenu child size m))
  end.

Definition leaveSubMenu (m : LcdMenu) (item : MenuItem) : option LcdMenu :=
  match getSubMenu item with
  | None => Some m
  | Some parent =>
      tbl ← menus m !! parent;
      size ← getMenuSize tbl;
      let m := set_currentMenu parent size m in
      hdr ← itemAt m 0;
      let m := set_top (getTop hdr) m in
      let m := set_bottom (getBottom hdr) m in
      let m := set_cursorPosition (getCursorPosition_item hdr) m in
      Some (update m)
  end.

(** *** up() and down() *)

(** The cursor is a [uint8_t]: after 256 rounds the [do ... while] loops of
    [up()] and [down()] are back in the state they started from, so a loop
    that is still running after [loopFuel] rounds never ends. *)
Definition loopFuel : nat := 257.

(** The [do ... while] loop of [up()].  The local [numSkipped] of [up()] is
    never read and is left out. *)
Fixpoint up_loop (fuel : nat) (m : LcdMenu) : option (bool * LcdMenu) :=
  match fuel with
  | O => None
  | S fuel' =>
      atStart ← isAtTheStart m;
      if atStart || isEditModeEnabled m then Some (false, m)
      else
        let m := set_cursorPosition (wrap8 (cursorPosition m - 1)) m in
        it ← itemAt m (cursorPosition m);
        if isHidden it then up_loop fuel' m else Some (true, m)
  end.

(** The local [wasAtTop] of [up()]. *)
Definition wasAtTop (m : LcdMenu) : option bool :=
  let cursorLine := wrap8 (constrain (cursorPosition m - top m) 0 (maxRows m - 1)) in
  allAbove ← checkAllAboveHidden m (cursorPosition m);
  let cursorLine := if (allAbove : bool) then 0 else cursorLine in
  Some (cursorLine =? 0).

Definition up (m : LcdMenu) : option (bool * LcdMenu) :=
  atTop ← wasAtTop m;
  '(moved, m) ← up_loop loopFuel m;
  if negb moved then Some (false, m)
  else
    let m :=
      if (cursorPosition m <? top m) && atTop then
        let m := set_top (cursorPosition m) m in
        set_bottom (wrap8 (top m + maxRows m - 1)) m
      else m in
    Some (true, update m).

(** The [do ... while] loop of [down()], with the local [numSkipped]
    ([int8_t]). *)
Fixpoint down_loop (fuel : nat) (m : LcdMenu) (numSkipped : Z)
  : option (bool * LcdMenu * Z) :=
  match fuel with
  | O => None
  | S fuel' =>
      atEnd ← isAtTheEnd m;
      if atEnd || isEditModeEnabled m then Some (false, m, numSkipped)
      else
        let m := set_cursorPosition (wrap8 (cursorPosition m + 1)) m in
        let numSkipped := wrapS8 (numSkipped + 1) in
        it ← itemAt m (cursorPosition m);
        if isHidden it then down_loop fuel' m numSkipped
        else Some (true, m, numSkipped)
  end.

(** The local [wasAtBottom] of [down()]. *)
Definition wasAtBottom (m : LcdMenu) : option bool :=
  let cursorLine := wrap8 (constrain (cursorPosition m - top m) 0 (maxRows m - 1)) in
  allBelow ← checkAllBelowHidden m (cursorPosition m);
  let cursorLine := if (allBelow : bool) then wrap8 (maxRows m - 1) else cursorLine in
  Some (cursorLine =? maxRows m - 1).

Definition down (m : LcdMenu) : option (bool * LcdMenu) :=
  atBottom ← wasAtBottom m;
  '(moved, m, numSkipped) ← down_loop loopFuel m (-1);
  if negb moved then Some (false, m)
  else
    let m :=
      if (cursorPosition m >? bottom m) && atBottom then
        let m := set_top (wrap8 (cursorPosition m - numSkipped - 1)) m in
        set_bottom (wrap8 (top m + maxRows m - 1)) m
      else m in
    Some (true, update m).

(** *** enter() and back() *)

Definition enter (m : LcdMenu) : option LcdMenu :=
  let pos := cursorPosition m in
  item ← itemAt m pos;
  match kind item with
  | KSubMenu _ => enterSubMenu m item
  | KCommand callback =>
      let m := if callback then emit [EvCommand] m else m in
      Some (update m)
  | KToggle on callback =>
      let m := storeItem m pos (mkItem (hidden item) (KToggle (negb on) callback)) in
      let m := if callback then emit [EvToggle (negb on)] m else m in
      Some (update m)
  | KInput _ =>
      if negb (isInEditMode m) then
        Some (drawCursor (set_isEditModeEnabled true m))
      else Some m
  | KProgress p =>
      if negb (isInEditMode m) then
        let m := set_isEditModeEnabled true m in
        let m := storeItem m pos
                   (mkItem (hidden item) (KProgress (ItemProgress.saveProgress p))) in
        Some (drawCursor m)
      else Some m
  | KList l =>
      if negb (isInEditMode m) then
        let m := set_isEditModeEnabled true m in
        let m := storeItem m pos
                   (mkItem (hidden item) (KList (ItemList.saveProgress l))) in
        Some (drawCursor m)
      else Some m
  | _ => Some m
  end.

(** The tail of [back()]: leave a sub-menu for its parent. *)
Definition back_leave (m : LcdMenu) : option LcdMenu :=
  sub ← isSubMenu m;
  if (sub : bool) then hdr ← itemAt m 0; leaveSubMenu m hdr else Some m.

Definition back (editCancelled : bool) (m : LcdMenu) : option LcdMenu :=
  item ← itemAt m (cursorPosition m);
  if isInEditMode m then
    match kind item with
    | KInput callback =>
        let m := set_isEditModeEnabled false m in
        let m := update m in
        Some (if callback then emit [EvText] m else m)
    | KList l =>
        let m := set_isEditModeEnabled false m in
        let l := if editCancelled then ItemList.restoreProgress l else l in
        let m := storeItem m (cursorPosition m) (mkItem (hidden item) (KList l)) in
        let m := if ItemList.callback l
                 then emit [EvCommit (ItemList.getItemIndex l)] m else m in
        Some (update m)
    | KProgress p =>
        let m := set_isEditModeEnabled false m in
        let p := if editCancelled then ItemProgress.restoreProgress p else p in
        let m := storeItem m (cursorPosition m) (mkItem (hidden item) (KProgress p)) in
        let m := if ItemProgress.callback p
                 then emit [EvCommit (ItemProgress.getItemIndex p)] m else m in
        Some (update m)
    | _ => back_leave m
    end
  else back_leave m.

(** *** left() and right() *)

Section Gestures.

(** The two macros that [ItemProgress.h] takes from another header. *)
Variables MIN_PROGRESS MAX_PROGRESS : Z.

Definition left (m : LcdMenu) : option LcdMenu :=
  if isInEditMode m && isCharPickerActive m then Some m
  else
    item ← itemAt m (cursorPosition m);
    match kind item with
    | KList l =>
        (* uint8_t previousIndex = item->getItemIndex(); *)
        let previousIndex := wrap8 (ItemList.getItemIndex l) in
        let '(l, evs) := ItemList.setItemIndex l (ItemList.getItemIndex l - 1) in
        let m := storeItem m (cursorPosition m) (mkItem (hidden item) (KList l)) in
        let m := emit evs m in
        if negb (previousIndex =? ItemList.getItemIndex l)
        then Some (update m) else Some m
    | KInput _ => Some (emit [EvBlinker] m)
    | KProgress p =>
        if isInEditMode m then
          let p := ItemProgress.decrement MIN_PROGRESS p in
          Some (update (storeItem m (cursorPosition m)
                          (mkItem (hidden item) (KProgress p))))
        else Some m
    | _ => Some m
    end.

(** In [right()] the new index is [(getItemIndex() + 1) % getItemCount()];
    a list without items makes this a division by zero. *)
Definition right (m : LcdMenu) : option LcdMenu :=
  if isInEditMode m && isCharPickerActive m then Some m
  else
    item ← itemAt m (cursorPosition m);
    match kind item with
    | KList l =>
        if ItemList.getItemCount l =? 0 then None
        else
          let '(l, evs) :=
            ItemList.setItemIndex l
              (Z.rem (ItemList.getItemIndex l + 1) (ItemList.getItemCount l)) in
          let m := storeItem m (cursorPosition m) (mkItem (hidden item) (KList l)) in
          let m := emit evs m in
          Some (update m)
    | KInput _ => Some (emit [EvBlinker] m)
    | KProgress p =>
        if isInEditMode m then
          let p := ItemProgress.increment MAX_PROGRESS p in
          Some (update (storeItem m (cursorPosition m)
                          (mkItem (hidden item) (KProgress p))))
        else Some m
    | _ => Some m
    end.

End Gestures.

(** *** Construction *)

(** The constructor [LcdMenu(maxRows, maxCols)] with the field
    initialisers, over a given store of tables. *)
Definition LcdMenu_new (rows : Z) (tables : list Table) : LcdMenu :=
  mkMenu 1 1 false false rows rows 0%nat 0 true tables [].

(** [setupLcdWithMenu(..., menu)]. *)
Definition setupLcdWithMenu (menu : TableId) (m : LcdMenu) : option LcdMenu :=
  tbl ← menus m !! menu;
  size ← getMenuSize tbl;
  Some (update (set_currentMenu menu size m)).

(** *** Sequences of inputs *)

Inductive Input : Type :=
| InUp
| InDown
| InEnter
| InBack (editCancelled : bool).

Definition step (i : Input) (m : LcdMenu) : option LcdMenu :=
  match i with
  | InUp => snd <$> up m
  | InDown => snd <$> down m
  | InEnter => enter m
  | InBack c => back c m
  end.

Fixpoint run (inputs : list Input) (m : LcdMenu) : option LcdMenu :=
  match inputs with
  | [] => Some m
  | i :: rest => m' ← step i m; run rest m'
  end.

(** ** Example tables *)

Definition rootHeader : MenuItem := mkItem false (KMainHeader (mkMemento 0 0 0)).
Definition endOfMenu : MenuItem := mkItem false KEnd.
Definition command (h : bool) : MenuItem := mkItem h (KCommand false).

(** Five commands, all visible. *)
Definition fiveVisible : Table :=
  [rootHeader; command false; command false; command false; command false;
   command false; endOfMenu].

(** Five commands, the third one hidden. *)
Definition thirdHidden : Table :=
  [rootHeader; command false; command false; command true; command false;
   command false; endOfMenu].

Definition started (rows : Z) (tbl : Table) : LcdMenu :=
  mkMenu 1 1 false false rows rows 0%nat (Z.of_nat (length tbl)) true [tbl]
    [EvUpdate].

(** * Properties *)

(** ** Basic facts about the store *)

Lemma tableAt_Some (tbl : Table) (i : Z) (it : MenuItem) :
  tableAt tbl i = Some it ↔ 0 <= i ∧ tbl !! Z.to_nat i = Some it.
Proof.
  unfold tableAt. destruct (Z.ltb_spec i 0); split.
  - discriminate.
  - intros [? _]. lia.
  - auto.
  - intros [_ ?]. assumption.
Qed.

Lemma tableAt_lt (tbl : Table) (i : Z) (it : MenuItem) :
  tableAt tbl i = Some it → 0 <= i < Z.of_nat (length tbl).
Proof.
  intros [H1 H2]%tableAt_Some. apply lookup_lt_Some in H2. lia.
Qed.

Lemma tableAt_insert_eq (tbl : Table) (i : Z) (it0 it : MenuItem) :
  tableAt tbl i = Some it0 → tableAt (<[Z.to_nat i := it]> tbl) i = Some it.
Proof.
  intros [H1 H2]%tableAt_Some. apply tableAt_Some. split; [assumption|].
  apply list_lookup_insert_eq. eapply lookup_lt_Some, H2.
Qed.

Lemma tableAt_insert_ne (tbl : Table) (i j : Z) (it : MenuItem) :
  0 <= i → i ≠ j → tableAt (<[Z.to_nat i := it]> tbl) j = tableAt tbl j.
Proof.
  intros Hi Hne. unfold tableAt. destruct (Z.ltb_spec j 0); [reflexivity|].
  apply list_lookup_insert_ne. lia.
Qed.

Section StoreItem.

Variables (m : LcdMenu) (i : Z) (it : MenuItem).

Lemma storeItem_cursorPosition :
  cursorPosition (storeItem m i it) = cursorPosition m.
Proof. unfold storeItem. destruct (currentTable m); reflexivity. Qed.

Lemma storeItem_top : top (storeItem m i it) = top m.
Proof. unfold storeItem. destruct (currentTable m); reflexivity. Qed.

Lemma storeItem_bottom : bottom (storeItem m i it) = bottom m.
Proof. unfold storeItem. destruct (currentTable m); reflexivity. Qed.

Lemma storeItem_maxRows : maxRows (storeItem m i it) = maxRows m.
Proof. unfold storeItem. destruct (currentTable m); reflexivity. Qed.

Lemma storeItem_isEditModeEnabled :
  isEditModeEnabled (storeItem m i it) = isEditModeEnabled m.
Proof. unfold storeItem. destruct (currentTable m); reflexivity. Qed.

Lemma storeItem_isCharPickerActive :
  isCharPickerActive (storeItem m i it) = isCharPickerActive m.
Proof. unfold storeItem. destruct (currentTable m); reflexivity. Qed.

Lemma storeItem_currentMenuTable :
  currentMenuTable (storeItem m i it) = currentMenuTable m.
Proof. unfold storeItem. destruct (currentTable m); reflexivity. Qed.

Lemma storeItem_currentMenuSize :
  currentMenuSize (storeItem m i it) = currentMenuSize m.
Proof. unfold storeItem. destruct (currentTable m); reflexivity. Qed.

Lemma storeItem_enableUpdate :
  enableUpdate (storeItem m i it) = enableUpdate m.
Proof. unfold storeItem. destruct (currentTable m); reflexivity. Qed.

Lemma storeItem_events : events (storeItem m i it) = events m.
Proof. unfold storeItem. destruct (currentTable m); reflexivity. Qed.

Lemma storeItem_currentTable (tbl : Table) :
  currentTable m = Some tbl →
  currentTable (storeItem m i it) = Some (<[Z.to_nat i := it]> tbl).
Proof.
  unfold storeItem. intros H. rewrite H. unfold currentTable in *. simpl.
  apply list_lookup_insert_eq. eapply lookup_lt_Some, H.
Qed.

Lemma itemAt_storeItem_eq (it0 : MenuItem) :
  itemAt m i = Some it0 → itemAt (storeItem m i it) i = Some it.
Proof.
  unfold itemAt. destruct (currentTable m) as [tbl|] eqn:Htbl; [|discriminate].
  simpl. intros H. rewrite (storeItem_currentTable tbl Htbl). simpl.
  eapply tableAt_insert_eq, H.
Qed.

End StoreItem.

Create Rewrite HintDb store.
#[local] Hint Rewrite storeItem_cursorPosition storeItem_top storeItem_bottom
  storeItem_maxRows storeItem_isEditModeEnabled storeItem_isCharPickerActive
  storeItem_currentMenuTable storeItem_currentMenuSize storeItem_enableUpdate
  storeItem_events : store.

(** ** The cursor accessors *)

(** C10. [setCursorPosition(p)] stores [p] as it is, for every [p] a
    [uint8_t] can hold: [getCursorPosition()] then returns [p], and the
    window, the edit-mode flags, the active table, the tables themselves and
    the event log are the ones from before the call. *)
Theorem setCursorPosition_verbatim (p : Z) (m : LcdMenu) :
  0 <= p <= 255 →
  getCursorPosition (setCursorPosition p m) = p
  ∧ top (setCursorPosition p m) = top m
  ∧ bottom (setCursorPosition p m) = bottom m
  ∧ maxRows (setCursorPosition p m) = maxRows m
  ∧ isEditModeEnabled (setCursorPosition p m) = isEditModeEnabled m
  ∧ isCharPickerActive (setCursorPosition p m) = isCharPickerActive m
  ∧ currentMenuTable (setCursorPosition p m) = currentMenuTable m
  ∧ currentMenuSize (setCursorPosition p m) = currentMenuSize m
  ∧ enableUpdate (setCursorPosition p m) = enableUpdate m
  ∧ menus (setCursorPosition p m) = menus m
  ∧ events (setCursorPosition p m) = events m.
Proof. intros _. repeat split. Qed.

(** The position is not validated: it may name a hidden node, the header,
    the end marker, or nothing at all. *)
Lemma setCursorPosition_verbatim_witness :
  (0 <= 3 <= 255
   ∧ isHidden <$> itemAt (setCursorPosition 3 (started 2 thirdHidden)) 3 = Some true
   ∧ getType <$> itemAt (setCursorPosition 0 (started 2 thirdHidden)) 0
     = Some MENU_ITEM_MAIN_MENU_HEADER
   ∧ getType <$> itemAt (setCursorPosition 6 (started 2 thirdHidden)) 6
     = Some MENU_ITEM_END_OF_MENU
   ∧ itemAt (setCursorPosition 200 (started 2 thirdHidden)) 200 = None)
  ∧ getCursorPosition (setCursorPosition 3 (started 2 thirdHidden)) = 3.
Proof.
  split.
  - repeat split; try reflexivity; lia.
  - apply (setCursorPosition_verbatim 3 (started 2 thirdHidden)). lia.
Defined.

(** ** The five-entry scenario *)

(** A node that may stand between the header and the end marker. *)
Definition isEntry (it : MenuItem) : bool :=
  match kind it with
  | KMainHeader _ | KSubHeader _ _ | KEnd => false
  | _ => true
  end.

Lemma isEntry_not_end (it : MenuItem) :
  isEntry it = true → ItemType_eqb (getType it) MENU_ITEM_END_OF_MENU = false.
Proof. unfold isEntry, getType. destruct (kind it); easy. Qed.




(** ** Progress items: the bounds *)

Module ProgressBounds.
Import ItemProgress.

Inductive Op : Type := Increment | Decrement.

Definition apply (MIN_PROGRESS MAX_PROGRESS : Z) (p : t) (op : Op) : t :=
  match op with
  | Increment => increment MAX_PROGRESS p
  | Decrement => decrement MIN_PROGRESS p
  end.

Definition applyAll (MIN_PROGRESS MAX_PROGRESS : Z) (ops : list Op) (p : t) : t :=
  fold_left (apply MIN_PROGRESS MAX_PROGRESS) ops p.

Definition inBounds (MIN_PROGRESS MAX_PROGRESS : Z) (p : t) : Prop :=
  MIN_PROGRESS <= progress p <= MAX_PROGRESS.

Section Aligned.

Variables MIN_PROGRESS MAX_PROGRESS : Z.
Hypothesis Hmin : 0 <= MIN_PROGRESS.
Hypothesis Hmax : MAX_PROGRESS <= 65535.

(** The value sits on the grid of the step length, and so does the upper
    bound. *)
Definition aligned (p : t) : Prop :=
  0 < stepLength p
  ∧ (stepLength p | progress p - MIN_PROGRESS)
  ∧ (stepLength p | MAX_PROGRESS - MIN_PROGRESS).

Lemma apply_aligned (p : t) (op : Op) :
  inBounds MIN_PROGRESS MAX_PROGRESS p → aligned p →
  inBounds MIN_PROGRESS MAX_PROGRESS (apply MIN_PROGRESS MAX_PROGRESS p op)
  ∧ aligned (apply MIN_PROGRESS MAX_PROGRESS p op).
Proof.
  unfold inBounds, aligned. intros Hb (Hs & Hp & Hm).
  assert (Hup : (stepLength p | MAX_PROGRESS - progress p)).
  { replace (MAX_PROGRESS - progress p)
      with ((MAX_PROGRESS - MIN_PROGRESS) - (progress p - MIN_PROGRESS)) by lia.
    apply Z.divide_sub_r; assumption. }
  destruct op; simpl.
  - unfold increment. destruct (Z.geb_spec (progress p) MAX_PROGRESS).
    + auto.
    + assert (stepLength p <= MAX_PROGRESS - progress p)
        by (apply Z.divide_pos_le; [lia | assumption]).
      simpl. unfold wrap16. rewrite Z.mod_small by lia.
      repeat split; try lia; try assumption.
      replace (progress p + stepLength p - MIN_PROGRESS)
        with ((progress p - MIN_PROGRESS) + stepLength p) by lia.
      apply Z.divide_add_r; [assumption | apply Z.divide_refl].
  - unfold decrement. destruct (Z.leb_spec (progress p) MIN_PROGRESS).
    + auto.
    + assert (stepLength p <= progress p - MIN_PROGRESS)
        by (apply Z.divide_pos_le; [lia | assumption]).
      simpl. unfold wrap16. rewrite Z.mod_small by lia.
      repeat split; try lia; try assumption.
      replace (progress p - stepLength p - MIN_PROGRESS)
        with ((progress p - MIN_PROGRESS) - stepLength p) by lia.
      apply Z.divide_sub_r; [assumption | apply Z.divide_refl].
Qed.

(** On the grid of the step length the two operations saturate: no
    sequence of them leaves the bounds. *)
Lemma applyAll_aligned (ops : list Op) (p : t) :
  inBounds MIN_PROGRESS MAX_PROGRESS p → aligned p →
  inBounds MIN_PROGRESS MAX_PROGRESS (applyAll MIN_PROGRESS MAX_PROGRESS ops p).
Proof.
  revert p. induction ops as [|op ops IH]; intros p Hb Ha; [exact Hb|].
  destruct (apply_aligned p op Hb Ha) as [Hb' Ha'].
  exact (IH _ Hb' Ha').
Qed.

(** With the default step length 1 every value is on the grid. *)
Corollary applyAll_step_one (ops : list Op) (p : t) :
  stepLength p = 1 → inBounds MIN_PROGRESS MAX_PROGRESS p →
  inBounds MIN_PROGRESS MAX_PROGRESS (applyAll MIN_PROGRESS MAX_PROGRESS ops p).
Proof.
  intros Hs Hb. apply applyAll_aligned; [assumption|].
  unfold aligned. rewrite Hs. repeat split; try lia; apply Z.divide_1_l.
Qed.

End Aligned.

End ProgressBounds.

(** C4. The guards of [increment()] and [decrement()] compare the value
    before the step is added or subtracted, so a step length that does not
    divide the distance to the bound carries the value across it: whatever
    the two bounds are, a progress node that holds [MAX_PROGRESS - 1] with
    step length 2 is within the bounds, and one [increment()] leaves it at
    [MAX_PROGRESS + 1]. *)
Theorem increment_exceeds_max (MIN_PROGRESS MAX_PROGRESS : Z) (cb : bool) :
  0 <= MIN_PROGRESS < MAX_PROGRESS → MAX_PROGRESS < 65535 →
  let p := ItemProgress.mk cb (MAX_PROGRESS - 1) (MAX_PROGRESS - 1) 2 in
  ProgressBounds.inBounds MIN_PROGRESS MAX_PROGRESS p
  ∧ ItemProgress.progress
      (ProgressBounds.applyAll MIN_PROGRESS MAX_PROGRESS
         [ProgressBounds.Increment] p) = MAX_PROGRESS + 1
  ∧ ¬ ProgressBounds.inBounds MIN_PROGRESS MAX_PROGRESS
        (ProgressBounds.applyAll MIN_PROGRESS MAX_PROGRESS
           [ProgressBounds.Increment] p).
Proof.
  intros Hb Hm p. unfold ProgressBounds.inBounds. simpl.
  unfold ItemProgress.increment. simpl.
  destruct (Z.geb_spec (MAX_PROGRESS - 1) MAX_PROGRESS); [lia|]. simpl.
  unfold wrap16. rewrite Z.mod_small by lia. lia.
Qed.

Lemma increment_exceeds_max_witness :
  (0 <= 0 < 1000 ∧ 1000 < 65535)
  ∧ ItemProgress.progress
      (ItemProgress.increment 1000 (ItemProgress.mk false 999 999 2)) = 1001.
Proof.
  split; [lia|].
  apply (increment_exceeds_max 0 1000 false); lia.
Defined.

(** With the bounds 0 and 1000 and the step length 3, a node built at 0
    passes the upper bound on the way up: 334 calls of [increment()] leave it
    at 1002. *)
Example increments_pass_max :
  ItemProgress.progress
    (ProgressBounds.applyAll 0 1000 (repeat ProgressBounds.Increment 334)
       (ItemProgress.mk false 0 0 3)) = 1002.
Proof. vm_compute. reflexivity. Qed.

(** Downwards the value wraps around: from 1, a step of 3 below the lower
    bound 0 ends at 65534. *)
Example decrement_wraps_around :
  ItemProgress.progress
    (ItemProgress.decrement 0 (ItemProgress.mk false 1 1 3)) = 65534.
Proof. reflexivity. Qed.

(** ** List items: the cycle gestures *)

(** [update()] and [emit] touch nothing but the event log. *)
Lemma itemAt_emit (evs : list Event) (m : LcdMenu) (i : Z) :
  itemAt (emit evs m) i = itemAt m i.
Proof. reflexivity. Qed.

Lemma itemAt_update (m : LcdMenu) (i : Z) : itemAt (update m) i = itemAt m i.
Proof. unfold update. destruct (enableUpdate m); reflexivity. Qed.

Lemma events_update (m : LcdMenu) :
  events (update m) = events m ++ (if enableUpdate m then [EvUpdate] else []).
Proof.
  unfold update. destruct (enableUpdate m); simpl; [reflexivity|].
  symmetry. apply app_nil_r.
Qed.

(** The part of the controller that the gestures on an item leave alone. *)
Definition sameNavigation (m m' : LcdMenu) : Prop :=
  cursorPosition m' = cursorPosition m
  ∧ top m' = top m
  ∧ bottom m' = bottom m
  ∧ maxRows m' = maxRows m
  ∧ isEditModeEnabled m' = isEditModeEnabled m
  ∧ isCharPickerActive m' = isCharPickerActive m
  ∧ currentMenuTable m' = currentMenuTable m
  ∧ currentMenuSize m' = currentMenuSize m
  ∧ enableUpdate m' = enableUpdate m.

Lemma sameNavigation_refl (m : LcdMenu) : sameNavigation m m.
Proof. repeat split. Qed.

Lemma sameNavigation_trans (m1 m2 m3 : LcdMenu) :
  sameNavigation m1 m2 → sameNavigation m2 m3 → sameNavigation m1 m3.
Proof. unfold sameNavigation. intuition congruence. Qed.

Lemma sameNavigation_emit (evs : list Event) (m : LcdMenu) :
  sameNavigation m (emit evs m).
Proof. repeat split. Qed.

Lemma sameNavigation_update (m : LcdMenu) : sameNavigation m (update m).
Proof. unfold update. destruct (enableUpdate m); repeat split. Qed.

Lemma sameNavigation_storeItem (m : LcdMenu) (i : Z) (it : MenuItem) :
  sameNavigation m (storeItem m i it).
Proof. unfold sameNavigation. autorewrite with store. repeat split. Qed.

Definition withIndex (l : ItemList.t) (i : Z) : ItemList.t :=
  ItemList.mk (ItemList.callback l) (ItemList.changeCallback l)
    (ItemList.itemCount l) i (ItemList.initialItemIndex l).

(** The two integer facts behind the gestures on a list of [n] items at
    index [i]: what [setItemIndex] stores for [right()] and for [left()]. *)
Lemma setItemIndex_right (l : ItemList.t) :
  1 <= ItemList.itemCount l <= 255 →
  0 <= ItemList.itemIndex l < ItemList.itemCount l →
  ItemList.setItemIndex l
    (Z.rem (ItemList.getItemIndex l + 1) (ItemList.getItemCount l))
  = let i' := (ItemList.itemIndex l + 1) mod ItemList.itemCount l in
    (withIndex l i',
     if ItemList.changeCallback l then [EvValueChanged i'] else []).
Proof.
  intros Hn Hi. unfold ItemList.setItemIndex, ItemList.getItemIndex,
    ItemList.getItemCount.
  rewrite Z.rem_mod_nonneg by lia.
  pose proof (Z.mod_pos_bound (ItemList.itemIndex l + 1) (ItemList.itemCount l)
                ltac:(lia)) as Hb.
  assert (Hw : wrap16 ((ItemList.itemIndex l + 1) mod ItemList.itemCount l)
               = (ItemList.itemIndex l + 1) mod ItemList.itemCount l)
    by (apply Z.mod_small; lia).
  rewrite Hw. unfold constrain.
  destruct (Z.ltb_spec ((ItemList.itemIndex l + 1) mod ItemList.itemCount l) 0);
    [lia|].
  destruct (Z.gtb_spec ((ItemList.itemIndex l + 1) mod ItemList.itemCount l)
              (ItemList.itemCount l - 1)); [lia|].
  rewrite Hw. reflexivity.
Qed.

Lemma setItemIndex_left (l : ItemList.t) :
  1 <= ItemList.itemCount l <= 255 →
  0 <= ItemList.itemIndex l < ItemList.itemCount l →
  ItemList.setItemIndex l (ItemList.getItemIndex l - 1)
  = let i' := (ItemList.itemIndex l - 1) mod ItemList.itemCount l in
    (withIndex l i',
     if ItemList.changeCallback l then [EvValueChanged i'] else []).
Proof.
  intros Hn Hi. unfold ItemList.setItemIndex, ItemList.getItemIndex.
  assert (Hs : wrap16 (constrain (wrap16 (ItemList.itemIndex l - 1)) 0
                         (ItemList.itemCount l - 1))
               = (ItemList.itemIndex l - 1) mod ItemList.itemCount l).
  { destruct (Z.eq_dec (ItemList.itemIndex l) 0) as [H0|H0].
    - rewrite H0. change (wrap16 (0 - 1)) with 65535. unfold constrain.
      change (65535 <? 0) with false. cbv iota.
      destruct (Z.gtb_spec 65535 (ItemList.itemCount l - 1)); [|lia].
      unfold wrap16. rewrite Z.mod_small by lia.
      replace (0 - 1) with (-1 * ItemList.itemCount l + (ItemList.itemCount l - 1))
        by lia.
      rewrite Z.add_comm, Z.mod_add by lia. rewrite Z.mod_small by lia.
      reflexivity.
    - unfold wrap16, constrain. rewrite (Z.mod_small (_ - 1) 65536) by lia.
      destruct (Z.ltb_spec (ItemList.itemIndex l - 1) 0); [lia|].
      destruct (Z.gtb_spec (ItemList.itemIndex l - 1) (ItemList.itemCount l - 1));
        [lia|].
      rewrite Z.mod_small by lia. rewrite Z.mod_small by lia. reflexivity. }
  rewrite Hs. reflexivity.
Qed.

Lemma withIndex_same (l : ItemList.t) : withIndex l (ItemList.itemIndex l) = l.
Proof. destruct l; reflexivity. Qed.

Lemma withIndex_withIndex (l : ItemList.t) (i j : Z) :
  withIndex (withIndex l i) j = withIndex l j.
Proof. reflexivity. Qed.

(** The node under the cursor is the list [l]. *)
Definition listAtCursor (m : LcdMenu) (h : bool) (l : ItemList.t) : Prop :=
  itemAt m (cursorPosition m) = Some (mkItem h (KList l)).

(** [left()] and [right()] are not cut short by the character picker. *)
Definition gesturesOn (m : LcdMenu) : Prop :=
  isInEditMode m && isCharPickerActive m = false.

(** A list with at least one item, and its index within the items. *)
Definition listInRange (l : ItemList.t) : Prop :=
  1 <= ItemList.itemCount l <= 255
  ∧ 0 <= ItemList.itemIndex l < ItemList.itemCount l.

Lemma listInRange_withIndex (l : ItemList.t) (i : Z) :
  listInRange l → listInRange (withIndex l (i mod ItemList.itemCount l)).
Proof.
  unfold listInRange. simpl. intros [Hn _]. split; [assumption|].
  apply Z.mod_pos_bound. lia.
Qed.

Fixpoint repeatM (k : nat) (f : LcdMenu → option LcdMenu) (m : LcdMenu)
  : option LcdMenu :=
  match k with
  | O => Some m
  | S k' => m' ← f m; repeatM k' f m'
  end.

Section ListGestures.

Variables MIN_PROGRESS MAX_PROGRESS : Z.

Lemma right_list (m : LcdMenu) (h : bool) (l : ItemList.t) :
  listAtCursor m h l → gesturesOn m → listInRange l →
  let i' := (ItemList.itemIndex l + 1) mod ItemList.itemCount l in
  ∃ m', right MAX_PROGRESS m = Some m'
        ∧ sameNavigation m m'
        ∧ listAtCursor m' h (withIndex l i')
        ∧ events m' = events m
            ++ (if ItemList.changeCallback l then [EvValueChanged i'] else [])
            ++ (if enableUpdate m then [EvUpdate] else []).
Proof.
  intros Hit Hg Hr i'. unfold listAtCursor, gesturesOn, listInRange in *.
  destruct Hr as [Hn Hi].
  unfold right. rewrite Hg, Hit. cbn [mbind option_bind kind hidden].
  unfold ItemList.getItemCount at 1.
  destruct (Z.eqb_spec (ItemList.itemCount l) 0); [lia|].
  rewrite setItemIndex_right by assumption. cbv beta iota zeta. fold i'.
  set (m1 := emit (if ItemList.changeCallback l then [EvValueChanged i'] else [])
               (storeItem m (cursorPosition m) (mkItem h (KList (withIndex l i'))))).
  assert (Hnav : sameNavigation m m1).
  { eapply sameNavigation_trans; [|apply sameNavigation_emit].
    apply sameNavigation_storeItem. }
  assert (Hat : itemAt m1 (cursorPosition m)
                = Some (mkItem h (KList (withIndex l i')))).
  { unfold m1. rewrite itemAt_emit. eapply itemAt_storeItem_eq, Hit. }
  assert (Hev : events m1 = events m
            ++ (if ItemList.changeCallback l then [EvValueChanged i'] else [])).
  { unfold m1. simpl. rewrite storeItem_events. reflexivity. }
  assert (Hen : enableUpdate m1 = enableUpdate m) by apply Hnav.
  exists (update m1). split; [reflexivity|]. split; [|split].
  - eapply sameNavigation_trans; [eassumption|apply sameNavigation_update].
  - destruct (sameNavigation_update m1) as [-> _].
    rewrite itemAt_update. destruct Hnav as [-> _]. assumption.
  - rewrite events_update, Hev, Hen, app_assoc. reflexivity.
Qed.

Lemma left_list (m : LcdMenu) (h : bool) (l : ItemList.t) :
  listAtCursor m h l → gesturesOn m → listInRange l →
  let i' := (ItemList.itemIndex l - 1) mod ItemList.itemCount l in
  ∃ m', left MIN_PROGRESS m = Some m'
        ∧ sameNavigation m m'
        ∧ listAtCursor m' h (withIndex l i')
        ∧ events m' = events m
            ++ (if ItemList.changeCallback l then [EvValueChanged i'] else [])
            ++ (if negb (i' =? ItemList.itemIndex l) && enableUpdate m
                then [EvUpdate] else []).
Proof.
  intros Hit Hg Hr i'. unfold listAtCursor, gesturesOn, listInRange in *.
  destruct Hr as [Hn Hi].
  unfold left. rewrite Hg, Hit. cbn [mbind option_bind kind hidden].
  rewrite setItemIndex_left by assumption. cbv beta iota zeta. fold i'.
  unfold ItemList.getItemIndex.
  change (ItemList.itemIndex (withIndex l i')) with i'.
  assert (Hp : wrap8 (ItemList.itemIndex l) = ItemList.itemIndex l)
    by (apply Z.mod_small; lia).
  rewrite Hp, (Z.eqb_sym (ItemList.itemIndex l) i').
  set (m1 := emit (if ItemList.changeCallback l then [EvValueChanged i'] else [])
               (storeItem m (cursorPosition m) (mkItem h (KList (withIndex l i'))))).
  assert (Hnav : sameNavigation m m1).
  { eapply sameNavigation_trans; [|apply sameNavigation_emit].
    apply sameNavigation_storeItem. }
  assert (Hat : itemAt m1 (cursorPosition m)
                = Some (mkItem h (KList (withIndex l i')))).
  { unfold m1. rewrite itemAt_emit. eapply itemAt_storeItem_eq, Hit. }
  assert (Hev : events m1 = events m
            ++ (if ItemList.changeCallback l then [EvValueChanged i'] else [])).
  { unfold m1. simpl. rewrite storeItem_events. reflexivity. }
  assert (Hen : enableUpdate m1 = enableUpdate m) by apply Hnav.
  destruct (i' =? ItemList.itemIndex l); simpl.
  - exists m1. split; [reflexivity|]. split; [assumption|]. split.
    + unfold listAtCursor. destruct Hnav as [-> _]. assumption.
    + rewrite Hev, app_nil_r. reflexivity.
  - exists (update m1). split; [reflexivity|]. split; [|split].
    + eapply sameNavigation_trans; [eassumption|apply sameNavigation_update].
    + unfold listAtCursor. destruct (sameNavigation_update m1) as [-> _].
      rewrite itemAt_update. destruct Hnav as [-> _]. assumption.
    + rewrite events_update, Hev, Hen, app_assoc. reflexivity.
Qed.

Lemma right_repeat (k : nat) (m : LcdMenu) (h : bool) (l : ItemList.t) :
  listAtCursor m h l → gesturesOn m → listInRange l →
  ∃ m', repeatM k (right MAX_PROGRESS) m = Some m'
        ∧ sameNavigation m m'
        ∧ listAtCursor m' h
            (withIndex l ((ItemList.itemIndex l + Z.of_nat k)
                            mod ItemList.itemCount l)).
Proof.
  revert m l. induction k as [|k IH]; intros m l Hat Hg Hr.
  - exists m. split; [reflexivity|]. split; [apply sameNavigation_refl|].
    rewrite Z.add_0_r, Z.mod_small by apply Hr. rewrite withIndex_same.
    assumption.
  - destruct (right_list m h l Hat Hg Hr) as (m1 & Hrun & Hnav & Hat1 & _).
    assert (Hg1 : gesturesOn m1).
    { unfold gesturesOn, isInEditMode in *.
      destruct Hnav as (_ & _ & _ & _ & -> & -> & _). assumption. }
    destruct (IH m1 _ Hat1 Hg1 (listInRange_withIndex l _ Hr))
      as (m' & Hrun' & Hnav' & Hat').
    exists m'. cbn [repeatM]. rewrite Hrun. cbn [mbind option_bind].
    split; [assumption|]. split.
    + eapply sameNavigation_trans; eassumption.
    + cbn [withIndex ItemList.itemIndex ItemList.itemCount ItemList.callback
           ItemList.changeCallback ItemList.initialItemIndex] in Hat'.
      rewrite Zplus_mod_idemp_l in Hat'.
      replace (ItemList.itemIndex l + Z.of_nat (S k))
        with (ItemList.itemIndex l + 1 + Z.of_nat k) by lia.
      exact Hat'.
Qed.

End ListGestures.

(** A list of three items ("Red", "Green", "Blue") at index 0, and a list of
    one item with a change callback. *)
Definition colours : ItemList.t := ItemList.mk false false 3 0 0.
Definition single : ItemList.t := ItemList.mk false true 1 0 0.

Definition listMenu (l : ItemList.t) : LcdMenu :=
  started 2 [rootHeader; mkItem false (KList l); endOfMenu].

(** The wrap law in the navigation code.  For a list of [n] items under the
    cursor, at an index [i]
    with [0 <= i < n]: [n] calls of [right()] bring the list back to index
    [i]; [left()] after [right()], and [right()] after [left()], bring it
    back as well; and from index 0 one [left()] gives index [n - 1]. *)
Lemma wrap_law_nav (MIN_PROGRESS MAX_PROGRESS : Z)
    (m : LcdMenu) (h : bool) (l : ItemList.t) :
  listAtCursor m h l → gesturesOn m → listInRange l →
  (∃ m', repeatM (Z.to_nat (ItemList.itemCount l)) (right MAX_PROGRESS) m = Some m'
         ∧ listAtCursor m' h l)
  ∧ (∃ m1 m2, right MAX_PROGRESS m = Some m1 ∧ left MIN_PROGRESS m1 = Some m2
              ∧ listAtCursor m2 h l)
  ∧ (∃ m1 m2, left MIN_PROGRESS m = Some m1 ∧ right MAX_PROGRESS m1 = Some m2
              ∧ listAtCursor m2 h l)
  ∧ (ItemList.itemIndex l = 0 →
     ∃ m1, left MIN_PROGRESS m = Some m1
           ∧ listAtCursor m1 h (withIndex l (ItemList.itemCount l - 1))).
Proof.
  intros Hat Hg Hr.
  assert (Hkeep : ∀ m', sameNavigation m m' → gesturesOn m').
  { intros m' (_ & _ & _ & _ & He & Hc & _). unfold gesturesOn, isInEditMode in *.
    rewrite He, Hc. assumption. }
  assert (Hn : 0 < ItemList.itemCount l) by (destruct Hr; lia).
  assert (Hi : 0 <= ItemList.itemIndex l < ItemList.itemCount l) by apply Hr.
  destruct (right_list MAX_PROGRESS m h l Hat Hg Hr) as (r1 & Hr1 & Hnr & Hatr & _).
  destruct (left_list MIN_PROGRESS m h l Hat Hg Hr) as (l1 & Hl1 & Hnl & Hatl & _).
  split; [|split; [|split]].
  - destruct (right_repeat MAX_PROGRESS (Z.to_nat (ItemList.itemCount l)) m h l
                Hat Hg Hr) as (m' & Hrun & _ & Hat').
    exists m'. split; [assumption|].
    rewrite Z2Nat.id in Hat' by lia.
    replace (ItemList.itemIndex l + ItemList.itemCount l)
      with (ItemList.itemIndex l + 1 * ItemList.itemCount l) in Hat' by lia.
    rewrite Z_mod_plus_full, Z.mod_small, withIndex_same in Hat' by lia.
    assumption.
  - destruct (left_list MIN_PROGRESS r1 h _ Hatr (Hkeep _ Hnr)
                (listInRange_withIndex l _ Hr)) as (m2 & Hrun & _ & Hat2 & _).
    exists r1, m2. split; [assumption|]. split; [assumption|].
    cbn [withIndex ItemList.itemIndex ItemList.itemCount ItemList.callback
         ItemList.changeCallback ItemList.initialItemIndex] in Hat2.
    rewrite Zminus_mod_idemp_l in Hat2.
    replace (ItemList.itemIndex l + 1 - 1) with (ItemList.itemIndex l) in Hat2
      by lia.
    rewrite withIndex_withIndex, Z.mod_small, withIndex_same in Hat2
      by assumption.
    assumption.
  - destruct (right_list MAX_PROGRESS l1 h _ Hatl (Hkeep _ Hnl)
                (listInRange_withIndex l _ Hr)) as (m2 & Hrun & _ & Hat2 & _).
    exists l1, m2. split; [assumption|]. split; [assumption|].
    cbn [withIndex ItemList.itemIndex ItemList.itemCount ItemList.callback
         ItemList.changeCallback ItemList.initialItemIndex] in Hat2.
    rewrite Zplus_mod_idemp_l in Hat2.
    replace (ItemList.itemIndex l - 1 + 1) with (ItemList.itemIndex l) in Hat2
      by lia.
    rewrite withIndex_withIndex, Z.mod_small, withIndex_same in Hat2
      by assumption.
    assumption.
  - intros H0. exists l1. split; [assumption|].
    rewrite H0 in Hatl.
    replace ((0 - 1) mod ItemList.itemCount l) with (ItemList.itemCount l - 1)
      in Hatl; [assumption|].
    replace (0 - 1) with (-1 * ItemList.itemCount l + (ItemList.itemCount l - 1))
      by lia.
    rewrite Z.add_comm, Z.mod_add by lia. rewrite Z.mod_small by lia.
    reflexivity.
Qed.

(** ** List items: notification and redraw *)

(** The reading under which a gesture [f] that leaves the index of the list
    under the cursor where it was neither notifies nor redraws. *)
Definition quietWhenUnchanged (f : LcdMenu → option LcdMenu) (m : LcdMenu) : Prop :=
  ∀ m' h l l',
    f m = Some m' → listAtCursor m h l → listAtCursor m' h l' →
    ItemList.itemIndex l' = ItemList.itemIndex l →
    events m' = events m.

Example single_item_list_right :
  events <$> right 1000 (listMenu single)
  = Some (events (listMenu single) ++ [EvValueChanged 0; EvUpdate]).
Proof. reflexivity. Qed.

Example single_item_list_left :
  events <$> left 0 (listMenu single)
  = Some (events (listMenu single) ++ [EvValueChanged 0]).
Proof. reflexivity. Qed.

(** ** Edit mode: commit and cancel *)

Inductive Gesture : Type := GLeft | GRight.

Section EditSession.

Variables MIN_PROGRESS MAX_PROGRESS : Z.

Definition gesture (g : Gesture) (m : LcdMenu) : option LcdMenu :=
  match g with
  | GLeft => left MIN_PROGRESS m
  | GRight => right MAX_PROGRESS m
  end.

Fixpoint gestures (gs : list Gesture) (m : LcdMenu) : option LcdMenu :=
  match gs with
  | [] => Some m
  | g :: rest => m' ← gesture g m; gestures rest m'
  end.

(** The value of a list or progress node, as [getItemIndex()] returns it;
    the snapshot taken by [saveProgress()]; whether there is a callback to
    call when the edit ends; and the nodes whose value is well formed (a
    list holds at least one item and its index is one of them). *)
Definition valueOf (k : ItemKind) : option Z :=
  match k with
  | KList l => Some (ItemList.getItemIndex l)
  | KProgress p => Some (ItemProgress.getItemIndex p)
  | _ => None
  end.

Definition snapshotOf (k : ItemKind) : option Z :=
  match k with
  | KList l => Some (ItemList.initialItemIndex l)
  | KProgress p => Some (ItemProgress.initialProgress p)
  | _ => None
  end.

Definition commitCallbackOf (k : ItemKind) : bool :=
  match k with
  | KList l => ItemList.callback l
  | KProgress p => ItemProgress.callback p
  | _ => false
  end.

Definition editable (k : ItemKind) : Prop :=
  match k with
  | KList l => listInRange l
  | KProgress _ => True
  | _ => False
  end.

Definition valueAtCursor (m : LcdMenu) : option Z :=
  it ← itemAt m (cursorPosition m); valueOf (kind it).

(** What holds from [enter()] to [back()]: edit mode is on, the cursor and
    the active table are where they were, and the node under the cursor
    still carries the snapshot [v0] and the callback flag [cb]. *)
Definition editing (m0 : LcdMenu) (v0 : Z) (cb : bool) (m : LcdMenu) : Prop :=
  sameNavigation m0 m
  ∧ isEditModeEnabled m = true
  ∧ ∃ h k, itemAt m (cursorPosition m) = Some (mkItem h k)
           ∧ editable k ∧ snapshotOf k = Some v0 ∧ commitCallbackOf k = cb.

Lemma enter_editing (m : LcdMenu) (h : bool) (k : ItemKind) (v0 : Z) :
  itemAt m (cursorPosition m) = Some (mkItem h k) →
  editable k → valueOf k = Some v0 → isInEditMode m = false →
  ∃ m1, enter m = Some m1
        ∧ editing (set_isEditModeEnabled true m) v0 (commitCallbackOf k) m1
        ∧ valueAtCursor m1 = Some v0.
Proof.
  intros Hat Hed Hv Hne. unfold enter. rewrite Hat.
  cbn [mbind option_bind kind hidden]. rewrite Hne. cbn [negb].
  destruct k as [| | | | | |l|p|]; try contradiction.
  - set (it := mkItem h (KList (ItemList.saveProgress l))).
    set (me := set_isEditModeEnabled true m).
    assert (Hat' : itemAt (storeItem me (cursorPosition m) it) (cursorPosition m)
                   = Some it) by (eapply itemAt_storeItem_eq; exact Hat).
    eexists. split; [reflexivity|]. split.
    + split; [|split].
      * eapply sameNavigation_trans; [apply sameNavigation_storeItem|].
        apply sameNavigation_emit.
      * simpl. rewrite storeItem_isEditModeEnabled. reflexivity.
      * exists h, (KList (ItemList.saveProgress l)).
        unfold drawCursor. rewrite itemAt_emit. simpl.
        rewrite storeItem_cursorPosition. simpl.
        split; [exact Hat'|]. split; [exact Hed|].
        split; [exact Hv|reflexivity].
    + unfold valueAtCursor, drawCursor. rewrite itemAt_emit. simpl.
      rewrite storeItem_cursorPosition. simpl. rewrite Hat'. exact Hv.
  - set (it := mkItem h (KProgress (ItemProgress.saveProgress p))).
    set (me := set_isEditModeEnabled true m).
    assert (Hat' : itemAt (storeItem me (cursorPosition m) it) (cursorPosition m)
                   = Some it) by (eapply itemAt_storeItem_eq; exact Hat).
    eexists. split; [reflexivity|]. split.
    + split; [|split].
      * eapply sameNavigation_trans; [apply sameNavigation_storeItem|].
        apply sameNavigation_emit.
      * simpl. rewrite storeItem_isEditModeEnabled. reflexivity.
      * exists h, (KProgress (ItemProgress.saveProgress p)).
        unfold drawCursor. rewrite itemAt_emit. simpl.
        rewrite storeItem_cursorPosition. simpl.
        split; [exact Hat'|]. split; [exact I|].
        split; [exact Hv|reflexivity].
    + unfold valueAtCursor, drawCursor. rewrite itemAt_emit. simpl.
      rewrite storeItem_cursorPosition. simpl. rewrite Hat'. exact Hv.
Qed.

End EditSession.

Section EditLaws.

Variables MIN_PROGRESS MAX_PROGRESS : Z.

Lemma editable_value (k : ItemKind) : editable k → ∃ v, valueOf k = Some v.
Proof. destruct k; simpl; try contradiction; eauto. Qed.

Lemma gesture_editing (g : Gesture) (m0 : LcdMenu) (v0 : Z) (cb : bool)
    (m : LcdMenu) :
  editing m0 v0 cb m →
  ∃ m', gesture MIN_PROGRESS MAX_PROGRESS g m = Some m' ∧ editing m0 v0 cb m'.
Proof.
  intros (Hnav & He & h & k & Hat & Hed & Hsn & Hcb).
  destruct (isCharPickerActive m) eqn:Hcp.
  { exists m. split.
    - destruct g; simpl; unfold left, right, isInEditMode; rewrite He, Hcp;
        reflexivity.
    - split; [assumption|]. split; [assumption|]. eauto 10. }
  assert (Hg : gesturesOn m).
  { unfold gesturesOn, isInEditMode. rewrite He, Hcp. reflexivity. }
  destruct k as [| | | | | |l|p|]; try contradiction.
  - assert (Hstep : ∃ m' i', gesture MIN_PROGRESS MAX_PROGRESS g m = Some m'
                             ∧ sameNavigation m m'
                             ∧ listAtCursor m' h
                                 (withIndex l (i' mod ItemList.itemCount l))).
    { destruct g; simpl.
      - destruct (left_list MIN_PROGRESS m h l Hat Hg Hed) as (m' & ? & ? & ? & _).
        eauto 10.
      - destruct (right_list MAX_PROGRESS m h l Hat Hg Hed) as (m' & ? & ? & ? & _).
        eauto 10. }
    destruct Hstep as (m' & i' & Hrun & Hnav' & Hat').
    exists m'. split; [assumption|]. split; [|split].
    + eapply sameNavigation_trans; eassumption.
    + destruct Hnav' as (_ & _ & _ & _ & -> & _). assumption.
    + eexists h, _. split; [exact Hat'|]. split; [|split].
      * apply listInRange_withIndex, Hed.
      * exact Hsn.
      * exact Hcb.
  - assert (Hstep : ∃ p', gesture MIN_PROGRESS MAX_PROGRESS g m
                          = Some (update (storeItem m (cursorPosition m)
                                            (mkItem h (KProgress p'))))
                          ∧ ItemProgress.initialProgress p'
                            = ItemProgress.initialProgress p
                          ∧ ItemProgress.callback p' = ItemProgress.callback p).
    { destruct g; simpl; unfold left, right; rewrite Hg, Hat;
        cbn [mbind option_bind kind hidden]; unfold isInEditMode; rewrite He;
        eexists; (split; [reflexivity|]).
      - unfold ItemProgress.decrement.
        destruct (ItemProgress.progress p <=? MIN_PROGRESS); split; reflexivity.
      - unfold ItemProgress.increment.
        destruct (ItemProgress.progress p >=? MAX_PROGRESS); split; reflexivity. }
    destruct Hstep as (p' & Hrun & Hinit & Hcb').
    eexists. split; [exact Hrun|].
    assert (Hnav' : sameNavigation m
                      (update (storeItem m (cursorPosition m)
                                 (mkItem h (KProgress p'))))).
    { eapply sameNavigation_trans; [apply sameNavigation_storeItem|].
      apply sameNavigation_update. }
    split; [|split].
    + eapply sameNavigation_trans; eassumption.
    + destruct Hnav' as (_ & _ & _ & _ & -> & _). assumption.
    + exists h, (KProgress p'). destruct Hnav' as (-> & _).
      rewrite itemAt_update. split; [eapply itemAt_storeItem_eq, Hat|].
      split; [exact I|]. simpl in *. split; congruence.
Qed.

Lemma gestures_editing (gs : list Gesture) (m0 : LcdMenu) (v0 : Z) (cb : bool)
    (m : LcdMenu) :
  editing m0 v0 cb m →
  ∃ m', gestures MIN_PROGRESS MAX_PROGRESS gs m = Some m' ∧ editing m0 v0 cb m'.
Proof.
  revert m. induction gs as [|g gs IH]; intros m Hed.
  - exists m. split; [reflexivity | assumption].
  - destruct (gesture_editing g m0 v0 cb m Hed) as (m1 & Hrun & Hed1).
    destruct (IH m1 Hed1) as (m' & Hrun' & Hed').
    exists m'. split; [|assumption].
    cbn [gestures]. rewrite Hrun. exact Hrun'.
Qed.

Lemma back_editing (editCancelled : bool) (m0 : LcdMenu) (v0 : Z) (cb : bool)
    (m : LcdMenu) (v1 : Z) :
  editing m0 v0 cb m → valueAtCursor m = Some v1 →
  let v := if editCancelled then v0 else v1 in
  ∃ m3, back editCancelled m = Some m3
        ∧ isEditModeEnabled m3 = false
        ∧ valueAtCursor m3 = Some v
        ∧ events m3 = events m ++ (if cb then [EvCommit v] else [])
                        ++ (if enableUpdate m then [EvUpdate] else [])
        ∧ currentMenuTable m3 = currentMenuTable m0
        ∧ cursorPosition m3 = cursorPosition m0
        ∧ top m3 = top m0 ∧ bottom m3 = bottom m0.
Proof.
  intros (Hnav & He & h & k & Hat & Hed & Hsn & Hcb) Hv v.
  unfold valueAtCursor in Hv. rewrite Hat in Hv. simpl in Hv.
  unfold back. rewrite Hat. cbn [mbind option_bind kind hidden].
  unfold isInEditMode. rewrite He.
  destruct Hnav as (Hc & Ht & Hb & _ & _ & _ & Htab & _ & _).
  destruct k as [| | | | | |l|p|]; try contradiction.
  - set (l' := if editCancelled then ItemList.restoreProgress l else l).
    assert (Hl' : ItemList.getItemIndex l' = v ∧ ItemList.callback l' = cb).
    { unfold l', v. simpl in *. destruct editCancelled; simpl; split; congruence. }
    destruct Hl' as [Hidx Hcb'].
    set (me := set_isEditModeEnabled false m).
    set (ms := storeItem me (cursorPosition me) (mkItem h (KList l'))).
    assert (Hats : itemAt ms (cursorPosition m) = Some (mkItem h (KList l')))
      by (eapply itemAt_storeItem_eq; exact Hat).
    assert (Hnavs : sameNavigation me ms) by apply sameNavigation_storeItem.
    set (mc := if ItemList.callback l'
               then emit [EvCommit (ItemList.getItemIndex l')] ms else ms).
    assert (Hmc : sameNavigation ms mc ∧ itemAt mc (cursorPosition m) = itemAt ms (cursorPosition m)
                  ∧ events mc = events m ++ (if cb then [EvCommit v] else [])).
    { unfold mc. rewrite Hcb', Hidx. destruct cb.
      - split; [apply sameNavigation_emit|]. split; [reflexivity|].
        simpl. unfold ms. rewrite storeItem_events. reflexivity.
      - split; [apply sameNavigation_refl|]. split; [reflexivity|].
        unfold ms. rewrite storeItem_events, app_nil_r. reflexivity. }
    destruct Hmc as (Hnavc & Hatc & Hevc).
    pose proof (sameNavigation_trans _ _ _ Hnavs Hnavc) as Hn1.
    pose proof (sameNavigation_trans _ _ _ Hn1 (sameNavigation_update mc)) as Hn2.
    destruct Hn2 as (Hc2 & Ht2 & Hb2 & _ & He2 & _ & Htab2 & _ & Hen2).
    exists (update mc). split; [reflexivity|].
    split; [rewrite He2; reflexivity|]. split.
    { unfold valueAtCursor. rewrite Hc2. simpl.
      rewrite itemAt_update, Hatc, Hats. simpl. congruence. }
    split.
    { rewrite events_update, Hevc.
      destruct Hn1 as (_ & _ & _ & _ & _ & _ & _ & _ & ->). simpl.
      rewrite app_assoc. reflexivity. }
    simpl in *. repeat split; congruence.
  - set (p' := if editCancelled then ItemProgress.restoreProgress p else p).
    assert (Hp' : ItemProgress.getItemIndex p' = v ∧ ItemProgress.callback p' = cb).
    { unfold p', v. simpl in *. destruct editCancelled; simpl; split; congruence. }
    destruct Hp' as [Hidx Hcb'].
    set (me := set_isEditModeEnabled false m).
    set (ms := storeItem me (cursorPosition me) (mkItem h (KProgress p'))).
    assert (Hats : itemAt ms (cursorPosition m) = Some (mkItem h (KProgress p')))
      by (eapply itemAt_storeItem_eq; exact Hat).
    assert (Hnavs : sameNavigation me ms) by apply sameNavigation_storeItem.
    set (mc := if ItemProgress.callback p'
               then emit [EvCommit (ItemProgress.getItemIndex p')] ms else ms).
    assert (Hmc : sameNavigation ms mc ∧ itemAt mc (cursorPosition m) = itemAt ms (cursorPosition m)
                  ∧ events mc = events m ++ (if cb then [EvCommit v] else [])).
    { unfold mc. rewrite Hcb', Hidx. destruct cb.
      - split; [apply sameNavigation_emit|]. split; [reflexivity|].
        simpl. unfold ms. rewrite storeItem_events. reflexivity.
      - split; [apply sameNavigation_refl|]. split; [reflexivity|].
        unfold ms. rewrite storeItem_events, app_nil_r. reflexivity. }
    destruct Hmc as (Hnavc & Hatc & Hevc).
    pose proof (sameNavigation_trans _ _ _ Hnavs Hnavc) as Hn1.
    pose proof (sameNavigation_trans _ _ _ Hn1 (sameNavigation_update mc)) as Hn2.
    destruct Hn2 as (Hc2 & Ht2 & Hb2 & _ & He2 & _ & Htab2 & _ & Hen2).
    exists (update mc). split; [reflexivity|].
    split; [rewrite He2; reflexivity|]. split.
    { unfold valueAtCursor. rewrite Hc2. simpl.
      rewrite itemAt_update, Hatc, Hats. simpl. congruence. }
    split.
    { rewrite events_update, Hevc.
      destruct Hn1 as (_ & _ & _ & _ & _ & _ & _ & _ & ->). simpl.
      rewrite app_assoc. reflexivity. }
    simpl in *. repeat split; congruence.
Qed.

End EditLaws.

(** Cancel and restore in the navigation code.  The cursor is on a list or
    progress node that
    holds [v0], and edit mode is off.  Then [enter()] switches edit mode on;
    any sequence of [left()] and [right()] runs and leaves some value [v1];
    and [back(editCancelled)] switches edit mode off, leaves the node at
    [v0] when [editCancelled] is set and at [v1] when it is not, calls the
    node's callback (when it has one) with that value, and stays in the same
    table with the same cursor and window. *)
Lemma cancel_restore_nav (MIN_PROGRESS MAX_PROGRESS : Z) (m : LcdMenu)
    (h : bool) (k : ItemKind) (v0 : Z) (gs : list Gesture) :
  itemAt m (cursorPosition m) = Some (mkItem h k) →
  editable k → valueOf k = Some v0 → isInEditMode m = false →
  ∃ m1 m2 v1,
    enter m = Some m1 ∧ isInEditMode m1 = true
    ∧ gestures MIN_PROGRESS MAX_PROGRESS gs m1 = Some m2
    ∧ valueAtCursor m2 = Some v1
    ∧ ∀ editCancelled : bool,
        let v := if editCancelled then v0 else v1 in
        ∃ m3, back editCancelled m2 = Some m3
              ∧ isInEditMode m3 = false
              ∧ valueAtCursor m3 = Some v
              ∧ events m3 = events m2
                  ++ (if commitCallbackOf k then [EvCommit v] else [])
                  ++ (if enableUpdate m then [EvUpdate] else [])
              ∧ currentMenuTable m3 = currentMenuTable m
              ∧ cursorPosition m3 = cursorPosition m
              ∧ top m3 = top m ∧ bottom m3 = bottom m.
Proof.
  intros Hat Hed Hv Hne.
  destruct (enter_editing m h k v0 Hat Hed Hv Hne) as (m1 & Hrun1 & Hed1 & _).
  destruct (gestures_editing MIN_PROGRESS MAX_PROGRESS gs _ _ _ _ Hed1)
    as (m2 & Hrun2 & Hed2).
  assert (Hv1 : ∃ v1, valueAtCursor m2 = Some v1).
  { destruct Hed2 as (_ & _ & h2 & k2 & Hat2 & Hedit2 & _).
    destruct (editable_value k2 Hedit2) as [v1 Hv1].
    exists v1. unfold valueAtCursor. rewrite Hat2. exact Hv1. }
  destruct Hv1 as [v1 Hv1].
  exists m1, m2, v1. split; [assumption|].
  split; [apply Hed1|]. split; [assumption|]. split; [assumption|].
  intros editCancelled v.
  destruct (back_editing editCancelled _ _ _ _ v1 Hed2 Hv1)
    as (m3 & Hrun3 & He3 & Hv3 & Hev3 & Htab & Hc & Ht & Hb).
  exists m3. split; [assumption|]. split; [assumption|]. split; [assumption|].
  split; [|repeat split; assumption].
  rewrite Hev3. destruct Hed2 as ((_ & _ & _ & _ & _ & _ & _ & _ & ->) & _).
  reflexivity.
Qed.

(** A progress node with a callback at 5, step length 1: after [enter()] and
    two [right()] it holds 7; a cancelled [back] restores 5 and reports 5, a
    plain [back] keeps 7 and reports 7. *)
Definition progressMenu : LcdMenu :=
  started 2 [rootHeader; mkItem false (KProgress (ItemProgress.mk true 5 0 1));
             endOfMenu].

(** ** Sub-menus: the round trip *)

(** Reduce the field accesses on explicit controller records, and the binds
    on explicit options, without touching the tables. *)
Ltac nav :=
  cbn [cursorPosition top bottom maxRows isEditModeEnabled isCharPickerActive
       currentMenuTable currentMenuSize enableUpdate menus events
       set_cursorPosition set_top set_bottom set_isEditModeEnabled
       set_currentMenu set_menus emit isInEditMode mbind option_bind].

Definition isHeader (it : MenuItem) : bool :=
  match kind it with
  | KMainHeader _ | KSubHeader _ _ => true
  | _ => false
  end.

Definition isEnd (it : MenuItem) : bool :=
  ItemType_eqb (getType it) MENU_ITEM_END_OF_MENU.

(** The header after [setTop], [setBottom] and [setCursorPosition]. *)
Definition remember (hdr : MenuItem) (t b c : Z) : MenuItem :=
  setCursorPosition_item (setBottom (setTop hdr t) b) c.

Lemma remember_memento (hdr : MenuItem) (t b c : Z) :
  isHeader hdr = true → getMemento (remember hdr t b c) = mkMemento t b c.
Proof.
  unfold isHeader, remember, setCursorPosition_item, setBottom, setTop,
    withMemento, getMemento.
  destruct hdr as [h k]. destruct k; simpl; intros; congruence.
Qed.

Lemma remember_shape (hdr : MenuItem) (t b c : Z) :
  hidden (remember hdr t b c) = hidden hdr
  ∧ getType (remember hdr t b c) = getType hdr
  ∧ getSubMenu (remember hdr t b c) = getSubMenu hdr.
Proof.
  unfold remember, setCursorPosition_item, setBottom, setTop, withMemento,
    getMemento, getType, getSubMenu.
  destruct hdr as [h k]. destruct k; simpl; repeat split.
Qed.

Lemma getMenuSize_from_insert_head (tbl : Table) (hdr hdr' : MenuItem) (s : Z) :
  tbl !! 0%nat = Some hdr → getType hdr' = getType hdr →
  getMenuSize_from (<[0%nat := hdr']> tbl) s = getMenuSize_from tbl s.
Proof.
  destruct tbl as [|x tbl]; [discriminate|]. simpl. intros [= ->] ->.
  reflexivity.
Qed.

Lemma getMenuSize_length (tbl : Table) (s size : Z) :
  getMenuSize_from tbl s = Some size → s < size <= s + Z.of_nat (length tbl).
Proof.
  revert s. induction tbl as [|x tbl IH]; intros s; simpl; [discriminate|].
  destruct (ItemType_eqb (getType x) MENU_ITEM_END_OF_MENU).
  - intros [= <-]. lia.
  - intros H%IH. lia.
Qed.

(** The round trip in the navigation code.  The cursor is on a sub-menu
    link, in browsing mode,
    in a table with a header node; the linked table ends with an end marker
    and its header names the active table as its parent.  Then [enter()]
    makes the child table the active one with cursor 1 and window
    [1, maxRows], and [back()] right after it makes the parent the active
    table again, with the cursor position and the window it had before
    [enter()]; no node other than the parent's header has been touched. *)
Lemma round_trip_nav (m : LcdMenu) (lnk hdr chdr : MenuItem)
    (child : TableId) (ptbl ctbl : Table) (cm : Memento) (editCancelled : bool) :
  itemAt m (cursorPosition m) = Some lnk →
  kind lnk = KSubMenu (Some child) →
  isInEditMode m = false →
  currentTable m = Some ptbl →
  ptbl !! 0%nat = Some hdr → isHeader hdr = true →
  getMenuSize ptbl = Some (currentMenuSize m) →
  menus m !! child = Some ctbl →
  is_Some (getMenuSize ctbl) →
  ctbl !! 0%nat = Some chdr →
  kind chdr = KSubHeader (Some (currentMenuTable m)) cm →
  ∃ m1 m2,
    enter m = Some m1
    ∧ currentMenuTable m1 = child
    ∧ (cursorPosition m1, top m1, bottom m1) = (1, 1, maxRows m)
    ∧ back editCancelled m1 = Some m2
    ∧ currentMenuTable m2 = currentMenuTable m
    ∧ currentMenuSize m2 = currentMenuSize m
    ∧ cursorPosition m2 = cursorPosition m
    ∧ top m2 = top m
    ∧ bottom m2 = bottom m
    ∧ isInEditMode m2 = false
    ∧ (∀ i, i ≠ 0 → itemAt m2 i = itemAt m i).
Proof.
  intros Hat Hlnk Hbrowse Hcur Hhdr Hish Hpsize Hchild [csize Hcsize] Hchdr Hck.
  set (t := currentMenuTable m) in *.
  set (hdr' := remember hdr (top m) (bottom m) (cursorPosition m)).
  set (ptbl' := <[0%nat := hdr']> ptbl).
  set (store' := <[t := ptbl']> (menus m)).
  destruct (remember_shape hdr (top m) (bottom m) (cursorPosition m))
    as (Hh' & Hty' & Hsub').
  fold hdr' in Hh', Hty', Hsub'.
  assert (Hlt : (t < length (menus m))%nat) by (eapply lookup_lt_Some, Hcur).
  assert (Hp' : store' !! t = Some ptbl') by (apply list_lookup_insert_eq, Hlt).
  assert (Hp'0 : ptbl' !! 0%nat = Some hdr').
  { apply list_lookup_insert_eq. eapply lookup_lt_Some, Hhdr. }
  assert (Hp'size : getMenuSize ptbl' = Some (currentMenuSize m)).
  { unfold getMenuSize, ptbl'.
    rewrite (getMenuSize_from_insert_head ptbl hdr hdr' 0 Hhdr Hty'). exact Hpsize. }
  (* the child table, as the store holds it after the header has been written *)
  assert (Hc' : ∃ ctbl' chdr',
             store' !! child = Some ctbl' ∧ getMenuSize ctbl' = Some csize
             ∧ ctbl' !! 0%nat = Some chdr'
             ∧ getType chdr' = MENU_ITEM_SUB_MENU_HEADER
             ∧ getSubMenu chdr' = Some t).
  { destruct (decide (child = t)) as [->|Hne].
    - unfold currentTable in Hcur. fold t in Hcur.
      assert (ctbl = ptbl) by congruence. subst ctbl.
      assert (chdr = hdr) by congruence. subst chdr.
      exists ptbl', hdr'. split; [assumption|].
      split; [unfold currentTable in *; congruence|]. split; [assumption|].
      rewrite Hty', Hsub'. unfold getType, getSubMenu. rewrite Hck. split; reflexivity.
    - exists ctbl, chdr. split.
      + unfold store'. rewrite list_lookup_insert_ne by congruence. assumption.
      + split; [assumption|]. split; [assumption|].
        unfold getType, getSubMenu. rewrite Hck. split; reflexivity. }
  destruct Hc' as (ctbl' & chdr' & Hc'tbl & Hc'size & Hc'0 & Hc'ty & Hc'sub).
  assert (Hc'1 : is_Some (ctbl' !! 1%nat)).
  { apply lookup_lt_is_Some. unfold getMenuSize in Hc'size.
    destruct ctbl' as [|x rest]; [discriminate|]. simpl in Hc'0, Hc'size.
    injection Hc'0 as ->. unfold getType in Hc'ty.
    destruct (kind chdr') eqn:Hk; try discriminate.
    unfold getType in Hc'size. rewrite Hk in Hc'size. simpl in Hc'size.
    apply getMenuSize_length in Hc'size. simpl. lia. }
  destruct Hc'1 as [first Hfirst].
  assert (Hat0 : itemAt m 0 = Some hdr).
  { unfold itemAt. rewrite Hcur. exact Hhdr. }
  set (m1 := update (mkMenu 1 1 (isEditModeEnabled m) (isCharPickerActive m)
                       (maxRows m) (maxRows m) child csize (enableUpdate m)
                       store' (events m))).
  assert (Henter : enter m = Some m1).
  { unfold enter. rewrite Hat. nav. rewrite Hlnk.
    unfold enterSubMenu, getSubMenu. rewrite Hlnk, Hat0. nav.
    fold (remember hdr (top m) (bottom m) (cursorPosition m)).
    fold hdr'. unfold storeItem. rewrite Hcur. fold t.
    change (Z.to_nat 0) with 0%nat. fold ptbl'. fold store'.
    nav. rewrite Hc'tbl. nav. rewrite Hc'size. reflexivity. }
  assert (Hm1 : ∃ evs, m1 = mkMenu 1 1 false (isCharPickerActive m)
                              (maxRows m) (maxRows m) child csize (enableUpdate m)
                              store' evs).
  { unfold m1, update. unfold isInEditMode in Hbrowse. rewrite Hbrowse.
    nav. destruct (enableUpdate m); eexists; reflexivity. }
  destruct Hm1 as [evs Hm1].
  set (m2 := update (mkMenu (cursorPosition m) (top m) false (isCharPickerActive m)
                       (bottom m) (maxRows m) t (currentMenuSize m)
                       (enableUpdate m) store' evs)).
  assert (Hback : back editCancelled m1 = Some m2).
  { rewrite Hm1. unfold back, itemAt, currentTable. nav.
    rewrite Hc'tbl. nav. change (tableAt ctbl' 1) with (ctbl' !! 1%nat).
    rewrite Hfirst. nav.
    unfold back_leave, isSubMenu, itemAt, currentTable. nav.
    rewrite Hc'tbl. nav. change (tableAt ctbl' 0) with (ctbl' !! 0%nat).
    rewrite Hc'0. nav. rewrite Hc'ty. cbn [ItemType_eqb].
    unfold leaveSubMenu. rewrite Hc'sub. nav. rewrite Hp'. nav.
    rewrite Hp'size. nav. unfold itemAt, currentTable. nav.
    rewrite Hp'. nav. change (tableAt ptbl' 0) with (ptbl' !! 0%nat).
    rewrite Hp'0. nav.
    unfold getTop, getBottom, getCursorPosition_item, hdr'.
    rewrite remember_memento by assumption. reflexivity. }
  exists m1, m2. split; [assumption|].
  split; [rewrite Hm1; reflexivity|]. split; [rewrite Hm1; reflexivity|].
  split; [assumption|].
  assert (Hm2 : ∃ evs', m2 = mkMenu (cursorPosition m) (top m) false
                               (isCharPickerActive m) (bottom m) (maxRows m) t
                               (currentMenuSize m) (enableUpdate m) store' evs').
  { unfold m2, update. nav. destruct (enableUpdate m); eexists; reflexivity. }
  destruct Hm2 as [evs' ->]. nav. repeat split.
  intros i Hi. unfold itemAt. rewrite Hcur. unfold currentTable. nav.
  rewrite Hp'. nav.
  unfold ptbl'. unfold tableAt. destruct (Z.ltb_spec i 0); [reflexivity|].
  apply list_lookup_insert_ne. lia.
Qed.

(** A root table whose third entry links to a table of two commands. *)
Definition subHeader (parent : TableId) : MenuItem :=
  mkItem false (KSubHeader (Some parent) (mkMemento 0 0 0)).
Definition subMenuLink (child : TableId) : MenuItem :=
  mkItem false (KSubMenu (Some child)).

Definition rootWithLink : Table :=
  [rootHeader; command false; command false; subMenuLink 1%nat; command false;
   endOfMenu].
Definition settings : Table :=
  [subHeader 0%nat; command false; command false; endOfMenu].

(** Two display rows, the cursor on the link at position 3, the window
    [2,3]. *)
Definition onLink : LcdMenu :=
  mkMenu 3 2 false false 3 2 0%nat 6 true [rootWithLink; settings] [EvUpdate].

(** ** Scanning a table for a visible node *)

Definition hiddenAt (tbl : Table) (i : Z) : Prop :=
  ∃ it, tableAt tbl i = Some it ∧ hidden it = true.

Definition visibleAt (tbl : Table) (i : Z) : Prop :=
  ∃ it, tableAt tbl i = Some it ∧ hidden it = false.

Lemma hidden_not_visible (tbl : Table) (i : Z) :
  hiddenAt tbl i → visibleAt tbl i → False.
Proof. intros (it & H1 & H2) (it' & H1' & H2'). congruence. Qed.

Lemma tableAt_in_range (tbl : Table) (i : Z) :
  0 <= i < Z.of_nat (length tbl) → ∃ it, tableAt tbl i = Some it.
Proof.
  intros Hi. destruct (lookup_lt_is_Some_2 tbl (Z.to_nat i)) as [it Hit]; [lia|].
  exists it. apply tableAt_Some. split; [lia | assumption].
Qed.

Lemma hidden_or_visible (tbl : Table) (i : Z) :
  0 <= i < Z.of_nat (length tbl) → hiddenAt tbl i ∨ visibleAt tbl i.
Proof.
  intros [it Hit]%tableAt_in_range. unfold hiddenAt, visibleAt.
  destruct (hidden it) eqn:Hh; eauto.
Qed.

Section Scans.

Variable tbl : Table.

Lemma firstVisibleUp_spec (n : nat) (i : Z) :
  0 <= i → i + Z.of_nat n <= Z.of_nat (length tbl) →
  (∃ j, firstVisibleUp tbl i n = Some (Some j)
        ∧ i <= j < i + Z.of_nat n ∧ visibleAt tbl j
        ∧ ∀ k, i <= k < j → hiddenAt tbl k)
  ∨ (firstVisibleUp tbl i n = Some None
     ∧ ∀ k, i <= k < i + Z.of_nat n → hiddenAt tbl k).
Proof.
  revert i. induction n as [|n IH]; intros i Hi Hlen.
  - right. split; [reflexivity|]. intros k Hk. lia.
  - destruct (tableAt_in_range tbl i ltac:(lia)) as [it Hit].
    cbn [firstVisibleUp]. rewrite Hit. cbn [mbind option_bind].
    unfold isHidden. destruct (hidden it) eqn:Hh; cbn [negb].
    + destruct (IH (i + 1) ltac:(lia) ltac:(lia))
        as [(j & Hrun & Hj & Hvis & Hhid) | [Hrun Hhid]].
      * left. exists j. split; [assumption|]. split; [lia|].
        split; [assumption|]. intros k Hk.
        destruct (Z.eq_dec k i) as [->|]; [exists it; auto|]. apply Hhid. lia.
      * right. split; [assumption|]. intros k Hk.
        destruct (Z.eq_dec k i) as [->|]; [exists it; auto|]. apply Hhid. lia.
    + left. exists i. split; [reflexivity|]. split; [lia|].
      split; [exists it; auto|]. intros k Hk. lia.
Qed.

Lemma firstVisibleDown_spec (n : nat) (i : Z) :
  0 <= i → Z.of_nat n = i + 1 → i < Z.of_nat (length tbl) →
  visibleAt tbl 0 →
  ∃ j, firstVisibleDown tbl i n = Some j
       ∧ 0 <= j <= i ∧ visibleAt tbl j
       ∧ ∀ k, j < k <= i → hiddenAt tbl k.
Proof.
  revert i. induction n as [|n IH]; intros i Hi Hn Hlen Hv0; [lia|].
  destruct (tableAt_in_range tbl i ltac:(lia)) as [it Hit].
  cbn [firstVisibleDown]. rewrite Hit. cbn [mbind option_bind].
  unfold isHidden. destruct (hidden it) eqn:Hh; cbn [negb].
  - assert (i ≠ 0).
    { intros ->. destruct Hv0 as (it0 & Hit0 & Hh0). congruence. }
    destruct (IH (i - 1) ltac:(lia) ltac:(lia) ltac:(lia) Hv0)
      as (j & Hrun & Hj & Hvis & Hhid).
    exists j. split; [assumption|]. split; [lia|]. split; [assumption|].
    intros k Hk. destruct (Z.eq_dec k i) as [->|]; [exists it; auto|].
    apply Hhid. lia.
  - exists i. split; [reflexivity|]. split; [lia|].
    split; [exists it; auto|]. intros k Hk. lia.
Qed.

Lemma allHiddenUp_spec (n : nat) (i : Z) :
  0 <= i → i + Z.of_nat n <= Z.of_nat (length tbl) →
  ∃ b, allHiddenUp tbl i n = Some b
       ∧ (b = true ↔ ∀ k, i <= k < i + Z.of_nat n → hiddenAt tbl k).
Proof.
  revert i. induction n as [|n IH]; intros i Hi Hlen.
  - exists true. split; [reflexivity|]. split; [|reflexivity]. intros _ k Hk. lia.
  - destruct (tableAt_in_range tbl i ltac:(lia)) as [it Hit].
    cbn [allHiddenUp]. rewrite Hit. cbn [mbind option_bind].
    unfold isHidden. destruct (hidden it) eqn:Hh; cbn [negb].
    + destruct (IH (i + 1) ltac:(lia) ltac:(lia)) as (b & Hrun & Hb).
      exists b. split; [assumption|]. rewrite Hb. split; intros H k Hk.
      * destruct (Z.eq_dec k i) as [->|]; [exists it; auto|]. apply H. lia.
      * apply H. lia.
    + exists false. split; [reflexivity|]. split; [discriminate|].
      intros H. exfalso. apply (hidden_not_visible tbl i).
      * apply H. lia.
      * exists it. auto.
Qed.

Lemma allHiddenDown_spec (n : nat) (i : Z) :
  Z.of_nat n <= i + 1 → i < Z.of_nat (length tbl) →
  ∃ b, allHiddenDown tbl i n = Some b
       ∧ (b = true ↔ ∀ k, i - Z.of_nat n < k <= i → hiddenAt tbl k).
Proof.
  revert i. induction n as [|n IH]; intros i Hn Hlen.
  - exists true. split; [reflexivity|]. split; [|reflexivity]. intros _ k Hk. lia.
  - destruct (tableAt_in_range tbl i ltac:(lia)) as [it Hit].
    cbn [allHiddenDown]. rewrite Hit. cbn [mbind option_bind].
    unfold isHidden. destruct (hidden it) eqn:Hh; cbn [negb].
    + destruct (IH (i - 1) ltac:(lia) ltac:(lia)) as (b & Hrun & Hb).
      exists b. split; [assumption|]. rewrite Hb. split; intros H k Hk.
      * destruct (Z.eq_dec k i) as [->|]; [exists it; auto|]. apply H. lia.
      * apply H. lia.
    + exists false. split; [reflexivity|]. split; [discriminate|].
      intros H. exfalso. apply (hidden_not_visible tbl i).
      * apply H. lia.
      * exists it. auto.
Qed.

End Scans.

(** ** Well-formed tables

    A header that is not hidden, then entries, then the end marker; at most
    256 nodes, so that every position fits the [uint8_t] cursor. *)

Fixpoint wfEntries (rest : Table) : bool :=
  match rest with
  | [] => false
  | e :: rest' =>
      match rest' with
      | [] => isEnd e
      | _ => isEntry e && wfEntries rest'
      end
  end.

Definition wfTable (tbl : Table) : bool :=
  match tbl with
  | [] => false
  | hdr :: rest =>
      isHeader hdr && negb (hidden hdr) && wfEntries rest
      && (Z.of_nat (length tbl) <=? 256)
  end.

Lemma getMenuSize_from_cons (it : MenuItem) (rest : Table) (s : Z) :
  getMenuSize_from (it :: rest) s
  = if ItemType_eqb (getType it) MENU_ITEM_END_OF_MENU then Some (s + 1)
    else getMenuSize_from rest (s + 1).
Proof. reflexivity. Qed.

Lemma wfEntries_facts (rest : Table) :
  wfEntries rest = true →
  (1 <= length rest)%nat
  ∧ (∀ (i : nat) it, (i < length rest - 1)%nat → rest !! i = Some it →
                     isEntry it = true)
  ∧ (∀ s, getMenuSize_from rest s = Some (s + Z.of_nat (length rest))).
Proof.
  induction rest as [|e rest IH]; [discriminate|].
  cbn [wfEntries]. destruct rest as [|e' rest].
  - intros He. split; [simpl; lia|]. split.
    + intros i it Hi. simpl in Hi. lia.
    + intros s. simpl. unfold isEnd in He. rewrite He. f_equal; lia.
  - intros [He Hrest]%andb_true_iff. destruct (IH Hrest) as (Hlen & Hent & Hsize).
    split; [simpl; lia|]. split.
    + intros [|i] it Hi Hit.
      * injection Hit as <-. assumption.
      * apply (Hent i it); [simpl in *; lia | exact Hit].
    + intros s. rewrite getMenuSize_from_cons, (isEntry_not_end e He).
      rewrite Hsize. f_equal. cbn [length]; lia.
Qed.

Lemma wfTable_facts (tbl : Table) :
  wfTable tbl = true →
  2 <= Z.of_nat (length tbl) <= 256
  ∧ visibleAt tbl 0
  ∧ (∃ hdr, tbl !! 0%nat = Some hdr ∧ isHeader hdr = true)
  ∧ (∀ i it, 0 < i < Z.of_nat (length tbl) - 1 → tableAt tbl i = Some it →
             isEntry it = true)
  ∧ getMenuSize tbl = Some (Z.of_nat (length tbl)).
Proof.
  destruct tbl as [|hdr rest]; [discriminate|]. unfold wfTable.
  intros [[[Hh Hv]%andb_true_iff Hrest]%andb_true_iff Hlen%Z.leb_le]%andb_true_iff.
  destruct (wfEntries_facts rest Hrest) as (Hlen' & Hent & Hsize).
  split; [cbn [length] in *; lia|]. split.
  { exists hdr. split; [reflexivity|]. destruct (hidden hdr); [discriminate|reflexivity]. }
  split; [exists hdr; auto|]. split.
  - intros i it Hi [_ Hit]%tableAt_Some.
    destruct (Z.to_nat i) as [|i'] eqn:Hi'; [lia|].
    apply (Hent i' it); [cbn [length] in Hi; lia | exact Hit].
  - unfold getMenuSize. rewrite getMenuSize_from_cons.
    assert (He : ItemType_eqb (getType hdr) MENU_ITEM_END_OF_MENU = false).
    { unfold isHeader in Hh. unfold getType. destruct (kind hdr); easy. }
    rewrite He, Hsize. f_equal. cbn [length]; lia.
Qed.

(** A controller on a well-formed table [tbl], with the cursor on one of its
    positions after the header. *)
Definition navOn (m : LcdMenu) (tbl : Table) : Prop :=
  currentTable m = Some tbl
  ∧ wfTable tbl = true
  ∧ currentMenuSize m = Z.of_nat (length tbl)
  ∧ 1 <= cursorPosition m <= currentMenuSize m - 1.

(** ** Machine-integer facts *)

Lemma wrap8_small (z : Z) : 0 <= z <= 255 → wrap8 z = z.
Proof. intros H. apply Z.mod_small. lia. Qed.

Lemma wrapS8_add (a b : Z) : wrapS8 (wrapS8 a + b) = wrapS8 (a + b).
Proof.
  unfold wrapS8.
  replace ((a + 128) mod 256 - 128 + b + 128) with ((a + 128) mod 256 + b) by lia.
  rewrite Zplus_mod_idemp_l. f_equal. f_equal. lia.
Qed.

(** [top = cursorPosition - numSkipped - 1] after a move from [c] to [j]. *)
Lemma top_after_down (c j : Z) :
  0 <= c <= 255 → wrap8 (j - wrapS8 (-1 + (j - c)) - 1) = c.
Proof.
  intros Hc. unfold wrap8, wrapS8.
  replace (-1 + (j - c) + 128) with (j - c + 127) by lia.
  replace (j - ((j - c + 127) mod 256 - 128) - 1)
    with ((j + 127) - (j - c + 127) mod 256) by lia.
  rewrite Zminus_mod_idemp_r.
  replace (j + 127 - (j - c + 127)) with c by lia.
  apply Z.mod_small. lia.
Qed.

(** ** The loops of [up()] and [down()] *)

Section Loops.

Variable tbl : Table.

Lemma isAtTheEnd_spec (m : LcdMenu) :
  currentTable m = Some tbl →
  currentMenuSize m = Z.of_nat (length tbl) →
  0 <= cursorPosition m → cursorPosition m + 1 <= currentMenuSize m →
  (∃ j, cursorPosition m < j < currentMenuSize m - 1 ∧ visibleAt tbl j
        ∧ (∀ k, cursorPosition m < k < j → hiddenAt tbl k)
        ∧ isAtTheEnd m = Some false)
  ∨ ((∀ k, cursorPosition m < k < currentMenuSize m - 1 → hiddenAt tbl k)
     ∧ isAtTheEnd m = Some true).
Proof.
  intros Hcur Hsize Hc0 Hc1. unfold isAtTheEnd. rewrite Hcur.
  cbn [mbind option_bind].
  destruct (firstVisibleUp_spec tbl
              (Z.to_nat (currentMenuSize m - (cursorPosition m + 1)))
              (cursorPosition m + 1) ltac:(lia) ltac:(lia))
    as [(j & Hrun & Hj & Hvis & Hhid) | [Hrun Hhid]]; rewrite Hrun;
    cbn [mbind option_bind].
  - destruct (Z.eqb_spec j (currentMenuSize m - 1)) as [->|Hne].
    + right. split; [|reflexivity]. intros k Hk. apply Hhid. lia.
    + left. exists j. split; [lia|]. split; [assumption|].
      split; [|reflexivity]. intros k Hk. apply Hhid. lia.
  - right. split; [|reflexivity]. intros k Hk. apply Hhid. lia.
Qed.

Lemma isAtTheStart_spec (m : LcdMenu) :
  currentTable m = Some tbl → visibleAt tbl 0 →
  1 <= cursorPosition m <= Z.of_nat (length tbl) →
  ∃ j, 0 <= j < cursorPosition m ∧ visibleAt tbl j
       ∧ (∀ k, j < k < cursorPosition m → hiddenAt tbl k)
       ∧ isAtTheStart m = Some (j =? 0).
Proof.
  intros Hcur Hv0 Hc. unfold isAtTheStart. rewrite Hcur.
  cbn [mbind option_bind].
  destruct (firstVisibleDown_spec tbl (Z.to_nat (cursorPosition m))
              (cursorPosition m - 1) ltac:(lia) ltac:(lia) ltac:(lia) Hv0)
    as (j & Hrun & Hj & Hvis & Hhid).
  rewrite Hrun. cbn [mbind option_bind]. exists j.
  split; [lia|]. split; [assumption|]. split; [|reflexivity].
  intros k Hk. apply Hhid. lia.
Qed.

Lemma down_loop_S (fuel : nat) (m : LcdMenu) (numSkipped : Z) :
  down_loop (S fuel) m numSkipped
  = (atEnd ← isAtTheEnd m;
     if atEnd || isEditModeEnabled m then Some (false, m, numSkipped)
     else
       let m := set_cursorPosition (wrap8 (cursorPosition m + 1)) m in
       let numSkipped := wrapS8 (numSkipped + 1) in
       it ← itemAt m (cursorPosition m);
       if isHidden it then down_loop fuel m numSkipped
       else Some (true, m, numSkipped)).
Proof. reflexivity. Qed.

Lemma up_loop_S (fuel : nat) (m : LcdMenu) :
  up_loop (S fuel) m
  = (atStart ← isAtTheStart m;
     if atStart || isEditModeEnabled m then Some (false, m)
     else
       let m := set_cursorPosition (wrap8 (cursorPosition m - 1)) m in
       it ← itemAt m (cursorPosition m);
       if isHidden it then up_loop fuel m else Some (true, m)).
Proof. reflexivity. Qed.

Lemma loopFuel_Z : Z.of_nat loopFuel = 257.
Proof. reflexivity. Qed.

Lemma down_loop_moves (j : Z) (fuel : nat) :
  ∀ (m : LcdMenu) (numSkipped : Z),
    currentTable m = Some tbl →
    currentMenuSize m = Z.of_nat (length tbl) →
    Z.of_nat (length tbl) <= 256 →
    isEditModeEnabled m = false →
    0 <= cursorPosition m < j → j < currentMenuSize m - 1 →
    visibleAt tbl j → (∀ k, cursorPosition m < k < j → hiddenAt tbl k) →
    j - cursorPosition m <= Z.of_nat fuel →
    down_loop fuel m numSkipped
    = Some (true, set_cursorPosition j m,
            wrapS8 (numSkipped + (j - cursorPosition m))).
Proof.
  induction fuel as [|fuel IH];
    intros m ns Hcur Hsize Hlen Hedit Hc Hj Hvis Hhid Hfuel; [lia|].
  rewrite down_loop_S.
  destruct (isAtTheEnd_spec m Hcur Hsize ltac:(lia) ltac:(lia))
    as [(j' & _ & _ & _ & Hend) | [Hall _]].
  2:{ exfalso. apply (hidden_not_visible tbl j); [apply Hall; lia | assumption]. }
  rewrite Hend, Hedit. cbn [mbind option_bind orb].
  rewrite (wrap8_small (cursorPosition m + 1)) by lia.
  set (m' := set_cursorPosition (cursorPosition m + 1) m).
  change (cursorPosition m') with (cursorPosition m + 1).
  change (itemAt m' (cursorPosition m + 1)) with (itemAt m (cursorPosition m + 1)).
  unfold itemAt. rewrite Hcur. cbn [mbind option_bind].
  destruct (Z.eq_dec (cursorPosition m + 1) j) as [Heq|Hne].
  - destruct Hvis as (it & Hit & Hh). rewrite Heq, Hit. cbn [mbind option_bind].
    unfold isHidden. rewrite Hh. unfold m'. rewrite Heq.
    replace (j - cursorPosition m) with 1 by lia. reflexivity.
  - destruct (Hhid (cursorPosition m + 1) ltac:(lia)) as (it & Hit & Hh).
    rewrite Hit. cbn [mbind option_bind]. unfold isHidden. rewrite Hh.
    rewrite (IH m' (wrapS8 (ns + 1))); try assumption.
    + rewrite wrapS8_add. unfold m'. nav. do 3 f_equal. lia.
    + unfold m'. nav. lia.
    + unfold m'. nav. intros k Hk. apply Hhid. lia.
    + unfold m'. nav. lia.
Qed.

Lemma up_loop_moves (j : Z) (fuel : nat) :
  ∀ m : LcdMenu,
    currentTable m = Some tbl → visibleAt tbl 0 →
    Z.of_nat (length tbl) <= 256 →
    isEditModeEnabled m = false →
    0 < j < cursorPosition m → cursorPosition m <= Z.of_nat (length tbl) →
    visibleAt tbl j → (∀ k, j < k < cursorPosition m → hiddenAt tbl k) →
    cursorPosition m - j <= Z.of_nat fuel →
    up_loop fuel m = Some (true, set_cursorPosition j m).
Proof.
  induction fuel as [|fuel IH];
    intros m Hcur Hv0 Hlen Hedit Hj Hc Hvis Hhid Hfuel; [lia|].
  rewrite up_loop_S.
  destruct (isAtTheStart_spec m Hcur Hv0 ltac:(lia))
    as (j' & Hj' & Hvis' & Hhid' & Hstart).
  assert (j' = j).
  { destruct (Z.lt_trichotomy j' j) as [Hlt|[Heq|Hgt]]; [|assumption|].
    - exfalso. apply (hidden_not_visible tbl j); [apply Hhid'; lia|assumption].
    - exfalso. apply (hidden_not_visible tbl j'); [apply Hhid; lia|assumption]. }
  subst j'. rewrite Hstart, Hedit.
  destruct (Z.eqb_spec j 0); [lia|]. cbn [mbind option_bind orb].
  rewrite (wrap8_small (cursorPosition m - 1)) by lia.
  set (m' := set_cursorPosition (cursorPosition m - 1) m).
  change (cursorPosition m') with (cursorPosition m - 1).
  change (itemAt m' (cursorPosition m - 1)) with (itemAt m (cursorPosition m - 1)).
  unfold itemAt. rewrite Hcur. cbn [mbind option_bind].
  destruct (Z.eq_dec (cursorPosition m - 1) j) as [Heq|Hne].
  - destruct Hvis as (it & Hit & Hh). rewrite Heq, Hit. cbn [mbind option_bind].
    unfold isHidden. rewrite Hh. unfold m'. rewrite Heq. reflexivity.
  - destruct (Hhid (cursorPosition m - 1) ltac:(lia)) as (it & Hit & Hh).
    rewrite Hit. cbn [mbind option_bind]. unfold isHidden. rewrite Hh.
    rewrite (IH m'); try assumption.
    + reflexivity.
    + unfold m'. nav. lia.
    + unfold m'. nav. lia.
    + unfold m'. nav. intros k Hk. apply Hhid. lia.
    + unfold m'. nav. lia.
Qed.

End Loops.

(** ** What [up()] and [down()] compute on a well-formed table *)

(** The controller after a successful [down()] from [m] to the position [j],
    where [w] is the value of [wasAtBottom]; and the same for [up()], with
    [w] the value of [wasAtTop]. *)
Definition movedDown (m : LcdMenu) (j : Z) (w : bool) : LcdMenu :=
  let m1 := set_cursorPosition j m in
  update (if (j >? bottom m) && w
          then set_bottom (wrap8 (cursorPosition m + maxRows m - 1))
                 (set_top (cursorPosition m) m1)
          else m1).

Definition movedUp (m : LcdMenu) (j : Z) (w : bool) : LcdMenu :=
  let m1 := set_cursorPosition j m in
  update (if (j <? top m) && w
          then set_bottom (wrap8 (j + maxRows m - 1)) (set_top j m1)
          else m1).

Lemma wasAtBottom_defined (m : LcdMenu) (tbl : Table) :
  navOn m tbl →
  ∃ b, checkAllBelowHidden m (cursorPosition m) = Some b
       ∧ (b = true ↔ ∀ k, cursorPosition m < k < currentMenuSize m - 2 →
                           hiddenAt tbl k)
       ∧ wasAtBottom m
         = Some ((if b then wrap8 (maxRows m - 1)
                  else wrap8 (constrain (cursorPosition m - top m) 0 (maxRows m - 1)))
                 =? maxRows m - 1).
Proof.
  intros (Hcur & Hwf & Hsize & Hc).
  destruct (wfTable_facts tbl Hwf) as (Hlen & _).
  unfold wasAtBottom, checkAllBelowHidden. rewrite Hcur. cbn [mbind option_bind].
  destruct (Z.ltb_spec (currentMenuSize m) 2); [lia|].
  destruct (allHiddenUp_spec tbl
              (Z.to_nat (currentMenuSize m - 2 - (cursorPosition m + 1)))
              (cursorPosition m + 1) ltac:(lia) ltac:(lia)) as (b & Hrun & Hb).
  rewrite Hrun. cbn [mbind option_bind]. exists b. split; [reflexivity|].
  split; [|reflexivity]. rewrite Hb. split; intros Hall k Hk; apply Hall; lia.
Qed.

Lemma wasAtTop_defined (m : LcdMenu) (tbl : Table) :
  navOn m tbl →
  ∃ b, checkAllAboveHidden m (cursorPosition m) = Some b
       ∧ (b = true ↔ ∀ k, 0 < k < cursorPosition m → hiddenAt tbl k)
       ∧ wasAtTop m
         = Some ((if b then 0
                  else wrap8 (constrain (cursorPosition m - top m) 0 (maxRows m - 1)))
                 =? 0).
Proof.
  intros (Hcur & Hwf & Hsize & Hc).
  destruct (wfTable_facts tbl Hwf) as (Hlen & _).
  unfold wasAtTop, checkAllAboveHidden. rewrite Hcur. cbn [mbind option_bind].
  destruct (Z.eqb_spec (cursorPosition m) 0); [lia|].
  destruct (allHiddenDown_spec tbl (Z.to_nat (cursorPosition m - 1))
              (cursorPosition m - 1) ltac:(lia) ltac:(lia)) as (b & Hrun & Hb).
  rewrite Hrun. cbn [mbind option_bind]. exists b. split; [reflexivity|].
  split; [|reflexivity]. rewrite Hb. split; intros Hall k Hk; apply Hall; lia.
Qed.

Lemma down_spec (m : LcdMenu) (tbl : Table) :
  navOn m tbl →
  ∃ w, wasAtBottom m = Some w
       ∧ (((isEditModeEnabled m = true
            ∨ ∀ k, cursorPosition m < k < currentMenuSize m - 1 → hiddenAt tbl k)
           ∧ down m = Some (false, m))
          ∨ (isEditModeEnabled m = false
             ∧ ∃ j, cursorPosition m < j < currentMenuSize m - 1
                    ∧ visibleAt tbl j
                    ∧ (∀ k, cursorPosition m < k < j → hiddenAt tbl k)
                    ∧ down m = Some (true, movedDown m j w))).
Proof.
  intros Hnav. destruct (wasAtBottom_defined m tbl Hnav) as (b & _ & _ & Hw).
  destruct Hnav as (Hcur & Hwf & Hsize & Hc).
  destruct (wfTable_facts tbl Hwf) as (Hlen & _).
  eexists. split; [exact Hw|]. unfold down.
  generalize loopFuel_Z. generalize loopFuel. intros fuel Hfuel.
  rewrite Hw. cbn [mbind option_bind].
  destruct fuel as [|fuel]; [discriminate|].
  destruct (isAtTheEnd_spec tbl m Hcur Hsize ltac:(lia) ltac:(lia))
    as [(j & Hj & Hvis & Hhid & Hend) | [Hall Hend]].
  - destruct (isEditModeEnabled m) eqn:Hedit.
    + left. split; [left; reflexivity|].
      rewrite down_loop_S, Hend, Hedit. reflexivity.
    + right. split; [reflexivity|]. exists j. split; [assumption|].
      split; [assumption|]. split; [assumption|].
      rewrite (down_loop_moves tbl j (S fuel) m (-1)); try assumption; try lia.
      cbn [mbind option_bind negb]. nav.
      rewrite top_after_down by lia. reflexivity.
  - left. split; [right; assumption|].
    rewrite down_loop_S, Hend. reflexivity.
Qed.

Lemma up_spec (m : LcdMenu) (tbl : Table) :
  navOn m tbl →
  ∃ w, wasAtTop m = Some w
       ∧ (((isEditModeEnabled m = true
            ∨ ∀ k, 0 < k < cursorPosition m → hiddenAt tbl k)
           ∧ up m = Some (false, m))
          ∨ (isEditModeEnabled m = false
             ∧ ∃ j, 0 < j < cursorPosition m
                    ∧ visibleAt tbl j
                    ∧ (∀ k, j < k < cursorPosition m → hiddenAt tbl k)
                    ∧ up m = Some (true, movedUp m j w))).
Proof.
  intros Hnav. destruct (wasAtTop_defined m tbl Hnav) as (b & _ & _ & Hw).
  destruct Hnav as (Hcur & Hwf & Hsize & Hc).
  destruct (wfTable_facts tbl Hwf) as (Hlen & Hv0 & _).
  eexists. split; [exact Hw|]. unfold up.
  generalize loopFuel_Z. generalize loopFuel. intros fuel Hfuel.
  rewrite Hw. cbn [mbind option_bind].
  destruct fuel as [|fuel]; [discriminate|].
  destruct (isAtTheStart_spec tbl m Hcur Hv0 ltac:(lia))
    as (j & Hj & Hvis & Hhid & Hstart).
  destruct (Z.eqb_spec j 0) as [->|Hj0].
  - left. split; [right; intros k Hk; apply Hhid; lia|].
    rewrite up_loop_S, Hstart. reflexivity.
  - destruct (isEditModeEnabled m) eqn:Hedit.
    + left. split; [left; reflexivity|].
      rewrite up_loop_S, Hstart, Hedit. reflexivity.
    + right. split; [reflexivity|]. exists j. split; [lia|].
      split; [assumption|]. split; [assumption|].
      rewrite (up_loop_moves tbl j (S fuel) m); try assumption; try lia.
      reflexivity.
Qed.

(** The successful moves change the cursor and, at most, the window. *)
Lemma movedDown_facts (m : LcdMenu) (j : Z) (w : bool) :
  cursorPosition (movedDown m j w) = j
  ∧ currentTable (movedDown m j w) = currentTable m
  ∧ currentMenuSize (movedDown m j w) = currentMenuSize m
  ∧ isEditModeEnabled (movedDown m j w) = isEditModeEnabled m
  ∧ maxRows (movedDown m j w) = maxRows m
  ∧ menus (movedDown m j w) = menus m
  ∧ currentMenuTable (movedDown m j w) = currentMenuTable m
  ∧ (top (movedDown m j w), bottom (movedDown m j w))
    = if (j >? bottom m) && w
      then (cursorPosition m, wrap8 (cursorPosition m + maxRows m - 1))
      else (top m, bottom m).
Proof.
  unfold movedDown, update. destruct ((j >? bottom m) && w); nav;
    destruct (enableUpdate m); repeat split.
Qed.

Lemma movedUp_facts (m : LcdMenu) (j : Z) (w : bool) :
  cursorPosition (movedUp m j w) = j
  ∧ currentTable (movedUp m j w) = currentTable m
  ∧ currentMenuSize (movedUp m j w) = currentMenuSize m
  ∧ isEditModeEnabled (movedUp m j w) = isEditModeEnabled m
  ∧ maxRows (movedUp m j w) = maxRows m
  ∧ menus (movedUp m j w) = menus m
  ∧ currentMenuTable (movedUp m j w) = currentMenuTable m
  ∧ (top (movedUp m j w), bottom (movedUp m j w))
    = if (j <? top m) && w
      then (j, wrap8 (j + maxRows m - 1))
      else (top m, bottom m).
Proof.
  unfold movedUp, update. destruct ((j <? top m) && w); nav;
    destruct (enableUpdate m); repeat split.
Qed.

(** The cursor is on an entry that is not hidden. *)
Definition onVisibleEntry (m : LcdMenu) : Prop :=
  ∃ it, itemAt m (cursorPosition m) = Some it
        ∧ isHidden it = false ∧ isEntry it = true.

Lemma visible_entry (m : LcdMenu) (tbl : Table) (j : Z) :
  currentTable m = Some tbl → wfTable tbl = true →
  0 < j < Z.of_nat (length tbl) - 1 → visibleAt tbl j →
  cursorPosition m = j → onVisibleEntry m.
Proof.
  intros Hcur Hwf Hj (it & Hit & Hh) Hc.
  destruct (wfTable_facts tbl Hwf) as (_ & _ & _ & Hent & _).
  exists it. unfold itemAt. rewrite Hcur, Hc. cbn [mbind option_bind].
  split; [assumption|]. split; [assumption|]. exact (Hent j it Hj Hit).
Qed.

(** ** Failure and success of [up()] and [down()] *)

(** The navigation code of [up()] and [down()].  On a well-formed table,
    with the cursor on one of its positions:
    [up()] and [down()] always return; they return [false], with the
    controller exactly as it was, whenever edit mode is on or every node
    between the cursor and the header (for [up()]), or between the cursor and
    the end marker (for [down()]), is hidden, and in no other case; and when
    they return [true] the cursor has moved, in the direction asked for, to
    an entry that is not hidden. *)
Lemma up_down_nav (m : LcdMenu) (tbl : Table) :
  navOn m tbl →
  let noneAbove := ∀ k, 0 < k < cursorPosition m → hiddenAt tbl k in
  let noneBelow :=
    ∀ k, cursorPosition m < k < currentMenuSize m - 1 → hiddenAt tbl k in
  (∃ r, up m = Some r) ∧ (∃ r, down m = Some r)
  ∧ (isEditModeEnabled m = true ∨ noneAbove → up m = Some (false, m))
  ∧ (isEditModeEnabled m = true ∨ noneBelow → down m = Some (false, m))
  ∧ (∀ m', up m = Some (false, m') →
           m' = m ∧ (isEditModeEnabled m = true ∨ noneAbove))
  ∧ (∀ m', down m = Some (false, m') →
           m' = m ∧ (isEditModeEnabled m = true ∨ noneBelow))
  ∧ (∀ m', up m = Some (true, m') →
           cursorPosition m' < cursorPosition m ∧ onVisibleEntry m')
  ∧ (∀ m', down m = Some (true, m') →
           cursorPosition m < cursorPosition m' ∧ onVisibleEntry m').
Proof.
  intros Hnav noneAbove noneBelow.
  destruct (up_spec m tbl Hnav) as (wu & _ & Hup).
  destruct (down_spec m tbl Hnav) as (wd & _ & Hdown).
  destruct Hnav as (Hcur & Hwf & Hsize & Hc).
  assert (Hu : ∀ j, visibleAt tbl j → 0 < j < cursorPosition m → noneAbove → False).
  { intros j Hv Hj Hn. exact (hidden_not_visible tbl j (Hn j Hj) Hv). }
  assert (Hd : ∀ j, visibleAt tbl j →
                    cursorPosition m < j < currentMenuSize m - 1 →
                    noneBelow → False).
  { intros j Hv Hj Hn. exact (hidden_not_visible tbl j (Hn j Hj) Hv). }
  split; [destruct Hup as [[_ ->] | (_ & j & _ & _ & _ & ->)]; eauto|].
  split; [destruct Hdown as [[_ ->] | (_ & j & _ & _ & _ & ->)]; eauto|].
  split.
  { intros Hfail. destruct Hup as [[_ Hrun] | (Hedit & j & Hj & Hv & _ & _)];
      [assumption|exfalso].
    destruct Hfail as [He|Hn]; [congruence | exact (Hu j Hv Hj Hn)]. }
  split.
  { intros Hfail. destruct Hdown as [[_ Hrun] | (Hedit & j & Hj & Hv & _ & _)];
      [assumption|exfalso].
    destruct Hfail as [He|Hn]; [congruence | exact (Hd j Hv Hj Hn)]. }
  split.
  { intros m' Hrun. destruct Hup as [[Hwhy Hrun'] | (_ & j & _ & _ & _ & Hrun')];
      rewrite Hrun' in Hrun; [|discriminate].
    injection Hrun as <-. auto. }
  split.
  { intros m' Hrun. destruct Hdown as [[Hwhy Hrun'] | (_ & j & _ & _ & _ & Hrun')];
      rewrite Hrun' in Hrun; [|discriminate].
    injection Hrun as <-. auto. }
  split.
  - intros m' Hrun. destruct Hup as [[_ Hrun'] | (_ & j & Hj & Hv & _ & Hrun')];
      rewrite Hrun' in Hrun; [discriminate|]. injection Hrun as <-.
    destruct (movedUp_facts m j wu) as (Hcj & Htab & _).
    split; [lia|]. apply (visible_entry _ tbl j); try assumption; [congruence|lia].
  - intros m' Hrun. destruct Hdown as [[_ Hrun'] | (_ & j & Hj & Hv & _ & Hrun')];
      rewrite Hrun' in Hrun; [discriminate|]. injection Hrun as <-.
    destruct (movedDown_facts m j wd) as (Hcj & Htab & _).
    split; [lia|]. apply (visible_entry _ tbl j); try assumption; [congruence|lia].
Qed.

(** The cursor has to be on a position after the header: with the cursor
    on position 0, which only [setCursorPosition] can produce,
    [checkAllAboveHidden] starts at the index before the array, and [up()]
    has no defined result. *)
Example up_from_header :
  up (setCursorPosition 0 (started 2 thirdHidden)) = None.
Proof. reflexivity. Qed.

(** ** The window after a move *)

(** The cursor is drawn on the first display row: it is on [top] (or above
    it), or every entry above it is hidden.  And on the last display row: it
    is [maxRows - 1] positions (or more) below [top], or every node that
    [checkAllBelowHidden] looks at is hidden. *)
Definition pinnedTop (m : LcdMenu) (tbl : Table) : Prop :=
  cursorPosition m - top m <= 0
  ∨ ∀ k, 0 < k < cursorPosition m → hiddenAt tbl k.

Definition pinnedBottom (m : LcdMenu) (tbl : Table) : Prop :=
  maxRows m - 1 <= cursorPosition m - top m
  ∨ ∀ k, cursorPosition m < k < currentMenuSize m - 2 → hiddenAt tbl k.

Lemma constrain_low (x high : Z) :
  1 <= high <= 255 → (wrap8 (constrain x 0 high) =? 0) = (x <=? 0).
Proof.
  intros Hh. unfold constrain.
  destruct (Z.ltb_spec x 0), (Z.leb_spec x 0); try lia; [reflexivity| |].
  - destruct (Z.gtb_spec x high); rewrite wrap8_small by lia;
      [destruct (Z.eqb_spec high 0) | destruct (Z.eqb_spec x 0)]; lia.
  - destruct (Z.gtb_spec x high); rewrite wrap8_small by lia;
      [destruct (Z.eqb_spec high 0) | destruct (Z.eqb_spec x 0)]; lia.
Qed.

Lemma constrain_high (x high : Z) :
  1 <= high <= 255 → (wrap8 (constrain x 0 high) =? high) = (high <=? x).
Proof.
  intros Hh. unfold constrain.
  destruct (Z.ltb_spec x 0).
  - rewrite wrap8_small by lia.
    destruct (Z.eqb_spec 0 high), (Z.leb_spec high x); lia.
  - destruct (Z.gtb_spec x high); rewrite wrap8_small by lia.
    + rewrite Z.eqb_refl. destruct (Z.leb_spec high x); lia.
    + destruct (Z.eqb_spec x high), (Z.leb_spec high x); lia.
Qed.

Lemma wasAtTop_pinned (m : LcdMenu) (tbl : Table) (w : bool) :
  navOn m tbl → 2 <= maxRows m <= 255 → wasAtTop m = Some w →
  (w = true ↔ pinnedTop m tbl).
Proof.
  intros Hnav Hrows Hw.
  destruct (wasAtTop_defined m tbl Hnav) as (b & _ & Hb & Hw').
  rewrite Hw in Hw'. injection Hw' as ->. unfold pinnedTop.
  destruct b.
  - split; [intros _; right; apply Hb; reflexivity | reflexivity].
  - rewrite constrain_low by lia. rewrite Z.leb_le. split; [auto|].
    intros [H|H]; [assumption|]. apply Hb in H. discriminate.
Qed.

Lemma wasAtBottom_pinned (m : LcdMenu) (tbl : Table) (w : bool) :
  navOn m tbl → 2 <= maxRows m <= 255 → wasAtBottom m = Some w →
  (w = true ↔ pinnedBottom m tbl).
Proof.
  intros Hnav Hrows Hw.
  destruct (wasAtBottom_defined m tbl Hnav) as (b & _ & Hb & Hw').
  rewrite Hw in Hw'. injection Hw' as ->. unfold pinnedBottom.
  destruct b.
  - rewrite wrap8_small, Z.eqb_refl by lia.
    split; [intros _; right; apply Hb; reflexivity | reflexivity].
  - rewrite constrain_high by lia. rewrite Z.leb_le. split; [auto|].
    intros [H|H]; [assumption|]. apply Hb in H. discriminate.
Qed.





(** ** The shape of the tables

    What never changes while the engine runs: which nodes are hidden, the
    class of every node, and the links between tables.  The engine only
    writes payloads (a toggle state, an index, a snapshot, a memento). *)

Inductive Shape : Type :=
| ShMainHeader
| ShSubHeader (parent : option TableId)
| ShSubMenu (child : option TableId)
| ShCommand
| ShToggle
| ShInput
| ShList
| ShProgress
| ShEnd.

Definition shapeOf (k : ItemKind) : Shape :=
  match k with
  | KMainHeader _ => ShMainHeader
  | KSubHeader parent _ => ShSubHeader parent
  | KSubMenu child => ShSubMenu child
  | KCommand _ => ShCommand
  | KToggle _ _ => ShToggle
  | KInput _ => ShInput
  | KList _ => ShList
  | KProgress _ => ShProgress
  | KEnd => ShEnd
  end.

Definition sameShape (it it' : MenuItem) : Prop :=
  hidden it = hidden it' ∧ shapeOf (kind it) = shapeOf (kind it').

Lemma sameShape_refl (it : MenuItem) : sameShape it it.
Proof. split; reflexivity. Qed.

Lemma sameShape_facts (it it' : MenuItem) :
  sameShape it it' →
  isHidden it = isHidden it' ∧ isEntry it = isEntry it'
  ∧ isHeader it = isHeader it' ∧ isEnd it = isEnd it'
  ∧ getType it = getType it' ∧ getSubMenu it = getSubMenu it'.
Proof.
  unfold sameShape, isHidden, isEntry, isHeader, isEnd, getType, getSubMenu.
  intros [Hh Hk]. rewrite Hh.
  destruct (kind it), (kind it'); simpl in Hk; try discriminate;
    try injection Hk as ->; repeat split.
Qed.

Lemma sameShape_remember (hdr : MenuItem) (t b c : Z) :
  sameShape hdr (remember hdr t b c).
Proof.
  unfold sameShape, remember, setCursorPosition_item, setBottom, setTop,
    withMemento, getMemento.
  destruct hdr as [h k]. destruct k; simpl; split; reflexivity.
Qed.

Definition sameTable (tbl tbl' : Table) : Prop := Forall2 sameShape tbl tbl'.

Definition sameTables (menus menus' : list Table) : Prop :=
  Forall2 sameTable menus menus'.

Lemma sameTable_refl (tbl : Table) : sameTable tbl tbl.
Proof. apply Forall_Forall2_diag, Forall_forall. intros; apply sameShape_refl. Qed.

Lemma sameTables_refl (menus : list Table) : sameTables menus menus.
Proof. apply Forall_Forall2_diag, Forall_forall. intros; apply sameTable_refl. Qed.

Lemma sameTable_insert (tbl : Table) (i : nat) (it it' : MenuItem) :
  tbl !! i = Some it → sameShape it it' → sameTable tbl (<[i := it']> tbl).
Proof.
  intros Hit Hs. rewrite <- (list_insert_id tbl i it Hit) at 1.
  apply Forall2_insert; [apply sameTable_refl | assumption].
Qed.

Lemma sameTables_insert (menus : list Table) (t : TableId) (tbl tbl' : Table) :
  menus !! t = Some tbl → sameTable tbl tbl' →
  sameTables menus (<[t := tbl']> menus).
Proof.
  intros Ht Hs. rewrite <- (list_insert_id menus t tbl Ht) at 1.
  apply Forall2_insert; [apply sameTables_refl | assumption].
Qed.

Lemma sameTable_tableAt (tbl tbl' : Table) (i : Z) (it : MenuItem) :
  sameTable tbl tbl' → tableAt tbl i = Some it →
  ∃ it', tableAt tbl' i = Some it' ∧ sameShape it it'.
Proof.
  intros Hs [Hi Hit]%tableAt_Some.
  destruct (Forall2_lookup_l _ _ _ _ _ Hs Hit) as (it' & Hit' & Hsh).
  exists it'. split; [apply tableAt_Some; auto | assumption].
Qed.

Lemma sameTable_visibleAt (tbl tbl' : Table) (i : Z) :
  sameTable tbl tbl' → visibleAt tbl i → visibleAt tbl' i.
Proof.
  intros Hs (it & Hit & Hh).
  destruct (sameTable_tableAt tbl tbl' i it Hs Hit) as (it' & Hit' & [Hh' _]).
  exists it'. split; [assumption | congruence].
Qed.

Lemma sameTable_wfEntries (rest rest' : Table) :
  sameTable rest rest' → wfEntries rest = wfEntries rest'.
Proof.
  induction 1 as [|e e' rest rest' He Hrest IH]; [reflexivity|].
  cbn [wfEntries]. destruct (sameShape_facts e e' He) as (_ & -> & _ & -> & _).
  destruct Hrest; [reflexivity|]. rewrite IH. reflexivity.
Qed.

Lemma sameTable_wfTable (tbl tbl' : Table) :
  sameTable tbl tbl' → wfTable tbl = wfTable tbl'.
Proof.
  intros Hs. pose proof (Forall2_length _ _ _ Hs) as Hlen.
  destruct Hs as [|hdr hdr' rest rest' Hh Hrest]; [reflexivity|].
  unfold wfTable. destruct (sameShape_facts hdr hdr' Hh) as (Hhid & _ & -> & _).
  unfold isHidden in Hhid. rewrite Hhid, (sameTable_wfEntries rest rest' Hrest), Hlen.
  reflexivity.
Qed.

(** ** The navigation invariant *)

(** A window and a cursor that fit the table [tbl] on a display of [rows]
    rows: [top] and the cursor are positions of visible entries, [top] is not
    below the cursor, and [bottom] is [top + rows - 1] as a [uint8_t]. *)
Definition validPos (rows : Z) (tbl : Table) (t b c : Z) : Prop :=
  1 <= t <= c ∧ c < Z.of_nat (length tbl) - 1
  ∧ visibleAt tbl t ∧ visibleAt tbl c ∧ b = wrap8 (t + rows - 1).

Definition validMemento (rows : Z) (tbl : Table) (mm : Memento) : Prop :=
  validPos rows tbl (savedTop mm) (savedBottom mm) (savedCursorPosition mm).

(** The store of tables is well formed: every table is, and every sub-menu
    link leads to a table whose header is a sub-menu header that names the
    table of the link as its parent, and whose first entry is there and is
    not hidden. *)
Definition wfStore (menus : list Table) : Prop :=
  (∀ t tbl, menus !! t = Some tbl → wfTable tbl = true)
  ∧ (∀ (t : TableId) tbl (i : nat) it child,
        menus !! t = Some tbl → tbl !! i = Some it →
        getType it = MENU_ITEM_SUB_MENU → getSubMenu it = Some child →
        ∃ ctbl chdr,
          menus !! child = Some ctbl ∧ ctbl !! 0%nat = Some chdr
          ∧ getType chdr = MENU_ITEM_SUB_MENU_HEADER
          ∧ getSubMenu chdr = Some t
          ∧ visibleAt ctbl 1 ∧ 3 <= Z.of_nat (length ctbl)).

(** The mementos that [back()] may read: following the parent links from the
    table [t], every header on the way holds a window and a cursor that fit
    its table. *)
Inductive ancestorsOK (rows : Z) (menus : list Table) : TableId → Prop :=
| ancestors_none (t : TableId) tbl hdr :
    menus !! t = Some tbl → tbl !! 0%nat = Some hdr →
    getType hdr ≠ MENU_ITEM_SUB_MENU_HEADER ∨ getSubMenu hdr = None →
    ancestorsOK rows menus t
| ancestors_parent (t : TableId) tbl hdr (p : TableId) ptbl phdr :
    menus !! t = Some tbl → tbl !! 0%nat = Some hdr →
    getSubMenu hdr = Some p →
    menus !! p = Some ptbl → ptbl !! 0%nat = Some phdr →
    validMemento rows ptbl (getMemento phdr) →
    ancestorsOK rows menus p →
    ancestorsOK rows menus t.

Definition Inv (m : LcdMenu) : Prop :=
  1 <= maxRows m <= 255
  ∧ wfStore (menus m)
  ∧ (∃ tbl, currentTable m = Some tbl
            ∧ currentMenuSize m = Z.of_nat (length tbl)
            ∧ validPos (maxRows m) tbl (top m) (bottom m) (cursorPosition m))
  ∧ ancestorsOK (maxRows m) (menus m) (currentMenuTable m).

(** A step of the store: the shapes stay, and a header either keeps its
    memento or receives one that fits its table. *)
Definition mementoStep (rows : Z) (menus menus' : list Table) : Prop :=
  sameTables menus menus'
  ∧ ∀ (t : TableId) tbl tbl' hdr hdr',
      menus !! t = Some tbl → menus' !! t = Some tbl' →
      tbl !! 0%nat = Some hdr → tbl' !! 0%nat = Some hdr' →
      getMemento hdr' = getMemento hdr
      ∨ validMemento rows tbl' (getMemento hdr').

Lemma mementoStep_refl (rows : Z) (menus : list Table) :
  mementoStep rows menus menus.
Proof.
  split; [apply sameTables_refl|]. intros t tbl tbl' hdr hdr' H1 H2 H3 H4.
  left. congruence.
Qed.

Lemma validPos_sameTable (rows : Z) (tbl tbl' : Table) (t b c : Z) :
  sameTable tbl tbl' → validPos rows tbl t b c → validPos rows tbl' t b c.
Proof.
  intros Hs (Ht & Hc & Hvt & Hvc & Hb).
  pose proof (Forall2_length _ _ _ Hs) as Hlen.
  split; [assumption|]. split; [lia|].
  split; [eapply sameTable_visibleAt; eassumption|].
  split; [eapply sameTable_visibleAt; eassumption | assumption].
Qed.

Lemma wfStore_sameTables (menus menus' : list Table) :
  sameTables menus menus' → wfStore menus → wfStore menus'.
Proof.
  intros Hs [Hwf Hlinks]. split.
  - intros t tbl' Ht'.
    destruct (Forall2_lookup_r _ _ _ _ _ Hs Ht') as (tbl & Ht & Hst).
    rewrite <- (sameTable_wfTable tbl tbl' Hst). eauto.
  - intros t tbl' i it' child Ht' Hit' Hty Hsub.
    destruct (Forall2_lookup_r _ _ _ _ _ Hs Ht') as (tbl & Ht & Hst).
    destruct (Forall2_lookup_r _ _ _ _ _ Hst Hit') as (it & Hit & Hsh).
    destruct (sameShape_facts it it' Hsh) as (_ & _ & _ & _ & Hty' & Hsub').
    destruct (Hlinks t tbl i it child Ht Hit ltac:(congruence) ltac:(congruence))
      as (ctbl & chdr & Hc & Hc0 & Hcty & Hcsub & Hv1 & Hlen).
    destruct (Forall2_lookup_l _ _ _ _ _ Hs Hc) as (ctbl' & Hc' & Hsc).
    destruct (Forall2_lookup_l _ _ _ _ _ Hsc Hc0) as (chdr' & Hc0' & Hshc).
    destruct (sameShape_facts chdr chdr' Hshc) as (_ & _ & _ & _ & Hcty' & Hcsub').
    exists ctbl', chdr'. split; [assumption|]. split; [assumption|].
    split; [congruence|]. split; [congruence|].
    split; [eapply sameTable_visibleAt; eassumption|].
    rewrite <- (Forall2_length _ _ _ Hsc). assumption.
Qed.

Lemma ancestorsOK_step (rows : Z) (menus menus' : list Table) (t : TableId) :
  mementoStep rows menus menus' →
  ancestorsOK rows menus t → ancestorsOK rows menus' t.
Proof.
  intros [Hs Hm]. induction 1 as [t tbl hdr Ht H0 Hroot
                                  | t tbl hdr p ptbl phdr Ht H0 Hsub Hp Hp0 Hval _ IH].
  - destruct (Forall2_lookup_l _ _ _ _ _ Hs Ht) as (tbl' & Ht' & Hst).
    destruct (Forall2_lookup_l _ _ _ _ _ Hst H0) as (hdr' & H0' & Hsh).
    destruct (sameShape_facts hdr hdr' Hsh) as (_ & _ & _ & _ & Hty & Hsub).
    eapply ancestors_none; [eassumption | eassumption |].
    rewrite <- Hty, <- Hsub. assumption.
  - destruct (Forall2_lookup_l _ _ _ _ _ Hs Ht) as (tbl' & Ht' & Hst).
    destruct (Forall2_lookup_l _ _ _ _ _ Hst H0) as (hdr' & H0' & Hsh).
    destruct (sameShape_facts hdr hdr' Hsh) as (_ & _ & _ & _ & _ & Hsub').
    destruct (Forall2_lookup_l _ _ _ _ _ Hs Hp) as (ptbl' & Hp' & Hsp).
    destruct (Forall2_lookup_l _ _ _ _ _ Hsp Hp0) as (phdr' & Hp0' & _).
    eapply ancestors_parent; try eassumption; [congruence|].
    destruct (Hm p ptbl ptbl' phdr phdr' Hp Hp' Hp0 Hp0') as [Heq|Hnew];
      [|assumption].
    rewrite Heq. eapply validPos_sameTable; eassumption.
Qed.

Lemma storeItem_mementoStep (rows : Z) (m : LcdMenu) (tbl : Table) (i : Z)
    (it it' : MenuItem) :
  currentTable m = Some tbl → tableAt tbl i = Some it → sameShape it it' →
  i ≠ 0 ∨ validMemento rows tbl (getMemento it') →
  mementoStep rows (menus m) (menus (storeItem m i it')).
Proof.
  intros Hcur [Hi Hit]%tableAt_Some Hsh Hmem.
  unfold storeItem. rewrite Hcur. nav. unfold currentTable in Hcur.
  pose proof (sameTable_insert tbl (Z.to_nat i) it it' Hit Hsh) as Hst.
  split; [eapply sameTables_insert; eassumption|].
  intros t tbl0 tbl0' hdr hdr' Ht Ht' H0 H0'.
  destruct (decide (t = currentMenuTable m)) as [->|Hne].
  - rewrite list_lookup_insert_eq in Ht' by (eapply lookup_lt_Some, Hcur).
    injection Ht' as <-. assert (tbl0 = tbl) by congruence. subst tbl0.
    destruct (decide (Z.to_nat i = 0%nat)) as [Hz|Hnz].
    + rewrite Hz in H0'.
      rewrite list_lookup_insert_eq in H0' by (eapply lookup_lt_Some, H0).
      injection H0' as <-. right.
      destruct Hmem as [Hi0|Hval]; [lia|].
      eapply validPos_sameTable; eassumption.
    + rewrite list_lookup_insert_ne in H0' by assumption. left. congruence.
  - rewrite list_lookup_insert_ne in Ht' by congruence. left. congruence.
Qed.

(** The invariant only reads the cursor, the window, the number of rows, the
    active table and the store. *)
Lemma Inv_step (m m' : LcdMenu) :
  Inv m →
  maxRows m' = maxRows m → currentMenuTable m' = currentMenuTable m →
  currentMenuSize m' = currentMenuSize m →
  cursorPosition m' = cursorPosition m → top m' = top m → bottom m' = bottom m →
  mementoStep (maxRows m) (menus m) (menus m') →
  Inv m'.
Proof.
  intros (Hrows & Hstore & (tbl & Hcur & Hsize & Hpos) & Hanc)
    Hr Ht Hs Hc Htop Hbot Hstep.
  unfold Inv. rewrite Hr, Ht, Hs, Hc, Htop, Hbot.
  split; [assumption|]. split; [eapply wfStore_sameTables; [apply Hstep | assumption]|].
  split; [|eapply ancestorsOK_step; eassumption].
  destruct Hstep as [Hsame _]. unfold currentTable in *. rewrite Ht.
  destruct (Forall2_lookup_l _ _ _ _ _ Hsame Hcur) as (tbl' & Hcur' & Hst).
  exists tbl'. split; [assumption|].
  split; [rewrite <- (Forall2_length _ _ _ Hst); assumption|].
  eapply validPos_sameTable; eassumption.
Qed.

Lemma Inv_navOn (m : LcdMenu) :
  Inv m →
  ∃ tbl, navOn m tbl
         ∧ validPos (maxRows m) tbl (top m) (bottom m) (cursorPosition m).
Proof.
  intros (Hrows & [Hwf _] & (tbl & Hcur & Hsize & Hpos) & _).
  exists tbl. split; [|assumption].
  split; [assumption|]. split; [exact (Hwf _ _ Hcur)|]. split; [assumption|].
  destruct Hpos as (Ht & Hc & _). lia.
Qed.

(** Two controllers that differ in nothing the invariant reads. *)
Definition sameNavStore (m m' : LcdMenu) : Prop :=
  maxRows m' = maxRows m ∧ currentMenuTable m' = currentMenuTable m
  ∧ currentMenuSize m' = currentMenuSize m
  ∧ cursorPosition m' = cursorPosition m ∧ top m' = top m
  ∧ bottom m' = bottom m ∧ menus m' = menus m.

Lemma sameNavStore_refl (m : LcdMenu) : sameNavStore m m.
Proof. repeat split. Qed.

Lemma sameNavStore_trans (m1 m2 m3 : LcdMenu) :
  sameNavStore m1 m2 → sameNavStore m2 m3 → sameNavStore m1 m3.
Proof. unfold sameNavStore. intuition congruence. Qed.

Lemma sameNavStore_update (m : LcdMenu) : sameNavStore m (update m).
Proof. unfold update. destruct (enableUpdate m); repeat split. Qed.

Lemma sameNavStore_emit (evs : list Event) (m : LcdMenu) :
  sameNavStore m (emit evs m).
Proof. repeat split. Qed.

Lemma sameNavStore_edit (b : bool) (m : LcdMenu) :
  sameNavStore m (set_isEditModeEnabled b m).
Proof. repeat split. Qed.

Lemma Inv_sameNavStore (m m' : LcdMenu) : Inv m → sameNavStore m m' → Inv m'.
Proof.
  intros HI (Hr & Ht & Hs & Hc & Htop & Hbot & Hm).
  apply (Inv_step m m' HI); try assumption. rewrite Hm. apply mementoStep_refl.
Qed.

Lemma Inv_storeItem (m : LcdMenu) (i : Z) (it it' : MenuItem) :
  Inv m → itemAt m i = Some it → sameShape it it' → i ≠ 0 →
  Inv (storeItem m i it').
Proof.
  intros HI Hat Hsh Hi. unfold itemAt in Hat.
  destruct (currentTable m) as [tbl|] eqn:Hcur; [|discriminate].
  cbn [mbind option_bind] in Hat.
  apply (Inv_step m _ HI); autorewrite with store; try reflexivity.
  eapply storeItem_mementoStep; eauto.
Qed.

Lemma Inv_down (m : LcdMenu) :
  Inv m → ∃ b m', down m = Some (b, m') ∧ Inv m'.
Proof.
  intros HI. destruct (Inv_navOn m HI) as (tbl & Hnav & Hpos).
  destruct (down_spec m tbl Hnav) as (w & _ & [[_ Hrun] | (_ & j & Hj & Hv & _ & Hrun)]).
  { exists false, m. auto. }
  exists true, (movedDown m j w). split; [assumption|].
  destruct (movedDown_facts m j w) as (Hc' & Hcur' & Hs' & _ & Hr' & Hm' & Ht' & Hwin).
  destruct HI as (Hrows & Hstore & _ & Hanc).
  destruct Hnav as (Hcur & _ & Hsize & _).
  destruct Hpos as (Ht & Hc & Hvt & Hvc & Hb).
  unfold Inv. rewrite Hr', Hm', Ht', Hcur', Hs', Hc'.
  split; [assumption|]. split; [assumption|]. split; [|assumption].
  exists tbl. split; [assumption|]. split; [assumption|].
  destruct ((j >? bottom m) && w); injection Hwin as -> ->.
  - split; [lia|]. split; [lia|]. auto.
  - split; [lia|]. split; [lia|]. auto.
Qed.

Lemma Inv_up (m : LcdMenu) :
  Inv m → ∃ b m', up m = Some (b, m') ∧ Inv m'.
Proof.
  intros HI. destruct (Inv_navOn m HI) as (tbl & Hnav & Hpos).
  destruct (wasAtTop_defined m tbl Hnav) as (b & _ & _ & Hw).
  destruct (up_spec m tbl Hnav)
    as (w & Hw' & [[_ Hrun] | (_ & j & Hj & Hv & Hhid & Hrun)]).
  { exists false, m. auto. }
  exists true, (movedUp m j w). split; [assumption|].
  destruct (movedUp_facts m j w) as (Hc' & Hcur' & Hs' & _ & Hr' & Hm' & Ht' & Hwin).
  destruct HI as (Hrows & Hstore & _ & Hanc).
  destruct Hnav as (Hcur & _ & Hsize & _).
  destruct Hpos as (Ht & Hc & Hvt & Hvc & Hb).
  unfold Inv. rewrite Hr', Hm', Ht', Hcur', Hs', Hc'.
  split; [assumption|]. split; [assumption|]. split; [|assumption].
  exists tbl. split; [assumption|]. split; [assumption|].
  destruct (Z.ltb_spec j (top m)) as [Hlt|Hge]; cbn [andb] in Hwin.
  - (* the cursor has come above [top]: it was on [top], so [wasAtTop] holds *)
    assert (Htc : top m = cursorPosition m).
    { destruct (Z.eq_dec (top m) (cursorPosition m)); [assumption|exfalso].
      apply (hidden_not_visible tbl (top m)); [apply Hhid; lia | assumption]. }
    assert (w = true).
    { rewrite Hw in Hw'. injection Hw' as <-. destruct b; [reflexivity|].
      rewrite Htc, Z.sub_diag. unfold constrain.
      destruct (Z.gtb_spec 0 (maxRows m - 1)); [lia|]. reflexivity. }
    subst w. injection Hwin as -> ->.
    split; [lia|]. split; [lia|]. auto.
  - injection Hwin as -> ->. split; [lia|]. split; [lia|]. auto.
Qed.

Lemma enterSubMenu_run (m : LcdMenu) (lnk hdr : MenuItem) (child : TableId)
    (ctbl : Table) (size : Z) :
  getSubMenu lnk = Some child → itemAt m 0 = Some hdr →
  let ms := storeItem m 0
              (remember hdr (top m) (bottom m) (cursorPosition m)) in
  menus ms !! child = Some ctbl → getMenuSize ctbl = Some size →
  enterSubMenu m lnk
  = Some (update (set_currentMenu child size
                    (set_cursorPosition 1
                       (set_bottom (maxRows m) (set_top 1 ms))))).
Proof.
  intros Hsub Hat0 ms Hchild Hsize. unfold enterSubMenu.
  rewrite Hsub, Hat0. cbn [mbind option_bind].
  fold (remember hdr (top m) (bottom m) (cursorPosition m)). fold ms.
  change (menus (set_cursorPosition 1
                   (set_bottom (maxRows (set_top 1 ms)) (set_top 1 ms))))
    with (menus ms).
  rewrite Hchild. cbn [mbind option_bind]. rewrite Hsize. cbn [mbind option_bind].
  change (maxRows (set_top 1 ms)) with (maxRows ms).
  replace (maxRows ms) with (maxRows m) by (symmetry; apply storeItem_maxRows).
  reflexivity.
Qed.

Lemma Inv_enterSubMenu (m : LcdMenu) (tbl : Table) (lnk : MenuItem)
    (child : TableId) :
  Inv m → currentTable m = Some tbl →
  tableAt tbl (cursorPosition m) = Some lnk →
  kind lnk = KSubMenu (Some child) →
  ∃ m', enterSubMenu m lnk = Some m' ∧ Inv m'.
Proof.
  intros HI Hcur Hlnk Hk.
  destruct (Inv_navOn m HI) as (tbl0 & Hnav & Hpos).
  assert (tbl0 = tbl) by (destruct Hnav as [Hcur0 _]; congruence). subst tbl0.
  destruct Hnav as (_ & Hwf & Hsize & Hc).
  destruct (wfTable_facts tbl Hwf) as (_ & _ & (hdr & H0 & Hish) & _).
  assert (Hat0 : itemAt m 0 = Some hdr) by (unfold itemAt; rewrite Hcur; exact H0).
  set (hdr' := remember hdr (top m) (bottom m) (cursorPosition m)).
  set (ms := storeItem m 0 hdr').
  assert (Hmem : validMemento (maxRows m) tbl (getMemento hdr')).
  { unfold hdr'. rewrite remember_memento by assumption. exact Hpos. }
  assert (Hstep : mementoStep (maxRows m) (menus m) (menus ms)).
  { eapply storeItem_mementoStep; eauto. apply sameShape_remember. }
  assert (HIs : Inv ms).
  { apply (Inv_step m ms HI); unfold ms; autorewrite with store; auto. }
  destruct HIs as (Hrows & Hstore' & (tbl' & Hcur' & Hsize' & Hpos') & Hanc').
  (* the link, read from the store after the write to the header *)
  assert (Hlnk' : tableAt tbl' (cursorPosition m) = Some lnk).
  { unfold ms in Hcur'. rewrite (storeItem_currentTable m 0 hdr' tbl Hcur) in Hcur'.
    injection Hcur' as <-. rewrite tableAt_insert_ne by lia. assumption. }
  apply tableAt_Some in Hlnk' as [_ Hlnk'].
  destruct Hstore' as [Hwf' Hlinks'].
  assert (Hty : getType lnk = MENU_ITEM_SUB_MENU) by (unfold getType; rewrite Hk; reflexivity).
  assert (Hsub : getSubMenu lnk = Some child) by (unfold getSubMenu; rewrite Hk; reflexivity).
  destruct (Hlinks' _ _ _ _ child Hcur' Hlnk' Hty Hsub)
    as (ctbl & chdr & Hchild & Hc0 & Hcty & Hcsub & Hv1 & Hlen).
  destruct (wfTable_facts ctbl (Hwf' _ _ Hchild)) as (_ & _ & _ & _ & Hcsize).
  eexists. split.
  { apply (enterSubMenu_run m lnk hdr child ctbl _ Hsub Hat0 Hchild Hcsize). }
  fold hdr'. fold ms.
  eapply Inv_sameNavStore; [|apply sameNavStore_update].
  unfold Inv. nav. unfold currentTable. nav.
  replace (maxRows ms) with (maxRows m) in *
    by (unfold ms; rewrite storeItem_maxRows; reflexivity).
  split; [assumption|]. split; [split; assumption|]. split.
  - exists ctbl. split; [assumption|]. split; [reflexivity|].
    split; [lia|]. split; [lia|]. split; [assumption|]. split; [assumption|].
    replace (1 + maxRows m - 1) with (maxRows m) by lia.
    symmetry. apply wrap8_small. lia.
  - assert (Htab : currentMenuTable ms = currentMenuTable m)
      by (unfold ms; apply storeItem_currentMenuTable).
    unfold currentTable in Hcur'. rewrite Htab in Hcur', Hanc'.
    assert (H0' : tbl' !! 0%nat = Some hdr').
    { unfold ms in Hcur'. unfold currentTable in Hcur.
      assert (Hms : menus (storeItem m 0 hdr') !! currentMenuTable m
                    = Some (<[0%nat := hdr']> tbl)).
      { unfold storeItem, currentTable. rewrite Hcur. nav.
        apply list_lookup_insert_eq. eapply lookup_lt_Some, Hcur. }
      rewrite Hms in Hcur'. injection Hcur' as <-.
      apply list_lookup_insert_eq. eapply lookup_lt_Some, H0. }
    eapply (ancestors_parent _ _ child ctbl chdr (currentMenuTable m) tbl' hdr');
      try eassumption.
    + congruence.
    + unfold validMemento, hdr'. rewrite remember_memento by assumption. nav.
      unfold ms in Hpos'. autorewrite with store in Hpos'. exact Hpos'.
Qed.

Lemma Inv_cursor_item (m : LcdMenu) :
  Inv m →
  ∃ tbl it, currentTable m = Some tbl
            ∧ tableAt tbl (cursorPosition m) = Some it
            ∧ itemAt m (cursorPosition m) = Some it
            ∧ cursorPosition m ≠ 0.
Proof.
  intros HI. destruct (Inv_navOn m HI) as (tbl & (Hcur & _) & Hpos).
  destruct Hpos as (Ht & _ & _ & (it & Hit & _) & _).
  exists tbl, it. split; [assumption|]. split; [assumption|].
  split; [unfold itemAt; rewrite Hcur; exact Hit | lia].
Qed.

(** Writing a payload to the node under the cursor, switching edit mode,
    calling back and redrawing keep the invariant. *)
Ltac inv_payload HI Hat :=
  repeat first
    [ assumption
    | apply sameShape_refl
    | match goal with
      | |- Inv (update _) =>
          eapply Inv_sameNavStore; [|apply sameNavStore_update]
      | |- Inv (drawCursor _) =>
          eapply Inv_sameNavStore; [|apply sameNavStore_emit]
      | |- Inv (emit _ _) =>
          eapply Inv_sameNavStore; [|apply sameNavStore_emit]
      | |- Inv (set_isEditModeEnabled _ _) =>
          eapply Inv_sameNavStore; [|apply sameNavStore_edit]
      | |- Inv (if ?b then _ else _) => destruct b
      | |- Inv (storeItem _ _ _) =>
          eapply Inv_storeItem; [| exact Hat | | ]
      end ].

Lemma Inv_enter (m : LcdMenu) : Inv m → ∃ m', enter m = Some m' ∧ Inv m'.
Proof.
  intros HI. destruct (Inv_cursor_item m HI) as (tbl & it & Hcur & Hit & Hat & Hc).
  unfold enter. rewrite Hat. cbn [mbind option_bind].
  destruct (kind it) as [mm|p mm|[child|]|cb|on cb|cb|l|p|] eqn:Hk;
    try (exists m; split; [reflexivity | assumption]).
  - apply (Inv_enterSubMenu m tbl it child HI Hcur Hit Hk).
  - exists m. split; [|assumption]. unfold enterSubMenu, getSubMenu.
    rewrite Hk. reflexivity.
  - eexists. split; [reflexivity|]. inv_payload HI Hat.
  - eexists. split; [reflexivity|].
    assert (sameShape it (mkItem (hidden it) (KToggle (negb on) cb)))
      by (split; [reflexivity | simpl; rewrite Hk; reflexivity]).
    inv_payload HI Hat.
  - destruct (negb (isInEditMode m)); [|exists m; auto].
    eexists. split; [reflexivity|]. inv_payload HI Hat.
  - destruct (negb (isInEditMode m)); [|exists m; auto].
    eexists. split; [reflexivity|].
    assert (sameShape it (mkItem (hidden it) (KList (ItemList.saveProgress l))))
      by (split; [reflexivity | simpl; rewrite Hk; reflexivity]).
    assert (HI' : Inv (set_isEditModeEnabled true m)) by inv_payload HI Hat.
    change (itemAt m (cursorPosition m))
      with (itemAt (set_isEditModeEnabled true m) (cursorPosition m)) in Hat.
    inv_payload HI' Hat.
  - destruct (negb (isInEditMode m)); [|exists m; auto].
    eexists. split; [reflexivity|].
    assert (sameShape it (mkItem (hidden it) (KProgress (ItemProgress.saveProgress p))))
      by (split; [reflexivity | simpl; rewrite Hk; reflexivity]).
    assert (HI' : Inv (set_isEditModeEnabled true m)) by inv_payload HI Hat.
    change (itemAt m (cursorPosition m))
      with (itemAt (set_isEditModeEnabled true m) (cursorPosition m)) in Hat.
    inv_payload HI' Hat.
Qed.

Lemma ItemType_eqb_eq (a b : ItemType) : ItemType_eqb a b = true ↔ a = b.
Proof. destruct a, b; simpl; split; congruence. Qed.

Lemma Inv_back_leave (m : LcdMenu) :
  Inv m → ∃ m', back_leave m = Some m' ∧ Inv m'.
Proof.
  intros HI. destruct (Inv_navOn m HI) as (tbl & (Hcur & Hwf & _) & _).
  destruct (wfTable_facts tbl Hwf) as (_ & _ & (hdr & H0 & _) & _).
  assert (Hat0 : itemAt m 0 = Some hdr) by (unfold itemAt; rewrite Hcur; exact H0).
  unfold back_leave, isSubMenu. rewrite Hat0. cbn [mbind option_bind].
  destruct (ItemType_eqb (getType hdr) MENU_ITEM_SUB_MENU_HEADER) eqn:Hty;
    [|exists m; auto].
  apply ItemType_eqb_eq in Hty. unfold leaveSubMenu.
  destruct (getSubMenu hdr) as [p|] eqn:Hsub; [|exists m; auto].
  destruct HI as (Hrows & Hstore & _ & Hanc). unfold currentTable in Hcur.
  inversion Hanc as [t tbl1 hdr1 Ht1 H01 Hroot
                    | t tbl1 hdr1 p1 ptbl phdr Ht1 H01 Hsub1 Hp Hp0 Hval Hancp];
    subst t; assert (tbl1 = tbl) by congruence; subst tbl1;
    assert (hdr1 = hdr) by congruence; subst hdr1.
  { destruct Hroot; congruence. }
  assert (p1 = p) by congruence. subst p1.
  destruct Hstore as [Hwfs Hlinks].
  destruct (wfTable_facts ptbl (Hwfs _ _ Hp)) as (_ & _ & _ & _ & Hsize).
  rewrite Hp. cbn [mbind option_bind]. rewrite Hsize. cbn [mbind option_bind].
  unfold itemAt, currentTable. nav. rewrite Hp. cbn [mbind option_bind].
  change (tableAt ptbl 0) with (ptbl !! 0%nat). rewrite Hp0.
  cbn [mbind option_bind]. eexists. split; [reflexivity|].
  eapply Inv_sameNavStore; [|apply sameNavStore_update].
  unfold Inv, currentTable. nav.
  split; [assumption|]. split; [split; assumption|]. split; [|assumption].
  exists ptbl. split; [assumption|]. split; [reflexivity|]. exact Hval.
Qed.

Lemma Inv_back (editCancelled : bool) (m : LcdMenu) :
  Inv m → ∃ m', back editCancelled m = Some m' ∧ Inv m'.
Proof.
  intros HI. destruct (Inv_cursor_item m HI) as (tbl & it & Hcur & Hit & Hat & Hc).
  unfold back. rewrite Hat. cbn [mbind option_bind].
  destruct (isInEditMode m); [|apply Inv_back_leave; assumption].
  assert (HI' : Inv (set_isEditModeEnabled false m)) by inv_payload HI Hat.
  assert (Hat' : itemAt (set_isEditModeEnabled false m)
                   (cursorPosition (set_isEditModeEnabled false m)) = Some it)
    by exact Hat.
  destruct (kind it) as [mm|p mm|child|cb|on cb|cb|l|p|] eqn:Hk;
    try (apply Inv_back_leave; assumption).
  - eexists. split; [reflexivity|]. inv_payload HI Hat.
  - eexists. split; [reflexivity|].
    assert (∀ l', sameShape it (mkItem (hidden it) (KList l')))
      by (intros l'; split; [reflexivity | simpl; rewrite Hk; reflexivity]).
    eapply Inv_sameNavStore; [|apply sameNavStore_update].
    match goal with |- Inv (if ?b then _ else _) => destruct b end;
      [eapply Inv_sameNavStore; [|apply sameNavStore_emit]|];
      (eapply Inv_storeItem; [exact HI' | exact Hat' | auto | exact Hc]).
  - eexists. split; [reflexivity|].
    assert (∀ p', sameShape it (mkItem (hidden it) (KProgress p')))
      by (intros p'; split; [reflexivity | simpl; rewrite Hk; reflexivity]).
    eapply Inv_sameNavStore; [|apply sameNavStore_update].
    match goal with |- Inv (if ?b then _ else _) => destruct b end;
      [eapply Inv_sameNavStore; [|apply sameNavStore_emit]|];
      (eapply Inv_storeItem; [exact HI' | exact Hat' | auto | exact Hc]).
Qed.

Lemma Inv_step_input (i : Input) (m : LcdMenu) :
  Inv m → ∃ m', step i m = Some m' ∧ Inv m'.
Proof.
  intros HI. destruct i as [| | |c]; cbn [step].
  - destruct (Inv_up m HI) as (b & m' & -> & HI'). eauto.
  - destruct (Inv_down m HI) as (b & m' & -> & HI'). eauto.
  - apply Inv_enter, HI.
  - apply Inv_back, HI.
Qed.

Lemma Inv_run (inputs : list Input) (m : LcdMenu) :
  Inv m → ∃ m', run inputs m = Some m' ∧ Inv m'.
Proof.
  revert m. induction inputs as [|i inputs IH]; intros m HI.
  - exists m. auto.
  - destruct (Inv_step_input i m HI) as (m1 & Hstep & HI1).
    destruct (IH m1 HI1) as (m' & Hrun & HI').
    exists m'. cbn [run]. rewrite Hstep. auto.
Qed.

Lemma Inv_cursor (m : LcdMenu) :
  Inv m →
  top m <= cursorPosition m
  ∧ bottom m = wrap8 (top m + maxRows m - 1)
  ∧ onVisibleEntry m.
Proof.
  intros HI. destruct (Inv_navOn m HI) as (tbl & (Hcur & Hwf & Hsize & _) & Hpos).
  destruct Hpos as (Ht & Hc & _ & Hvc & Hb).
  split; [lia|]. split; [assumption|].
  apply (visible_entry m tbl (cursorPosition m)); auto. lia.
Qed.

(** The state after the constructor and [setupLcdWithMenu] satisfies the
    invariant when the store is well formed, the display has between 1 and
    255 rows, and the root table starts with a visible entry and has no
    parent to go back to. *)
Lemma Inv_setup (rows : Z) (tables : list Table) (root : TableId)
    (tbl : Table) (hdr : MenuItem) :
  1 <= rows <= 255 → wfStore tables →
  tables !! root = Some tbl → tbl !! 0%nat = Some hdr →
  getType hdr ≠ MENU_ITEM_SUB_MENU_HEADER ∨ getSubMenu hdr = None →
  visibleAt tbl 1 → 3 <= Z.of_nat (length tbl) →
  ∃ m0, setupLcdWithMenu root (LcdMenu_new rows tables) = Some m0
        ∧ Inv m0
        ∧ (cursorPosition m0, top m0, bottom m0) = (1, 1, rows).
Proof.
  intros Hrows Hstore Hroot H0 Hnone Hv1 Hlen.
  destruct (wfTable_facts tbl (proj1 Hstore _ _ Hroot)) as (_ & _ & _ & _ & Hsize).
  unfold setupLcdWithMenu. cbn [menus LcdMenu_new]. rewrite Hroot.
  cbn [mbind option_bind]. rewrite Hsize. cbn [mbind option_bind].
  eexists. split; [reflexivity|]. split; [|reflexivity].
  eapply Inv_sameNavStore; [|apply sameNavStore_update].
  unfold Inv, currentTable. nav. split; [assumption|]. split; [assumption|].
  split.
  - exists tbl. split; [assumption|]. split; [reflexivity|].
    unfold LcdMenu_new. nav.
    split; [lia|]. split; [lia|]. split; [assumption|]. split; [assumption|].
    replace (1 + rows - 1) with rows by lia. symmetry. apply wrap8_small. lia.
  - eapply ancestors_none; eassumption.
Qed.

(** The invariant is kept.  From every state that satisfies the invariant
    [Inv] (a well-formed store of tables, a display of 1 to 255 rows, [top]
    and the cursor on visible entries of the active table with [top] not
    below the cursor, [bottom = top + maxRows - 1], and the same for the
    mementos of the tables up the parent links), every sequence of [up()],
    [down()], [enter()] and [back()] runs to a state in which
    [top <= cursorPosition], [bottom] is [top + maxRows - 1] as a [uint8_t],
    and the node under the cursor is neither hidden nor the header nor the
    end marker; the invariant holds again.  [cursorPosition <= bottom] is
    not part of it. *)
Lemma run_keeps_invariant (m : LcdMenu) (inputs : list Input) :
  Inv m →
  ∃ m', run inputs m = Some m'
        ∧ top m' <= cursorPosition m'
        ∧ bottom m' = wrap8 (top m' + maxRows m' - 1)
        ∧ onVisibleEntry m'
        ∧ Inv m'.
Proof.
  intros HI. destruct (Inv_run inputs m HI) as (m' & Hrun & HI').
  destruct (Inv_cursor m' HI') as (H1 & H2 & H3).
  exists m'. auto 6.
Qed.

(** The root table with a link and its sub-menu, after set-up on two rows. *)
Definition twoLevels : LcdMenu :=
  mkMenu 1 1 false false 2 2 0%nat 6 true [rootWithLink; settings] [EvUpdate].

Lemma twoLevels_wfStore : wfStore [rootWithLink; settings].
Proof.
  split.
  - intros [|[|t]] tbl; simpl; intros [= <-]; reflexivity.
  - intros [|[|t]] tbl i it child; simpl; try discriminate; intros [= <-].
    + destruct i as [|[|[|[|[|[|i]]]]]]; simpl; try discriminate;
        intros [= <-]; try discriminate.
      intros _ [= <-]. exists settings, (subHeader 0).
      split; [reflexivity|]. split; [reflexivity|]. split; [reflexivity|].
      split; [reflexivity|]. split; [|simpl; lia].
      eexists. split; reflexivity.
    + destruct i as [|[|[|[|i]]]]; simpl; try discriminate;
        intros [= <-]; discriminate.
Qed.

(** What the invariant asks of a linked table is needed: [enterSubMenu] puts
    the cursor on position 1 of the child table without looking at it, so a
    child whose first entry is hidden leaves the cursor on a hidden node. *)
Example enter_hidden_first_entry :
  let child := [subHeader 0; command true; command false; endOfMenu] in
  let m := mkMenu 1 1 false false 2 2 0%nat 3 true
             [[rootHeader; subMenuLink 1; endOfMenu]; child] [] in
  (λ m', isHidden <$> itemAt m' (cursorPosition m')) <$> enter m
  = Some (Some true).
Proof. reflexivity. Qed.

(** * Further properties of the code *)

(** ** getMenuSize *)

(** X1. [getMenuSize] finds the first end marker: when it returns [s], the
    node at [s - 1] is an end marker, no node before it is one, and [s]
    counts nodes of the array; it runs off the array exactly when no node is
    an end marker. *)
Theorem getMenuSize_first_end (tbl : Table) :
  match getMenuSize tbl with
  | Some s =>
      1 <= s <= Z.of_nat (length tbl)
      ∧ (∃ e, tableAt tbl (s - 1) = Some e ∧ isEnd e = true)
      ∧ ∀ i it, 0 <= i < s - 1 → tableAt tbl i = Some it → isEnd it = false
  | None => ∀ i it, tableAt tbl i = Some it → isEnd it = false
  end.
Proof.
  unfold getMenuSize.
  assert (H : ∀ (rest : Table) (s : Z),
             match getMenuSize_from rest s with
             | Some r =>
                 s + 1 <= r <= s + Z.of_nat (length rest)
                 ∧ (∃ e, tableAt rest (r - 1 - s) = Some e ∧ isEnd e = true)
                 ∧ ∀ i it, 0 <= i < r - 1 - s → tableAt rest i = Some it →
                           isEnd it = false
             | None => ∀ i it, tableAt rest i = Some it → isEnd it = false
             end).
  { induction rest as [|x rest IH]; intros s.
    - simpl. intros i it [_ Hit]%tableAt_Some. discriminate.
    - rewrite getMenuSize_from_cons. fold (isEnd x).
      destruct (isEnd x) eqn:Hx.
      + split; [cbn [length]; lia|]. split.
        * exists x. replace (s + 1 - 1 - s) with 0 by lia. auto.
        * intros i it Hi. lia.
      + specialize (IH (s + 1)). destruct (getMenuSize_from rest (s + 1)) as [r|].
        * destruct IH as (Hr & (e & He & Hend) & Hbefore).
          split; [cbn [length]; lia|]. split.
          -- exists e. split; [|assumption].
             apply tableAt_Some in He as [Hge He]. apply tableAt_Some.
             split; [lia|]. replace (Z.to_nat (r - 1 - s))
               with (S (Z.to_nat (r - 1 - (s + 1)))) by lia. exact He.
          -- intros i it Hi [Hge Hit]%tableAt_Some.
             destruct (Z.eq_dec i 0) as [->|Hne]; [simpl in Hit; congruence|].
             apply (Hbefore (i - 1) it); [lia|]. apply tableAt_Some.
             split; [lia|]. replace (Z.to_nat i) with (S (Z.to_nat (i - 1))) in Hit
               by lia. exact Hit.
        * intros i it [Hge Hit]%tableAt_Some.
          destruct (Z.eq_dec i 0) as [->|Hne]; [simpl in Hit; congruence|].
          apply (IH (i - 1) it). apply tableAt_Some.
          split; [lia|]. replace (Z.to_nat i) with (S (Z.to_nat (i - 1))) in Hit
            by lia. exact Hit. }
  specialize (H tbl 0). destruct (getMenuSize_from tbl 0) as [s|]; [|exact H].
  replace (s - 1 - 0) with (s - 1) in H by lia. simpl in H. exact H.
Qed.

(** ** ItemList::setItemIndex *)

(** X2. On a list of [n >= 1] items [setItemIndex] clamps: the stored index
    is one of the items; a request within the items is stored as it is, a
    request above them gives the last item; the other fields are left alone;
    and the change callback, when there is one, receives the stored index. *)
Theorem setItemIndex_clamps (l : ItemList.t) (arg : Z) :
  1 <= ItemList.itemCount l <= 255 → 0 <= arg <= 65535 →
  let l' := fst (ItemList.setItemIndex l arg) in
  0 <= ItemList.itemIndex l' <= ItemList.itemCount l - 1
  ∧ (arg <= ItemList.itemCount l - 1 → ItemList.itemIndex l' = arg)
  ∧ (ItemList.itemCount l - 1 < arg →
     ItemList.itemIndex l' = ItemList.itemCount l - 1)
  ∧ l' = withIndex l (ItemList.itemIndex l')
  ∧ snd (ItemList.setItemIndex l arg)
    = if ItemList.changeCallback l
      then [EvValueChanged (ItemList.itemIndex l')] else [].
Proof.
  intros Hn Harg. unfold ItemList.setItemIndex. cbn [fst snd].
  unfold wrap16. rewrite (Z.mod_small arg) by lia. unfold constrain.
  destruct (Z.ltb_spec arg 0); [lia|].
  destruct (Z.gtb_spec arg (ItemList.itemCount l - 1));
    rewrite Z.mod_small by lia; cbn [ItemList.itemIndex];
    (split; [lia|]); (split; [intros; lia|]); (split; [intros; lia|]);
    split; reflexivity.
Qed.

Lemma setItemIndex_clamps_witness :
  (1 <= ItemList.itemCount colours <= 255 ∧ 0 <= 7 <= 65535)
  ∧ ItemList.itemIndex (fst (ItemList.setItemIndex colours 7)) = 2.
Proof.
  split; [simpl; lia|].
  apply (setItemIndex_clamps colours 7); simpl; lia.
Defined.

(** ** ItemProgress: what the guards do achieve *)

(** X3. When the step length divides the distance from the value to the
    lower bound and the distance between the bounds, [increment()] and
    [decrement()] saturate: no sequence of them takes the value out of
    [MIN_PROGRESS, MAX_PROGRESS]. *)
Theorem progress_saturates_on_grid (MIN_PROGRESS MAX_PROGRESS : Z)
    (ops : list ProgressBounds.Op) (p : ItemProgress.t) :
  0 <= MIN_PROGRESS → MAX_PROGRESS <= 65535 →
  ProgressBounds.inBounds MIN_PROGRESS MAX_PROGRESS p →
  0 < ItemProgress.stepLength p →
  (ItemProgress.stepLength p | ItemProgress.progress p - MIN_PROGRESS) →
  (ItemProgress.stepLength p | MAX_PROGRESS - MIN_PROGRESS) →
  ProgressBounds.inBounds MIN_PROGRESS MAX_PROGRESS
    (ProgressBounds.applyAll MIN_PROGRESS MAX_PROGRESS ops p).
Proof.
  intros Hmin Hmax Hb Hs Hp Hm.
  apply ProgressBounds.applyAll_aligned; try assumption.
  split; [assumption|]. split; assumption.
Qed.

Lemma progress_saturates_on_grid_witness :
  ProgressBounds.inBounds 0 1000
    (ProgressBounds.applyAll 0 1000 (repeat ProgressBounds.Increment 300)
       (ItemProgress.mk false 0 0 5)).
Proof.
  apply progress_saturates_on_grid; simpl; try lia.
  - unfold ProgressBounds.inBounds. simpl. lia.
  - exists 0. reflexivity.
  - exists 200. reflexivity.
Defined.

(** X4. For any step length the value passes a bound by less than one step:
    starting within the bounds, every sequence of [increment()] and
    [decrement()] keeps it within [MIN_PROGRESS - (step - 1)] and
    [MAX_PROGRESS + (step - 1)], as long as these two fit a [uint16_t]. *)
Theorem progress_overshoot_bounded (MIN_PROGRESS MAX_PROGRESS : Z)
    (ops : list ProgressBounds.Op) (p : ItemProgress.t) :
  let s := ItemProgress.stepLength p in
  1 <= s → s - 1 <= MIN_PROGRESS → MAX_PROGRESS + (s - 1) <= 65535 →
  ProgressBounds.inBounds MIN_PROGRESS MAX_PROGRESS p →
  let p' := ProgressBounds.applyAll MIN_PROGRESS MAX_PROGRESS ops p in
  MIN_PROGRESS - (s - 1) <= ItemProgress.progress p' <= MAX_PROGRESS + (s - 1)
  ∧ ItemProgress.stepLength p' = s.
Proof.
  intros s Hs Hlo Hhi Hb. cbv zeta.
  assert (Hb' : MIN_PROGRESS - (s - 1) <= ItemProgress.progress p
                <= MAX_PROGRESS + (s - 1))
    by (unfold ProgressBounds.inBounds in Hb; lia).
  clear Hb. subst s. revert p Hs Hlo Hhi Hb'.
  induction ops as [|op ops IH]; intros p Hs Hlo Hhi Hb; [auto|].
  cbn [ProgressBounds.applyAll fold_left].
  assert (Hstep : ItemProgress.stepLength (ProgressBounds.apply MIN_PROGRESS MAX_PROGRESS p op)
                  = ItemProgress.stepLength p
                  ∧ MIN_PROGRESS - (ItemProgress.stepLength p - 1)
                    <= ItemProgress.progress
                         (ProgressBounds.apply MIN_PROGRESS MAX_PROGRESS p op)
                    <= MAX_PROGRESS + (ItemProgress.stepLength p - 1)).
  { destruct op; simpl.
    - unfold ItemProgress.increment.
      destruct (Z.geb_spec (ItemProgress.progress p) MAX_PROGRESS); [auto|].
      simpl. unfold wrap16. rewrite Z.mod_small by lia. split; [reflexivity|lia].
    - unfold ItemProgress.decrement.
      destruct (Z.leb_spec (ItemProgress.progress p) MIN_PROGRESS); [auto|].
      simpl. unfold wrap16. rewrite Z.mod_small by lia. split; [reflexivity|lia]. }
  destruct Hstep as [Hsame Hb1].
  fold (ProgressBounds.applyAll MIN_PROGRESS MAX_PROGRESS ops
          (ProgressBounds.apply MIN_PROGRESS MAX_PROGRESS p op)).
  rewrite <- Hsame in *. apply IH; assumption.
Qed.

Lemma progress_overshoot_bounded_witness :
  let p := ItemProgress.mk false 10 10 3 in
  (1 <= 3 ∧ 3 - 1 <= 2 ∧ 1000 + (3 - 1) <= 65535
   ∧ ProgressBounds.inBounds 2 1000 p)
  ∧ 2 - (3 - 1)
    <= ItemProgress.progress
         (ProgressBounds.applyAll 2 1000 (repeat ProgressBounds.Decrement 9) p)
    <= 1000 + (3 - 1).
Proof.
  intros p. assert (Hb : ProgressBounds.inBounds 2 1000 p)
    by (unfold ProgressBounds.inBounds; simpl; lia).
  split; [repeat split; try lia; apply Hb|].
  apply (progress_overshoot_bounded 2 1000 (repeat ProgressBounds.Decrement 9) p);
    simpl; try lia. exact Hb.
Defined.

(** ** hide(), show() and the six entry points *)

Definition set_enableUpdate (v : bool) (m : LcdMenu) : LcdMenu :=
  mkMenu (cursorPosition m) (top m) (isEditModeEnabled m)
    (isCharPickerActive m) (bottom m) (maxRows m) (currentMenuTable m)
    (currentMenuSize m) v (menus m) (events m).

(** [hide()]: [enableUpdate = false; lcd->clear();].  The call to the
    display driver leaves the controller as it is. *)
Definition hide (m : LcdMenu) : LcdMenu := set_enableUpdate false m.

(** [show()]: [enableUpdate = true; update();]. *)
Definition show (m : LcdMenu) : LcdMenu := update (set_enableUpdate true m).

Inductive Key : Type :=
| KeyUp
| KeyDown
| KeyLeft
| KeyRight
| KeyEnter
| KeyBack (editCancelled : bool).

Section Keys.

Variables MIN_PROGRESS MAX_PROGRESS : Z.

Definition press (k : Key) (m : LcdMenu) : option LcdMenu :=
  match k with
  | KeyUp => snd <$> up m
  | KeyDown => snd <$> down m
  | KeyLeft => left MIN_PROGRESS m
  | KeyRight => right MAX_PROGRESS m
  | KeyEnter => enter m
  | KeyBack c => back c m
  end.

Fixpoint pressAll (keys : list Key) (m : LcdMenu) : option LcdMenu :=
  match keys with
  | [] => Some m
  | k :: rest => m' ← press k m; pressAll rest m'
  end.

End Keys.

(** The controller without what concerns the display only: updates off and
    an empty event log. *)
Definition quiet (m : LcdMenu) : LcdMenu :=
  mkMenu (cursorPosition m) (top m) (isEditModeEnabled m)
    (isCharPickerActive m) (bottom m) (maxRows m) (currentMenuTable m)
    (currentMenuSize m) false (menus m) [].

Lemma quiet_update (m : LcdMenu) : quiet (update m) = quiet m.
Proof. unfold update. destruct (enableUpdate m); reflexivity. Qed.

Lemma quiet_storeItem (m : LcdMenu) (i : Z) (it : MenuItem) :
  quiet (storeItem m i it) = quiet (storeItem (quiet m) i it).
Proof.
  unfold storeItem. change (currentTable (quiet m)) with (currentTable m).
  destruct (currentTable m); reflexivity.
Qed.

(** The loops only move the cursor. *)
Lemma up_loop_frame (fuel : nat) (m m' : LcdMenu) (b : bool) :
  up_loop fuel m = Some (b, m') →
  m' = set_cursorPosition (cursorPosition m') m.
Proof.
  revert m. induction fuel as [|fuel IH]; intros m; [discriminate|].
  rewrite up_loop_S. destruct (isAtTheStart m) as [atStart|]; [|discriminate].
  cbn [mbind option_bind].
  destruct (atStart || isEditModeEnabled m).
  - intros [= <- <-]. destruct m; reflexivity.
  - cbv zeta.
    destruct (itemAt _ _) as [it|]; [|discriminate]. cbn [mbind option_bind].
    destruct (isHidden it).
    + intros H%IH. rewrite H. reflexivity.
    + intros [= <- <-]. reflexivity.
Qed.

Lemma down_loop_frame (fuel : nat) (m m' : LcdMenu) (ns ns' : Z) (b : bool) :
  down_loop fuel m ns = Some (b, m', ns') →
  m' = set_cursorPosition (cursorPosition m') m.
Proof.
  revert m ns. induction fuel as [|fuel IH]; intros m ns; [discriminate|].
  rewrite down_loop_S. destruct (isAtTheEnd m) as [atEnd|]; [|discriminate].
  cbn [mbind option_bind].
  destruct (atEnd || isEditModeEnabled m).
  - intros [= <- <- <-]. destruct m; reflexivity.
  - cbv zeta.
    destruct (itemAt _ _) as [it|]; [|discriminate]. cbn [mbind option_bind].
    destruct (isHidden it).
    + intros H%IH. rewrite H. reflexivity.
    + intros [= <- <- <-]. reflexivity.
Qed.

Lemma up_loop_quiet (fuel : nat) (m : LcdMenu) :
  up_loop fuel (quiet m) = prod_map id quiet <$> up_loop fuel m.
Proof.
  revert m. induction fuel as [|fuel IH]; intros m; [reflexivity|].
  rewrite !up_loop_S. change (isAtTheStart (quiet m)) with (isAtTheStart m).
  destruct (isAtTheStart m) as [atStart|]; [|reflexivity].
  cbn [mbind option_bind]. change (isEditModeEnabled (quiet m)) with (isEditModeEnabled m).
  destruct (atStart || isEditModeEnabled m); [reflexivity|]. cbv zeta.
  change (cursorPosition (quiet m)) with (cursorPosition m).
  change (set_cursorPosition (wrap8 (cursorPosition m - 1)) (quiet m))
    with (quiet (set_cursorPosition (wrap8 (cursorPosition m - 1)) m)).
  set (m1 := set_cursorPosition (wrap8 (cursorPosition m - 1)) m).
  change (cursorPosition (quiet m1)) with (cursorPosition m1).
  change (itemAt (quiet m1) (cursorPosition m1)) with (itemAt m1 (cursorPosition m1)).
  destruct (itemAt m1 (cursorPosition m1)) as [it|]; [|reflexivity].
  cbn [mbind option_bind]. destruct (isHidden it); [apply IH | reflexivity].
Qed.

Lemma down_loop_quiet (fuel : nat) (m : LcdMenu) (ns : Z) :
  down_loop fuel (quiet m) ns
  = prod_map (prod_map id quiet) id <$> down_loop fuel m ns.
Proof.
  revert m ns. induction fuel as [|fuel IH]; intros m ns; [reflexivity|].
  rewrite !down_loop_S. change (isAtTheEnd (quiet m)) with (isAtTheEnd m).
  destruct (isAtTheEnd m) as [atEnd|]; [|reflexivity].
  cbn [mbind option_bind]. change (isEditModeEnabled (quiet m)) with (isEditModeEnabled m).
  destruct (atEnd || isEditModeEnabled m); [reflexivity|]. cbv zeta.
  change (cursorPosition (quiet m)) with (cursorPosition m).
  change (set_cursorPosition (wrap8 (cursorPosition m + 1)) (quiet m))
    with (quiet (set_cursorPosition (wrap8 (cursorPosition m + 1)) m)).
  set (m1 := set_cursorPosition (wrap8 (cursorPosition m + 1)) m).
  change (cursorPosition (quiet m1)) with (cursorPosition m1).
  change (itemAt (quiet m1) (cursorPosition m1)) with (itemAt m1 (cursorPosition m1)).
  destruct (itemAt m1 (cursorPosition m1)) as [it|]; [|reflexivity].
  cbn [mbind option_bind]. destruct (isHidden it); [apply IH | reflexivity].
Qed.

Lemma up_quiet (m : LcdMenu) :
  prod_map id quiet <$> up (quiet m) = prod_map id quiet <$> up m.
Proof.
  unfold up. generalize loopFuel. intros fuel.
  change (wasAtTop (quiet m)) with (wasAtTop m).
  destruct (wasAtTop m) as [atTop|]; [|reflexivity]. cbn [mbind option_bind].
  rewrite up_loop_quiet.
  destruct (up_loop fuel m) as [[moved m1]|]; [|reflexivity].
  cbn [fmap option_fmap option_map mbind option_bind prod_map id fst snd].
  destruct moved; [|reflexivity]. cbn [negb].
  change (cursorPosition (quiet m1)) with (cursorPosition m1).
  change (top (quiet m1)) with (top m1).
  destruct ((cursorPosition m1 <? top m1) && atTop);
    cbn [fmap option_fmap option_map prod_map id fst snd];
    rewrite !quiet_update; reflexivity.
Qed.

Lemma down_quiet (m : LcdMenu) :
  prod_map id quiet <$> down (quiet m) = prod_map id quiet <$> down m.
Proof.
  unfold down. generalize loopFuel. intros fuel.
  change (wasAtBottom (quiet m)) with (wasAtBottom m).
  destruct (wasAtBottom m) as [atBottom|]; [|reflexivity]. cbn [mbind option_bind].
  rewrite down_loop_quiet.
  destruct (down_loop fuel m (-1)) as [[[moved m1] ns]|]; [|reflexivity].
  cbn [fmap option_fmap option_map mbind option_bind prod_map id fst snd].
  destruct moved; [|reflexivity]. cbn [negb].
  change (cursorPosition (quiet m1)) with (cursorPosition m1).
  change (bottom (quiet m1)) with (bottom m1).
  destruct ((cursorPosition m1 >? bottom m1) && atBottom);
    cbn [fmap option_fmap option_map prod_map id fst snd];
    rewrite !quiet_update; reflexivity.
Qed.

Lemma enter_quiet (m : LcdMenu) : quiet <$> enter (quiet m) = quiet <$> enter m.
Proof.
  destruct m as [c t e cp b r tab sz en mn ev].
  unfold enter, enterSubMenu, itemAt, currentTable, storeItem, currentTable,
    update, drawCursor, isInEditMode, quiet.
  cbn [cursorPosition top bottom maxRows isEditModeEnabled isCharPickerActive
       currentMenuTable currentMenuSize enableUpdate menus events
       set_cursorPosition set_top set_bottom set_isEditModeEnabled
       set_currentMenu set_menus emit].
  destruct (mn !! tab) as [tbl|]; [|reflexivity]. cbn [mbind option_bind].
  destruct (tableAt tbl c) as [it|]; [|reflexivity]. cbn [mbind option_bind].
  destruct (kind it) as [mm|p mm|child|cb|on cb|cb|l|p|]; try reflexivity.
  - destruct (getSubMenu it) as [ch|]; [|reflexivity].
    destruct (tableAt tbl 0) as [hdr|]; [|reflexivity]. cbn [mbind option_bind].
    cbn [cursorPosition top bottom maxRows isEditModeEnabled isCharPickerActive
         currentMenuTable currentMenuSize enableUpdate menus events
         set_cursorPosition set_top set_bottom set_isEditModeEnabled
         set_currentMenu set_menus emit].
    destruct (_ !! ch) as [ctbl|]; [|reflexivity]. cbn [mbind option_bind].
    destruct (getMenuSize ctbl) as [size|]; [|reflexivity].
    cbn [mbind option_bind enableUpdate fmap option_fmap option_map].
    destruct en; reflexivity.
  - destruct cb, en; reflexivity.
  - destruct cb, en; reflexivity.
  - destruct e; reflexivity.
  - destruct e; reflexivity.
  - destruct e; reflexivity.
Qed.

Ltac unfold_controller :=
  cbn [cursorPosition top bottom maxRows isEditModeEnabled isCharPickerActive
       currentMenuTable currentMenuSize enableUpdate menus events
       set_cursorPosition set_top set_bottom set_isEditModeEnabled
       set_currentMenu set_menus set_enableUpdate emit].

Lemma back_quiet (c0 : bool) (m : LcdMenu) :
  quiet <$> back c0 (quiet m) = quiet <$> back c0 m.
Proof.
  destruct m as [c t e cp b r tab sz en mn ev].
  assert (Hleave : ∀ e' en' ev',
            quiet <$> back_leave (mkMenu c t e' cp b r tab sz false mn [])
            = quiet <$> back_leave (mkMenu c t e' cp b r tab sz en' mn ev')).
  { intros e' en' ev'.
    unfold back_leave, isSubMenu, leaveSubMenu, itemAt, currentTable, update.
    unfold_controller.
    destruct (mn !! tab) as [tbl|]; [|reflexivity]. cbn [mbind option_bind].
    destruct (tableAt tbl 0) as [hdr|]; [|reflexivity]. cbn [mbind option_bind].
    destruct (ItemType_eqb _ _); [|reflexivity].
    destruct (getSubMenu hdr) as [p|]; [|reflexivity].
    destruct (mn !! p) as [ptbl|]; [|reflexivity]. cbn [mbind option_bind].
    destruct (getMenuSize ptbl) as [size|]; [|reflexivity].
    cbn [mbind option_bind]. unfold_controller.
    destruct (tableAt ptbl 0) as [phdr|]; [|reflexivity].
    cbn [mbind option_bind]. unfold_controller. destruct en'; reflexivity. }
  unfold back. unfold itemAt, currentTable, isInEditMode, quiet.
  unfold_controller.
  destruct (mn !! tab) as [tbl|] eqn:Htbl; [|reflexivity]. cbn [mbind option_bind].
  destruct (tableAt tbl c) as [it|]; [|reflexivity]. cbn [mbind option_bind].
  destruct e; [|apply Hleave].
  destruct (kind it) as [mm|p mm|child|cb|on cb|cb|l|p|]; try apply Hleave.
  - unfold update. unfold_controller. destruct cb, en; reflexivity.
  - unfold storeItem, currentTable, update. unfold_controller. rewrite Htbl.
    unfold_controller.
    destruct (ItemList.callback _), en; reflexivity.
  - unfold storeItem, currentTable, update. unfold_controller. rewrite Htbl.
    unfold_controller.
    destruct (ItemProgress.callback _), en; reflexivity.
Qed.

Lemma left_quiet (MIN_PROGRESS : Z) (m : LcdMenu) :
  quiet <$> left MIN_PROGRESS (quiet m) = quiet <$> left MIN_PROGRESS m.
Proof.
  destruct m as [c t e cp b r tab sz en mn ev].
  unfold left, itemAt, currentTable, isInEditMode, quiet, storeItem,
    currentTable, update.
  unfold_controller. destruct (e && cp); [reflexivity|].
  destruct (mn !! tab) as [tbl|] eqn:Htbl; [|reflexivity]. cbn [mbind option_bind].
  destruct (tableAt tbl c) as [it|]; [|reflexivity]. cbn [mbind option_bind].
  destruct (kind it) as [mm|p mm|child|cb|on cb|cb|l|p|]; try reflexivity.
  - destruct (ItemList.setItemIndex l _) as [l' evs]. unfold_controller.
    destruct (negb _), en; reflexivity.
  - destruct e, en; reflexivity.
Qed.

Lemma right_quiet (MAX_PROGRESS : Z) (m : LcdMenu) :
  quiet <$> right MAX_PROGRESS (quiet m) = quiet <$> right MAX_PROGRESS m.
Proof.
  destruct m as [c t e cp b r tab sz en mn ev].
  unfold right, itemAt, currentTable, isInEditMode, quiet, storeItem,
    currentTable, update.
  unfold_controller. destruct (e && cp); [reflexivity|].
  destruct (mn !! tab) as [tbl|] eqn:Htbl; [|reflexivity]. cbn [mbind option_bind].
  destruct (tableAt tbl c) as [it|]; [|reflexivity]. cbn [mbind option_bind].
  destruct (kind it) as [mm|p mm|child|cb|on cb|cb|l|p|]; try reflexivity.
  - destruct (ItemList.getItemCount l =? 0); [reflexivity|].
    destruct (ItemList.setItemIndex l _) as [l' evs]. unfold_controller.
    destruct en; reflexivity.
  - destruct e, en; reflexivity.
Qed.

Section Hidden.

Variables MIN_PROGRESS MAX_PROGRESS : Z.

Lemma press_quiet (k : Key) (m : LcdMenu) :
  quiet <$> press MIN_PROGRESS MAX_PROGRESS k (quiet m)
  = quiet <$> press MIN_PROGRESS MAX_PROGRESS k m.
Proof.
  destruct k as [| | | | |c]; cbn [press].
  - pose proof (up_quiet m) as H.
    destruct (up (quiet m)) as [[b1 m1]|], (up m) as [[b2 m2]|];
      simpl in *; congruence.
  - pose proof (down_quiet m) as H.
    destruct (down (quiet m)) as [[b1 m1]|], (down m) as [[b2 m2]|];
      simpl in *; congruence.
  - apply left_quiet.
  - apply right_quiet.
  - apply enter_quiet.
  - apply back_quiet.
Qed.

Lemma pressAll_quiet (keys : list Key) (m : LcdMenu) :
  quiet <$> pressAll MIN_PROGRESS MAX_PROGRESS keys (quiet m)
  = quiet <$> pressAll MIN_PROGRESS MAX_PROGRESS keys m.
Proof.
  revert m. induction keys as [|k keys IH]; intros m; [reflexivity|].
  cbn [pressAll]. pose proof (press_quiet k m) as Hk.
  destruct (press MIN_PROGRESS MAX_PROGRESS k (quiet m)) as [m1|],
           (press MIN_PROGRESS MAX_PROGRESS k m) as [m2|];
    simpl in Hk; try discriminate; [|reflexivity].
  cbn [mbind option_bind]. apply (inj Some) in Hk.
  rewrite <- (IH m1), <- (IH m2), Hk. reflexivity.
Qed.

End Hidden.

(** What [hide()] switches off has no part in the navigation code: after any
    sequence of keys, the controller that was hidden first and the one that
    was not agree on the cursor, the window, the edit flags, the active table
    and every table (and one has a defined result exactly when the other
    has); [show()] changes none of these either. *)
Lemma hidden_agrees_nav (MIN_PROGRESS MAX_PROGRESS : Z)
    (keys : list Key) (m : LcdMenu) :
  quiet <$> pressAll MIN_PROGRESS MAX_PROGRESS keys (hide m)
  = quiet <$> pressAll MIN_PROGRESS MAX_PROGRESS keys m
  ∧ quiet <$> (show <$> pressAll MIN_PROGRESS MAX_PROGRESS keys (hide m))
    = quiet <$> pressAll MIN_PROGRESS MAX_PROGRESS keys m.
Proof.
  assert (H : quiet <$> pressAll MIN_PROGRESS MAX_PROGRESS keys (hide m)
              = quiet <$> pressAll MIN_PROGRESS MAX_PROGRESS keys m).
  { rewrite <- (pressAll_quiet _ _ keys (hide m)), <- (pressAll_quiet _ _ keys m).
    reflexivity. }
  split; [exact H|]. rewrite <- H.
  destruct (pressAll MIN_PROGRESS MAX_PROGRESS keys (hide m)) as [m'|];
    [|reflexivity].
  cbn [fmap option_fmap option_map]. unfold show.
  rewrite quiet_update. reflexivity.
Qed.

(** The number of times [update()] has redrawn the menu. *)
Fixpoint redrawCount (evs : list Event) : nat :=
  match evs with
  | [] => 0
  | EvUpdate :: rest => S (redrawCount rest)
  | _ :: rest => redrawCount rest
  end.

Lemma redrawCount_app (evs evs' : list Event) :
  redrawCount (evs ++ evs') = (redrawCount evs + redrawCount evs')%nat.
Proof.
  induction evs as [|e evs IH]; [reflexivity|].
  destruct e; simpl; rewrite IH; reflexivity.
Qed.

(** A step that leaves [enableUpdate] alone and, with updates off, does not
    redraw. *)
Definition displayStep (m m' : LcdMenu) : Prop :=
  enableUpdate m' = enableUpdate m
  ∧ (enableUpdate m = false →
     redrawCount (events m') = redrawCount (events m)).

Ltac display_step :=
  split; [reflexivity|]; unfold_controller; intros Hen; try discriminate Hen;
  rewrite ?redrawCount_app; simpl; lia.

Lemma up_displayStep (m m' : LcdMenu) (b : bool) :
  up m = Some (b, m') → displayStep m m'.
Proof.
  unfold up. generalize loopFuel. intros fuel.
  destruct (wasAtTop m) as [atTop|]; [|discriminate]. cbn [mbind option_bind].
  destruct (up_loop fuel m) as [[moved m1]|] eqn:Hloop; [|discriminate].
  cbn [mbind option_bind]. apply up_loop_frame in Hloop.
  destruct m as [c t e cp bo r tab sz en mn ev]. unfold set_cursorPosition in Hloop.
  unfold_controller. revert Hloop. generalize (cursorPosition m1). intros c1 ->.
  unfold update. unfold_controller.
  destruct moved; cbn [negb]; [|intros [= <- <-]; display_step].
  destruct ((c1 <? t) && atTop), en; unfold_controller;
    intros [= <- <-]; display_step.
Qed.

Lemma down_displayStep (m m' : LcdMenu) (b : bool) :
  down m = Some (b, m') → displayStep m m'.
Proof.
  unfold down. generalize loopFuel. intros fuel.
  destruct (wasAtBottom m) as [atBottom|]; [|discriminate]. cbn [mbind option_bind].
  destruct (down_loop fuel m (-1)) as [[[moved m1] ns]|] eqn:Hloop; [|discriminate].
  cbn [mbind option_bind]. apply down_loop_frame in Hloop.
  destruct m as [c t e cp bo r tab sz en mn ev]. unfold set_cursorPosition in Hloop.
  unfold_controller. revert Hloop. generalize (cursorPosition m1). intros c1 ->.
  unfold update. unfold_controller.
  destruct moved; cbn [negb]; [|intros [= <- <-]; display_step].
  destruct ((c1 >? bo) && atBottom), en; unfold_controller;
    intros [= <- <-]; display_step.
Qed.

Lemma enter_displayStep (m m' : LcdMenu) : enter m = Some m' → displayStep m m'.
Proof.
  destruct m as [c t e cp b r tab sz en mn ev].
  unfold enter, enterSubMenu, itemAt, currentTable, storeItem, currentTable,
    update, drawCursor, isInEditMode.
  unfold_controller.
  destruct (mn !! tab) as [tbl|]; [|discriminate]. cbn [mbind option_bind].
  destruct (tableAt tbl c) as [it|]; [|discriminate]. cbn [mbind option_bind].
  destruct (kind it) as [mm|p mm|child|cb|on cb|cb|l|p|];
    try (intros [= <-]; display_step).
  - destruct (getSubMenu it) as [ch|]; [|intros [= <-]; display_step].
    destruct (tableAt tbl 0) as [hdr|]; [|discriminate]. cbn [mbind option_bind].
    unfold_controller.
    destruct (_ !! ch) as [ctbl|]; [|discriminate]. cbn [mbind option_bind].
    destruct (getMenuSize ctbl) as [size|]; [|discriminate].
    cbn [mbind option_bind]. unfold_controller.
    destruct en; intros [= <-]; display_step.
  - destruct cb, en; intros [= <-]; display_step.
  - destruct cb, en; intros [= <-]; display_step.
  - destruct e; intros [= <-]; display_step.
  - destruct e; intros [= <-]; display_step.
  - destruct e; intros [= <-]; display_step.
Qed.

Lemma back_displayStep (c0 : bool) (m m' : LcdMenu) :
  back c0 m = Some m' → displayStep m m'.
Proof.
  destruct m as [c t e cp b r tab sz en mn ev].
  assert (Hleave : ∀ e',
            back_leave (mkMenu c t e' cp b r tab sz en mn ev) = Some m' →
            displayStep (mkMenu c t e cp b r tab sz en mn ev) m').
  { intros e'.
    unfold back_leave, isSubMenu, leaveSubMenu, itemAt, currentTable, update.
    unfold_controller.
    destruct (mn !! tab) as [tbl|]; [|discriminate]. cbn [mbind option_bind].
    destruct (tableAt tbl 0) as [hdr|]; [|discriminate]. cbn [mbind option_bind].
    destruct (ItemType_eqb _ _); [|intros [= <-]; display_step].
    destruct (getSubMenu hdr) as [p|]; [|intros [= <-]; display_step].
    destruct (mn !! p) as [ptbl|]; [|discriminate]. cbn [mbind option_bind].
    destruct (getMenuSize ptbl) as [size|]; [|discriminate].
    cbn [mbind option_bind]. unfold_controller.
    destruct (tableAt ptbl 0) as [phdr|]; [|discriminate].
    cbn [mbind option_bind]. unfold_controller.
    destruct en; intros [= <-]; display_step. }
  unfold back. unfold itemAt, currentTable, isInEditMode.
  unfold_controller.
  destruct (mn !! tab) as [tbl|] eqn:Htbl; [|discriminate]. cbn [mbind option_bind].
  destruct (tableAt tbl c) as [it|]; [|discriminate]. cbn [mbind option_bind].
  destruct e; [|apply Hleave].
  destruct (kind it) as [mm|p mm|child|cb|on cb|cb|l|p|]; try apply Hleave.
  - unfold update. unfold_controller.
    destruct cb, en; intros [= <-]; display_step.
  - unfold storeItem, currentTable, update. unfold_controller. rewrite Htbl.
    unfold_controller.
    destruct (ItemList.callback _), en; intros [= <-]; display_step.
  - unfold storeItem, currentTable, update. unfold_controller. rewrite Htbl.
    unfold_controller.
    destruct (ItemProgress.callback _), en; intros [= <-]; display_step.
Qed.

Lemma left_displayStep (MIN_PROGRESS : Z) (m m' : LcdMenu) :
  left MIN_PROGRESS m = Some m' → displayStep m m'.
Proof.
  destruct m as [c t e cp b r tab sz en mn ev].
  unfold left, itemAt, currentTable, isInEditMode, storeItem, currentTable,
    update.
  unfold_controller. destruct (e && cp); [intros [= <-]; display_step|].
  destruct (mn !! tab) as [tbl|] eqn:Htbl; [|discriminate]. cbn [mbind option_bind].
  destruct (tableAt tbl c) as [it|]; [|discriminate]. cbn [mbind option_bind].
  destruct (kind it) as [mm|p mm|child|cb|on cb|cb|l|p|];
    try (intros [= <-]; display_step).
  - unfold ItemList.setItemIndex. unfold_controller.
    destruct (negb _), (ItemList.changeCallback l), en;
      intros [= <-]; display_step.
  - destruct e, en; intros [= <-]; display_step.
Qed.

Lemma right_displayStep (MAX_PROGRESS : Z) (m m' : LcdMenu) :
  right MAX_PROGRESS m = Some m' → displayStep m m'.
Proof.
  destruct m as [c t e cp b r tab sz en mn ev].
  unfold right, itemAt, currentTable, isInEditMode, storeItem, currentTable,
    update.
  unfold_controller. destruct (e && cp); [intros [= <-]; display_step|].
  destruct (mn !! tab) as [tbl|] eqn:Htbl; [|discriminate]. cbn [mbind option_bind].
  destruct (tableAt tbl c) as [it|]; [|discriminate]. cbn [mbind option_bind].
  destruct (kind it) as [mm|p mm|child|cb|on cb|cb|l|p|];
    try (intros [= <-]; display_step).
  - destruct (ItemList.getItemCount l =? 0); [discriminate|].
    unfold ItemList.setItemIndex. unfold_controller.
    destruct (ItemList.changeCallback l), en; intros [= <-]; display_step.
  - destruct e, en; intros [= <-]; display_step.
Qed.

Lemma pressAll_displayStep (MIN_PROGRESS MAX_PROGRESS : Z) (keys : list Key)
    (m m' : LcdMenu) :
  pressAll MIN_PROGRESS MAX_PROGRESS keys m = Some m' → displayStep m m'.
Proof.
  revert m. induction keys as [|k keys IH]; intros m.
  - intros [= <-]. split; auto.
  - cbn [pressAll].
    destruct (press MIN_PROGRESS MAX_PROGRESS k m) as [m1|] eqn:Hk; [|discriminate].
    cbn [mbind option_bind]. intros Hrest. apply IH in Hrest.
    assert (H1 : displayStep m m1).
    { destruct k as [| | | | |c]; cbn [press] in Hk.
      - destruct (up m) as [[b m2]|] eqn:Hup; [|discriminate].
        injection Hk as <-. exact (up_displayStep _ _ _ Hup).
      - destruct (down m) as [[b m2]|] eqn:Hdown; [|discriminate].
        injection Hk as <-. exact (down_displayStep _ _ _ Hdown).
      - exact (left_displayStep _ _ _ Hk).
      - exact (right_displayStep _ _ _ Hk).
      - exact (enter_displayStep _ _ Hk).
      - exact (back_displayStep _ _ _ Hk). }
    destruct H1 as [He1 Hr1], Hrest as [He2 Hr2]. split; [congruence|].
    intros Hen. rewrite Hr2, Hr1 by congruence. reflexivity.
Qed.

(** X6. After [hide()] no key redraws the menu: whatever keys follow,
    updates stay off and the number of redraws by [update()] stays what it
    was; [show()] then redraws once. *)
Theorem hidden_no_redraw (MIN_PROGRESS MAX_PROGRESS : Z) (keys : list Key)
    (m m' : LcdMenu) :
  pressAll MIN_PROGRESS MAX_PROGRESS keys (hide m) = Some m' →
  enableUpdate m' = false
  ∧ redrawCount (events m') = redrawCount (events m)
  ∧ enableUpdate (show m') = true
  ∧ redrawCount (events (show m')) = S (redrawCount (events m)).
Proof.
  intros [Hen Hre]%pressAll_displayStep. cbn [hide set_enableUpdate enableUpdate events] in *.
  specialize (Hre eq_refl). split; [assumption|]. split; [assumption|].
  unfold show, update. unfold_controller. split; [reflexivity|].
  unfold_controller. rewrite redrawCount_app, Hre. simpl. lia.
Qed.

(** The cursor is still drawn while the menu is hidden: [enter()] on a list
    calls [drawCursor()] directly. *)
Lemma hidden_no_redraw_witness :
  ∃ m', pressAll 0 1000 [KeyEnter; KeyRight; KeyBack false; KeyDown]
          (hide (listMenu colours)) = Some m'
        ∧ enableUpdate m' = false
        ∧ redrawCount (events m') = redrawCount (events (listMenu colours))
        ∧ events m' = [EvUpdate; EvDrawCursor].
Proof.
  eexists. split; [vm_compute; reflexivity|].
  destruct (hidden_no_redraw 0 1000 [KeyEnter; KeyRight; KeyBack false; KeyDown]
              (listMenu colours) _ ltac:(vm_compute; reflexivity))
    as (H1 & H2 & _).
  split; [exact H1|]. split; [exact H2|]. reflexivity.
Defined.

(** ** Edit mode and the node under the cursor *)

(** [up()] and [down()] write nothing but the cursor and the window (and
    the event log). *)
Lemma up_frame (m m' : LcdMenu) (b : bool) :
  up m = Some (b, m') →
  ∃ c1 t1 b1 ev1,
    m' = mkMenu c1 t1 (isEditModeEnabled m) (isCharPickerActive m) b1
           (maxRows m) (currentMenuTable m) (currentMenuSize m)
           (enableUpdate m) (menus m) ev1.
Proof.
  unfold up. generalize loopFuel. intros fuel.
  destruct (wasAtTop m) as [atTop|]; [|discriminate]. cbn [mbind option_bind].
  destruct (up_loop fuel m) as [[moved m1]|] eqn:Hloop; [|discriminate].
  cbn [mbind option_bind]. apply up_loop_frame in Hloop.
  destruct m as [c t e cp bo r tab sz en mn ev]. unfold set_cursorPosition in Hloop.
  unfold_controller. revert Hloop. generalize (cursorPosition m1). intros c1 ->.
  unfold update. unfold_controller.
  destruct moved; cbn [negb]; [|intros [= <- <-]; eauto].
  destruct ((c1 <? t) && atTop), en; unfold_controller;
    intros [= <- <-]; eauto.
Qed.

Lemma down_frame (m m' : LcdMenu) (b : bool) :
  down m = Some (b, m') →
  ∃ c1 t1 b1 ev1,
    m' = mkMenu c1 t1 (isEditModeEnabled m) (isCharPickerActive m) b1
           (maxRows m) (currentMenuTable m) (currentMenuSize m)
           (enableUpdate m) (menus m) ev1.
Proof.
  unfold down. generalize loopFuel. intros fuel.
  destruct (wasAtBottom m) as [atBottom|]; [|discriminate]. cbn [mbind option_bind].
  destruct (down_loop fuel m (-1)) as [[[moved m1] ns]|] eqn:Hloop; [|discriminate].
  cbn [mbind option_bind]. apply down_loop_frame in Hloop.
  destruct m as [c t e cp bo r tab sz en mn ev]. unfold set_cursorPosition in Hloop.
  unfold_controller. revert Hloop. generalize (cursorPosition m1). intros c1 ->.
  unfold update. unfold_controller.
  destruct moved; cbn [negb]; [|intros [= <- <-]; eauto].
  destruct ((c1 >? bo) && atBottom), en; unfold_controller;
    intros [= <- <-]; eauto.
Qed.

(** In edit mode [up()] and [down()] return [false] at once. *)
Lemma up_editing (m m' : LcdMenu) (b : bool) :
  isEditModeEnabled m = true → up m = Some (b, m') → b = false ∧ m' = m.
Proof.
  intros He. unfold up. generalize loopFuel_Z. generalize loopFuel.
  intros [|fuel] Hfuel; [discriminate|].
  destruct (wasAtTop m) as [atTop|]; [|discriminate]. cbn [mbind option_bind].
  rewrite up_loop_S. destruct (isAtTheStart m) as [atStart|]; [|discriminate].
  cbn [mbind option_bind]. rewrite He, orb_true_r. cbn [mbind option_bind negb].
  intros [= <- <-]. auto.
Qed.

Lemma down_editing (m m' : LcdMenu) (b : bool) :
  isEditModeEnabled m = true → down m = Some (b, m') → b = false ∧ m' = m.
Proof.
  intros He. unfold down. generalize loopFuel_Z. generalize loopFuel.
  intros [|fuel] Hfuel; [discriminate|].
  destruct (wasAtBottom m) as [atBottom|]; [|discriminate]. cbn [mbind option_bind].
  rewrite down_loop_S. destruct (isAtTheEnd m) as [atEnd|]; [|discriminate].
  cbn [mbind option_bind]. rewrite He, orb_true_r. cbn [mbind option_bind negb].
  intros [= <- <-]. auto.
Qed.

(** The nodes that [enter()] opens for editing. *)
Definition isEditable (it : MenuItem) : bool :=
  match kind it with
  | KInput _ | KList _ | KProgress _ => true
  | _ => false
  end.

(** Edit mode is on only while the cursor is on an editable node. *)
Definition editOnEditable (m : LcdMenu) : Prop :=
  isEditModeEnabled m = true →
  ∃ it, itemAt m (cursorPosition m) = Some it ∧ isEditable it = true.

Lemma editOnEditable_browsing (m : LcdMenu) :
  isEditModeEnabled m = false → editOnEditable m.
Proof. unfold editOnEditable. congruence. Qed.

Lemma editOnEditable_at (m : LcdMenu) (it : MenuItem) :
  itemAt m (cursorPosition m) = Some it → isEditable it = true →
  editOnEditable m.
Proof. unfold editOnEditable. eauto. Qed.

Lemma stored_lookup (mn : list Table) (tab : TableId) (tbl : Table) (c : Z)
    (it it' : MenuItem) :
  mn !! tab = Some tbl → tableAt tbl c = Some it →
  ((<[tab := <[Z.to_nat c := it']> tbl]> mn) !! tab)
    ≫= (λ tbl, tableAt tbl c) = Some it'.
Proof.
  intros Htbl Hit.
  rewrite list_lookup_insert_eq by (eapply lookup_lt_Some; eassumption).
  simpl. eapply tableAt_insert_eq, Hit.
Qed.

Ltac edit_leaf Htbl Hit Hk :=
  unfold editOnEditable, itemAt, currentTable; unfold_controller;
  first
    [ discriminate 1
    | intros _; eexists; split;
      [ first [ eapply stored_lookup; eassumption
              | rewrite Htbl; simpl; exact Hit ]
      | unfold isEditable; first [ rewrite Hk; reflexivity | reflexivity ] ] ].

Lemma enter_editOnEditable (m m' : LcdMenu) :
  enter m = Some m' → editOnEditable m → editOnEditable m'.
Proof.
  destruct m as [c t e cp b r tab sz en mn ev].
  intros Hrun Hinv.
  assert (Hed : ∀ it, (mn !! tab) ≫= (λ tbl, tableAt tbl c) = Some it →
                      isEditable it = false → e = false).
  { intros it Hit Hne. destruct e; [|reflexivity].
    destruct (Hinv eq_refl) as (it0 & Hit0 & He0).
    unfold itemAt, currentTable in Hit0. unfold_controller.
    cbn [cursorPosition menus currentMenuTable] in Hit0. congruence. }
  clear Hinv. revert Hrun.
  unfold enter, enterSubMenu, itemAt, currentTable, storeItem, currentTable,
    update, drawCursor, isInEditMode.
  unfold_controller.
  destruct (mn !! tab) as [tbl|] eqn:Htbl; [|discriminate]. cbn [mbind option_bind].
  destruct (tableAt tbl c) as [it|] eqn:Hit; [|discriminate].
  cbn [mbind option_bind]. specialize (Hed it). cbn [mbind option_bind] in Hed.
  rewrite Hit in Hed. specialize (Hed eq_refl). unfold isEditable in Hed.
  destruct (kind it) as [mm|p mm|child|cb|on cb|cb|l|p|] eqn:Hk;
    try (rewrite (Hed eq_refl); intros [= <-]; edit_leaf Htbl Hit Hk).
  - rewrite (Hed eq_refl).
    destruct (getSubMenu it) as [ch|]; [|intros [= <-]; edit_leaf Htbl Hit Hk].
    destruct (tableAt tbl 0) as [hdr|]; [|discriminate]. cbn [mbind option_bind].
    unfold_controller.
    destruct (_ !! ch) as [ctbl|]; [|discriminate]. cbn [mbind option_bind].
    destruct (getMenuSize ctbl) as [size|]; [|discriminate].
    cbn [mbind option_bind]. unfold_controller.
    destruct en; intros [= <-]; edit_leaf Htbl Hit Hk.
  - rewrite (Hed eq_refl). destruct cb, en; intros [= <-]; edit_leaf Htbl Hit Hk.
  - rewrite (Hed eq_refl). destruct cb, en; intros [= <-]; edit_leaf Htbl Hit Hk.
  - destruct e; intros [= <-]; edit_leaf Htbl Hit Hk.
  - destruct e; intros [= <-]; edit_leaf Htbl Hit Hk.
  - destruct e; intros [= <-]; edit_leaf Htbl Hit Hk.
Qed.

Lemma back_editOnEditable (c0 : bool) (m m' : LcdMenu) :
  back c0 m = Some m' → editOnEditable m → isEditModeEnabled m' = false.
Proof.
  destruct m as [c t e cp b r tab sz en mn ev].
  intros Hrun Hinv.
  assert (Hleave : back_leave (mkMenu c t false cp b r tab sz en mn ev) = Some m' →
                   isEditModeEnabled m' = false).
  { unfold back_leave, isSubMenu, leaveSubMenu, itemAt, currentTable, update.
    unfold_controller.
    destruct (mn !! tab) as [tbl|]; [|discriminate]. cbn [mbind option_bind].
    destruct (tableAt tbl 0) as [hdr|]; [|discriminate]. cbn [mbind option_bind].
    destruct (ItemType_eqb _ _); [|intros [= <-]; reflexivity].
    destruct (getSubMenu hdr) as [p|]; [|intros [= <-]; reflexivity].
    destruct (mn !! p) as [ptbl|]; [|discriminate]. cbn [mbind option_bind].
    destruct (getMenuSize ptbl) as [size|]; [|discriminate].
    cbn [mbind option_bind]. unfold_controller.
    destruct (tableAt ptbl 0) as [phdr|]; [|discriminate].
    cbn [mbind option_bind]. unfold_controller.
    destruct en; intros [= <-]; reflexivity. }
  revert Hrun. unfold back. unfold itemAt at 1. unfold currentTable, isInEditMode.
  unfold_controller.
  destruct (mn !! tab) as [tbl|] eqn:Htbl; [|discriminate]. cbn [mbind option_bind].
  destruct (tableAt tbl c) as [it|] eqn:Hit; [|discriminate].
  cbn [mbind option_bind].
  destruct e; [|apply Hleave].
  destruct (Hinv eq_refl) as (it0 & Hit0 & He0).
  unfold itemAt, currentTable in Hit0.
  cbn [cursorPosition menus currentMenuTable] in Hit0.
  rewrite Htbl in Hit0. cbn [mbind option_bind] in Hit0.
  rewrite Hit in Hit0. injection Hit0 as <-. unfold isEditable in He0.
  destruct (kind it) as [mm|p mm|child|cb|on cb|cb|l|p|]; try discriminate He0.
  - unfold update. unfold_controller.
    destruct cb, en; intros [= <-]; reflexivity.
  - unfold storeItem, currentTable, update. unfold_controller. rewrite Htbl.
    unfold_controller.
    destruct (ItemList.callback _), en; intros [= <-]; reflexivity.
  - unfold storeItem, currentTable, update. unfold_controller. rewrite Htbl.
    unfold_controller.
    destruct (ItemProgress.callback _), en; intros [= <-]; reflexivity.
Qed.

Lemma left_editOnEditable (MIN_PROGRESS : Z) (m m' : LcdMenu) :
  left MIN_PROGRESS m = Some m' → editOnEditable m → editOnEditable m'.
Proof.
  destruct m as [c t e cp b r tab sz en mn ev].
  intros Hrun Hinv. revert Hrun.
  unfold left, itemAt, currentTable, isInEditMode, storeItem, currentTable,
    update.
  unfold_controller. destruct (e && cp); [intros [= <-]; exact Hinv|].
  destruct (mn !! tab) as [tbl|] eqn:Htbl; [|discriminate]. cbn [mbind option_bind].
  destruct (tableAt tbl c) as [it|] eqn:Hit; [|discriminate].
  cbn [mbind option_bind].
  destruct (kind it) as [mm|p mm|child|cb|on cb|cb|l|p|] eqn:Hk;
    try (intros [= <-]; exact Hinv).
  - unfold ItemList.setItemIndex. unfold_controller.
    destruct (negb _), (ItemList.changeCallback l), en;
      intros [= <-]; destruct e; edit_leaf Htbl Hit Hk.
  - destruct e, en; intros [= <-]; edit_leaf Htbl Hit Hk.
Qed.

Lemma right_editOnEditable (MAX_PROGRESS : Z) (m m' : LcdMenu) :
  right MAX_PROGRESS m = Some m' → editOnEditable m → editOnEditable m'.
Proof.
  destruct m as [c t e cp b r tab sz en mn ev].
  intros Hrun Hinv. revert Hrun.
  unfold right, itemAt, currentTable, isInEditMode, storeItem, currentTable,
    update.
  unfold_controller. destruct (e && cp); [intros [= <-]; exact Hinv|].
  destruct (mn !! tab) as [tbl|] eqn:Htbl; [|discriminate]. cbn [mbind option_bind].
  destruct (tableAt tbl c) as [it|] eqn:Hit; [|discriminate].
  cbn [mbind option_bind].
  destruct (kind it) as [mm|p mm|child|cb|on cb|cb|l|p|] eqn:Hk;
    try (intros [= <-]; exact Hinv).
  - destruct (ItemList.getItemCount l =? 0); [discriminate|].
    unfold ItemList.setItemIndex. unfold_controller.
    destruct (ItemList.changeCallback l), en;
      intros [= <-]; destruct e; edit_leaf Htbl Hit Hk.
  - destruct e, en; intros [= <-]; edit_leaf Htbl Hit Hk.
Qed.

Section EditMode.

Variables MIN_PROGRESS MAX_PROGRESS : Z.

Lemma press_editOnEditable (k : Key) (m m' : LcdMenu) :
  press MIN_PROGRESS MAX_PROGRESS k m = Some m' →
  editOnEditable m → editOnEditable m'.
Proof.
  destruct k as [| | | | |c]; cbn [press]; intros Hk Hinv.
  - destruct (up m) as [[b m2]|] eqn:Hup; [|discriminate]. injection Hk as <-.
    destruct (isEditModeEnabled m) eqn:He.
    + destruct (up_editing _ _ _ He Hup) as [_ ->]. exact Hinv.
    + apply editOnEditable_browsing.
      destruct (up_frame _ _ _ Hup) as (c1 & t1 & b1 & ev1 & ->). exact He.
  - destruct (down m) as [[b m2]|] eqn:Hdown; [|discriminate]. injection Hk as <-.
    destruct (isEditModeEnabled m) eqn:He.
    + destruct (down_editing _ _ _ He Hdown) as [_ ->]. exact Hinv.
    + apply editOnEditable_browsing.
      destruct (down_frame _ _ _ Hdown) as (c1 & t1 & b1 & ev1 & ->). exact He.
  - exact (left_editOnEditable _ _ _ Hk Hinv).
  - exact (right_editOnEditable _ _ _ Hk Hinv).
  - exact (enter_editOnEditable _ _ Hk Hinv).
  - apply editOnEditable_browsing. exact (back_editOnEditable _ _ _ Hk Hinv).
Qed.

Lemma pressAll_editOnEditable (keys : list Key) (m m' : LcdMenu) :
  pressAll MIN_PROGRESS MAX_PROGRESS keys m = Some m' →
  editOnEditable m → editOnEditable m'.
Proof.
  revert m. induction keys as [|k keys IH]; intros m.
  - intros [= <-]. auto.
  - cbn [pressAll].
    destruct (press MIN_PROGRESS MAX_PROGRESS k m) as [m1|] eqn:Hk; [|discriminate].
    cbn [mbind option_bind]. intros Hrest Hinv.
    eapply IH; [exact Hrest|]. eapply press_editOnEditable; eassumption.
Qed.

End EditMode.

(** [back()] on an editable node in edit mode: the edit ends, and the
    controller stays where it is. *)
Lemma back_on_editable (c0 : bool) (m : LcdMenu) (it : MenuItem) :
  isEditModeEnabled m = true →
  itemAt m (cursorPosition m) = Some it → isEditable it = true →
  ∃ m', back c0 m = Some m'
        ∧ isEditModeEnabled m' = false
        ∧ currentMenuTable m' = currentMenuTable m
        ∧ currentMenuSize m' = currentMenuSize m
        ∧ cursorPosition m' = cursorPosition m
        ∧ top m' = top m ∧ bottom m' = bottom m.
Proof.
  destruct m as [c t e cp b r tab sz en mn ev]. unfold_controller.
  intros -> Hit He. unfold back, isInEditMode. unfold_controller.
  rewrite Hit. cbn [mbind option_bind]. unfold isEditable in He.
  unfold itemAt, currentTable in Hit. unfold_controller.
  cbn [menus currentMenuTable] in Hit.
  destruct (mn !! tab) as [tbl|] eqn:Htbl; [|discriminate].
  destruct (kind it) as [mm|p mm|child|cb|on cb|cb|l|p|]; try discriminate He.
  - unfold update. unfold_controller.
    destruct cb, en; eexists; (split; [reflexivity|]); repeat split.
  - unfold storeItem, currentTable, update. unfold_controller. rewrite Htbl.
    unfold_controller.
    destruct (ItemList.callback _), en; eexists; (split; [reflexivity|]);
      repeat split.
  - unfold storeItem, currentTable, update. unfold_controller. rewrite Htbl.
    unfold_controller.
    destruct (ItemProgress.callback _), en; eexists; (split; [reflexivity|]);
      repeat split.
Qed.

(** Edit mode is only ever on over an [ItemInput], an [ItemList] or an
    [ItemProgress]: starting outside edit mode, after any sequence of keys a
    controller in edit mode has such a node under its cursor.  So [back()]
    then only ends the edit: edit mode goes off, and the active table, the
    cursor and the window stay as they are, in a sub-menu too. *)
Lemma edit_on_editable_nav (MIN_PROGRESS MAX_PROGRESS : Z)
    (keys : list Key) (m m' : LcdMenu) :
  isEditModeEnabled m = false →
  pressAll MIN_PROGRESS MAX_PROGRESS keys m = Some m' →
  isEditModeEnabled m' = true →
  (∃ it, itemAt m' (cursorPosition m') = Some it ∧ isEditable it = true)
  ∧ ∀ editCancelled,
      ∃ m'', back editCancelled m' = Some m''
             ∧ isEditModeEnabled m'' = false
             ∧ currentMenuTable m'' = currentMenuTable m'
             ∧ currentMenuSize m'' = currentMenuSize m'
             ∧ cursorPosition m'' = cursorPosition m'
             ∧ top m'' = top m' ∧ bottom m'' = bottom m'.
Proof.
  intros He0 Hrun He.
  pose proof (pressAll_editOnEditable _ _ _ _ _ Hrun
                (editOnEditable_browsing _ He0)) as Hinv.
  destruct (Hinv He) as (it & Hit & Hed). split; [eauto|].
  intros c0. exact (back_on_editable c0 _ _ He Hit Hed).
Qed.

(** ** enter() on a toggle *)

Lemma tableAt_lookup (tbl : Table) (i : Z) (it : MenuItem) :
  tableAt tbl i = Some it → tbl !! Z.to_nat i = Some it.
Proof. unfold tableAt. destruct (i <? 0); [discriminate | auto]. Qed.

(** Writing a node and then the node that was there before leaves the store
    as it was. *)
Lemma store_write_back (mn : list Table) (tab : TableId) (tbl : Table)
    (c : Z) (it it' : MenuItem) :
  mn !! tab = Some tbl → tableAt tbl c = Some it →
  <[tab := <[Z.to_nat c := it]> (<[Z.to_nat c := it']> tbl)]>
    (<[tab := <[Z.to_nat c := it']> tbl]> mn) = mn.
Proof.
  intros Htbl Hit%tableAt_lookup.
  rewrite !list_insert_insert_eq. rewrite (list_insert_id tbl) by exact Hit.
  apply list_insert_id, Htbl.
Qed.

(** [enter()] on an [ItemToggle] flips [isOn], calls the callback (when
    there is one) with the new state and redraws; a second [enter()] brings
    the toggle, and with it every table, back: after both calls the
    controller differs from the one before only by the calls recorded, first
    with the flipped state, then with the original one. *)
Lemma toggle_twice_nav (m : LcdMenu) (it : MenuItem) (on cb : bool) :
  itemAt m (cursorPosition m) = Some it → kind it = KToggle on cb →
  let fired v := if cb then [EvToggle v] else [] in
  let redraw := if enableUpdate m then [EvUpdate] else [] in
  ∃ m1, enter m = Some m1
        ∧ itemAt m1 (cursorPosition m1)
          = Some (mkItem (hidden it) (KToggle (negb on) cb))
        ∧ events m1 = events m ++ fired (negb on) ++ redraw
        ∧ enter m1
          = Some (emit (fired (negb on) ++ redraw ++ fired on ++ redraw) m).
Proof.
  intros Hit Hk fired redraw.
  destruct m as [c t e cp b r tab sz en mn ev]. destruct it as [h k].
  cbn [kind hidden enableUpdate events cursorPosition] in *. subst k.
  unfold itemAt, currentTable in Hit. cbn [menus currentMenuTable] in Hit.
  destruct (mn !! tab) as [tbl|] eqn:Htbl; [|discriminate].
  cbn [mbind option_bind] in Hit.
  assert (Hlt : (tab < length mn)%nat) by (eapply lookup_lt_Some, Htbl).
  set (it' := mkItem h (KToggle (negb on) cb)).
  set (mn' := <[tab := <[Z.to_nat c := it']> tbl]> mn).
  assert (Htbl' : mn' !! tab = Some (<[Z.to_nat c := it']> tbl))
    by (apply list_lookup_insert_eq, Hlt).
  assert (Hit' : tableAt (<[Z.to_nat c := it']> tbl) c = Some it')
    by (eapply tableAt_insert_eq, Hit).
  exists (mkMenu c t e cp b r tab sz en mn' (ev ++ fired (negb on) ++ redraw)).
  assert (Hfirst : enter (mkMenu c t e cp b r tab sz en mn ev)
                   = Some (mkMenu c t e cp b r tab sz en mn'
                             (ev ++ fired (negb on) ++ redraw))).
  { unfold enter, itemAt, currentTable, storeItem, currentTable, update.
    unfold_controller. rewrite Htbl. cbn [mbind option_bind]. rewrite Hit.
    cbn [mbind option_bind kind hidden]. unfold_controller.
    subst fired redraw. fold it'. fold mn'.
    destruct cb, en; unfold emit, set_menus; unfold_controller;
      rewrite <- ?app_assoc, ?app_nil_r; reflexivity. }
  split; [exact Hfirst|]. split.
  { unfold itemAt, currentTable. unfold_controller. cbn [menus currentMenuTable].
    rewrite Htbl'. exact Hit'. }
  split; [reflexivity|].
  unfold enter, itemAt, currentTable, storeItem, currentTable, update.
  unfold_controller. rewrite Htbl'. cbn [mbind option_bind]. rewrite Hit'.
  cbn [mbind option_bind kind hidden it']. unfold_controller.
  rewrite negb_involutive. unfold mn', it'.
  rewrite (store_write_back mn tab tbl c (mkItem h (KToggle on cb)) _ Htbl Hit).
  subst fired redraw.
  destruct cb, en; unfold emit, set_menus; unfold_controller;
    rewrite <- ?app_assoc, ?app_nil_r; reflexivity.
Qed.

(** ** Moving about in a sub-menu before going back *)

Definition isMove (i : Input) : bool :=
  match i with
  | InUp | InDown => true
  | _ => false
  end.

(** [up()] and [down()] leave the tables, the active table and edit mode as
    they are. *)
Lemma moves_frame (inputs : list Input) (m m' : LcdMenu) :
  forallb isMove inputs = true → run inputs m = Some m' →
  menus m' = menus m ∧ currentMenuTable m' = currentMenuTable m
  ∧ isEditModeEnabled m' = isEditModeEnabled m.
Proof.
  revert m. induction inputs as [|i inputs IH]; intros m.
  - intros _ [= <-]. auto.
  - cbn [forallb run]. intros [Hi Hrest]%andb_true_iff.
    destruct (step i m) as [m1|] eqn:Hstep; [|discriminate].
    cbn [mbind option_bind]. intros Hrun.
    destruct (IH m1 Hrest Hrun) as (H1 & H2 & H3).
    assert (Hf : menus m1 = menus m ∧ currentMenuTable m1 = currentMenuTable m
                 ∧ isEditModeEnabled m1 = isEditModeEnabled m).
    { destruct i as [| | |c]; try discriminate Hi; cbn [step] in Hstep.
      - destruct (up m) as [[b m2]|] eqn:Hup; [|discriminate].
        injection Hstep as <-.
        destruct (up_frame _ _ _ Hup) as (c1 & t1 & b1 & ev1 & ->). auto.
      - destruct (down m) as [[b m2]|] eqn:Hdown; [|discriminate].
        injection Hstep as <-.
        destruct (down_frame _ _ _ Hdown) as (c1 & t1 & b1 & ev1 & ->). auto. }
    destruct Hf as (F1 & F2 & F3). repeat split; congruence.
Qed.

Lemma run_app (xs ys : list Input) (m : LcdMenu) :
  run (xs ++ ys) m = m' ← run xs m; run ys m'.
Proof.
  revert m. induction xs as [|x xs IH]; intros m; [reflexivity|].
  cbn [app run]. destruct (step x m) as [m1|]; [|reflexivity].
  cbn [mbind option_bind]. apply IH.
Qed.

(** The way back from a sub-menu does not depend on what [up()] and
    [down()] did inside it.  From a state that satisfies the invariant [Inv],
    in browsing mode, with the cursor on a link to a sub-menu: [enter()],
    then any sequence of [up()] and [down()], then [back()] run to a state
    in which the parent is the active table again, with the cursor position
    and the window it had before [enter()]; no node other than the parent's
    header has been written. *)
Lemma navigate_back_nav (m : LcdMenu) (lnk : MenuItem) (child : TableId)
    (inner : list Input) (editCancelled : bool) :
  Inv m → isEditModeEnabled m = false →
  itemAt m (cursorPosition m) = Some lnk → kind lnk = KSubMenu (Some child) →
  forallb isMove inner = true →
  ∃ m3, run (InEnter :: inner ++ [InBack editCancelled]) m = Some m3
        ∧ currentMenuTable m3 = currentMenuTable m
        ∧ currentMenuSize m3 = currentMenuSize m
        ∧ cursorPosition m3 = cursorPosition m
        ∧ top m3 = top m
        ∧ bottom m3 = bottom m
        ∧ isEditModeEnabled m3 = false
        ∧ (∀ i, i ≠ 0 → itemAt m3 i = itemAt m i).
Proof.
  intros HI Hbrowse Hat Hk Hmoves.
  destruct (Inv_cursor_item m HI) as (tbl & it & Hcur & Hit & Hat' & Hc).
  assert (it = lnk) by congruence. subst it. clear Hat'.
  destruct (Inv_navOn m HI) as (tbl0 & (Hcur0 & Hwf & Hsize & Hcpos) & _).
  assert (tbl0 = tbl) by congruence. subst tbl0. clear Hcur0.
  destruct (wfTable_facts tbl Hwf) as (_ & _ & (hdr & H0 & Hish) & _).
  assert (Hat0 : itemAt m 0 = Some hdr) by (unfold itemAt; rewrite Hcur; exact H0).
  assert (Hsub : getSubMenu lnk = Some child) by (unfold getSubMenu; rewrite Hk; reflexivity).
  assert (Hty : getType lnk = MENU_ITEM_SUB_MENU) by (unfold getType; rewrite Hk; reflexivity).
  set (tab := currentMenuTable m) in *.
  set (hdr' := remember hdr (top m) (bottom m) (cursorPosition m)).
  set (tbl' := <[0%nat := hdr']> tbl).
  set (ms := storeItem m 0 hdr').
  assert (Hms : menus ms = <[tab := tbl']> (menus m)).
  { unfold ms, storeItem. rewrite Hcur. reflexivity. }
  assert (Hlt : (tab < length (menus m))%nat) by (eapply lookup_lt_Some, Hcur).
  (* enter() *)
  destruct (Inv_enterSubMenu m tbl lnk child HI Hcur Hit Hk) as (m1 & Henter & HI1).
  assert (Hm1 : menus m1 = <[tab := tbl']> (menus m) ∧ currentMenuTable m1 = child
                ∧ isEditModeEnabled m1 = false ∧ maxRows m1 = maxRows m).
  { revert Henter. unfold enterSubMenu. rewrite Hsub, Hat0. cbn [mbind option_bind].
    fold (remember hdr (top m) (bottom m) (cursorPosition m)). fold hdr'. fold ms.
    cbv zeta. nav.
    destruct (menus ms !! child) as [ctbl|]; [|discriminate]. cbn [mbind option_bind].
    destruct (getMenuSize ctbl) as [size|]; [|discriminate]. cbn [mbind option_bind].
    intros [= <-]. unfold update.
    destruct (enableUpdate _); nav; rewrite Hms; unfold ms;
      autorewrite with store; auto. }
  destruct Hm1 as (Hmn1 & Htab1 & He1 & Hr1).
  (* the moves *)
  destruct (Inv_run inner m1 HI1) as (m2 & Hrun & HI2).
  destruct (moves_frame inner m1 m2 Hmoves Hrun) as (Hmn2 & Htab2 & He2).
  (* back() *)
  destruct (Inv_cursor_item m2 HI2) as (tbl2 & it2 & Hcur2 & _ & Hat2 & _).
  destruct (Inv_navOn m2 HI2) as (tbl2' & (Hcur2' & Hwf2 & _) & _).
  assert (tbl2' = tbl2) by congruence. subst tbl2'. clear Hcur2'.
  assert (Hp : menus m2 !! tab = Some tbl').
  { rewrite Hmn2, Hmn1. apply list_lookup_insert_eq, Hlt. }
  assert (Hlnk' : tbl' !! Z.to_nat (cursorPosition m) = Some lnk).
  { apply tableAt_lookup. unfold tbl'. change 0%nat with (Z.to_nat 0).
    rewrite tableAt_insert_ne by lia. exact Hit. }
  destruct HI2 as (_ & [Hwfs2 Hlinks2] & _ & _).
  destruct (Hlinks2 tab tbl' _ lnk child Hp Hlnk' Hty Hsub)
    as (ctbl & chdr & Hchild & Hc0 & Hcty & Hcsub & _).
  assert (tbl2 = ctbl).
  { unfold currentTable in Hcur2. rewrite Htab2, Htab1 in Hcur2. congruence. }
  subst tbl2.
  assert (Hat20 : itemAt m2 0 = Some chdr)
    by (unfold itemAt; rewrite Hcur2; exact Hc0).
  assert (Hp0 : tbl' !! 0%nat = Some hdr').
  { apply list_lookup_insert_eq. eapply lookup_lt_Some, H0. }
  destruct (wfTable_facts tbl' (Hwfs2 _ _ Hp)) as (_ & _ & _ & _ & Hpsize).
  assert (Hlen : length tbl' = length tbl) by apply length_insert.
  pose proof (remember_memento hdr (top m) (bottom m) (cursorPosition m) Hish)
    as Hmem. fold hdr' in Hmem.
  eexists. split.
  { cbn [run step]. unfold enter. rewrite Hat. cbn [mbind option_bind].
    rewrite Hk, Henter. cbn [mbind option_bind].
    rewrite run_app, Hrun. cbn [mbind option_bind run step].
    unfold back. rewrite Hat2. cbn [mbind option_bind].
    unfold isInEditMode. rewrite He2, He1.
    unfold back_leave, isSubMenu. rewrite Hat20. cbn [mbind option_bind].
    rewrite Hcty. cbn [ItemType_eqb mbind option_bind].
    unfold leaveSubMenu. rewrite Hcsub, Hp. cbn [mbind option_bind].
    rewrite Hpsize. cbn [mbind option_bind].
    unfold itemAt at 1. unfold currentTable. nav. rewrite Hp.
    cbn [mbind option_bind]. change (tableAt tbl' 0) with (tbl' !! 0%nat).
    rewrite Hp0. cbn [mbind option_bind]. reflexivity. }
  unfold getTop, getBottom, getCursorPosition_item. rewrite Hmem.
  cbn [savedTop savedBottom savedCursorPosition].
  unfold update.
  destruct (enableUpdate _); nav; rewrite ?He2, ?He1, ?Hlen;
    (split; [reflexivity|]); (split; [symmetry; exact Hsize|]);
    (split; [reflexivity|]); (split; [reflexivity|]); (split; [reflexivity|]);
    (split; [reflexivity|]); intros i Hi; unfold itemAt at 1;
    unfold currentTable; nav; rewrite Hp; unfold itemAt; rewrite Hcur;
    cbn [mbind option_bind]; unfold tbl'; change 0%nat with (Z.to_nat 0);
    apply tableAt_insert_ne; lia.
Qed.

Lemma Inv_twoLevels : Inv twoLevels.
Proof.
  destruct (Inv_setup 2 [rootWithLink; settings] 0%nat rootWithLink rootHeader)
    as (m0 & Hrun & HI & _);
    [lia | apply twoLevels_wfStore | reflexivity | reflexivity
    | left; discriminate | eexists; split; reflexivity | simpl; lia |].
  vm_compute in Hrun. injection Hrun as <-. exact HI.
Qed.

(** ** All six keys, from set-up on *)

(** No list of the store is empty. *)
Definition listsNonEmpty (mn : list Table) : Prop :=
  ∀ (t : TableId) tbl (i : nat) it l,
    mn !! t = Some tbl → tbl !! i = Some it → kind it = KList l →
    ItemList.itemCount l ≠ 0.

(** A write that puts a list where a list with as many items was, or
    something that is not a list. *)
Lemma listsNonEmpty_write (mn : list Table) (tab : TableId) (tbl : Table)
    (c : Z) (it it' : MenuItem) :
  mn !! tab = Some tbl → tableAt tbl c = Some it →
  (∀ l', kind it' = KList l' →
         ∃ l, kind it = KList l ∧ ItemList.itemCount l' = ItemList.itemCount l) →
  listsNonEmpty mn →
  listsNonEmpty (<[tab := <[Z.to_nat c := it']> tbl]> mn).
Proof.
  intros Htbl Hit%tableAt_lookup Hkeep H t tbl1 i it1 l1 Ht Hi Hk.
  destruct (decide (t = tab)) as [->|Hne].
  - rewrite list_lookup_insert_eq in Ht by (eapply lookup_lt_Some, Htbl).
    injection Ht as <-.
    destruct (decide (i = Z.to_nat c)) as [->|Hne].
    + rewrite list_lookup_insert_eq in Hi by (eapply lookup_lt_Some, Hit).
      injection Hi as <-. destruct (Hkeep l1 Hk) as (l & Hl & ->).
      exact (H tab tbl _ it l Htbl Hit Hl).
    + rewrite list_lookup_insert_ne in Hi by congruence.
      exact (H tab tbl i it1 l1 Htbl Hi Hk).
  - rewrite list_lookup_insert_ne in Ht by congruence.
    exact (H t tbl1 i it1 l1 Ht Hi Hk).
Qed.

Lemma remember_list (hdr : MenuItem) (t b c : Z) (l' : ItemList.t) :
  kind (setCursorPosition_item (setBottom (setTop hdr t) b) c) = KList l' →
  ∃ l, kind hdr = KList l ∧ ItemList.itemCount l' = ItemList.itemCount l.
Proof.
  unfold setCursorPosition_item, setBottom, setTop, withMemento, getMemento.
  destruct hdr as [h k]. destruct k; cbn [kind hidden]; try discriminate.
  intros [= <-]. eauto.
Qed.

Ltac lists_leaf H Htbl Hit Hk :=
  cbn [menus];
  first
    [ exact H
    | eapply listsNonEmpty_write; [exact Htbl | exact Hit | | exact H];
      first
        [ apply remember_list
        | cbn [kind]; intros l0 Hl0;
          first [ discriminate Hl0
                | injection Hl0 as <-; eexists; split; [exact Hk | reflexivity] ] ] ].

Lemma enter_listsNonEmpty (m m' : LcdMenu) :
  enter m = Some m' → listsNonEmpty (menus m) → listsNonEmpty (menus m').
Proof.
  destruct m as [c t e cp b r tab sz en mn ev]. cbn [menus]. intros Hrun H.
  revert Hrun.
  unfold enter, enterSubMenu, itemAt, currentTable, storeItem, currentTable,
    update, drawCursor, isInEditMode.
  unfold_controller.
  destruct (mn !! tab) as [tbl|] eqn:Htbl; [|discriminate]. cbn [mbind option_bind].
  destruct (tableAt tbl c) as [it|] eqn:Hit; [|discriminate].
  cbn [mbind option_bind].
  destruct (kind it) as [mm|p mm|child|cb|on cb|cb|l|p|] eqn:Hk;
    try (intros [= <-]; lists_leaf H Htbl Hit Hk).
  - destruct (getSubMenu it) as [ch|]; [|intros [= <-]; lists_leaf H Htbl Hit Hk].
    destruct (tableAt tbl 0) as [hdr|] eqn:Hhdr; [|discriminate].
    cbn [mbind option_bind]. unfold_controller.
    destruct (_ !! ch) as [ctbl|]; [|discriminate]. cbn [mbind option_bind].
    destruct (getMenuSize ctbl) as [size|]; [|discriminate].
    cbn [mbind option_bind]. unfold_controller.
    destruct en; intros [= <-]; lists_leaf H Htbl Hhdr Hk.
  - destruct cb, en; intros [= <-]; lists_leaf H Htbl Hit Hk.
  - destruct cb, en; intros [= <-]; lists_leaf H Htbl Hit Hk.
  - destruct e; intros [= <-]; lists_leaf H Htbl Hit Hk.
  - destruct e; intros [= <-]; lists_leaf H Htbl Hit Hk.
  - destruct e; intros [= <-]; lists_leaf H Htbl Hit Hk.
Qed.

Lemma back_listsNonEmpty (c0 : bool) (m m' : LcdMenu) :
  back c0 m = Some m' → listsNonEmpty (menus m) → listsNonEmpty (menus m').
Proof.
  destruct m as [c t e cp b r tab sz en mn ev]. cbn [menus]. intros Hrun H.
  assert (Hleave : ∀ e', back_leave (mkMenu c t e' cp b r tab sz en mn ev) = Some m' →
                         listsNonEmpty (menus m')).
  { intros e'.
    unfold back_leave, isSubMenu, leaveSubMenu, itemAt, currentTable, update.
    unfold_controller.
    destruct (mn !! tab) as [tbl|]; [|discriminate]. cbn [mbind option_bind].
    destruct (tableAt tbl 0) as [hdr|]; [|discriminate]. cbn [mbind option_bind].
    destruct (ItemType_eqb _ _); [|intros [= <-]; exact H].
    destruct (getSubMenu hdr) as [p|]; [|intros [= <-]; exact H].
    destruct (mn !! p) as [ptbl|]; [|discriminate]. cbn [mbind option_bind].
    destruct (getMenuSize ptbl) as [size|]; [|discriminate].
    cbn [mbind option_bind]. unfold_controller.
    destruct (tableAt ptbl 0) as [phdr|]; [|discriminate].
    cbn [mbind option_bind]. unfold_controller.
    destruct en; intros [= <-]; exact H. }
  revert Hrun. unfold back. unfold itemAt, currentTable, isInEditMode.
  unfold_controller.
  destruct (mn !! tab) as [tbl|] eqn:Htbl; [|discriminate]. cbn [mbind option_bind].
  destruct (tableAt tbl c) as [it|] eqn:Hit; [|discriminate].
  cbn [mbind option_bind].
  destruct e; [|apply Hleave].
  destruct (kind it) as [mm|p mm|child|cb|on cb|cb|l|p|] eqn:Hk; try apply Hleave.
  - unfold update. unfold_controller.
    destruct cb, en; intros [= <-]; exact H.
  - unfold storeItem, currentTable, update. unfold_controller. rewrite Htbl.
    unfold_controller.
    destruct (ItemList.callback _), en; intros [= <-]; cbn [menus];
      (eapply listsNonEmpty_write; [exact Htbl | exact Hit | | exact H]);
      cbn [kind]; intros l0 [= <-]; exists l; (split; [exact Hk|]);
      destruct c0; reflexivity.
  - unfold storeItem, currentTable, update. unfold_controller. rewrite Htbl.
    unfold_controller.
    destruct (ItemProgress.callback _), en; intros [= <-];
      lists_leaf H Htbl Hit Hk.
Qed.

Lemma left_listsNonEmpty (MIN_PROGRESS : Z) (m m' : LcdMenu) :
  left MIN_PROGRESS m = Some m' →
  listsNonEmpty (menus m) → listsNonEmpty (menus m').
Proof.
  destruct m as [c t e cp b r tab sz en mn ev]. cbn [menus]. intros Hrun H.
  revert Hrun.
  unfold left, itemAt, currentTable, isInEditMode, storeItem, currentTable,
    update.
  unfold_controller. destruct (e && cp); [intros [= <-]; exact H|].
  destruct (mn !! tab) as [tbl|] eqn:Htbl; [|discriminate]. cbn [mbind option_bind].
  destruct (tableAt tbl c) as [it|] eqn:Hit; [|discriminate].
  cbn [mbind option_bind].
  destruct (kind it) as [mm|p mm|child|cb|on cb|cb|l|p|] eqn:Hk;
    try (intros [= <-]; exact H).
  - unfold ItemList.setItemIndex. unfold_controller.
    destruct (negb _), (ItemList.changeCallback l), en;
      intros [= <-]; lists_leaf H Htbl Hit Hk.
  - destruct e, en; intros [= <-]; lists_leaf H Htbl Hit Hk.
Qed.

Lemma right_listsNonEmpty (MAX_PROGRESS : Z) (m m' : LcdMenu) :
  right MAX_PROGRESS m = Some m' →
  listsNonEmpty (menus m) → listsNonEmpty (menus m').
Proof.
  destruct m as [c t e cp b r tab sz en mn ev]. cbn [menus]. intros Hrun H.
  revert Hrun.
  unfold right, itemAt, currentTable, isInEditMode, storeItem, currentTable,
    update.
  unfold_controller. destruct (e && cp); [intros [= <-]; exact H|].
  destruct (mn !! tab) as [tbl|] eqn:Htbl; [|discriminate]. cbn [mbind option_bind].
  destruct (tableAt tbl c) as [it|] eqn:Hit; [|discriminate].
  cbn [mbind option_bind].
  destruct (kind it) as [mm|p mm|child|cb|on cb|cb|l|p|] eqn:Hk;
    try (intros [= <-]; exact H).
  - destruct (ItemList.getItemCount l =? 0); [discriminate|].
    unfold ItemList.setItemIndex. unfold_controller.
    destruct (ItemList.changeCallback l), en;
      intros [= <-]; lists_leaf H Htbl Hit Hk.
  - destruct e, en; intros [= <-]; lists_leaf H Htbl Hit Hk.
Qed.

Lemma sameShape_list (it : MenuItem) (l l' : ItemList.t) :
  kind it = KList l → sameShape it (mkItem (hidden it) (KList l')).
Proof. intros Hk. split; [reflexivity | simpl; rewrite Hk; reflexivity]. Qed.

Lemma sameShape_progress (it : MenuItem) (p p' : ItemProgress.t) :
  kind it = KProgress p → sameShape it (mkItem (hidden it) (KProgress p')).
Proof. intros Hk. split; [reflexivity | simpl; rewrite Hk; reflexivity]. Qed.

Lemma Inv_update (m : LcdMenu) : Inv m → Inv (update m).
Proof. intros HI. eapply Inv_sameNavStore; [exact HI | apply sameNavStore_update]. Qed.

Lemma Inv_emit (evs : list Event) (m : LcdMenu) : Inv m → Inv (emit evs m).
Proof. intros HI. eapply Inv_sameNavStore; [exact HI | apply sameNavStore_emit]. Qed.

Lemma Inv_left (MIN_PROGRESS : Z) (m : LcdMenu) :
  Inv m → ∃ m', left MIN_PROGRESS m = Some m' ∧ Inv m'.
Proof.
  intros HI. destruct (Inv_cursor_item m HI) as (tbl & it & Hcur & Hit & Hat & Hc).
  unfold left. destruct (isInEditMode m && isCharPickerActive m); [eauto|].
  rewrite Hat. cbn [mbind option_bind].
  destruct (kind it) as [mm|p mm|child|cb|on cb|cb|l|p|] eqn:Hk; eauto.
  - unfold ItemList.setItemIndex. cbv beta iota zeta.
    assert (HI' : ∀ l', Inv (storeItem m (cursorPosition m)
                               (mkItem (hidden it) (KList l')))).
    { intros l'. eapply Inv_storeItem; [exact HI | exact Hat | | exact Hc].
      eapply sameShape_list, Hk. }
    destruct (negb _); eexists; (split; [reflexivity|]);
      [apply Inv_update|]; apply Inv_emit, HI'.
  - destruct (isInEditMode m); [|eauto].
    eexists. split; [reflexivity|]. apply Inv_update.
    eapply Inv_storeItem; [exact HI | exact Hat | | exact Hc].
    eapply sameShape_progress, Hk.
Qed.

Lemma Inv_right (MAX_PROGRESS : Z) (m : LcdMenu) :
  Inv m → listsNonEmpty (menus m) →
  ∃ m', right MAX_PROGRESS m = Some m' ∧ Inv m'.
Proof.
  intros HI Hlists.
  destruct (Inv_cursor_item m HI) as (tbl & it & Hcur & Hit & Hat & Hc).
  unfold right. destruct (isInEditMode m && isCharPickerActive m); [eauto|].
  rewrite Hat. cbn [mbind option_bind].
  destruct (kind it) as [mm|p mm|child|cb|on cb|cb|l|p|] eqn:Hk; eauto.
  - assert (Hn : (ItemList.getItemCount l =? 0) = false).
    { apply Z.eqb_neq. unfold currentTable in Hcur.
      exact (Hlists _ tbl _ it l Hcur (tableAt_lookup _ _ _ Hit) Hk). }
    rewrite Hn. unfold ItemList.setItemIndex. cbv beta iota zeta.
    eexists. split; [reflexivity|]. apply Inv_update, Inv_emit.
    eapply Inv_storeItem; [exact HI | exact Hat | | exact Hc].
    eapply sameShape_list, Hk.
  - destruct (isInEditMode m); [|eauto].
    eexists. split; [reflexivity|]. apply Inv_update.
    eapply Inv_storeItem; [exact HI | exact Hat | | exact Hc].
    eapply sameShape_progress, Hk.
Qed.

Section AllKeys.

Variables MIN_PROGRESS MAX_PROGRESS : Z.

Lemma Inv_press (k : Key) (m : LcdMenu) :
  Inv m → listsNonEmpty (menus m) →
  ∃ m', press MIN_PROGRESS MAX_PROGRESS k m = Some m'
        ∧ Inv m' ∧ listsNonEmpty (menus m').
Proof.
  intros HI Hl. destruct k as [| | | | |c]; cbn [press].
  - destruct (Inv_up m HI) as (b & m' & Hup & HI'). rewrite Hup.
    exists m'. split; [reflexivity|]. split; [exact HI'|].
    destruct (up_frame _ _ _ Hup) as (c1 & t1 & b1 & ev1 & ->). exact Hl.
  - destruct (Inv_down m HI) as (b & m' & Hdown & HI'). rewrite Hdown.
    exists m'. split; [reflexivity|]. split; [exact HI'|].
    destruct (down_frame _ _ _ Hdown) as (c1 & t1 & b1 & ev1 & ->). exact Hl.
  - destruct (Inv_left MIN_PROGRESS m HI) as (m' & Hrun & HI').
    exists m'. split; [exact Hrun|]. split; [exact HI'|].
    exact (left_listsNonEmpty _ _ _ Hrun Hl).
  - destruct (Inv_right MAX_PROGRESS m HI Hl) as (m' & Hrun & HI').
    exists m'. split; [exact Hrun|]. split; [exact HI'|].
    exact (right_listsNonEmpty _ _ _ Hrun Hl).
  - destruct (Inv_enter m HI) as (m' & Hrun & HI').
    exists m'. split; [exact Hrun|]. split; [exact HI'|].
    exact (enter_listsNonEmpty _ _ Hrun Hl).
  - destruct (Inv_back c m HI) as (m' & Hrun & HI').
    exists m'. split; [exact Hrun|]. split; [exact HI'|].
    exact (back_listsNonEmpty _ _ _ Hrun Hl).
Qed.

Lemma Inv_pressAll (keys : list Key) (m : LcdMenu) :
  Inv m → listsNonEmpty (menus m) →
  ∃ m', pressAll MIN_PROGRESS MAX_PROGRESS keys m = Some m'
        ∧ Inv m' ∧ listsNonEmpty (menus m').
Proof.
  revert m. induction keys as [|k keys IH]; intros m HI Hl.
  - exists m. auto.
  - destruct (Inv_press k m HI Hl) as (m1 & Hk & HI1 & Hl1).
    destruct (IH m1 HI1 Hl1) as (m' & Hrun & HI' & Hl').
    exists m'. cbn [pressAll]. rewrite Hk. auto.
Qed.

End AllKeys.

(** Without the condition on the lists [right()] is not safe: on a list
    without items it computes [(getItemIndex() + 1) % 0]. *)
Example right_on_empty_list (MAX_PROGRESS : Z) :
  right MAX_PROGRESS (listMenu (ItemList.mk false false 0 0 0)) = None.
Proof. reflexivity. Qed.

(** A root table with a list, a progress bar and a link to [settings]. *)
Definition mixedRoot : Table :=
  [rootHeader; mkItem false (KList colours);
   mkItem false (KProgress (ItemProgress.mk true 5 0 1)); subMenuLink 1%nat;
   endOfMenu].

Lemma mixed_wfStore : wfStore [mixedRoot; settings].
Proof.
  split.
  - intros [|[|t]] tbl; simpl; intros [= <-]; reflexivity.
  - intros [|[|t]] tbl i it child; simpl; try discriminate; intros [= <-].
    + destruct i as [|[|[|[|[|i]]]]]; simpl; try discriminate;
        intros [= <-]; try discriminate.
      intros _ [= <-]. exists settings, (subHeader 0).
      split; [reflexivity|]. split; [reflexivity|]. split; [reflexivity|].
      split; [reflexivity|]. split; [|simpl; lia].
      eexists. split; reflexivity.
    + destruct i as [|[|[|[|i]]]]; simpl; try discriminate;
        intros [= <-]; discriminate.
Qed.

Lemma mixed_listsNonEmpty : listsNonEmpty [mixedRoot; settings].
Proof.
  intros [|[|t]] tbl i it l; simpl; try discriminate; intros [= <-].
  - destruct i as [|[|[|[|[|i]]]]]; simpl; try discriminate;
      intros [= <-]; try discriminate. intros [= <-]. discriminate.
  - destruct i as [|[|[|[|i]]]]; simpl; try discriminate;
      intros [= <-]; discriminate.
Qed.

(** ** What update() draws: drawMenu() and drawCursor()

    [update] above records that the menu was redrawn; the functions below
    say what is drawn.  The texts themselves are left out: the model keeps,
    for every row of the display that receives an item, the position of that
    item in the active table, and whether the two arrows are drawn; of what
    is printed after the text of an item it keeps the one read through an
    index, the current string of a list. *)

Module Arduino.

(** [long map(long x, long in_min, long in_max, long out_min, long out_max)]
    of the Arduino core:
    [(x - in_min) * (out_max - out_min) / (in_max - in_min) + out_min],
    a division of [long]s, which truncates; with an empty input range it
    divides by zero. *)
Definition map (x in_min in_max out_min out_max : Z) : option Z :=
  if in_max - in_min =? 0 then None
  else Some (Z.quot ((x - in_min) * (out_max - out_min)) (in_max - in_min)
             + out_min).

End Arduino.

(** The loops [for (size_t i = ...; ...; i--)] and [for (...; i++)] that
    count the nodes that are not hidden: [n] is the number of iterations. *)
Fixpoint countVisibleDown (tbl : Table) (i : Z) (n : nat) : option Z :=
  match n with
  | O => Some 0
  | S n' =>
      it ← tableAt tbl i;
      res ← countVisibleDown tbl (i - 1) n';
      Some (if negb (isHidden it) then res + 1 else res)
  end.

Fixpoint countVisibleUp (tbl : Table) (i : Z) (n : nat) : option Z :=
  match n with
  | O => Some 0
  | S n' =>
      it ← tableAt tbl i;
      res ← countVisibleUp tbl (i + 1) n';
      Some (if negb (isHidden it) then res + 1 else res)
  end.

(** [countNonHiddenAbove(cursor)]: [for (size_t i = cursor - 1; i > 0; i--)];
    the result is a [uint8_t].  As in [checkAllAboveHidden], [cursor = 0]
    starts the index at the largest [size_t]. *)
Definition countNonHiddenAbove (m : LcdMenu) (cursor : Z) : option Z :=
  tbl ← currentTable m;
  if cursor =? 0 then None
  else wrap8 <$> countVisibleDown tbl (cursor - 1) (Z.to_nat (cursor - 1)).

(** [countNonHiddenBelow(cursor)]:
    [for (size_t i = cursor + 1; i < currentMenuSize - 2; i++)].  With
    [currentMenuSize < 2] the bound wraps around to a huge value and the loop,
    which has no other exit, leaves the array. *)
Definition countNonHiddenBelow (m : LcdMenu) (cursor : Z) : option Z :=
  tbl ← currentTable m;
  if currentMenuSize m <? 2 then None
  else wrap8 <$> countVisibleUp tbl (cursor + 1)
                   (Z.to_nat (currentMenuSize m - 2 - (cursor + 1))).

(** [countNonHiddenItems()]: from position 1 to the first end marker; the
    [size_t] count is returned as a [uint8_t]. *)
Fixpoint countToEnd (rest : Table) : option Z :=
  match rest with
  | [] => None
  | it :: rest' =>
      if ItemType_eqb (getType it) MENU_ITEM_END_OF_MENU then Some 0
      else
        res ← countToEnd rest';
        Some (if negb (isHidden it) then res + 1 else res)
  end.

Definition countNonHiddenItems (m : LcdMenu) : option Z :=
  tbl ← currentTable m;
  wrap8 <$> countToEnd (drop 1 tbl).

(** The row of the cursor in [drawCursor()]:
    [line = constrain(cursorPosition - top, 0, maxRows - 1)], and 0 when
    [checkAllAboveHidden(cursorPosition)]. *)
Definition drawCursor_line (m : LcdMenu) : option Z :=
  let line := wrap8 (constrain (cursorPosition m - top m) 0 (maxRows m - 1)) in
  allAbove ← checkAllAboveHidden m (cursorPosition m);
  Some (if (allAbove : bool) then 0 else line).

(** [while (item->isHidden()) { t++; item = currentMenuTable[t]; }] with
    [t] a [uint8_t]: when 256 reads in a row have met hidden nodes only, the
    loop is back where it started and never ends. *)
Fixpoint skipHidden (fuel : nat) (tbl : Table) (t : Z) : option Z :=
  match fuel with
  | O => None
  | S fuel' =>
      item ← tableAt tbl t;
      if isHidden item then skipHidden fuel' tbl (wrap8 (t + 1)) else Some t
  end.

(** What [drawMenu()] prints after the text of an item.  A toggle prints one
    of its two texts; an input and a progress bar print their value through
    [substring] of the library's [utils.h], which is not embedded; a list
    prints [getItems()[getItemIndex()]], a read of the array of [itemCount]
    strings, which is outside the array when the index is not below
    [itemCount]. *)
Definition printValue (item : MenuItem) : option unit :=
  match kind item with
  | KList l =>
      if (0 <=? ItemList.getItemIndex l)
         && (ItemList.getItemIndex l <? ItemList.getItemCount l)
      then Some ()
      else None
  | _ => Some ()
  end.

(** The loop [for (uint8_t i = top; i <= bottom; i++)] of [drawMenu()]:
    [rows] collects, in order, the row given to [lcd->setCursor] and the
    position [t] of every item whose text is printed.  The result carries
    [t] and [firstDrawnItemIdx] as they are after the loop.  With
    [bottom = 255] the condition [i <= bottom] always holds and the loop ends
    at the end marker or not at all; what it does then depends on [t] alone,
    so a loop that is still running after [loopFuel] rounds never ends. *)
Fixpoint drawItems (fuel : nat) (m : LcdMenu) (tbl : Table)
    (i t firstDrawnItemIdx : Z) (rows : list (Z * Z))
  : option (list (Z * Z) * Z * Z) :=
  match fuel with
  | O => None
  | S fuel' =>
      if i <=? bottom m then
        t ← skipHidden loopFuel tbl t;
        item ← tableAt tbl t;
        let firstDrawnItemIdx :=
          if firstDrawnItemIdx =? 255 then t else firstDrawnItemIdx in
        row ← Arduino.map i (top m) (bottom m) 0 (maxRows m - 1);
        _ ← printValue item;
        let rows :=
          if ItemType_eqb (getType item) MENU_ITEM_END_OF_MENU then rows
          else rows ++ [(wrap8 row, t)] in
        if ItemType_eqb (getType item) MENU_ITEM_END_OF_MENU
        then Some (rows, t, firstDrawnItemIdx)
        else drawItems fuel' m tbl (wrap8 (i + 1)) (wrap8 (t + 1))
               firstDrawnItemIdx rows
      else Some (rows, t, firstDrawnItemIdx)
  end.

Record Screen : Type := mkScreen {
  rowsDrawn : list (Z * Z);   (* (row, position in the table), in order *)
  upArrow : bool;
  downArrow : bool
}.

Definition drawMenu (m : LcdMenu) : option Screen :=
  tbl ← currentTable m;
  '(rows, t, firstDrawnItemIdx) ← drawItems loopFuel m tbl (top m) (top m) 255 [];
  if isEditModeEnabled m then Some (mkScreen rows false false)
  else
    nonHidden ← countNonHiddenItems m;
    if nonHidden <=? maxRows m then Some (mkScreen rows false false)
    else
      let cursorLine :=
        wrap8 (constrain (cursorPosition m - top m) 0 (maxRows m - 1)) in
      allAbove ← checkAllAboveHidden m (cursorPosition m);
      let cursorLine :=
        if (allAbove : bool) && negb (cursorLine =? 0) then 0 else cursorLine in
      up ← (if cursorLine =? 0 then
              allAboveFirst ← checkAllAboveHidden m firstDrawnItemIdx;
              Some (negb allAboveFirst && (cursorPosition m >? 1))
            else
              above ← countNonHiddenAbove m firstDrawnItemIdx;
              Some (negb (above =? 0)));
      let lastDrawnItemIdx := wrap8 (t - 1) in
      below ← countNonHiddenBelow m lastDrawnItemIdx;
      Some (mkScreen rows up (negb (below =? 0))).

(** [drawCursor()]: the row of the cursor, and then the read of
    [currentMenuTable[cursorPosition]] that decides whether the cursor
    blinks. *)
Definition drawCursor_row (m : LcdMenu) : option Z :=
  line ← drawCursor_line m;
  _ ← itemAt m (cursorPosition m);
  Some line.

(** What [update()] does when updates are enabled: [drawMenu()], then
    [drawCursor()]. *)
Definition redraw (m : LcdMenu) : option (Screen * Z) :=
  s ← drawMenu m;
  line ← drawCursor_row m;
  Some (s, line).

(** The redraw of [m] has a defined result. *)
Definition redraws (m : LcdMenu) : Prop := is_Some (redraw m).

(** Every list of the table has its index within its items. *)
Definition listsReadable (tbl : Table) : Prop :=
  ∀ i it l,
    tableAt tbl i = Some it → kind it = KList l →
    0 <= ItemList.itemIndex l < ItemList.itemCount l.

Lemma printValue_readable (tbl : Table) (i : Z) (it : MenuItem) :
  listsReadable tbl → tableAt tbl i = Some it → printValue it = Some ().
Proof.
  intros H Hit. unfold printValue.
  destruct (kind it) as [| | | | | |l| |] eqn:Hk; try reflexivity.
  destruct (H i it l Hit Hk) as [H0 H1]. unfold ItemList.getItemIndex,
    ItemList.getItemCount.
  destruct (Z.leb_spec 0 (ItemList.itemIndex l)); [|lia].
  destruct (Z.ltb_spec (ItemList.itemIndex l) (ItemList.itemCount l)); [|lia].
  reflexivity.
Qed.

Definition readableb (it : MenuItem) : bool :=
  match printValue it with
  | Some _ => true
  | None => false
  end.

Lemma listsReadable_forallb (tbl : Table) :
  forallb readableb tbl = true → listsReadable tbl.
Proof.
  intros H i it l Hit%tableAt_lookup Hk. rewrite forallb_forall in H.
  assert (Hin : In it tbl).
  { apply list_elem_of_In, list_elem_of_lookup. eauto. }
  specialize (H it Hin). unfold readableb, printValue in H. rewrite Hk in H.
  unfold ItemList.getItemIndex, ItemList.getItemCount in H.
  destruct (Z.leb_spec 0 (ItemList.itemIndex l)); [|discriminate H].
  destruct (Z.ltb_spec (ItemList.itemIndex l) (ItemList.itemCount l));
    [lia | discriminate H].
Qed.

(** *** Visible positions *)

Definition visibleb (tbl : Table) (j : Z) : bool :=
  match tableAt tbl j with
  | Some it => negb (isHidden it)
  | None => false
  end.

(** The positions from [from] up to the one before the last that hold a
    node that is not hidden, in order. *)
Definition visibleEntries (tbl : Table) (from : Z) : list Z :=
  List.filter (visibleb tbl) (seqZ from (Z.of_nat (length tbl) - 1 - from)).

Lemma visibleb_true (tbl : Table) (j : Z) :
  visibleb tbl j = true ↔ visibleAt tbl j.
Proof.
  unfold visibleb, visibleAt, isHidden. split.
  - destruct (tableAt tbl j) as [it|]; [|discriminate].
    intros H. exists it. split; [reflexivity|]. destruct (hidden it); easy.
  - intros (it & -> & ->). reflexivity.
Qed.

Lemma visibleb_false (tbl : Table) (j : Z) :
  0 <= j < Z.of_nat (length tbl) → visibleb tbl j = false ↔ hiddenAt tbl j.
Proof.
  intros [it Hit]%tableAt_in_range. unfold visibleb, hiddenAt, isHidden.
  rewrite Hit. split.
  - intros H. exists it. split; [reflexivity|]. destruct (hidden it); easy.
  - intros (it' & [= <-] & ->). reflexivity.
Qed.

Lemma filter_seqZ_skip (f : Z → bool) (t t' len : Z) :
  t <= t' <= t + len → (∀ j, t <= j < t' → f j = false) →
  List.filter f (seqZ t len) = List.filter f (seqZ t' (len - (t' - t))).
Proof.
  intros Ht Hhid.
  assert (H : ∀ (k : nat) t len, Z.of_nat k <= len →
             (∀ j, t <= j < t + Z.of_nat k → f j = false) →
             List.filter f (seqZ t len)
             = List.filter f (seqZ (t + Z.of_nat k) (len - Z.of_nat k))).
  { clear. induction k as [|k IH]; intros t len Hk Hh.
    - f_equal. f_equal; lia.
    - rewrite seqZ_cons by lia. cbn [List.filter].
      rewrite (Hh t) by lia. rewrite (IH (Z.succ t) (Z.pred len)) by
        (try lia; intros j Hj; apply Hh; lia).
      f_equal. f_equal; lia. }
  rewrite (H (Z.to_nat (t' - t)) t len) by
    (try lia; intros j Hj; apply Hhid; lia).
  f_equal. f_equal; lia.
Qed.

Lemma filter_seqZ_nil (f : Z → bool) (t len : Z) :
  (∀ j, t <= j < t + len → f j = false) → List.filter f (seqZ t len) = [].
Proof.
  intros Hhid. destruct (Z.le_gt_cases len 0) as [Hle|Hgt].
  { rewrite seqZ_nil by lia. reflexivity. }
  rewrite (filter_seqZ_skip f t (t + len) len) by (try lia; exact Hhid).
  rewrite seqZ_nil by lia. reflexivity.
Qed.

Lemma filter_seqZ_In (f : Z → bool) (t len j : Z) :
  In j (List.filter f (seqZ t len)) ↔ t <= j < t + len ∧ f j = true.
Proof.
  rewrite filter_In. rewrite <- list_elem_of_In, elem_of_seqZ. reflexivity.
Qed.

Section Drawing.

Variable tbl : Table.
Hypothesis Hwf : wfTable tbl = true.

Abbreviation size := (Z.of_nat (length tbl)).

(** The end marker is not hidden. *)
Hypothesis Hend : visibleAt tbl (size - 1).

Lemma visibleEntries_skip (t t' : Z) :
  t <= t' <= size - 1 → (∀ j, t <= j < t' → hiddenAt tbl j) → 0 <= t →
  visibleEntries tbl t = visibleEntries tbl t'.
Proof.
  intros Ht Hhid H0. unfold visibleEntries.
  rewrite (filter_seqZ_skip (visibleb tbl) t t'); [f_equal; f_equal; lia | lia |].
  intros j Hj. apply (proj2 (visibleb_false tbl j ltac:(lia))). apply Hhid. lia.
Qed.

Lemma visibleEntries_cons (t : Z) :
  0 <= t < size - 1 → visibleAt tbl t →
  visibleEntries tbl t = t :: visibleEntries tbl (t + 1).
Proof.
  intros Ht Hv%visibleb_true. unfold visibleEntries.
  rewrite seqZ_cons by lia. cbn [List.filter]. rewrite Hv.
  f_equal. f_equal. f_equal; lia.
Qed.

Lemma visibleEntries_end : visibleEntries tbl (size - 1) = [].
Proof. unfold visibleEntries. rewrite seqZ_nil by lia. reflexivity. Qed.

Lemma visibleEntries_In (t j : Z) :
  0 <= t → In j (visibleEntries tbl t) ↔ t <= j < size - 1 ∧ visibleAt tbl j.
Proof.
  intros Ht. unfold visibleEntries. rewrite filter_seqZ_In, visibleb_true.
  split; intros [H1 H2]; (split; [lia | assumption]).
Qed.

(** [skipHidden] stops at the first position from [t] on that is not
    hidden, at the latest on the end marker. *)
Lemma skipHidden_spec (fuel : nat) (t : Z) :
  0 <= t <= size - 1 → size - t <= Z.of_nat fuel →
  ∃ t', skipHidden fuel tbl t = Some t'
        ∧ t <= t' <= size - 1 ∧ visibleAt tbl t'
        ∧ ∀ j, t <= j < t' → hiddenAt tbl j.
Proof.
  destruct (wfTable_facts tbl Hwf) as (Hlen & _).
  revert t. induction fuel as [|fuel IH]; intros t Ht Hfuel; [lia|].
  destruct (tableAt_in_range tbl t ltac:(lia)) as [it Hit].
  cbn [skipHidden]. rewrite Hit. cbn [mbind option_bind].
  unfold isHidden. destruct (hidden it) eqn:Hh.
  - assert (t ≠ size - 1).
    { intros ->. destruct Hend as (e & He & Hhe). congruence. }
    rewrite wrap8_small by lia.
    destruct (IH (t + 1) ltac:(lia) ltac:(lia)) as (t' & Hrun & Ht' & Hv & Hhid).
    exists t'. split; [assumption|]. split; [lia|]. split; [assumption|].
    intros j Hj. destruct (Z.eq_dec j t) as [->|]; [exists it; auto|].
    apply Hhid. lia.
  - exists t. split; [reflexivity|]. split; [lia|]. split; [exists it; auto|].
    intros j Hj. lia.
Qed.

End Drawing.

Lemma wfEntries_last (rest : Table) :
  wfEntries rest = true →
  ∃ e, rest !! (length rest - 1)%nat = Some e ∧ isEnd e = true.
Proof.
  induction rest as [|x rest IH]; [discriminate|].
  cbn [wfEntries]. destruct rest as [|y rest].
  - intros Hx. exists x. auto.
  - intros [_ Hrest]%andb_true_iff. destruct (IH Hrest) as (e & He & Hend).
    exists e. split; [|assumption]. cbn [length] in *.
    replace (S (S (length rest)) - 1)%nat with (S (S (length rest) - 1)) by lia.
    exact He.
Qed.

(** In a well-formed table the end marker is the last node, and the only
    one. *)
Lemma wfTable_end (tbl : Table) :
  wfTable tbl = true →
  (∃ e, tableAt tbl (Z.of_nat (length tbl) - 1) = Some e ∧ isEnd e = true)
  ∧ ∀ i it, 0 <= i < Z.of_nat (length tbl) - 1 → tableAt tbl i = Some it →
            isEnd it = false.
Proof.
  intros Hwf. destruct (wfTable_facts tbl Hwf) as (Hlen & _ & (hdr & H0 & Hh) & Hent & _).
  split.
  - destruct tbl as [|h rest]; [discriminate|]. unfold wfTable in Hwf.
    apply andb_true_iff in Hwf as [[_ Hrest]%andb_true_iff _].
    destruct (wfEntries_last rest Hrest) as (e & He & Hend).
    exists e. split; [|assumption]. apply tableAt_Some. split; [lia|].
    cbn [length] in *.
    replace (Z.to_nat (Z.of_nat (S (length rest)) - 1))
      with (S (length rest - 1)) by lia.
    exact He.
  - intros i it Hi Hit. destruct (Z.eq_dec i 0) as [->|Hne].
    + assert (it = hdr).
      { apply tableAt_Some in Hit as [_ Hit].
        change (Z.to_nat 0) with 0%nat in Hit. congruence. }
      subst it. unfold isEnd, isHeader, getType in *.
      destruct (kind hdr); easy.
    + pose proof (Hent i it ltac:(lia) Hit) as He.
      unfold isEnd. apply isEntry_not_end, He.
Qed.

Lemma existsb_filter_length (f : Z → bool) (l : list Z) :
  negb (Z.of_nat (length (List.filter f l)) =? 0) = existsb f l.
Proof.
  induction l as [|x l IH]; [reflexivity|].
  cbn [List.filter existsb]. destruct (f x); [|exact IH].
  cbn [length orb]. destruct (Z.eqb_spec (Z.of_nat (S (length (List.filter f l)))) 0);
    [lia | reflexivity].
Qed.

Lemma filter_length_le (f : Z → bool) (l : list Z) :
  (length (List.filter f l) <= length l)%nat.
Proof.
  induction l as [|x l IH]; [reflexivity|].
  cbn [List.filter]. destruct (f x); cbn [length]; lia.
Qed.

Lemma countVisibleUp_spec (tbl : Table) (n : nat) (i : Z) :
  0 <= i → i + Z.of_nat n <= Z.of_nat (length tbl) →
  countVisibleUp tbl i n
  = Some (Z.of_nat (length (List.filter (visibleb tbl) (seqZ i (Z.of_nat n))))).
Proof.
  revert i. induction n as [|n IH]; intros i Hi Hlen; [reflexivity|].
  destruct (tableAt_in_range tbl i ltac:(lia)) as [it Hit].
  cbn [countVisibleUp]. rewrite Hit. cbn [mbind option_bind].
  rewrite (IH (i + 1)) by lia. cbn [mbind option_bind].
  rewrite (seqZ_cons i (Z.of_nat (S n))) by lia. cbn [List.filter].
  assert (Hv : visibleb tbl i = negb (isHidden it))
    by (unfold visibleb; rewrite Hit; reflexivity).
  rewrite Hv. replace (Z.succ i) with (i + 1) by lia.
  replace (Z.pred (Z.of_nat (S n))) with (Z.of_nat n) by lia.
  destruct (negb (isHidden it)); cbn [length]; f_equal; lia.
Qed.

Lemma countVisibleDown_spec (tbl : Table) (n : nat) (i : Z) :
  Z.of_nat n <= i + 1 → i < Z.of_nat (length tbl) →
  countVisibleDown tbl i n
  = Some (Z.of_nat (length (List.filter (visibleb tbl)
                              (seqZ (i - Z.of_nat n + 1) (Z.of_nat n))))).
Proof.
  revert i. induction n as [|n IH]; intros i Hn Hlen; [reflexivity|].
  destruct (tableAt_in_range tbl i ltac:(lia)) as [it Hit].
  cbn [countVisibleDown]. rewrite Hit. cbn [mbind option_bind].
  rewrite (IH (i - 1)) by lia. cbn [mbind option_bind].
  replace (Z.of_nat (S n)) with (Z.of_nat n + 1) by lia.
  rewrite seqZ_app by lia. rewrite List.filter_app, length_app.
  replace (i - (Z.of_nat n + 1) + 1 + Z.of_nat n) with i by lia.
  replace (i - 1 - Z.of_nat n + 1) with (i - (Z.of_nat n + 1) + 1) by lia.
  change (seqZ i 1) with [i]. cbn [List.filter].
  assert (Hv : visibleb tbl i = negb (isHidden it))
    by (unfold visibleb; rewrite Hit; reflexivity).
  rewrite Hv. destruct (negb (isHidden it)); cbn [length]; f_equal; lia.
Qed.

Lemma countToEnd_spec (tbl : Table) (k : nat) (t : Z) :
  wfTable tbl = true → 1 <= t → t = Z.of_nat (length tbl) - 1 - Z.of_nat k →
  countToEnd (drop (Z.to_nat t) tbl)
  = Some (Z.of_nat (length (visibleEntries tbl t))).
Proof.
  intros Hwf. destruct (wfTable_end tbl Hwf) as ((e & He & Hend) & Hnot).
  revert t. induction k as [|k IH]; intros t Ht Hk.
  - assert (Ht' : t = Z.of_nat (length tbl) - 1) by lia. rewrite Ht'.
    apply tableAt_lookup in He.
    rewrite (drop_S _ _ _ He). cbn [countToEnd]. fold (isEnd e). rewrite Hend.
    unfold visibleEntries. rewrite seqZ_nil by lia. reflexivity.
  - destruct (tableAt_in_range tbl t ltac:(lia)) as [it Hit].
    pose proof (Hnot t it ltac:(lia) Hit) as Hne.
    rewrite (drop_S _ _ _ (tableAt_lookup _ _ _ Hit)). cbn [countToEnd].
    fold (isEnd it). rewrite Hne.
    replace (S (Z.to_nat t)) with (Z.to_nat (t + 1)) by lia.
    rewrite (IH (t + 1)) by lia. cbn [mbind option_bind].
    unfold visibleEntries. rewrite (seqZ_cons t) by lia. cbn [List.filter].
    assert (Hv : visibleb tbl t = negb (isHidden it))
      by (unfold visibleb; rewrite Hit; reflexivity).
    rewrite Hv. replace (Z.succ t) with (t + 1) by lia.
    replace (Z.pred (Z.of_nat (length tbl) - 1 - t))
      with (Z.of_nat (length tbl) - 1 - (t + 1)) by lia.
    destruct (negb (isHidden it)); cbn [length]; f_equal; lia.
Qed.

Section DrawMenu.

Variables (m : LcdMenu) (tbl : Table).

Hypothesis Hwf : wfTable tbl = true.
Hypothesis Hend : visibleAt tbl (Z.of_nat (length tbl) - 1).
Hypothesis Hrows : 2 <= maxRows m.
Hypothesis Hbottom : bottom m = top m + maxRows m - 1.
Hypothesis Hfit : top m + maxRows m <= 255.
Hypothesis Htop : 1 <= top m.
Hypothesis Hlists : listsReadable tbl.

Lemma map_row (i : Z) :
  Arduino.map i (top m) (bottom m) 0 (maxRows m - 1) = Some (i - top m).
Proof.
  unfold Arduino.map. rewrite Hbottom.
  replace (top m + maxRows m - 1 - top m) with (maxRows m - 1) by lia.
  destruct (Z.eqb_spec (maxRows m - 1) 0); [lia|].
  rewrite Z.sub_0_r, Z.quot_mul by assumption. f_equal. lia.
Qed.

Lemma drawItems_spec (fuel : nat) :
  ∀ (i t first : Z) (rows : list (Z * Z)),
    top m <= i <= bottom m + 1 → bottom m + 1 - i < Z.of_nat fuel →
    0 <= t <= Z.of_nat (length tbl) - 1 →
    ∃ t' first',
      drawItems fuel m tbl i t first rows
      = Some (rows ++ zip (seqZ (i - top m) (bottom m + 1 - i))
                          (visibleEntries tbl t), t', first')
      ∧ t <= t' <= Z.of_nat (length tbl) - 1
      ∧ drop (Z.to_nat (bottom m + 1 - i)) (visibleEntries tbl t)
        = visibleEntries tbl t'
      ∧ (first ≠ 255 → first' = first)
      ∧ (first = 255 → i <= bottom m → visibleAt tbl t → t < 255 →
         first' = t).
Proof.
  destruct (wfTable_facts tbl Hwf) as (Hlen & _).
  destruct (wfTable_end tbl Hwf) as ((e & He & Hee) & Hnot).
  induction fuel as [|fuel IH]; intros i t first rows Hi Hfuel Ht; [lia|].
  cbn [drawItems]. destruct (Z.leb_spec i (bottom m)) as [Hle|Hgt].
  - destruct (skipHidden_spec tbl Hwf Hend loopFuel t Ht
                ltac:(rewrite loopFuel_Z; lia))
      as (ts & Hskip & Hts & Hvis & Hhid).
    rewrite Hskip. cbn [mbind option_bind].
    destruct Hvis as (item & Hitem & Hh). rewrite Hitem. cbn [mbind option_bind].
    rewrite map_row. cbn [mbind option_bind].
    rewrite (printValue_readable tbl ts item Hlists Hitem).
    cbn [mbind option_bind]. fold (isEnd item).
    rewrite (visibleEntries_skip tbl t ts) by (try assumption; lia).
    assert (Hfirst1 : ∀ first1, first1 = (if first =? 255 then ts else first) →
              (first ≠ 255 → first1 = first)
              ∧ (first = 255 → i <= bottom m → visibleAt tbl t → t < 255 →
                 first1 = t)).
    { intros first1 ->. split.
      - intros Hne. destruct (Z.eqb_spec first 255); [contradiction|reflexivity].
      - intros -> _ Hvt _. cbn [Z.eqb Pos.eqb].
        destruct (Z.eq_dec ts t) as [->|Hne]; [reflexivity|exfalso].
        apply (hidden_not_visible tbl t); [apply Hhid; lia | assumption]. }
    destruct (isEnd item) eqn:Hie.
    + (* the end marker: break *)
      assert (ts = Z.of_nat (length tbl) - 1).
      { destruct (Z.eq_dec ts (Z.of_nat (length tbl) - 1)); [assumption|exfalso].
        pose proof (Hnot ts item ltac:(lia) Hitem). congruence. }
      subst ts. rewrite visibleEntries_end.
      eexists _, _. split; [rewrite zip_nil_r, app_nil_r; reflexivity|].
      split; [lia|]. split; [rewrite visibleEntries_end; apply drop_nil|].
      apply Hfirst1. reflexivity.
    + assert (ts < Z.of_nat (length tbl) - 1).
      { destruct (Z.eq_dec ts (Z.of_nat (length tbl) - 1)) as [->|]; [|lia].
        congruence. }
      rewrite !wrap8_small by lia.
      destruct (IH (i + 1) (ts + 1) (if first =? 255 then ts else first)
                  (rows ++ [(i - top m, ts)]) ltac:(lia) ltac:(lia) ltac:(lia))
        as (t' & first' & Hrun & Ht' & Hdrop & Hf1 & _).
      exists t', first'. split.
      { rewrite Hrun. f_equal. f_equal. f_equal.
        rewrite (visibleEntries_cons tbl ts) by (try lia; exists item; auto).
        rewrite (seqZ_cons (i - top m)) by lia. cbn [zip zip_with].
        rewrite <- app_assoc. cbn [app]. f_equal. f_equal. f_equal; f_equal; lia. }
      split; [lia|]. split.
      { rewrite (visibleEntries_cons tbl ts) by (try lia; exists item; auto).
        replace (Z.to_nat (bottom m + 1 - i))
          with (S (Z.to_nat (bottom m + 1 - (i + 1)))) by lia.
        exact Hdrop. }
      destruct (Hfirst1 _ eq_refl) as [Ha Hb]. split.
      * intros Hne. pose proof (Ha Hne) as E. rewrite E in Hf1. exact (Hf1 Hne).
      * intros Hf Hib Hvt Ht255. pose proof (Hb Hf Hib Hvt Ht255) as E.
        rewrite E in Hf1. apply Hf1. lia.
  - assert (i = bottom m + 1) by lia. subst i.
    exists t, first. rewrite Z.sub_diag. rewrite seqZ_nil by lia.
    cbn [zip zip_with]. rewrite app_nil_r. split; [reflexivity|].
    split; [lia|]. split; [reflexivity|]. split; [auto|]. intros; lia.
Qed.

End DrawMenu.

Lemma In_seqZ (k from len : Z) : In k (seqZ from len) ↔ from <= k < from + len.
Proof. rewrite <- list_elem_of_In. apply elem_of_seqZ. Qed.

Lemma existsb_visible (tbl : Table) (from len : Z) :
  0 <= from → from + len <= Z.of_nat (length tbl) →
  existsb (visibleb tbl) (seqZ from len) = true
  ↔ ∃ j, from <= j < from + len ∧ visibleAt tbl j.
Proof.
  intros H0 Hlen. rewrite existsb_exists. split.
  - intros (j & Hj%In_seqZ & Hv%visibleb_true). eauto.
  - intros (j & Hj & Hv). exists j. split; [apply In_seqZ, Hj|].
    apply visibleb_true, Hv.
Qed.

Lemma all_hidden_existsb (tbl : Table) (from len : Z) (b : bool) :
  0 <= from → from + len <= Z.of_nat (length tbl) →
  (b = true ↔ ∀ k, from <= k < from + len → hiddenAt tbl k) →
  negb b = existsb (visibleb tbl) (seqZ from len).
Proof.
  intros H0 Hlen Hb.
  destruct (existsb (visibleb tbl) (seqZ from len)) eqn:E.
  - apply existsb_visible in E as (j & Hj & Hv); [|assumption..].
    destruct b; [exfalso|reflexivity].
    apply (hidden_not_visible tbl j); [apply Hb; auto | assumption].
  - destruct b; [reflexivity|]. assert (false = true); [|discriminate].
    apply Hb. intros k Hk. apply visibleb_false; [lia|].
    destruct (visibleb tbl k) eqn:Hv; [|reflexivity].
    rewrite <- E. symmetry. apply existsb_exists. exists k.
    split; [apply In_seqZ, Hk | assumption].
Qed.

Lemma visibleEntries_split (tbl : Table) (from t : Z) :
  from <= t <= Z.of_nat (length tbl) - 1 →
  visibleEntries tbl from
  = List.filter (visibleb tbl) (seqZ from (t - from)) ++ visibleEntries tbl t.
Proof.
  intros Ht. unfold visibleEntries.
  replace (Z.of_nat (length tbl) - 1 - from)
    with ((t - from) + (Z.of_nat (length tbl) - 1 - t)) by lia.
  rewrite seqZ_app by lia. rewrite List.filter_app.
  f_equal. f_equal. f_equal; lia.
Qed.

Lemma existsb_unprinted (tbl : Table) (t : Z) :
  0 <= t <= Z.of_nat (length tbl) - 1 →
  existsb (visibleb tbl) (seqZ t (Z.of_nat (length tbl) - 2 - t))
  = existsb (λ j, j <? Z.of_nat (length tbl) - 2) (visibleEntries tbl t).
Proof.
  intros Ht. apply eq_true_iff_eq. rewrite !existsb_exists. split.
  - intros (j & Hj%In_seqZ & Hv). exists j. split.
    + unfold visibleEntries. apply filter_seqZ_In. split; [lia | assumption].
    + apply Z.ltb_lt. lia.
  - intros (j & Hj & Hlt%Z.ltb_lt). unfold visibleEntries in Hj.
    apply filter_seqZ_In in Hj as [Hj Hv]. exists j.
    split; [apply In_seqZ; lia | assumption].
Qed.

Lemma seqZ_to_nat (from len : Z) :
  seqZ from (Z.of_nat (Z.to_nat len)) = seqZ from len.
Proof. unfold seqZ. rewrite Nat2Z.id. reflexivity. Qed.

(** What [drawMenu()] draws, for a window that fits the table. *)
Lemma drawMenu_spec (m : LcdMenu) (tbl : Table) :
  navOn m tbl →
  validPos (maxRows m) tbl (top m) (bottom m) (cursorPosition m) →
  visibleAt tbl (Z.of_nat (length tbl) - 1) →
  2 <= maxRows m → top m + maxRows m <= 255 →
  listsReadable tbl →
  drawMenu m
  = Some (mkScreen
            (zip (seqZ 0 (maxRows m)) (visibleEntries tbl (top m)))
            (negb (isEditModeEnabled m)
             && (maxRows m <? Z.of_nat (length (visibleEntries tbl 1)))
             && existsb (visibleb tbl) (seqZ 1 (top m - 1)))
            (negb (isEditModeEnabled m)
             && existsb (λ j, j <? Z.of_nat (length tbl) - 2)
                  (drop (Z.to_nat (maxRows m)) (visibleEntries tbl (top m))))).
Proof.
  intros Hnav Hpos Hend Hrows Hfit Hlists.
  pose proof Hnav as (Hcur & Hwf & Hsize & Hc).
  destruct Hpos as (Ht & Hclt & Hvt & Hvc & Hb).
  rewrite wrap8_small in Hb by lia.
  destruct (wfTable_facts tbl Hwf) as (Hlen & _).
  unfold drawMenu. generalize loopFuel_Z. generalize loopFuel. intros fuel Hfuel.
  rewrite Hcur. cbn [mbind option_bind].
  destruct (drawItems_spec m tbl Hwf Hend Hrows Hb Hfit (proj1 Ht) Hlists fuel
              (top m) (top m) 255 [] ltac:(lia) ltac:(lia) ltac:(lia))
    as (t' & first' & Hrun & Ht' & Hdrop & _ & Hfirst).
  rewrite Hrun. cbn [mbind option_bind app].
  rewrite (Hfirst eq_refl ltac:(lia) Hvt ltac:(lia)). clear Hfirst Hrun.
  replace (bottom m + 1 - top m) with (maxRows m) in * by lia.
  rewrite Z.sub_diag, Hdrop.
  destruct (isEditModeEnabled m); [reflexivity|]. cbn [negb andb].
  (* countNonHiddenItems *)
  unfold countNonHiddenItems. rewrite Hcur. cbn [mbind option_bind].
  change (drop 1 tbl) with (drop (Z.to_nat 1) tbl).
  rewrite (countToEnd_spec tbl (Z.to_nat (Z.of_nat (length tbl) - 2)) 1 Hwf)
    by lia.
  cbn [fmap option_fmap option_map mbind option_bind].
  set (count := Z.of_nat (length (visibleEntries tbl 1))).
  assert (Hcount : 0 <= count <= 254).
  { unfold count, visibleEntries.
    pose proof (filter_length_le (visibleb tbl)
                  (seqZ 1 (Z.of_nat (length tbl) - 1 - 1))) as Hle.
    rewrite length_seqZ in Hle. lia. }
  rewrite (wrap8_small count) by lia.
  assert (Hsplit : (length (visibleEntries tbl t') <= length (visibleEntries tbl 1))%nat).
  { rewrite (visibleEntries_split tbl 1 t') by lia. rewrite length_app. lia. }
  destruct (Z.leb_spec count (maxRows m)) as [Hfew|Hmany].
  { (* every entry fits: no arrows *)
    destruct (Z.ltb_spec (maxRows m) count); [lia|]. cbn [andb].
    rewrite <- Hdrop. rewrite drop_ge; [reflexivity|].
    unfold count in Hfew.
    rewrite (visibleEntries_split tbl 1 (top m)) in Hfew by lia.
    rewrite length_app in Hfew. lia. }
  destruct (Z.ltb_spec (maxRows m) count); [|lia]. cbn [andb].
  (* the cursor line *)
  destruct (wasAtTop_defined m tbl Hnav) as (b & Hab & _ & _).
  rewrite Hab. cbn [mbind option_bind].
  (* the up arrow *)
  assert (Hup : ∀ line,
            (if line =? 0 then
               allAboveFirst ← checkAllAboveHidden m (top m);
               Some (negb allAboveFirst && (cursorPosition m >? 1))
             else
               above ← countNonHiddenAbove m (top m);
               Some (negb (above =? 0)))
            = Some (existsb (visibleb tbl) (seqZ 1 (top m - 1)))).
  { intros line. destruct (line =? 0).
    - unfold checkAllAboveHidden. rewrite Hcur. cbn [mbind option_bind].
      destruct (Z.eqb_spec (top m) 0); [lia|].
      destruct (allHiddenDown_spec tbl (Z.to_nat (top m - 1)) (top m - 1)
                  ltac:(lia) ltac:(lia)) as (b2 & Hrun2 & Hb2).
      rewrite Hrun2. cbn [mbind option_bind]. f_equal.
      rewrite <- (all_hidden_existsb tbl 1 (top m - 1) b2) by
        (try lia; rewrite Hb2; split; intros Hall k Hk; apply Hall; lia).
      destruct b2; [reflexivity|]. cbn [negb andb].
      assert (Hex : ∃ k, 1 <= k < top m).
      { destruct (Z.eq_dec (top m) 1) as [E|]; [|exists 1; lia].
        assert (false = true); [|discriminate]. apply Hb2. intros k Hk. lia. }
      destruct Hex as (k & Hk). apply Z.gtb_lt. lia.
    - unfold countNonHiddenAbove. rewrite Hcur. cbn [mbind option_bind].
      destruct (Z.eqb_spec (top m) 0); [lia|].
      rewrite (countVisibleDown_spec tbl (Z.to_nat (top m - 1)) (top m - 1))
        by lia.
      cbn [fmap option_fmap option_map mbind option_bind]. f_equal.
      replace (top m - 1 - Z.of_nat (Z.to_nat (top m - 1)) + 1) with 1 by lia.
      replace (Z.of_nat (Z.to_nat (top m - 1))) with (top m - 1) by lia.
      pose proof (filter_length_le (visibleb tbl) (seqZ 1 (top m - 1))) as Hle.
      rewrite length_seqZ in Hle.
      rewrite wrap8_small by lia. apply existsb_filter_length. }
  rewrite Hup. cbn [mbind option_bind].
  (* the down arrow *)
  rewrite (wrap8_small (t' - 1)) by lia.
  unfold countNonHiddenBelow. rewrite Hcur. cbn [mbind option_bind].
  destruct (Z.ltb_spec (currentMenuSize m) 2); [lia|].
  replace (t' - 1 + 1) with t' by lia.
  rewrite (countVisibleUp_spec tbl) by lia.
  cbn [fmap option_fmap option_map mbind option_bind].
  rewrite seqZ_to_nat, Hsize.
  pose proof (filter_length_le (visibleb tbl)
                (seqZ t' (Z.of_nat (length tbl) - 2 - t'))) as Hle.
  rewrite length_seqZ in Hle.
  rewrite wrap8_small by lia.
  rewrite existsb_filter_length, existsb_unprinted by lia. reflexivity.
Qed.

(** X11. What [drawMenu()] prints.  On a well-formed table whose end marker
    is not hidden and whose lists have their index within their items, with
    [top] and the cursor on visible entries, [top] not below the cursor,
    [bottom = top + maxRows - 1], a display of at least two rows and a
    window that stays below 255: [drawMenu()] returns, and row 0, row 1, ...
    of the display receive, in order, the entries from [top] on that are not
    hidden, as many as there are rows; hidden entries take no row, and the
    end marker is never printed. *)
Theorem drawMenu_rows (m : LcdMenu) (tbl : Table) :
  navOn m tbl →
  validPos (maxRows m) tbl (top m) (bottom m) (cursorPosition m) →
  visibleAt tbl (Z.of_nat (length tbl) - 1) →
  2 <= maxRows m → top m + maxRows m <= 255 →
  listsReadable tbl →
  ∃ s, drawMenu m = Some s
       ∧ rowsDrawn s = zip (seqZ 0 (maxRows m)) (visibleEntries tbl (top m))
       ∧ ∀ row j, In (row, j) (rowsDrawn s) →
                  0 <= row < maxRows m
                  ∧ top m <= j < Z.of_nat (length tbl) - 1
                  ∧ visibleAt tbl j.
Proof.
  intros Hnav Hpos Hend Hrows Hfit Hlists.
  eexists. split; [apply (drawMenu_spec m tbl); assumption|].
  cbn [rowsDrawn]. split; [reflexivity|].
  intros row j Hin. apply list_elem_of_In in Hin.
  apply elem_of_zip_l in Hin as Hl. apply elem_of_zip_r in Hin as Hr.
  apply elem_of_seqZ in Hl. apply list_elem_of_In in Hr.
  destruct Hpos as (Ht & _).
  apply visibleEntries_In in Hr as [Hj Hv]; [|lia].
  split; [lia|]. split; assumption.
Qed.

Ltac concrete_navOn :=
  split; [reflexivity | split; [reflexivity | split; [reflexivity | simpl; lia]]].

Ltac concrete_validPos :=
  split; [simpl; lia|]; split; [simpl; lia|];
  split; [eexists; split; reflexivity|];
  split; [eexists; split; reflexivity | reflexivity].

Lemma drawMenu_rows_witness :
  ∃ s, drawMenu (started 3 thirdHidden) = Some s
       ∧ rowsDrawn s = [(0, 1); (1, 2); (2, 4)].
Proof.
  destruct (drawMenu_rows (started 3 thirdHidden) thirdHidden) as (s & H1 & H2 & _).
  - concrete_navOn.
  - concrete_validPos.
  - eexists; split; reflexivity.
  - simpl; lia.
  - simpl; lia.
  - apply listsReadable_forallb. reflexivity.
  - exists s. split; [exact H1|]. rewrite H2. reflexivity.
Defined.

(** X12. The arrows of [drawMenu()], under the conditions of X11.  The up
    arrow is drawn exactly when the menu is not in edit mode, the table has
    more visible entries than the display has rows, and some entry above
    [top] is not hidden.  The down arrow is drawn exactly when the menu is
    not in edit mode and some visible entry that got no row lies before the
    last entry of the table: the last entry itself is not counted. *)
Theorem drawMenu_arrows (m : LcdMenu) (tbl : Table) :
  navOn m tbl →
  validPos (maxRows m) tbl (top m) (bottom m) (cursorPosition m) →
  visibleAt tbl (Z.of_nat (length tbl) - 1) →
  2 <= maxRows m → top m + maxRows m <= 255 →
  listsReadable tbl →
  ∃ s, drawMenu m = Some s
       ∧ (upArrow s = true
          ↔ isEditModeEnabled m = false
            ∧ maxRows m < Z.of_nat (length (visibleEntries tbl 1))
            ∧ ∃ j, 1 <= j < top m ∧ visibleAt tbl j)
       ∧ (downArrow s = true
          ↔ isEditModeEnabled m = false
            ∧ ∃ j, In j (drop (Z.to_nat (maxRows m))
                           (visibleEntries tbl (top m)))
                   ∧ j < Z.of_nat (length tbl) - 2).
Proof.
  intros Hnav Hpos Hend Hrows Hfit Hlists.
  eexists. split; [apply (drawMenu_spec m tbl); assumption|].
  cbn [upArrow downArrow].
  destruct Hnav as (_ & Hwf & _). destruct (wfTable_facts tbl Hwf) as (Hlen & _).
  destruct Hpos as (Ht & Hc & _).
  split.
  - rewrite !andb_true_iff, negb_true_iff, Z.ltb_lt.
    rewrite (existsb_visible tbl 1 (top m - 1)) by lia. split.
    + intros [[He Hcount] (j & Hj & Hv)]. split; [assumption|].
      split; [assumption|]. exists j. split; [lia | assumption].
    + intros (He & Hcount & j & Hj & Hv). split; [auto|].
      exists j. split; [lia | assumption].
  - rewrite andb_true_iff, negb_true_iff, existsb_exists. split.
    + intros [He (j & Hin & Hlt%Z.ltb_lt)]. eauto.
    + intros (He & j & Hin & Hlt). split; [assumption|].
      exists j. split; [assumption | apply Z.ltb_lt, Hlt].
Qed.

(** Three visible entries on two rows, the window on the first two: the
    third entry has no row, and no down arrow is drawn. *)
Lemma drawMenu_arrows_witness :
  let m := started 2 [rootHeader; command false; command false; command false;
                      endOfMenu] in
  ∃ s, drawMenu m = Some s
       ∧ rowsDrawn s = [(0, 1); (1, 2)]
       ∧ upArrow s = false ∧ downArrow s = false.
Proof.
  intros m.
  destruct (drawMenu_arrows m
              [rootHeader; command false; command false; command false; endOfMenu])
    as (s & H1 & _ & _).
  - concrete_navOn.
  - concrete_validPos.
  - eexists; split; reflexivity.
  - simpl; lia.
  - simpl; lia.
  - apply listsReadable_forallb. reflexivity.
  - exists s. split; [exact H1|]. vm_compute in H1. injection H1 as <-.
    repeat split.
Defined.

Lemma drawItems_empty_range (fuel : nat) (m : LcdMenu) (tbl : Table)
    (t first : Z) (rows : list (Z * Z)) :
  bottom m = top m → drawItems (S fuel) m tbl (top m) t first rows = None.
Proof.
  intros Hb. cbn [drawItems]. rewrite Hb, Z.leb_refl.
  destruct (skipHidden loopFuel tbl t) as [t'|]; [|reflexivity].
  cbn [mbind option_bind].
  destruct (tableAt tbl t') as [item|]; [|reflexivity]. cbn [mbind option_bind].
  unfold Arduino.map. rewrite Z.sub_diag. reflexivity.
Qed.

(** X13. On a display with one row the window is a single position,
    [bottom = top].  [drawMenu()] then has no defined result, whatever the
    table: the first round of its loop calls [map(i, top, bottom, 0, 0)]
    with an empty input range, which divides by zero. *)
Theorem drawMenu_one_row (m : LcdMenu) :
  bottom m = top m → drawMenu m = None.
Proof.
  intros Hb. unfold drawMenu. generalize loopFuel_Z. generalize loopFuel.
  intros [|fuel] Hfuel; [discriminate Hfuel|].
  destruct (currentTable m) as [tbl|]; [|reflexivity]. cbn [mbind option_bind].
  rewrite drawItems_empty_range by exact Hb. reflexivity.
Qed.

(** After the constructor with one row and [setupLcdWithMenu], the window is
    [1, 1]. *)
Lemma drawMenu_one_row_witness :
  bottom (started 1 fiveVisible) = top (started 1 fiveVisible)
  ∧ drawMenu (started 1 fiveVisible) = None.
Proof.
  split; [reflexivity|]. apply drawMenu_one_row. reflexivity.
Defined.

Lemma filter_all (f : Z → bool) (l : list Z) :
  (∀ j, In j l → f j = true) → List.filter f l = l.
Proof.
  induction l as [|x l IH]; intros H; [reflexivity|].
  cbn [List.filter]. rewrite (H x) by (left; reflexivity).
  f_equal. apply IH. intros j Hj. apply H. right. exact Hj.
Qed.

(** The row of the cursor in [drawCursor()] when the cursor is inside the
    window. *)
Lemma drawCursor_line_in_window (m : LcdMenu) (tbl : Table) :
  navOn m tbl →
  validPos (maxRows m) tbl (top m) (bottom m) (cursorPosition m) →
  1 <= maxRows m → top m + maxRows m <= 256 →
  cursorPosition m <= bottom m →
  drawCursor_line m = Some (cursorPosition m - top m).
Proof.
  intros Hnav (Ht & Hclt & Hvt & Hvc & Hb) Hrows Hfit Hin.
  rewrite wrap8_small in Hb by lia. unfold drawCursor_line.
  destruct (wasAtTop_defined m tbl Hnav) as (b & Hab & Hall & _).
  rewrite Hab. cbn [mbind option_bind]. f_equal. destruct b.
  - destruct (Z.eq_dec (top m) (cursorPosition m)) as [->|Hne]; [lia|exfalso].
    apply (hidden_not_visible tbl (top m)); [|assumption].
    apply Hall; [reflexivity | lia].
  - unfold constrain.
    destruct (Z.ltb_spec (cursorPosition m - top m) 0); [lia|].
    destruct (Z.gtb_spec (cursorPosition m - top m) (maxRows m - 1)); [lia|].
    apply wrap8_small. lia.
Qed.

(** The row of an entry that no hidden node separates from [top]. *)
Lemma visible_run_row (tbl : Table) (t c rows : Z) :
  0 <= t <= c → c < Z.of_nat (length tbl) - 1 → c - t < rows →
  (∀ j, t <= j <= c → visibleAt tbl j) →
  In (c - t, c) (zip (seqZ 0 rows) (visibleEntries tbl t)).
Proof.
  intros Ht Hc Hrows Hvis.
  apply list_elem_of_In, list_elem_of_lookup. exists (Z.to_nat (c - t)).
  apply lookup_zip_with_Some. eexists _, _. split; [reflexivity|]. split.
  - rewrite lookup_seqZ. split; lia.
  - rewrite (visibleEntries_split tbl t c) by lia.
    rewrite filter_all.
    2:{ intros j Hj%In_seqZ. apply visibleb_true, Hvis. lia. }
    rewrite lookup_app_r by (rewrite length_seqZ; lia).
    rewrite length_seqZ.
    rewrite (visibleEntries_cons tbl c) by (try lia; apply Hvis; lia).
    replace (Z.to_nat (c - t) - Z.to_nat (c - t))%nat with 0%nat by lia.
    reflexivity.
Qed.

(** X14. The cursor and the item it stands for are on the same row when no
    node between [top] and the cursor is hidden and the cursor is inside the
    window: under the conditions of X11, [drawCursor()] puts the cursor on
    row [cursorPosition - top], and that is the row on which [drawMenu()]
    prints the item at [cursorPosition]. *)
Theorem cursor_row_coherent (m : LcdMenu) (tbl : Table) :
  navOn m tbl →
  validPos (maxRows m) tbl (top m) (bottom m) (cursorPosition m) →
  visibleAt tbl (Z.of_nat (length tbl) - 1) →
  2 <= maxRows m → top m + maxRows m <= 255 →
  listsReadable tbl →
  (∀ j, top m <= j <= cursorPosition m → visibleAt tbl j) →
  cursorPosition m <= bottom m →
  ∃ s, drawMenu m = Some s
       ∧ drawCursor_line m = Some (cursorPosition m - top m)
       ∧ In (cursorPosition m - top m, cursorPosition m) (rowsDrawn s).
Proof.
  intros Hnav Hpos Hend Hrows Hfit Hlists Hvis Hin.
  eexists. split; [apply (drawMenu_spec m tbl); assumption|].
  cbn [rowsDrawn]. split.
  - apply (drawCursor_line_in_window m tbl); try assumption; lia.
  - destruct Hpos as (Ht & Hclt & _ & _ & Hb).
    rewrite wrap8_small in Hb by lia.
    apply visible_run_row; try assumption; lia.
Qed.

Lemma cursor_row_coherent_witness :
  let m := mkMenu 3 2 false false 4 3 0%nat 7 true [fiveVisible] [] in
  ∃ s, drawMenu m = Some s
       ∧ drawCursor_line m = Some 1
       ∧ In (1, 3) (rowsDrawn s).
Proof.
  intros m.
  destruct (cursor_row_coherent m fiveVisible) as (s & H1 & H2 & H3).
  - concrete_navOn.
  - concrete_validPos.
  - eexists; split; reflexivity.
  - simpl; lia.
  - simpl; lia.
  - apply listsReadable_forallb. reflexivity.
  - simpl. intros j Hj.
    assert (j = 2 ∨ j = 3) as [-> | ->] by lia; eexists; split; reflexivity.
  - simpl; lia.
  - exists s. auto.
Defined.

(** With a hidden node between [top] and the cursor the two rows differ on
    a display of three rows: after one [down()] over a hidden second entry
    the cursor is drawn on row 2, next to the fourth entry, while the entry
    it stands for, the third, is printed on row 1. *)
Example cursor_row_off_by_hidden :
  let tbl := [rootHeader; command false; command true; command false;
              command false; command false; endOfMenu] in
  ∃ m s, down (started 3 tbl) = Some (true, m)
         ∧ cursorPosition m = 3
         ∧ drawCursor_line m = Some 2
         ∧ drawMenu m = Some s
         ∧ rowsDrawn s = [(0, 1); (1, 3); (2, 4)].
Proof. eexists _, _. repeat split; vm_compute; reflexivity. Qed.

(** ** A table without hidden nodes: the cursor stays in the window *)

Definition noHidden (tbl : Table) : Prop :=
  ∀ j, 0 <= j < Z.of_nat (length tbl) → visibleAt tbl j.

Definition inWindow (m : LcdMenu) : Prop :=
  top m <= cursorPosition m <= bottom m.

Lemma down_inWindow (m m' : LcdMenu) (tbl : Table) (b : bool) :
  Inv m → currentTable m = Some tbl → noHidden tbl →
  2 <= maxRows m → Z.of_nat (length tbl) + maxRows m <= 257 →
  inWindow m → down m = Some (b, m') → inWindow m'.
Proof.
  intros HI Hcur Hno Hrows Hfit [Hlo Hhi] Hdown.
  destruct (Inv_navOn m HI) as (tbl0 & Hnav & Hpos).
  assert (tbl0 = tbl) by (destruct Hnav as [Hcur0 _]; congruence). subst tbl0.
  pose proof Hnav as (_ & Hwf & Hsize & _).
  destruct Hpos as (Ht & Hc & _ & _ & Hb). rewrite wrap8_small in Hb by lia.
  destruct (down_spec m tbl Hnav)
    as (w & Hw & [[_ Hrun] | (_ & j & Hj & _ & Hhid & Hrun)]);
    rewrite Hrun in Hdown; injection Hdown as <- <-; [split; assumption|].
  assert (j = cursorPosition m + 1).
  { destruct (Z.eq_dec j (cursorPosition m + 1)); [assumption|exfalso].
    apply (hidden_not_visible tbl (cursorPosition m + 1));
      [apply Hhid; lia | apply Hno; lia]. }
  subst j.
  destruct (movedDown_facts m (cursorPosition m + 1) w)
    as (Hc' & _ & _ & _ & _ & _ & _ & Hwin).
  unfold inWindow. rewrite Hc'.
  destruct (Z.gtb_spec (cursorPosition m + 1) (bottom m)) as [Hgt|Hle].
  - assert (w = true).
    { apply (wasAtBottom_pinned m tbl w Hnav ltac:(lia) Hw). left. lia. }
    subst w. cbn [andb] in Hwin. injection Hwin as -> ->.
    rewrite wrap8_small by lia. lia.
  - cbn [andb] in Hwin. injection Hwin as -> ->. lia.
Qed.

Lemma up_inWindow (m m' : LcdMenu) (tbl : Table) (b : bool) :
  Inv m → currentTable m = Some tbl → noHidden tbl →
  2 <= maxRows m → Z.of_nat (length tbl) + maxRows m <= 257 →
  inWindow m → up m = Some (b, m') → inWindow m'.
Proof.
  intros HI Hcur Hno Hrows Hfit [Hlo Hhi] Hup.
  destruct (Inv_navOn m HI) as (tbl0 & Hnav & Hpos).
  assert (tbl0 = tbl) by (destruct Hnav as [Hcur0 _]; congruence). subst tbl0.
  pose proof Hnav as (_ & Hwf & Hsize & _).
  destruct Hpos as (Ht & Hc & _ & _ & Hb). rewrite wrap8_small in Hb by lia.
  destruct (up_spec m tbl Hnav)
    as (w & Hw & [[_ Hrun] | (_ & j & Hj & _ & Hhid & Hrun)]);
    rewrite Hrun in Hup; injection Hup as <- <-; [split; assumption|].
  assert (j = cursorPosition m - 1).
  { destruct (Z.eq_dec j (cursorPosition m - 1)); [assumption|exfalso].
    apply (hidden_not_visible tbl (cursorPosition m - 1));
      [apply Hhid; lia | apply Hno; lia]. }
  subst j.
  destruct (movedUp_facts m (cursorPosition m - 1) w)
    as (Hc' & _ & _ & _ & _ & _ & _ & Hwin).
  unfold inWindow. rewrite Hc'.
  destruct (Z.ltb_spec (cursorPosition m - 1) (top m)) as [Hlt|Hge].
  - assert (w = true).
    { apply (wasAtTop_pinned m tbl w Hnav ltac:(lia) Hw). left. lia. }
    subst w. cbn [andb] in Hwin. injection Hwin as -> ->.
    rewrite wrap8_small by lia. lia.
  - cbn [andb] in Hwin. injection Hwin as -> ->. lia.
Qed.

Lemma moves_inWindow (inputs : list Input) (m : LcdMenu) (tbl : Table) :
  Inv m → currentTable m = Some tbl → noHidden tbl →
  2 <= maxRows m → Z.of_nat (length tbl) + maxRows m <= 257 →
  inWindow m → forallb isMove inputs = true →
  ∃ m', run inputs m = Some m' ∧ Inv m' ∧ currentTable m' = Some tbl
        ∧ maxRows m' = maxRows m ∧ inWindow m'.
Proof.
  revert m. induction inputs as [|i inputs IH];
    intros m HI Hcur Hno Hrows Hfit Hin Hmoves.
  - exists m. auto.
  - cbn [forallb] in Hmoves. apply andb_true_iff in Hmoves as [Hi Hrest].
    assert (Hstep : ∃ m1, step i m = Some m1 ∧ Inv m1
                          ∧ currentTable m1 = Some tbl
                          ∧ maxRows m1 = maxRows m ∧ inWindow m1).
    { destruct i as [| | |c]; try discriminate Hi; cbn [step].
      - destruct (Inv_up m HI) as (b & m1 & Hup & HI1). rewrite Hup.
        exists m1. split; [reflexivity|]. split; [assumption|].
        pose proof (up_inWindow m m1 tbl b HI Hcur Hno Hrows Hfit Hin Hup).
        destruct (up_frame _ _ _ Hup) as (c1 & t1 & b1 & ev1 & ->). auto.
      - destruct (Inv_down m HI) as (b & m1 & Hdown & HI1). rewrite Hdown.
        exists m1. split; [reflexivity|]. split; [assumption|].
        pose proof (down_inWindow m m1 tbl b HI Hcur Hno Hrows Hfit Hin Hdown).
        destruct (down_frame _ _ _ Hdown) as (c1 & t1 & b1 & ev1 & ->). auto. }
    destruct Hstep as (m1 & Hstep & HI1 & Hcur1 & Hr1 & Hin1).
    destruct (IH m1 HI1 Hcur1 Hno ltac:(lia) ltac:(lia) Hin1 Hrest)
      as (m' & Hrun & HI' & Hcur' & Hr' & Hin').
    exists m'. cbn [run]. rewrite Hstep. cbn [mbind option_bind].
    split; [assumption|]. split; [assumption|]. split; [assumption|].
    split; [congruence | assumption].
Qed.

(** X15. In a table without hidden nodes the cursor never leaves the window,
    and the display shows it where it is.  From a state that satisfies the
    invariant [Inv], with the cursor inside the window, on a display of at
    least two rows and a table short enough for [top + maxRows] to stay
    below 256, whose lists have their index within their items: after any
    sequence of [up()] and [down()],
    [top <= cursorPosition <= bottom]; [drawMenu()] prints the entries at
    [top], [top + 1], ... on rows 0, 1, ..., and [drawCursor()] puts the
    cursor on the row of the entry at [cursorPosition]. *)
Theorem plain_table_display (m : LcdMenu) (tbl : Table) (inputs : list Input) :
  Inv m → currentTable m = Some tbl → noHidden tbl →
  2 <= maxRows m → Z.of_nat (length tbl) + maxRows m <= 257 →
  listsReadable tbl →
  top m <= cursorPosition m <= bottom m →
  forallb isMove inputs = true →
  ∃ m' s,
    run inputs m = Some m'
    ∧ top m' <= cursorPosition m' <= bottom m'
    ∧ drawMenu m' = Some s
    ∧ rowsDrawn s
      = zip (seqZ 0 (maxRows m'))
            (seqZ (top m') (Z.of_nat (length tbl) - 1 - top m'))
    ∧ drawCursor_line m' = Some (cursorPosition m' - top m')
    ∧ In (cursorPosition m' - top m', cursorPosition m') (rowsDrawn s).
Proof.
  intros HI Hcur Hno Hrows Hfit Hlists Hin Hmoves.
  destruct (moves_inWindow inputs m tbl HI Hcur Hno Hrows Hfit Hin Hmoves)
    as (m' & Hrun & HI' & Hcur' & Hr' & Hin').
  destruct (Inv_navOn m' HI') as (tbl0 & Hnav & Hpos).
  assert (tbl0 = tbl) by (destruct Hnav as [Hcur0 _]; congruence). subst tbl0.
  pose proof Hnav as (_ & Hwf & _). destruct (wfTable_facts tbl Hwf) as (Hlen & _).
  pose proof Hpos as (Ht & Hc & _ & _ & Hb). rewrite wrap8_small in Hb by lia.
  assert (Hend : visibleAt tbl (Z.of_nat (length tbl) - 1)) by (apply Hno; lia).
  exists m'. eexists. split; [exact Hrun|]. split; [exact Hin'|].
  split; [apply (drawMenu_spec m' tbl); try assumption; lia|].
  cbn [rowsDrawn]. split.
  - unfold visibleEntries. rewrite filter_all; [reflexivity|].
    intros j Hj%In_seqZ. apply visibleb_true, Hno. lia.
  - destruct Hin' as [Hlo Hhi]. split.
    + apply (drawCursor_line_in_window m' tbl); try assumption; lia.
    + apply visible_run_row; try lia. intros j Hj. apply Hno. lia.
Qed.

Lemma fiveVisible_wfStore : wfStore [fiveVisible].
Proof.
  split.
  - intros [|t] tbl; simpl; intros [= <-]; reflexivity.
  - intros [|t] tbl i it child; simpl; try discriminate; intros [= <-].
    destruct i as [|[|[|[|[|[|[|i]]]]]]]; simpl; try discriminate;
      intros [= <-]; discriminate.
Qed.

Lemma fiveVisible_noHidden : noHidden fiveVisible.
Proof.
  intros j Hj. cbn [fiveVisible length] in Hj.
  assert (Hcases : j = 0 ∨ j = 1 ∨ j = 2 ∨ j = 3 ∨ j = 4 ∨ j = 5 ∨ j = 6) by lia.
  destruct Hcases as [->|[->|[->|[->|[->|[->| ->]]]]]];
    eexists; split; reflexivity.
Qed.

Lemma Inv_fiveVisible : Inv (started 3 fiveVisible).
Proof.
  destruct (Inv_setup 3 [fiveVisible] 0%nat fiveVisible rootHeader)
    as (m0 & Hrun & HI & _);
    [lia | apply fiveVisible_wfStore | reflexivity | reflexivity
    | left; discriminate | eexists; split; reflexivity | simpl; lia |].
  vm_compute in Hrun. injection Hrun as <-. exact HI.
Qed.

Lemma plain_table_display_witness :
  ∃ m' s,
    run [InDown; InDown; InDown; InDown; InUp] (started 3 fiveVisible) = Some m'
    ∧ (top m', cursorPosition m', bottom m') = (3, 4, 5)
    ∧ drawMenu m' = Some s
    ∧ rowsDrawn s = [(0, 3); (1, 4); (2, 5)]
    ∧ drawCursor_line m' = Some 1.
Proof.
  destruct (plain_table_display (started 3 fiveVisible) fiveVisible
              [InDown; InDown; InDown; InDown; InUp]
              Inv_fiveVisible eq_refl fiveVisible_noHidden)
    as (m' & s & Hrun & _ & Hdraw & Hrows & Hline & _);
    [simpl; lia | simpl; lia | apply listsReadable_forallb; reflexivity
    | simpl; lia | reflexivity |].
  pose proof Hrun as Hrun'. vm_compute in Hrun'. injection Hrun' as <-.
  eexists _, s. split; [exact Hrun|]. split; [reflexivity|].
  split; [exact Hdraw|]. split; [rewrite Hrows; reflexivity | exact Hline].
Defined.

(** ** Every redraw after set-up *)

(** The keys write nodes of the same shape, and leave [maxRows] alone. *)
Definition shapeStep (m m' : LcdMenu) : Prop :=
  sameTables (menus m) (menus m') ∧ maxRows m' = maxRows m.

Lemma sameShape_trans (a b c : MenuItem) :
  sameShape a b → sameShape b c → sameShape a c.
Proof. unfold sameShape. intros [H1 H2] [H3 H4]. split; congruence. Qed.

Lemma sameTable_trans (a b c : Table) :
  sameTable a b → sameTable b c → sameTable a c.
Proof.
  unfold sameTable. intros Hab. revert c.
  induction Hab as [|x y l1 l2 Hxy Hl IH]; intros c Hbc;
    inversion Hbc; subst; constructor.
  - eapply sameShape_trans; eassumption.
  - apply IH. assumption.
Qed.

Lemma sameTables_trans (a b c : list Table) :
  sameTables a b → sameTables b c → sameTables a c.
Proof.
  unfold sameTables. intros Hab. revert c.
  induction Hab as [|x y l1 l2 Hxy Hl IH]; intros c Hbc;
    inversion Hbc; subst; constructor.
  - eapply sameTable_trans; eassumption.
  - apply IH. assumption.
Qed.

Lemma shapeStep_refl (m : LcdMenu) : shapeStep m m.
Proof. split; [apply sameTables_refl | reflexivity]. Qed.

Lemma shapeStep_trans (m1 m2 m3 : LcdMenu) :
  shapeStep m1 m2 → shapeStep m2 m3 → shapeStep m1 m3.
Proof.
  intros [H1 H2] [H3 H4]. split; [eapply sameTables_trans; eassumption|].
  congruence.
Qed.

Ltac shape_leaf Htbl Hit Hk :=
  split; [|reflexivity]; cbn [menus];
  first
    [ apply sameTables_refl
    | eapply sameTables_insert; [exact Htbl|];
      eapply sameTable_insert; [exact (tableAt_lookup _ _ _ Hit)|];
      first [ apply sameShape_remember
            | split; [reflexivity | cbn [kind]; rewrite Hk; reflexivity] ] ].

Lemma enter_shapeStep (m m' : LcdMenu) : enter m = Some m' → shapeStep m m'.
Proof.
  destruct m as [c t e cp b r tab sz en mn ev].
  unfold enter, enterSubMenu, itemAt, currentTable, storeItem, currentTable,
    update, drawCursor, isInEditMode.
  unfold_controller.
  destruct (mn !! tab) as [tbl|] eqn:Htbl; [|discriminate]. cbn [mbind option_bind].
  destruct (tableAt tbl c) as [it|] eqn:Hit; [|discriminate].
  cbn [mbind option_bind].
  destruct (kind it) as [mm|p mm|child|cb|on cb|cb|l|p|] eqn:Hk;
    try (intros [= <-]; shape_leaf Htbl Hit Hk).
  - destruct (getSubMenu it) as [ch|]; [|intros [= <-]; shape_leaf Htbl Hit Hk].
    destruct (tableAt tbl 0) as [hdr|] eqn:Hhdr; [|discriminate].
    cbn [mbind option_bind]. unfold_controller.
    destruct (_ !! ch) as [ctbl|]; [|discriminate]. cbn [mbind option_bind].
    destruct (getMenuSize ctbl) as [size|]; [|discriminate].
    cbn [mbind option_bind]. unfold_controller.
    destruct en; intros [= <-]; shape_leaf Htbl Hhdr Hk.
  - destruct cb, en; intros [= <-]; shape_leaf Htbl Hit Hk.
  - destruct cb, en; intros [= <-]; shape_leaf Htbl Hit Hk.
  - destruct e; intros [= <-]; shape_leaf Htbl Hit Hk.
  - destruct e; intros [= <-]; shape_leaf Htbl Hit Hk.
  - destruct e; intros [= <-]; shape_leaf Htbl Hit Hk.
Qed.

Lemma back_shapeStep (c0 : bool) (m m' : LcdMenu) :
  back c0 m = Some m' → shapeStep m m'.
Proof.
  destruct m as [c t e cp b r tab sz en mn ev].
  assert (Hleave : ∀ e', back_leave (mkMenu c t e' cp b r tab sz en mn ev) = Some m' →
                         shapeStep (mkMenu c t e cp b r tab sz en mn ev) m').
  { intros e'.
    unfold back_leave, isSubMenu, leaveSubMenu, itemAt, currentTable, update.
    unfold_controller.
    destruct (mn !! tab) as [tbl|]; [|discriminate]. cbn [mbind option_bind].
    destruct (tableAt tbl 0) as [hdr|]; [|discriminate]. cbn [mbind option_bind].
    destruct (ItemType_eqb _ _);
      [|intros [= <-]; split; [apply sameTables_refl | reflexivity]].
    destruct (getSubMenu hdr) as [p|];
      [|intros [= <-]; split; [apply sameTables_refl | reflexivity]].
    destruct (mn !! p) as [ptbl|]; [|discriminate]. cbn [mbind option_bind].
    destruct (getMenuSize ptbl) as [size|]; [|discriminate].
    cbn [mbind option_bind]. unfold_controller.
    destruct (tableAt ptbl 0) as [phdr|]; [|discriminate].
    cbn [mbind option_bind]. unfold_controller.
    destruct en; intros [= <-]; (split; [apply sameTables_refl | reflexivity]). }
  unfold back. unfold itemAt, currentTable, isInEditMode.
  unfold_controller.
  destruct (mn !! tab) as [tbl|] eqn:Htbl; [|discriminate]. cbn [mbind option_bind].
  destruct (tableAt tbl c) as [it|] eqn:Hit; [|discriminate].
  cbn [mbind option_bind].
  destruct e; [|apply Hleave].
  destruct (kind it) as [mm|p mm|child|cb|on cb|cb|l|p|] eqn:Hk; try apply Hleave.
  - unfold update. unfold_controller.
    destruct cb, en; intros [= <-]; shape_leaf Htbl Hit Hk.
  - unfold storeItem, currentTable, update. unfold_controller. rewrite Htbl.
    unfold_controller.
    destruct (ItemList.callback _), en; intros [= <-]; shape_leaf Htbl Hit Hk.
  - unfold storeItem, currentTable, update. unfold_controller. rewrite Htbl.
    unfold_controller.
    destruct (ItemProgress.callback _), en; intros [= <-];
      shape_leaf Htbl Hit Hk.
Qed.

Lemma left_shapeStep (MIN_PROGRESS : Z) (m m' : LcdMenu) :
  left MIN_PROGRESS m = Some m' → shapeStep m m'.
Proof.
  destruct m as [c t e cp b r tab sz en mn ev].
  unfold left, itemAt, currentTable, isInEditMode, storeItem, currentTable,
    update.
  unfold_controller. destruct (e && cp); [intros [= <-]; apply shapeStep_refl|].
  destruct (mn !! tab) as [tbl|] eqn:Htbl; [|discriminate]. cbn [mbind option_bind].
  destruct (tableAt tbl c) as [it|] eqn:Hit; [|discriminate].
  cbn [mbind option_bind].
  destruct (kind it) as [mm|p mm|child|cb|on cb|cb|l|p|] eqn:Hk;
    try (intros [= <-]; shape_leaf Htbl Hit Hk).
  - unfold ItemList.setItemIndex. unfold_controller.
    destruct (negb _), (ItemList.changeCallback l), en;
      intros [= <-]; shape_leaf Htbl Hit Hk.
  - destruct e, en; intros [= <-]; shape_leaf Htbl Hit Hk.
Qed.

Lemma right_shapeStep (MAX_PROGRESS : Z) (m m' : LcdMenu) :
  right MAX_PROGRESS m = Some m' → shapeStep m m'.
Proof.
  destruct m as [c t e cp b r tab sz en mn ev].
  unfold right, itemAt, currentTable, isInEditMode, storeItem, currentTable,
    update.
  unfold_controller. destruct (e && cp); [intros [= <-]; apply shapeStep_refl|].
  destruct (mn !! tab) as [tbl|] eqn:Htbl; [|discriminate]. cbn [mbind option_bind].
  destruct (tableAt tbl c) as [it|] eqn:Hit; [|discriminate].
  cbn [mbind option_bind].
  destruct (kind it) as [mm|p mm|child|cb|on cb|cb|l|p|] eqn:Hk;
    try (intros [= <-]; shape_leaf Htbl Hit Hk).
  - destruct (ItemList.getItemCount l =? 0); [discriminate|].
    unfold ItemList.setItemIndex. unfold_controller.
    destruct (ItemList.changeCallback l), en;
      intros [= <-]; shape_leaf Htbl Hit Hk.
  - destruct e, en; intros [= <-]; shape_leaf Htbl Hit Hk.
Qed.

Lemma pressAll_shapeStep (MIN_PROGRESS MAX_PROGRESS : Z) (keys : list Key)
    (m m' : LcdMenu) :
  pressAll MIN_PROGRESS MAX_PROGRESS keys m = Some m' → shapeStep m m'.
Proof.
  revert m. induction keys as [|k keys IH]; intros m.
  - intros [= <-]. apply shapeStep_refl.
  - cbn [pressAll].
    destruct (press MIN_PROGRESS MAX_PROGRESS k m) as [m1|] eqn:Hk; [|discriminate].
    cbn [mbind option_bind]. intros Hrest. apply IH in Hrest.
    apply (shapeStep_trans m m1 m'); [|exact Hrest].
    destruct k as [| | | | |c]; cbn [press] in Hk.
    + destruct (up m) as [[b m2]|] eqn:Hup; [|discriminate]. injection Hk as <-.
      destruct (up_frame _ _ _ Hup) as (c1 & t1 & b1 & ev1 & ->).
      split; [apply sameTables_refl | reflexivity].
    + destruct (down m) as [[b m2]|] eqn:Hdown; [|discriminate]. injection Hk as <-.
      destruct (down_frame _ _ _ Hdown) as (c1 & t1 & b1 & ev1 & ->).
      split; [apply sameTables_refl | reflexivity].
    + exact (left_shapeStep _ _ _ Hk).
    + exact (right_shapeStep _ _ _ Hk).
    + exact (enter_shapeStep _ _ Hk).
    + exact (back_shapeStep _ _ _ Hk).
Qed.

(** ** Lists that can be read *)

(** A list as its constructor leaves it when the array of strings is not
    empty, and as [setItemIndex], [saveProgress] and [restoreProgress] keep
    it: between 1 and 255 items, and the index as well as the index saved
    when the edit began within them. *)
Definition listHeld (l : ItemList.t) : Prop :=
  listInRange l
  ∧ 0 <= ItemList.initialItemIndex l < ItemList.itemCount l.

Definition listsInRange (mn : list Table) : Prop :=
  ∀ (t : TableId) tbl (i : nat) it l,
    mn !! t = Some tbl → tbl !! i = Some it → kind it = KList l →
    listHeld l.

Lemma listsInRange_nonEmpty (mn : list Table) :
  listsInRange mn → listsNonEmpty mn.
Proof.
  intros H t tbl i it l Ht Hi Hk.
  destruct (H t tbl i it l Ht Hi Hk) as [[Hn _] _]. lia.
Qed.

Lemma listsInRange_readable (mn : list Table) (t : TableId) (tbl : Table) :
  listsInRange mn → mn !! t = Some tbl → listsReadable tbl.
Proof.
  intros H Ht i it l Hit%tableAt_lookup Hk.
  destruct (H t tbl _ it l Ht Hit Hk) as [[_ Hi] _]. exact Hi.
Qed.

Lemma listHeld_save (l : ItemList.t) :
  listHeld l → listHeld (ItemList.saveProgress l).
Proof.
  unfold listHeld, listInRange.
  cbn [ItemList.saveProgress ItemList.itemCount ItemList.itemIndex
       ItemList.initialItemIndex].
  intros [[Hn Hi] Hs]. auto.
Qed.

Lemma listHeld_restore (l : ItemList.t) :
  listHeld l → listHeld (ItemList.restoreProgress l).
Proof.
  unfold listHeld, listInRange.
  cbn [ItemList.restoreProgress ItemList.itemCount ItemList.itemIndex
       ItemList.initialItemIndex].
  intros [[Hn Hi] Hs]. auto.
Qed.

(** What [setItemIndex] stores is within the items, whatever is asked for. *)
Lemma listHeld_stored (l : ItemList.t) (arg : Z) :
  listHeld l →
  listHeld (ItemList.mk (ItemList.callback l) (ItemList.changeCallback l)
              (ItemList.itemCount l)
              (wrap16 (constrain (wrap16 arg) 0 (ItemList.itemCount l - 1)))
              (ItemList.initialItemIndex l)).
Proof.
  unfold listHeld, listInRange.
  cbn [ItemList.itemCount ItemList.itemIndex ItemList.initialItemIndex].
  intros [[Hn Hi] Hs].
  split; [|assumption]. split; [assumption|].
  assert (Hw : 0 <= wrap16 arg < 65536) by (apply Z.mod_pos_bound; lia).
  revert Hw. generalize (wrap16 arg). intros w Hw. unfold constrain.
  destruct (Z.ltb_spec w 0); [lia|].
  destruct (Z.gtb_spec w (ItemList.itemCount l - 1));
    unfold wrap16; rewrite Z.mod_small by lia; lia.
Qed.

(** A write that puts a held list where a list was, or something that is
    not a list. *)
Lemma listsInRange_write (mn : list Table) (tab : TableId) (tbl : Table)
    (c : Z) (it it' : MenuItem) :
  mn !! tab = Some tbl → tableAt tbl c = Some it →
  (∀ l', kind it' = KList l' →
         ∃ l, kind it = KList l ∧ (listHeld l → listHeld l')) →
  listsInRange mn →
  listsInRange (<[tab := <[Z.to_nat c := it']> tbl]> mn).
Proof.
  intros Htbl Hit%tableAt_lookup Hkeep H t tbl1 i it1 l1 Ht Hi Hk.
  destruct (decide (t = tab)) as [->|Hne].
  - rewrite list_lookup_insert_eq in Ht by (eapply lookup_lt_Some, Htbl).
    injection Ht as <-.
    destruct (decide (i = Z.to_nat c)) as [->|Hne].
    + rewrite list_lookup_insert_eq in Hi by (eapply lookup_lt_Some, Hit).
      injection Hi as <-. destruct (Hkeep l1 Hk) as (l & Hl & Hheld).
      exact (Hheld (H tab tbl _ it l Htbl Hit Hl)).
    + rewrite list_lookup_insert_ne in Hi by congruence.
      exact (H tab tbl i it1 l1 Htbl Hi Hk).
  - rewrite list_lookup_insert_ne in Ht by congruence.
    exact (H t tbl1 i it1 l1 Ht Hi Hk).
Qed.

Lemma remember_list_held (hdr : MenuItem) (t b c : Z) (l' : ItemList.t) :
  kind (setCursorPosition_item (setBottom (setTop hdr t) b) c) = KList l' →
  ∃ l, kind hdr = KList l ∧ (listHeld l → listHeld l').
Proof.
  unfold setCursorPosition_item, setBottom, setTop, withMemento, getMemento.
  destruct hdr as [h k]. destruct k; cbn [kind hidden]; try discriminate.
  intros [= <-]. eauto.
Qed.

Ltac range_leaf H Htbl Hit Hk :=
  cbn [menus];
  first
    [ exact H
    | eapply listsInRange_write; [exact Htbl | exact Hit | | exact H];
      first
        [ apply remember_list_held
        | cbn [kind]; intros l0 Hl0;
          first [ discriminate Hl0
                | injection Hl0 as <-; eexists; split; [exact Hk|];
                  first [ apply listHeld_save | apply listHeld_stored ] ] ] ].

Lemma enter_listsInRange (m m' : LcdMenu) :
  enter m = Some m' → listsInRange (menus m) → listsInRange (menus m').
Proof.
  destruct m as [c t e cp b r tab sz en mn ev]. cbn [menus]. intros Hrun H.
  revert Hrun.
  unfold enter, enterSubMenu, itemAt, currentTable, storeItem, currentTable,
    update, drawCursor, isInEditMode.
  unfold_controller.
  destruct (mn !! tab) as [tbl|] eqn:Htbl; [|discriminate]. cbn [mbind option_bind].
  destruct (tableAt tbl c) as [it|] eqn:Hit; [|discriminate].
  cbn [mbind option_bind].
  destruct (kind it) as [mm|p mm|child|cb|on cb|cb|l|p|] eqn:Hk;
    try (intros [= <-]; range_leaf H Htbl Hit Hk).
  - destruct (getSubMenu it) as [ch|]; [|intros [= <-]; range_leaf H Htbl Hit Hk].
    destruct (tableAt tbl 0) as [hdr|] eqn:Hhdr; [|discriminate].
    cbn [mbind option_bind]. unfold_controller.
    destruct (_ !! ch) as [ctbl|]; [|discriminate]. cbn [mbind option_bind].
    destruct (getMenuSize ctbl) as [size|]; [|discriminate].
    cbn [mbind option_bind]. unfold_controller.
    destruct en; intros [= <-]; range_leaf H Htbl Hhdr Hk.
  - destruct cb, en; intros [= <-]; range_leaf H Htbl Hit Hk.
  - destruct cb, en; intros [= <-]; range_leaf H Htbl Hit Hk.
  - destruct e; intros [= <-]; range_leaf H Htbl Hit Hk.
  - destruct e; intros [= <-]; range_leaf H Htbl Hit Hk.
  - destruct e; intros [= <-]; range_leaf H Htbl Hit Hk.
Qed.

Lemma back_listsInRange (c0 : bool) (m m' : LcdMenu) :
  back c0 m = Some m' → listsInRange (menus m) → listsInRange (menus m').
Proof.
  destruct m as [c t e cp b r tab sz en mn ev]. cbn [menus]. intros Hrun H.
  assert (Hleave : ∀ e', back_leave (mkMenu c t e' cp b r tab sz en mn ev) = Some m' →
                         listsInRange (menus m')).
  { intros e'.
    unfold back_leave, isSubMenu, leaveSubMenu, itemAt, currentTable, update.
    unfold_controller.
    destruct (mn !! tab) as [tbl|]; [|discriminate]. cbn [mbind option_bind].
    destruct (tableAt tbl 0) as [hdr|]; [|discriminate]. cbn [mbind option_bind].
    destruct (ItemType_eqb _ _); [|intros [= <-]; exact H].
    destruct (getSubMenu hdr) as [p|]; [|intros [= <-]; exact H].
    destruct (mn !! p) as [ptbl|]; [|discriminate]. cbn [mbind option_bind].
    destruct (getMenuSize ptbl) as [size|]; [|discriminate].
    cbn [mbind option_bind]. unfold_controller.
    destruct (tableAt ptbl 0) as [phdr|]; [|discriminate].
    cbn [mbind option_bind]. unfold_controller.
    destruct en; intros [= <-]; exact H. }
  revert Hrun. unfold back. unfold itemAt, currentTable, isInEditMode.
  unfold_controller.
  destruct (mn !! tab) as [tbl|] eqn:Htbl; [|discriminate]. cbn [mbind option_bind].
  destruct (tableAt tbl c) as [it|] eqn:Hit; [|discriminate].
  cbn [mbind option_bind].
  destruct e; [|apply Hleave].
  destruct (kind it) as [mm|p mm|child|cb|on cb|cb|l|p|] eqn:Hk; try apply Hleave.
  - unfold update. unfold_controller.
    destruct cb, en; intros [= <-]; exact H.
  - unfold storeItem, currentTable, update. unfold_controller. rewrite Htbl.
    unfold_controller.
    destruct (ItemList.callback _), en; intros [= <-]; cbn [menus];
      (eapply listsInRange_write; [exact Htbl | exact Hit | | exact H]);
      cbn [kind]; intros l0 [= <-]; exists l; (split; [exact Hk|]);
      destruct c0; [apply listHeld_restore | auto
                   | apply listHeld_restore | auto
                   | apply listHeld_restore | auto
                   | apply listHeld_restore | auto].
  - unfold storeItem, currentTable, update. unfold_controller. rewrite Htbl.
    unfold_controller.
    destruct (ItemProgress.callback _), en; intros [= <-];
      range_leaf H Htbl Hit Hk.
Qed.

Lemma left_listsInRange (MIN_PROGRESS : Z) (m m' : LcdMenu) :
  left MIN_PROGRESS m = Some m' →
  listsInRange (menus m) → listsInRange (menus m').
Proof.
  destruct m as [c t e cp b r tab sz en mn ev]. cbn [menus]. intros Hrun H.
  revert Hrun.
  unfold left, itemAt, currentTable, isInEditMode, storeItem, currentTable,
    update.
  unfold_controller. destruct (e && cp); [intros [= <-]; exact H|].
  destruct (mn !! tab) as [tbl|] eqn:Htbl; [|discriminate]. cbn [mbind option_bind].
  destruct (tableAt tbl c) as [it|] eqn:Hit; [|discriminate].
  cbn [mbind option_bind].
  destruct (kind it) as [mm|p mm|child|cb|on cb|cb|l|p|] eqn:Hk;
    try (intros [= <-]; exact H).
  - unfold ItemList.setItemIndex. unfold_controller.
    destruct (negb _), (ItemList.changeCallback l), en;
      intros [= <-]; range_leaf H Htbl Hit Hk.
  - destruct e, en; intros [= <-]; range_leaf H Htbl Hit Hk.
Qed.

Lemma right_listsInRange (MAX_PROGRESS : Z) (m m' : LcdMenu) :
  right MAX_PROGRESS m = Some m' →
  listsInRange (menus m) → listsInRange (menus m').
Proof.
  destruct m as [c t e cp b r tab sz en mn ev]. cbn [menus]. intros Hrun H.
  revert Hrun.
  unfold right, itemAt, currentTable, isInEditMode, storeItem, currentTable,
    update.
  unfold_controller. destruct (e && cp); [intros [= <-]; exact H|].
  destruct (mn !! tab) as [tbl|] eqn:Htbl; [|discriminate]. cbn [mbind option_bind].
  destruct (tableAt tbl c) as [it|] eqn:Hit; [|discriminate].
  cbn [mbind option_bind].
  destruct (kind it) as [mm|p mm|child|cb|on cb|cb|l|p|] eqn:Hk;
    try (intros [= <-]; exact H).
  - destruct (ItemList.getItemCount l =? 0); [discriminate|].
    unfold ItemList.setItemIndex. unfold_controller.
    destruct (ItemList.changeCallback l), en;
      intros [= <-]; range_leaf H Htbl Hit Hk.
  - destruct e, en; intros [= <-]; range_leaf H Htbl Hit Hk.
Qed.

Lemma press_listsInRange (MIN_PROGRESS MAX_PROGRESS : Z) (k : Key)
    (m m' : LcdMenu) :
  press MIN_PROGRESS MAX_PROGRESS k m = Some m' →
  listsInRange (menus m) → listsInRange (menus m').
Proof.
  intros Hk Hl. destruct k as [| | | | |c]; cbn [press] in Hk.
  - destruct (up m) as [[b m2]|] eqn:Hup; [|discriminate]. injection Hk as <-.
    destruct (up_frame _ _ _ Hup) as (c1 & t1 & b1 & ev1 & ->). exact Hl.
  - destruct (down m) as [[b m2]|] eqn:Hdown; [|discriminate]. injection Hk as <-.
    destruct (down_frame _ _ _ Hdown) as (c1 & t1 & b1 & ev1 & ->). exact Hl.
  - exact (left_listsInRange _ _ _ Hk Hl).
  - exact (right_listsInRange _ _ _ Hk Hl).
  - exact (enter_listsInRange _ _ Hk Hl).
  - exact (back_listsInRange _ _ _ Hk Hl).
Qed.

Lemma pressAll_listsInRange (MIN_PROGRESS MAX_PROGRESS : Z) (keys : list Key)
    (m m' : LcdMenu) :
  pressAll MIN_PROGRESS MAX_PROGRESS keys m = Some m' →
  listsInRange (menus m) → listsInRange (menus m').
Proof.
  revert m. induction keys as [|k keys IH]; intros m.
  - intros [= <-]. auto.
  - cbn [pressAll].
    destruct (press MIN_PROGRESS MAX_PROGRESS k m) as [m1|] eqn:Hk; [|discriminate].
    cbn [mbind option_bind]. intros Hrest Hl.
    exact (IH m1 Hrest (press_listsInRange _ _ _ _ _ Hk Hl)).
Qed.

(** Every table can be drawn on [rows] rows: its end marker is not hidden,
    and it is short enough for [top + rows] to stay below 256. *)
Definition drawable (rows : Z) (mn : list Table) : Prop :=
  ∀ (t : TableId) tbl,
    mn !! t = Some tbl →
    visibleAt tbl (Z.of_nat (length tbl) - 1)
    ∧ Z.of_nat (length tbl) + rows <= 257.

Lemma drawable_sameTables (rows : Z) (mn mn' : list Table) :
  sameTables mn mn' → drawable rows mn → drawable rows mn'.
Proof.
  intros Hs H t tbl' Ht'.
  destruct (Forall2_lookup_r _ _ _ _ _ Hs Ht') as (tbl & Ht & Hst).
  destruct (H t tbl Ht) as [Hend Hlen].
  pose proof (Forall2_length _ _ _ Hst) as Hl. rewrite <- Hl.
  split; [|assumption]. eapply sameTable_visibleAt; eassumption.
Qed.

(** The row of the cursor is a row of the display. *)
Lemma drawCursor_line_defined (m : LcdMenu) (tbl : Table) :
  navOn m tbl → 1 <= maxRows m <= 255 →
  ∃ line, drawCursor_line m = Some line ∧ 0 <= line <= maxRows m - 1.
Proof.
  intros Hnav Hrows. unfold drawCursor_line.
  destruct (wasAtTop_defined m tbl Hnav) as (b & Hab & _ & _).
  rewrite Hab. cbn [mbind option_bind]. eexists. split; [reflexivity|].
  destruct b; [lia|]. unfold constrain.
  destruct (Z.ltb_spec (cursorPosition m - top m) 0);
    [rewrite wrap8_small by lia; lia|].
  destruct (Z.gtb_spec (cursorPosition m - top m) (maxRows m - 1));
    rewrite wrap8_small by lia; lia.
Qed.

(** X16. Every redraw after set-up is defined on a display of two rows or
    more.  After the constructor and [setupLcdWithMenu] on a well-formed
    store in which every list holds at least one item and has its index
    within its items, every end marker is visible and every table is short
    enough for [top + maxRows] to stay below 256, and after any sequence of
    the six keys: [drawMenu()] returns, and prints the visible entries from
    [top] on, with the entry at [top] on row 0; [drawCursor()] puts the
    cursor on a row of the display. *)
Theorem redraw_safe_after_setup (MIN_PROGRESS MAX_PROGRESS rows : Z)
    (tables : list Table) (root : TableId) (tbl : Table) (hdr : MenuItem)
    (keys : list Key) :
  2 <= rows <= 255 → wfStore tables → listsInRange tables →
  drawable rows tables →
  tables !! root = Some tbl → tbl !! 0%nat = Some hdr →
  getType hdr ≠ MENU_ITEM_SUB_MENU_HEADER ∨ getSubMenu hdr = None →
  visibleAt tbl 1 → 3 <= Z.of_nat (length tbl) →
  ∃ m0 m' tbl' s line,
    setupLcdWithMenu root (LcdMenu_new rows tables) = Some m0
    ∧ pressAll MIN_PROGRESS MAX_PROGRESS keys m0 = Some m'
    ∧ currentTable m' = Some tbl'
    ∧ drawMenu m' = Some s
    ∧ rowsDrawn s = zip (seqZ 0 rows) (visibleEntries tbl' (top m'))
    ∧ In (0, top m') (rowsDrawn s)
    ∧ drawCursor_line m' = Some line
    ∧ 0 <= line <= rows - 1.
Proof.
  intros Hrows Hstore Hlists Hdraw Hroot H0 Hnone Hv1 Hlen.
  destruct (Inv_setup rows tables root tbl hdr ltac:(lia) Hstore Hroot H0 Hnone
              Hv1 Hlen) as (m0 & Hsetup & HI0 & _).
  assert (Hm0 : menus m0 = tables ∧ maxRows m0 = rows).
  { revert Hsetup. unfold setupLcdWithMenu. cbn [menus LcdMenu_new].
    rewrite Hroot. cbn [mbind option_bind].
    destruct (getMenuSize tbl) as [size|]; [|discriminate].
    cbn [mbind option_bind]. unfold update. nav. intros [= <-]. auto. }
  destruct Hm0 as [Hmn0 Hr0].
  destruct (Inv_pressAll MIN_PROGRESS MAX_PROGRESS keys m0 HI0
              ltac:(rewrite Hmn0; exact (listsInRange_nonEmpty _ Hlists)))
    as (m' & Hrun & HI' & _).
  pose proof (pressAll_listsInRange _ _ _ _ _ Hrun
                ltac:(rewrite Hmn0; exact Hlists)) as Hlists'.
  destruct (pressAll_shapeStep _ _ _ _ _ Hrun) as [Hshape Hr'].
  rewrite Hmn0 in Hshape. rewrite Hr0 in Hr'.
  pose proof (drawable_sameTables rows _ _ Hshape Hdraw) as Hdraw'.
  destruct (Inv_navOn m' HI') as (tbl' & Hnav & Hpos).
  pose proof Hnav as (Hcur' & Hwf' & _).
  destruct (Hdraw' _ tbl' Hcur') as [Hend' Hlen'].
  pose proof Hpos as (Ht & Hc & Hvt & _).
  destruct (drawCursor_line_defined m' tbl' Hnav ltac:(lia)) as (line & Hline & Hl).
  exists m0, m', tbl'. eexists. exists line.
  split; [exact Hsetup|]. split; [exact Hrun|]. split; [exact Hcur'|].
  split; [apply (drawMenu_spec m' tbl'); try assumption; try lia;
          exact (listsInRange_readable _ _ _ Hlists' Hcur')|].
  cbn [rowsDrawn]. rewrite Hr'. split; [reflexivity|]. split.
  - replace 0 with (top m' - top m') at 1 by lia.
    apply visible_run_row; try lia.
    intros j Hj. replace j with (top m') by lia. exact Hvt.
  - split; [exact Hline | lia].
Qed.

Lemma mixed_listsInRange : listsInRange [mixedRoot; settings].
Proof.
  intros [|[|t]] tbl i it l; simpl; try discriminate; intros [= <-].
  - destruct i as [|[|[|[|[|i]]]]]; simpl; try discriminate;
      intros [= <-]; try discriminate. intros [= <-].
    unfold listHeld, listInRange, colours. simpl. lia.
  - destruct i as [|[|[|[|i]]]]; simpl; try discriminate;
      intros [= <-]; discriminate.
Qed.

(** The condition on the lists is needed: for a list without items
    [drawMenu()] reads the first string of an empty array. *)
Example drawMenu_empty_list :
  drawMenu (listMenu (ItemList.mk false false 0 0 0)) = None.
Proof. vm_compute. reflexivity. Qed.

Lemma mixed_drawable : drawable 2 [mixedRoot; settings].
Proof.
  intros [|[|t]] tbl; simpl; try discriminate; intros [= <-];
    (split; [eexists; split; reflexivity | simpl; lia]).
Qed.

Lemma redraw_safe_after_setup_witness :
  ∃ m0 m' s,
    setupLcdWithMenu 0%nat (LcdMenu_new 2 [mixedRoot; settings]) = Some m0
    ∧ pressAll 0 1000
        [KeyDown; KeyDown; KeyEnter; KeyDown; KeyDown; KeyUp] m0 = Some m'
    ∧ drawMenu m' = Some s
    ∧ In (0, top m') (rowsDrawn s).
Proof.
  destruct (redraw_safe_after_setup 0 1000 2 [mixedRoot; settings] 0%nat
              mixedRoot rootHeader
              [KeyDown; KeyDown; KeyEnter; KeyDown; KeyDown; KeyUp])
    as (m0 & m' & tbl' & s & line & H0 & H1 & _ & H2 & _ & H3 & _);
    [lia | apply mixed_wfStore | apply mixed_listsInRange
    | apply mixed_drawable | reflexivity | reflexivity | left; discriminate
    | eexists; split; reflexivity | simpl; lia |].
  exists m0, m', s. auto.
Defined.

(** * The keys on a state the display can show

    The theorems above follow the navigation code, with [update()] and
    [drawCursor()] recorded as calls.  The ones below are about the keys as
    the code runs them, redraw included: they start from a state on which
    the redraw is defined, and state, with the result of every key, that
    the redraw of the state it returns is defined as well. *)

(** A state the display can show: the navigation invariant holds, the
    display has two rows or more (with one row [drawMenu()] divides by zero),
    every table ends with an end marker that is not hidden and is short
    enough for [top + maxRows] to stay below 256, and every list holds at
    least one item and has its indices within its items. *)
Definition Shown (m : LcdMenu) : Prop :=
  Inv m
  ∧ 2 <= maxRows m
  ∧ drawable (maxRows m) (menus m)
  ∧ listsInRange (menus m).

(** On such a state [drawMenu()] and [drawCursor()] return. *)
Lemma Shown_redraws (m : LcdMenu) : Shown m → redraws m.
Proof.
  intros (HI & Hrows & Hdraw & Hlists).
  destruct (Inv_navOn m HI) as (tbl & Hnav & Hpos).
  pose proof Hnav as (Hcur & Hwf & _).
  destruct (Hdraw _ tbl Hcur) as [Hend Hlen].
  pose proof Hpos as (Ht & Hc & _).
  pose proof HI as (Hr255 & _).
  destruct (drawCursor_line_defined m tbl Hnav ltac:(lia)) as (line & Hline & _).
  destruct (Inv_cursor_item m HI) as (_ & it & _ & _ & Hat & _).
  unfold redraws, redraw, drawCursor_row.
  rewrite (drawMenu_spec m tbl Hnav Hpos Hend Hrows ltac:(lia)
             (listsInRange_readable _ _ _ Hlists Hcur)).
  cbn [mbind option_bind]. rewrite Hline. cbn [mbind option_bind].
  rewrite Hat. cbn [mbind option_bind]. eexists. reflexivity.
Qed.

(** What does not concern navigation does not concern [Shown]. *)
Lemma Shown_sameNavStore (m m' : LcdMenu) :
  Shown m → sameNavStore m m' → Shown m'.
Proof.
  intros (HI & Hrows & Hdraw & Hlists) Hs.
  pose proof Hs as (Hr & _ & _ & _ & _ & _ & Hm).
  split; [exact (Inv_sameNavStore m m' HI Hs)|].
  rewrite Hr, Hm. auto.
Qed.

Section ShownKeys.

Variables MIN_PROGRESS MAX_PROGRESS : Z.

Lemma Shown_press (k : Key) (m : LcdMenu) :
  Shown m →
  ∃ m', press MIN_PROGRESS MAX_PROGRESS k m = Some m' ∧ Shown m'.
Proof.
  intros (HI & Hrows & Hdraw & Hlists).
  destruct (Inv_press MIN_PROGRESS MAX_PROGRESS k m HI
              (listsInRange_nonEmpty _ Hlists)) as (m' & Hk & HI' & _).
  exists m'. split; [exact Hk|].
  assert (Hall : pressAll MIN_PROGRESS MAX_PROGRESS [k] m = Some m')
    by (cbn [pressAll]; rewrite Hk; reflexivity).
  destruct (pressAll_shapeStep _ _ _ _ _ Hall) as [Hshape Hr].
  split; [exact HI'|]. rewrite Hr. split; [exact Hrows|]. split.
  - exact (drawable_sameTables _ _ _ Hshape Hdraw).
  - exact (press_listsInRange _ _ _ _ _ Hk Hlists).
Qed.

Lemma Shown_pressAll (keys : list Key) (m : LcdMenu) :
  Shown m →
  ∃ m', pressAll MIN_PROGRESS MAX_PROGRESS keys m = Some m' ∧ Shown m'.
Proof.
  revert m. induction keys as [|k keys IH]; intros m HS.
  - exists m. auto.
  - destruct (Shown_press k m HS) as (m1 & Hk & HS1).
    destruct (IH m1 HS1) as (m' & Hrun & HS').
    exists m'. cbn [pressAll]. rewrite Hk. auto.
Qed.

Lemma Shown_left (m : LcdMenu) :
  Shown m → ∃ m', left MIN_PROGRESS m = Some m' ∧ Shown m'.
Proof. exact (Shown_press KeyLeft m). Qed.

Lemma Shown_right (m : LcdMenu) :
  Shown m → ∃ m', right MAX_PROGRESS m = Some m' ∧ Shown m'.
Proof. exact (Shown_press KeyRight m). Qed.

Lemma Shown_gestures (gs : list Gesture) (m : LcdMenu) :
  Shown m →
  ∃ m', gestures MIN_PROGRESS MAX_PROGRESS gs m = Some m' ∧ Shown m'.
Proof.
  revert m. induction gs as [|g gs IH]; intros m HS.
  - exists m. auto.
  - assert (Hg : ∃ m1, gesture MIN_PROGRESS MAX_PROGRESS g m = Some m1 ∧ Shown m1).
    { destruct g; [apply Shown_left | apply Shown_right]; exact HS. }
    destruct Hg as (m1 & Hg & HS1).
    destruct (IH m1 HS1) as (m' & Hrun & HS').
    exists m'. cbn [gestures]. rewrite Hg. auto.
Qed.

Lemma Shown_repeat_right (k : nat) (m : LcdMenu) :
  Shown m →
  ∃ m', repeatM k (right MAX_PROGRESS) m = Some m' ∧ Shown m'.
Proof.
  revert m. induction k as [|k IH]; intros m HS.
  - exists m. auto.
  - destruct (Shown_right m HS) as (m1 & Hr & HS1).
    destruct (IH m1 HS1) as (m' & Hrun & HS').
    exists m'. cbn [repeatM]. rewrite Hr. auto.
Qed.

End ShownKeys.

Lemma Shown_up (m : LcdMenu) :
  Shown m → ∃ b m', up m = Some (b, m') ∧ Shown m'.
Proof.
  intros HS. destruct (Shown_press 0 0 KeyUp m HS) as (m' & Hk & HS').
  cbn [press] in Hk. destruct (up m) as [[b m1]|]; [|discriminate].
  injection Hk as <-. eauto.
Qed.

Lemma Shown_down (m : LcdMenu) :
  Shown m → ∃ b m', down m = Some (b, m') ∧ Shown m'.
Proof.
  intros HS. destruct (Shown_press 0 0 KeyDown m HS) as (m' & Hk & HS').
  cbn [press] in Hk. destruct (down m) as [[b m1]|]; [|discriminate].
  injection Hk as <-. eauto.
Qed.

Lemma Shown_enter (m : LcdMenu) :
  Shown m → ∃ m', enter m = Some m' ∧ Shown m'.
Proof. exact (Shown_press 0 0 KeyEnter m). Qed.

Lemma Shown_back (editCancelled : bool) (m : LcdMenu) :
  Shown m → ∃ m', back editCancelled m = Some m' ∧ Shown m'.
Proof. exact (Shown_press 0 0 (KeyBack editCancelled) m). Qed.

Lemma Shown_run (inputs : list Input) (m : LcdMenu) :
  Shown m → ∃ m', run inputs m = Some m' ∧ Shown m'.
Proof.
  revert m. induction inputs as [|i inputs IH]; intros m HS.
  - exists m. auto.
  - assert (Hi : ∃ m1, step i m = Some m1 ∧ Shown m1).
    { destruct i as [| | |c]; cbn [step].
      - destruct (Shown_up m HS) as (b & m1 & -> & HS1). eauto.
      - destruct (Shown_down m HS) as (b & m1 & -> & HS1). eauto.
      - apply Shown_enter, HS.
      - apply Shown_back, HS. }
    destruct Hi as (m1 & Hi & HS1).
    destruct (IH m1 HS1) as (m' & Hrun & HS').
    exists m'. cbn [run]. rewrite Hi. auto.
Qed.

(** *** States that are shown *)

Definition heldb (it : MenuItem) : bool :=
  match kind it with
  | KList l =>
      (1 <=? ItemList.itemCount l) && (ItemList.itemCount l <=? 255)
      && (0 <=? ItemList.itemIndex l)
      && (ItemList.itemIndex l <? ItemList.itemCount l)
      && (0 <=? ItemList.initialItemIndex l)
      && (ItemList.initialItemIndex l <? ItemList.itemCount l)
  | _ => true
  end.

Lemma listsInRange_forallb (mn : list Table) :
  forallb (forallb heldb) mn = true → listsInRange mn.
Proof.
  intros H t tbl i it l Ht Hi Hk. rewrite forallb_forall in H.
  assert (Hin : In tbl mn) by (apply list_elem_of_In, list_elem_of_lookup; eauto).
  specialize (H tbl Hin). rewrite forallb_forall in H.
  assert (Hin' : In it tbl) by (apply list_elem_of_In, list_elem_of_lookup; eauto).
  specialize (H it Hin'). unfold heldb in H. rewrite Hk in H.
  unfold listHeld, listInRange.
  repeat (apply andb_true_iff in H as [H ?]). lia.
Qed.

Definition drawableb (rows : Z) (tbl : Table) : bool :=
  visibleb tbl (Z.of_nat (length tbl) - 1)
  && (Z.of_nat (length tbl) + rows <=? 257).

Lemma drawable_forallb (rows : Z) (mn : list Table) :
  forallb (drawableb rows) mn = true → drawable rows mn.
Proof.
  intros H t tbl Ht. rewrite forallb_forall in H.
  assert (Hin : In tbl mn) by (apply list_elem_of_In, list_elem_of_lookup; eauto).
  specialize (H tbl Hin). unfold drawableb in H.
  apply andb_true_iff in H as [Hv Hlen]. split; [apply visibleb_true, Hv | lia].
Qed.

(** A store of one table without links to sub-menus. *)
Definition noLinks (tbl : Table) : bool :=
  forallb (λ it, negb (ItemType_eqb (getType it) MENU_ITEM_SUB_MENU)) tbl.

Lemma wfStore_single (tbl : Table) :
  wfTable tbl = true → noLinks tbl = true → wfStore [tbl].
Proof.
  intros Hwf Hno. split.
  - intros [|t] tbl'; simpl; [intros [= <-]; exact Hwf | discriminate].
  - intros [|t] tbl' i it child; simpl; [|discriminate]. intros [= <-] Hi Hty.
    exfalso. unfold noLinks in Hno. rewrite forallb_forall in Hno.
    assert (Hin : In it tbl) by (apply list_elem_of_In, list_elem_of_lookup; eauto).
    specialize (Hno it Hin). rewrite Hty in Hno. discriminate Hno.
Qed.

(** The state after the constructor and [setupLcdWithMenu]. *)
Lemma Shown_setup (rows : Z) (tables : list Table) (root : TableId)
    (tbl : Table) (hdr : MenuItem) :
  2 <= rows <= 255 → wfStore tables → listsInRange tables →
  drawable rows tables →
  tables !! root = Some tbl → tbl !! 0%nat = Some hdr →
  getType hdr ≠ MENU_ITEM_SUB_MENU_HEADER ∨ getSubMenu hdr = None →
  visibleAt tbl 1 → 3 <= Z.of_nat (length tbl) →
  ∃ m0, setupLcdWithMenu root (LcdMenu_new rows tables) = Some m0
        ∧ Shown m0
        ∧ (cursorPosition m0, top m0, bottom m0) = (1, 1, rows).
Proof.
  intros Hrows Hstore Hlists Hdraw Hroot H0 Hnone Hv1 Hlen.
  destruct (Inv_setup rows tables root tbl hdr ltac:(lia) Hstore Hroot H0 Hnone
              Hv1 Hlen) as (m0 & Hsetup & HI0 & Hpos).
  assert (Hm0 : menus m0 = tables ∧ maxRows m0 = rows).
  { revert Hsetup. unfold setupLcdWithMenu. cbn [menus LcdMenu_new].
    rewrite Hroot. cbn [mbind option_bind].
    destruct (getMenuSize tbl) as [size|]; [|discriminate].
    cbn [mbind option_bind]. unfold update. nav. intros [= <-]. auto. }
  destruct Hm0 as [Hmn0 Hr0].
  exists m0. split; [exact Hsetup|]. split; [|exact Hpos].
  split; [exact HI0|]. rewrite Hmn0, Hr0. split; [lia|]. auto.
Qed.

Lemma Shown_started (rows : Z) (tbl : Table) :
  2 <= rows <= 255 → wfTable tbl = true → noLinks tbl = true →
  forallb heldb tbl = true → drawableb rows tbl = true →
  getType <$> tbl !! 0%nat = Some MENU_ITEM_MAIN_MENU_HEADER →
  visibleb tbl 1 = true → 3 <= Z.of_nat (length tbl) →
  Shown (started rows tbl).
Proof.
  intros Hrows Hwf Hno Hheld Hdraw Hroot Hv1 Hlen.
  destruct (tbl !! 0%nat) as [hdr|] eqn:H0; [|discriminate Hroot].
  injection Hroot as Hty.
  destruct (wfTable_facts tbl Hwf) as (_ & _ & _ & _ & Hsize).
  destruct (Shown_setup rows [tbl] 0%nat tbl hdr Hrows (wfStore_single tbl Hwf Hno))
    as (m0 & Hsetup & HS & _).
  - apply listsInRange_forallb. cbn [forallb]. rewrite Hheld. reflexivity.
  - apply drawable_forallb. cbn [forallb]. rewrite Hdraw. reflexivity.
  - reflexivity.
  - exact H0.
  - left. rewrite Hty. discriminate.
  - apply visibleb_true, Hv1.
  - exact Hlen.
  - revert Hsetup. unfold setupLcdWithMenu. cbn [menus LcdMenu_new].
    change ([tbl] !! 0%nat) with (Some tbl).
    cbn [mbind option_bind]. rewrite Hsize. cbn [mbind option_bind].
    intros [= <-]. exact HS.
Qed.

Ltac shown_started :=
  apply Shown_started;
  [ simpl; lia | reflexivity | reflexivity | reflexivity | reflexivity
  | reflexivity | reflexivity | simpl; lia ].

(** ** The cursor below the window *)

(** C1, the failing input.  Two display rows and a root table of five
    entries, the third one hidden.  The state after set-up can be shown, and
    the redraw is defined after a first [down()] and after a second one.
    After the second one the cursor is on entry 4 while the window is
    [2,3]: [cursorPosition <= bottom] fails.  [drawMenu()] then prints the
    entries 2 and 4 and [drawCursor()] puts the cursor on the second row, so
    [bottom], which the code documents as the position of the last visible
    item, is the position of the hidden entry 3 and not that of the last
    item on the display. *)
Theorem cursor_below_bottom :
  setupLcdWithMenu 0%nat (LcdMenu_new 2 [thirdHidden])
  = Some (started 2 thirdHidden)
  ∧ Shown (started 2 thirdHidden)
  ∧ ∃ m1 m2 s,
      down (started 2 thirdHidden) = Some (true, m1) ∧ redraws m1
      ∧ down m1 = Some (true, m2)
      ∧ (cursorPosition m2, top m2, bottom m2) = (4, 2, 3)
      ∧ ¬ (top m2 <= cursorPosition m2 <= bottom m2)
      ∧ redraw m2 = Some (s, 1)
      ∧ rowsDrawn s = [(0, 2); (1, 4)]
      ∧ hiddenAt thirdHidden (bottom m2).
Proof.
  split; [reflexivity|]. split; [shown_started|].
  eexists _, _, _. split; [vm_compute; reflexivity|].
  split; [eexists; vm_compute; reflexivity|].
  split; [vm_compute; reflexivity|]. split; [reflexivity|].
  split; [simpl; lia|]. split; [vm_compute; reflexivity|].
  split; [reflexivity|]. eexists. split; reflexivity.
Qed.

(** ** [up()] and [down()] as the code runs them *)

(** The reading of C9 for a controller [m]: a successful [up()] leaves the
    cursor on an entry that is not hidden. *)
Definition upLandsOnEntry (m : LcdMenu) : Prop :=
  ∀ m', up m = Some (true, m') → onVisibleEntry m'.

(** C9, counterexample.  [setCursorPosition(7)] on a table of seven nodes
    puts the cursor behind the end marker.  [up()] then returns [true] with
    the cursor on the end marker, a structural node; the redraw it ends with
    is defined. *)
Lemma up_onto_end_marker :
  let m := setCursorPosition 7 (started 3 fiveVisible) in
  ∃ m', up m = Some (true, m')
        ∧ cursorPosition m' = 6
        ∧ itemAt m' (cursorPosition m') = Some endOfMenu
        ∧ redraws m'
        ∧ ¬ onVisibleEntry m'
        ∧ ¬ upLandsOnEntry m.
Proof.
  intros m.
  assert (Hup : ∃ m', up m = Some (true, m') ∧ cursorPosition m' = 6
                      ∧ itemAt m' (cursorPosition m') = Some endOfMenu
                      ∧ redraws m').
  { eexists. split; [vm_compute; reflexivity|]. split; [reflexivity|].
    split; [reflexivity|]. eexists. vm_compute. reflexivity. }
  destruct Hup as (m' & Hup & Hc & Hat & Hdraw).
  assert (Hno : ¬ onVisibleEntry m').
  { intros (it & Hit & _ & Hentry). rewrite Hat in Hit. injection Hit as <-.
    discriminate Hentry. }
  exists m'. split; [exact Hup|]. split; [exact Hc|]. split; [exact Hat|].
  split; [exact Hdraw|]. split; [exact Hno|].
  intros H. exact (Hno (H m' Hup)).
Qed.

(** C9, on the states the display can show.  [up()] and [down()] return,
    and the redraw of the state they return is defined.  They return
    [false], with the controller exactly as it was, whenever edit mode is on
    or every node between the cursor and the header (for [up()]), or between
    the cursor and the end marker (for [down()]), is hidden, and in no other
    case; when they return [true] the cursor has moved, in the direction
    asked for, to an entry that is not hidden. *)
Theorem up_down_no_op (m : LcdMenu) (tbl : Table) :
  Shown m → currentTable m = Some tbl →
  let noneAbove := ∀ k, 0 < k < cursorPosition m → hiddenAt tbl k in
  let noneBelow :=
    ∀ k, cursorPosition m < k < currentMenuSize m - 1 → hiddenAt tbl k in
  (∃ r, up m = Some r ∧ redraws (snd r))
  ∧ (∃ r, down m = Some r ∧ redraws (snd r))
  ∧ (isEditModeEnabled m = true ∨ noneAbove → up m = Some (false, m))
  ∧ (isEditModeEnabled m = true ∨ noneBelow → down m = Some (false, m))
  ∧ (∀ m', up m = Some (false, m') →
           m' = m ∧ (isEditModeEnabled m = true ∨ noneAbove))
  ∧ (∀ m', down m = Some (false, m') →
           m' = m ∧ (isEditModeEnabled m = true ∨ noneBelow))
  ∧ (∀ m', up m = Some (true, m') →
           cursorPosition m' < cursorPosition m ∧ onVisibleEntry m'
           ∧ redraws m')
  ∧ (∀ m', down m = Some (true, m') →
           cursorPosition m < cursorPosition m' ∧ onVisibleEntry m'
           ∧ redraws m').
Proof.
  intros HS Hcur noneAbove noneBelow.
  destruct (Inv_navOn m (proj1 HS)) as (tbl0 & Hnav & _).
  assert (tbl0 = tbl) by (destruct Hnav as [Hcur0 _]; congruence). subst tbl0.
  pose proof (up_down_nav m tbl Hnav) as Hnavs. cbv zeta in Hnavs.
  destruct Hnavs as (_ & _ & Hu0 & Hd0 & Hu1 & Hd1 & Hu2 & Hd2).
  destruct (Shown_up m HS) as (bu & mu & Hup & HSu).
  destruct (Shown_down m HS) as (bd & md & Hdown & HSd).
  split; [exists (bu, mu); split; [exact Hup | exact (Shown_redraws _ HSu)]|].
  split; [exists (bd, md); split; [exact Hdown | exact (Shown_redraws _ HSd)]|].
  split; [exact Hu0|]. split; [exact Hd0|].
  split; [exact Hu1|]. split; [exact Hd1|]. split.
  - intros m' Hrun. destruct (Hu2 m' Hrun) as [Hlt Hvis].
    split; [exact Hlt|]. split; [exact Hvis|].
    rewrite Hrun in Hup. injection Hup as _ <-. exact (Shown_redraws _ HSu).
  - intros m' Hrun. destruct (Hd2 m' Hrun) as [Hlt Hvis].
    split; [exact Hlt|]. split; [exact Hvis|].
    rewrite Hrun in Hdown. injection Hdown as _ <-. exact (Shown_redraws _ HSd).
Qed.

(** Two display rows, the third of five entries hidden, after set-up:
    [up()] fails on the first entry, and [down()] moves to the second. *)
Lemma up_down_no_op_witness :
  (Shown (started 2 thirdHidden)
   ∧ currentTable (started 2 thirdHidden) = Some thirdHidden)
  ∧ up (started 2 thirdHidden) = Some (false, started 2 thirdHidden)
  ∧ ∃ m', down (started 2 thirdHidden) = Some (true, m')
          ∧ cursorPosition m' = 2 ∧ onVisibleEntry m' ∧ redraws m'.
Proof.
  assert (HS : Shown (started 2 thirdHidden)) by shown_started.
  split; [split; [exact HS | reflexivity]|].
  pose proof (up_down_no_op (started 2 thirdHidden) thirdHidden HS eq_refl) as H.
  cbv zeta in H. destruct H as (_ & _ & Hu0 & _ & _ & _ & _ & Hd2).
  split.
  - apply Hu0. right. intros k Hk. simpl in Hk. lia.
  - eexists. split; [vm_compute; reflexivity|]. split; [reflexivity|].
    refine (proj2 (Hd2 _ _)). vm_compute. reflexivity.
Defined.

(** ** Into a sub-menu and back *)

(** What a shown state knows of the link under its cursor. *)
Lemma Shown_link (m : LcdMenu) (lnk : MenuItem) (child : TableId) :
  Shown m →
  itemAt m (cursorPosition m) = Some lnk → kind lnk = KSubMenu (Some child) →
  ∃ ptbl hdr ctbl chdr cm,
    currentTable m = Some ptbl
    ∧ ptbl !! 0%nat = Some hdr ∧ isHeader hdr = true
    ∧ getMenuSize ptbl = Some (currentMenuSize m)
    ∧ menus m !! child = Some ctbl
    ∧ is_Some (getMenuSize ctbl)
    ∧ ctbl !! 0%nat = Some chdr
    ∧ kind chdr = KSubHeader (Some (currentMenuTable m)) cm.
Proof.
  intros (HI & _) Hat Hk.
  destruct (Inv_cursor_item m HI) as (tbl & it & Hcur & Hit & Hat' & _).
  assert (it = lnk) by congruence. subst it.
  destruct (Inv_navOn m HI) as (tbl0 & (Hcur0 & Hwf & Hsize & _) & _).
  assert (tbl0 = tbl) by congruence. subst tbl0.
  destruct (wfTable_facts tbl Hwf) as (_ & _ & (hdr & H0 & Hish) & _ & Hgs).
  destruct HI as (_ & [Hwfs Hlinks] & _).
  assert (Hty : getType lnk = MENU_ITEM_SUB_MENU)
    by (unfold getType; rewrite Hk; reflexivity).
  assert (Hsub : getSubMenu lnk = Some child)
    by (unfold getSubMenu; rewrite Hk; reflexivity).
  unfold currentTable in Hcur.
  destruct (Hlinks _ tbl _ lnk child Hcur (tableAt_lookup _ _ _ Hit) Hty Hsub)
    as (ctbl & chdr & Hchild & Hc0 & Hcty & Hcsub & _).
  destruct (wfTable_facts ctbl (Hwfs _ _ Hchild)) as (_ & _ & _ & _ & Hcgs).
  assert (Hck : ∃ cm, kind chdr = KSubHeader (Some (currentMenuTable m)) cm).
  { revert Hcty Hcsub. unfold getType, getSubMenu.
    destruct (kind chdr) as [|p cm| | | | | | |]; try discriminate.
    intros _ [= ->]. eauto. }
  destruct Hck as [cm Hck].
  exists tbl, hdr, ctbl, chdr, cm. rewrite Hsize. unfold currentTable.
  split; [exact Hcur|]. split; [exact H0|]. split; [exact Hish|].
  split; [exact Hgs|]. split; [exact Hchild|]. split; [eauto|].
  split; [exact Hc0 | exact Hck].
Qed.

(** C3. Round trip.  From a state the display can show, in browsing mode,
    with the cursor on a link to a sub-menu: [enter()] makes the child table
    the active one with cursor 1 and window [1, maxRows], and redraws;
    [back()] right after it makes the parent the active table again, with
    the cursor position and the window it had before [enter()], and
    redraws; no node other than the parent's header has been touched. *)
Theorem submenu_round_trip (m : LcdMenu) (lnk : MenuItem) (child : TableId)
    (editCancelled : bool) :
  Shown m → isInEditMode m = false →
  itemAt m (cursorPosition m) = Some lnk → kind lnk = KSubMenu (Some child) →
  ∃ m1 m2,
    enter m = Some m1 ∧ redraws m1
    ∧ currentMenuTable m1 = child
    ∧ (cursorPosition m1, top m1, bottom m1) = (1, 1, maxRows m)
    ∧ back editCancelled m1 = Some m2 ∧ redraws m2
    ∧ currentMenuTable m2 = currentMenuTable m
    ∧ currentMenuSize m2 = currentMenuSize m
    ∧ cursorPosition m2 = cursorPosition m
    ∧ top m2 = top m
    ∧ bottom m2 = bottom m
    ∧ isInEditMode m2 = false
    ∧ (∀ i, i ≠ 0 → itemAt m2 i = itemAt m i).
Proof.
  intros HS Hbrowse Hat Hk.
  destruct (Shown_link m lnk child HS Hat Hk)
    as (ptbl & hdr & ctbl & chdr & cm & Hcur & H0 & Hish & Hgs & Hchild & Hcgs
        & Hc0 & Hck).
  destruct (round_trip_nav m lnk hdr chdr child ptbl ctbl cm editCancelled
              Hat Hk Hbrowse Hcur H0 Hish Hgs Hchild Hcgs Hc0 Hck)
    as (m1 & m2 & Henter & Htab1 & Hpos1 & Hback & Hrest).
  destruct (Shown_enter m HS) as (m1' & Henter' & HS1).
  assert (m1' = m1) by congruence. subst m1'.
  destruct (Shown_back editCancelled m1 HS1) as (m2' & Hback' & HS2).
  assert (m2' = m2) by congruence. subst m2'.
  exists m1, m2. split; [exact Henter|].
  split; [exact (Shown_redraws _ HS1)|]. split; [exact Htab1|].
  split; [exact Hpos1|]. split; [exact Hback|].
  split; [exact (Shown_redraws _ HS2) | exact Hrest].
Qed.

Lemma Shown_twoLevels : Shown twoLevels.
Proof.
  destruct (Shown_setup 2 [rootWithLink; settings] 0%nat rootWithLink rootHeader)
    as (m0 & Hrun & HS & _);
    [lia | apply twoLevels_wfStore | apply listsInRange_forallb; reflexivity
    | apply drawable_forallb; reflexivity | reflexivity | reflexivity
    | left; discriminate | eexists; split; reflexivity | simpl; lia |].
  vm_compute in Hrun. injection Hrun as <-. exact HS.
Qed.

Lemma Shown_onLink : Shown onLink.
Proof.
  destruct (Shown_run [InDown; InDown] twoLevels Shown_twoLevels)
    as (m & Hrun & HS).
  vm_compute in Hrun. injection Hrun as <-.
  apply (Shown_sameNavStore _ _ HS). repeat split.
Qed.

Lemma submenu_round_trip_witness :
  (Shown onLink ∧ isInEditMode onLink = false
   ∧ itemAt onLink (cursorPosition onLink) = Some (subMenuLink 1%nat))
  ∧ ∃ m1 m2,
      enter onLink = Some m1 ∧ redraws m1
      ∧ currentMenuTable m1 = 1%nat
      ∧ (cursorPosition m1, top m1, bottom m1) = (1, 1, 2)
      ∧ back false m1 = Some m2 ∧ redraws m2
      ∧ currentMenuTable m2 = 0%nat
      ∧ (cursorPosition m2, top m2, bottom m2) = (3, 2, 3).
Proof.
  split; [split; [exact Shown_onLink | split; reflexivity]|].
  destruct (submenu_round_trip onLink (subMenuLink 1%nat) 1%nat false
              Shown_onLink eq_refl eq_refl eq_refl)
    as (m1 & m2 & H1 & D1 & H2 & H3 & H4 & D2 & H5 & _ & H6 & H7 & H8 & _).
  exists m1, m2. simpl in *. rewrite H6, H7, H8. auto 12.
Defined.

(** ** Gestures on a list, as the code runs them *)

(** The list under the cursor of a shown state has its index within its
    items. *)
Lemma Shown_list (m : LcdMenu) (h : bool) (l : ItemList.t) :
  Shown m → listAtCursor m h l → listInRange l.
Proof.
  intros (_ & _ & _ & Hlists) Hat. unfold listAtCursor, itemAt in Hat.
  destruct (currentTable m) as [tbl|] eqn:Hcur; [|discriminate].
  cbn [mbind option_bind] in Hat. apply tableAt_lookup in Hat.
  exact (proj1 (Hlists _ tbl _ _ l Hcur Hat eq_refl)).
Qed.

(** The callbacks among the recorded calls: every call but the redraws. *)
Definition isRedraw (e : Event) : bool :=
  match e with
  | EvUpdate | EvDrawCursor => true
  | _ => false
  end.

Definition callbacks (evs : list Event) : list Event :=
  List.filter (λ e, negb (isRedraw e)) evs.

Lemma callbacks_app (evs evs' : list Event) :
  callbacks (evs ++ evs') = callbacks evs ++ callbacks evs'.
Proof. apply List.filter_app. Qed.

Lemma Shown_single : Shown (listMenu single).
Proof. unfold listMenu. shown_started. Qed.

(** C5, counterexample.  A list of one item with a change callback, after
    set-up on two rows: [left()] leaves the index at 0, and yet the callback
    is called, with 0; so is it by [right()].  The state can be shown, and
    the redraw after the gesture is defined. *)
Lemma single_item_list_notifies :
  Shown (listMenu single)
  ∧ (∃ m', left 0 (listMenu single) = Some m' ∧ redraws m'
           ∧ listAtCursor m' false single
           ∧ events m' = events (listMenu single) ++ [EvValueChanged 0])
  ∧ ¬ quietWhenUnchanged (left 0) (listMenu single)
  ∧ ¬ quietWhenUnchanged (right 1000) (listMenu single).
Proof.
  split; [exact Shown_single|]. split; [|split].
  - eexists. split; [vm_compute; reflexivity|].
    split; [eexists; vm_compute; reflexivity|]. split; reflexivity.
  - intros H.
    specialize (H _ false single single eq_refl eq_refl eq_refl eq_refl).
    discriminate H.
  - intros H.
    specialize (H _ false single single eq_refl eq_refl eq_refl eq_refl).
    discriminate H.
Qed.

(** C5, as the code has it.  For a list under the cursor of a state the
    display can show, while no character picker is active in edit mode:
    [left()] and [right()] run and the redraw of the state they return is
    defined; the change callback, when there is one, is called on every
    [left()] and every [right()], with the index the gesture leaves, changed
    or not; [left()] calls [update()], which redraws when updates are
    enabled, only if the index has changed.  Whether [right()] redraws is
    left out. *)
Theorem list_gesture_events (MIN_PROGRESS MAX_PROGRESS : Z)
    (m : LcdMenu) (h : bool) (l : ItemList.t) :
  Shown m → listAtCursor m h l → gesturesOn m →
  (∃ m' l', left MIN_PROGRESS m = Some m' ∧ redraws m'
            ∧ listAtCursor m' h l'
            ∧ events m' = events m
                ++ (if ItemList.changeCallback l
                    then [EvValueChanged (ItemList.itemIndex l')] else [])
                ++ (if negb (ItemList.itemIndex l' =? ItemList.itemIndex l)
                       && enableUpdate m
                    then [EvUpdate] else []))
  ∧ (∃ m' l', right MAX_PROGRESS m = Some m' ∧ redraws m'
              ∧ listAtCursor m' h l'
              ∧ callbacks (events m')
                = callbacks (events m)
                    ++ (if ItemList.changeCallback l
                        then [EvValueChanged (ItemList.itemIndex l')] else [])).
Proof.
  intros HS Hat Hg. pose proof (Shown_list m h l HS Hat) as Hr. split.
  - destruct (left_list MIN_PROGRESS m h l Hat Hg Hr) as (m' & Hrun & _ & Hat' & Hev).
    destruct (Shown_left MIN_PROGRESS MAX_PROGRESS m HS) as (m1 & Hrun1 & HS1).
    assert (m1 = m') by congruence. subst m1.
    eexists m', _. split; [exact Hrun|].
    split; [exact (Shown_redraws _ HS1)|]. split; [exact Hat' | exact Hev].
  - destruct (right_list MAX_PROGRESS m h l Hat Hg Hr) as (m' & Hrun & _ & Hat' & Hev).
    destruct (Shown_right MIN_PROGRESS MAX_PROGRESS m HS) as (m1 & Hrun1 & HS1).
    assert (m1 = m') by congruence. subst m1.
    eexists m', _. split; [exact Hrun|].
    split; [exact (Shown_redraws _ HS1)|]. split; [exact Hat'|].
    rewrite Hev, !callbacks_app. cbn [withIndex ItemList.itemIndex].
    destruct (ItemList.changeCallback l), (enableUpdate m);
      cbn [callbacks List.filter isRedraw negb]; rewrite ?app_nil_r; reflexivity.
Qed.

(** A list of one item with a change callback: [left()] leaves the index at
    0, calls the callback with 0 and does not redraw; [right()] calls the
    callback with 0 as well. *)
Lemma list_gesture_events_witness :
  (Shown (listMenu single) ∧ listAtCursor (listMenu single) false single
   ∧ gesturesOn (listMenu single))
  ∧ (∃ m', left 0 (listMenu single) = Some m' ∧ redraws m'
           ∧ listAtCursor m' false single
           ∧ events m' = events (listMenu single) ++ [EvValueChanged 0])
  ∧ (∃ m', right 1000 (listMenu single) = Some m' ∧ redraws m'
           ∧ listAtCursor m' false single
           ∧ callbacks (events m')
             = callbacks (events (listMenu single)) ++ [EvValueChanged 0]).
Proof.
  split; [split; [exact Shown_single | split; reflexivity]|].
  destruct (list_gesture_events 0 1000 (listMenu single) false single
              Shown_single eq_refl eq_refl)
    as [(ml & ll & Hl & Dl & Hatl & Hevl) (mr & lr & Hr & Dr & Hatr & Hevr)].
  split.
  - exists ml. split; [exact Hl|]. split; [exact Dl|].
    vm_compute in Hl. injection Hl as <-.
    vm_compute in Hatl. injection Hatl as <-.
    split; reflexivity.
  - exists mr. split; [exact Hr|]. split; [exact Dr|].
    vm_compute in Hr. injection Hr as <-.
    vm_compute in Hatr. injection Hatr as <-.
    split; reflexivity.
Defined.

(** C6. Wrap law.  For a list of [n] items at index [i] under the cursor of
    a state the display can show, while no character picker is active in
    edit mode: any number [k] of calls of [right()] runs, redraw included,
    and leaves the index [(i + k) mod n], so [n] calls bring the list back
    to index [i]; [left()] after [right()], and [right()] after [left()],
    bring it back as well; and from index 0 one [left()] gives index
    [n - 1]. *)
Theorem list_wrap_law (MIN_PROGRESS MAX_PROGRESS : Z)
    (m : LcdMenu) (h : bool) (l : ItemList.t) :
  Shown m → listAtCursor m h l → gesturesOn m →
  (∀ k : nat,
     ∃ mk, repeatM k (right MAX_PROGRESS) m = Some mk ∧ redraws mk
           ∧ listAtCursor mk h
               (withIndex l ((ItemList.itemIndex l + Z.of_nat k)
                               mod ItemList.itemCount l)))
  ∧ (∃ m', repeatM (Z.to_nat (ItemList.itemCount l)) (right MAX_PROGRESS) m
           = Some m'
           ∧ redraws m' ∧ listAtCursor m' h l)
  ∧ (∃ m1 m2, right MAX_PROGRESS m = Some m1 ∧ redraws m1
              ∧ left MIN_PROGRESS m1 = Some m2 ∧ redraws m2
              ∧ listAtCursor m2 h l)
  ∧ (∃ m1 m2, left MIN_PROGRESS m = Some m1 ∧ redraws m1
              ∧ right MAX_PROGRESS m1 = Some m2 ∧ redraws m2
              ∧ listAtCursor m2 h l)
  ∧ (ItemList.itemIndex l = 0 →
     ∃ m1, left MIN_PROGRESS m = Some m1 ∧ redraws m1
           ∧ listAtCursor m1 h (withIndex l (ItemList.itemCount l - 1))).
Proof.
  intros HS Hat Hg. pose proof (Shown_list m h l HS Hat) as Hr.
  destruct (wrap_law_nav MIN_PROGRESS MAX_PROGRESS m h l Hat Hg Hr)
    as ((mn & Hn & Hatn) & (r1 & r2 & Hr1 & Hr2 & Hatr)
        & (l1 & l2 & Hl1 & Hl2 & Hatl) & H0).
  destruct (Shown_right MIN_PROGRESS MAX_PROGRESS m HS) as (r1' & Hr1' & HSr1).
  assert (r1' = r1) by congruence. subst r1'.
  destruct (Shown_left MIN_PROGRESS MAX_PROGRESS r1 HSr1) as (r2' & Hr2' & HSr2).
  assert (r2' = r2) by congruence. subst r2'.
  destruct (Shown_left MIN_PROGRESS MAX_PROGRESS m HS) as (l1' & Hl1' & HSl1).
  assert (l1' = l1) by congruence. subst l1'.
  destruct (Shown_right MIN_PROGRESS MAX_PROGRESS l1 HSl1) as (l2' & Hl2' & HSl2).
  assert (l2' = l2) by congruence. subst l2'.
  split; [|split; [|split; [|split]]].
  - intros k.
    destruct (right_repeat MAX_PROGRESS k m h l Hat Hg Hr) as (mk & Hk & _ & Hatk).
    destruct (Shown_repeat_right MIN_PROGRESS MAX_PROGRESS k m HS) as (mk' & Hk' & HSk).
    assert (mk' = mk) by congruence. subst mk'.
    exists mk. split; [exact Hk|]. split; [exact (Shown_redraws _ HSk) | exact Hatk].
  - destruct (Shown_repeat_right MIN_PROGRESS MAX_PROGRESS (Z.to_nat (ItemList.itemCount l))
                m HS) as (mn' & Hn' & HSn).
    assert (mn' = mn) by congruence. subst mn'.
    exists mn. split; [exact Hn|]. split; [exact (Shown_redraws _ HSn) | exact Hatn].
  - exists r1, r2. split; [exact Hr1|]. split; [exact (Shown_redraws _ HSr1)|].
    split; [exact Hr2|]. split; [exact (Shown_redraws _ HSr2) | exact Hatr].
  - exists l1, l2. split; [exact Hl1|]. split; [exact (Shown_redraws _ HSl1)|].
    split; [exact Hl2|]. split; [exact (Shown_redraws _ HSl2) | exact Hatl].
  - intros Hi0. destruct (H0 Hi0) as (m1 & Hm1 & Hat1).
    assert (m1 = l1) by congruence. subst m1.
    exists l1. split; [exact Hl1|]. split; [exact (Shown_redraws _ HSl1) | exact Hat1].
Qed.

Lemma Shown_colours : Shown (listMenu colours).
Proof. unfold listMenu. shown_started. Qed.

(** The list "Red", "Green", "Blue" at index 0: one [left()] selects index 2,
    and three [right()] come back to index 0. *)
Lemma list_wrap_law_witness :
  (Shown (listMenu colours) ∧ listAtCursor (listMenu colours) false colours
   ∧ gesturesOn (listMenu colours))
  ∧ (∃ m1, left 0 (listMenu colours) = Some m1 ∧ redraws m1
           ∧ listAtCursor m1 false (withIndex colours 2))
  ∧ (∃ m3, repeatM 3 (right 1000) (listMenu colours) = Some m3 ∧ redraws m3
           ∧ listAtCursor m3 false colours).
Proof.
  split; [split; [exact Shown_colours | split; reflexivity]|].
  destruct (list_wrap_law 0 1000 (listMenu colours) false colours
              Shown_colours eq_refl eq_refl)
    as (_ & Hn & _ & _ & H0).
  split; [exact (H0 eq_refl) | exact Hn].
Defined.

(** ** An edit session, as the code runs it *)

(** C7. Cancel-restore law.  On a state the display can show, the cursor is
    on a list or progress node that holds [v0], and edit mode is off.  Then
    [enter()] switches edit mode on; any sequence of [left()] and [right()]
    runs and leaves some value [v1]; and [back(editCancelled)] switches edit
    mode off, leaves the node at [v0] when [editCancelled] is set and at
    [v1] when it is not, calls the node's callback (when it has one) with
    that value, and stays in the same table with the same cursor and window.
    The redraw of every state on the way is defined. *)
Theorem edit_cancel_restore (MIN_PROGRESS MAX_PROGRESS : Z) (m : LcdMenu)
    (h : bool) (k : ItemKind) (v0 : Z) (gs : list Gesture) :
  Shown m →
  itemAt m (cursorPosition m) = Some (mkItem h k) →
  editable k → valueOf k = Some v0 → isInEditMode m = false →
  ∃ m1 m2 v1,
    enter m = Some m1 ∧ redraws m1 ∧ isInEditMode m1 = true
    ∧ gestures MIN_PROGRESS MAX_PROGRESS gs m1 = Some m2 ∧ redraws m2
    ∧ valueAtCursor m2 = Some v1
    ∧ ∀ editCancelled : bool,
        let v := if editCancelled then v0 else v1 in
        ∃ m3, back editCancelled m2 = Some m3 ∧ redraws m3
              ∧ isInEditMode m3 = false
              ∧ valueAtCursor m3 = Some v
              ∧ events m3 = events m2
                  ++ (if commitCallbackOf k then [EvCommit v] else [])
                  ++ (if enableUpdate m then [EvUpdate] else [])
              ∧ currentMenuTable m3 = currentMenuTable m
              ∧ cursorPosition m3 = cursorPosition m
              ∧ top m3 = top m ∧ bottom m3 = bottom m.
Proof.
  intros HS Hat Hed Hv Hne.
  destruct (cancel_restore_nav MIN_PROGRESS MAX_PROGRESS m h k v0 gs
              Hat Hed Hv Hne)
    as (m1 & m2 & v1 & Henter & He1 & Hgs & Hv1 & Hback).
  destruct (Shown_enter m HS) as (m1' & Henter' & HS1).
  assert (m1' = m1) by congruence. subst m1'.
  destruct (Shown_gestures MIN_PROGRESS MAX_PROGRESS gs m1 HS1)
    as (m2' & Hgs' & HS2).
  assert (m2' = m2) by congruence. subst m2'.
  exists m1, m2, v1. split; [exact Henter|].
  split; [exact (Shown_redraws _ HS1)|]. split; [exact He1|].
  split; [exact Hgs|]. split; [exact (Shown_redraws _ HS2)|].
  split; [exact Hv1|]. intros editCancelled v.
  destruct (Hback editCancelled) as (m3 & Hrun3 & Hrest).
  destruct (Shown_back editCancelled m2 HS2) as (m3' & Hrun3' & HS3).
  assert (m3' = m3) by congruence. subst m3'.
  exists m3. split; [exact Hrun3|].
  split; [exact (Shown_redraws _ HS3) | exact Hrest].
Qed.

Lemma Shown_progressMenu : Shown progressMenu.
Proof. unfold progressMenu. shown_started. Qed.

(** A progress node with a callback at 5, step length 1: after [enter()] and
    two [right()] it holds 7; a cancelled [back] restores 5 and reports 5, a
    plain [back] keeps 7 and reports 7. *)
Lemma edit_cancel_restore_witness :
  (Shown progressMenu
   ∧ itemAt progressMenu (cursorPosition progressMenu)
     = Some (mkItem false (KProgress (ItemProgress.mk true 5 0 1)))
   ∧ editable (KProgress (ItemProgress.mk true 5 0 1))
   ∧ valueOf (KProgress (ItemProgress.mk true 5 0 1)) = Some 5
   ∧ isInEditMode progressMenu = false)
  ∧ ∃ m1 m2,
      enter progressMenu = Some m1 ∧ redraws m1
      ∧ gestures 0 1000 [GRight; GRight] m1 = Some m2 ∧ redraws m2
      ∧ valueAtCursor m2 = Some 7
      ∧ (∃ m3, back true m2 = Some m3 ∧ redraws m3
               ∧ valueAtCursor m3 = Some 5
               ∧ events m3 = events m2 ++ [EvCommit 5] ++ [EvUpdate])
      ∧ (∃ m3, back false m2 = Some m3 ∧ redraws m3
               ∧ valueAtCursor m3 = Some 7
               ∧ events m3 = events m2 ++ [EvCommit 7] ++ [EvUpdate]).
Proof.
  split; [split; [exact Shown_progressMenu | repeat split]|].
  destruct (edit_cancel_restore 0 1000 progressMenu false
              (KProgress (ItemProgress.mk true 5 0 1)) 5 [GRight; GRight]
              Shown_progressMenu eq_refl I eq_refl eq_refl)
    as (m1 & m2 & v1 & Hrun1 & D1 & _ & Hrun2 & D2 & Hv1 & Hback).
  exists m1, m2.
  assert (H7 : v1 = 7).
  { vm_compute in Hrun1. injection Hrun1 as <-.
    vm_compute in Hrun2. injection Hrun2 as <-.
    vm_compute in Hv1. injection Hv1 as <-. reflexivity. }
  subst v1. split; [assumption|]. split; [assumption|]. split; [assumption|].
  split; [assumption|]. split; [assumption|].
  split.
  - destruct (Hback true) as (m3 & H1 & D3 & _ & H2 & H3 & _). eauto 6.
  - destruct (Hback false) as (m3 & H1 & D3 & _ & H2 & H3 & _). eauto 6.
Defined.

(** * Further properties of the keys as the code runs them *)

(** The state a controller is in after [hide()] can be shown when the state
    before could. *)
Lemma Shown_hide (m : LcdMenu) : Shown m → Shown (hide m).
Proof. intros HS. apply (Shown_sameNavStore _ _ HS). repeat split. Qed.

(** X5. What [hide()] switches off has no part in navigation.  From a state
    the display can show, any sequence of keys runs to the end whether the
    controller was hidden first or not; the two runs end with the same
    cursor, window, edit flags, active table and tables; and [show()] after
    the hidden run, whose redraw is defined, changes none of these. *)
Theorem navigation_while_hidden (MIN_PROGRESS MAX_PROGRESS : Z)
    (keys : list Key) (m : LcdMenu) :
  Shown m →
  ∃ m1 m2,
    pressAll MIN_PROGRESS MAX_PROGRESS keys (hide m) = Some m1
    ∧ pressAll MIN_PROGRESS MAX_PROGRESS keys m = Some m2
    ∧ redraws m1 ∧ redraws m2
    ∧ quiet m1 = quiet m2
    ∧ enableUpdate m1 = false
    ∧ redraws (show m1)
    ∧ quiet (show m1) = quiet m2.
Proof.
  intros HS.
  destruct (Shown_pressAll MIN_PROGRESS MAX_PROGRESS keys (hide m)
              (Shown_hide m HS)) as (m1 & Hrun1 & HS1).
  destruct (Shown_pressAll MIN_PROGRESS MAX_PROGRESS keys m HS)
    as (m2 & Hrun2 & HS2).
  destruct (hidden_agrees_nav MIN_PROGRESS MAX_PROGRESS keys m) as [Hq Hshow].
  rewrite Hrun1, Hrun2 in Hq, Hshow.
  cbn [fmap option_fmap option_map] in Hq, Hshow.
  exists m1, m2. split; [exact Hrun1|]. split; [exact Hrun2|].
  split; [exact (Shown_redraws _ HS1)|]. split; [exact (Shown_redraws _ HS2)|].
  split; [congruence|]. split.
  - destruct (pressAll_displayStep MIN_PROGRESS MAX_PROGRESS keys (hide m) m1
                Hrun1) as [Hen _]. rewrite Hen. reflexivity.
  - split; [|congruence].
    apply Shown_redraws, (Shown_sameNavStore _ _ HS1). unfold show, update.
    cbn [enableUpdate set_enableUpdate]. repeat split.
Qed.

Lemma navigation_while_hidden_witness :
  Shown (started 2 thirdHidden)
  ∧ ∃ m1 m2,
      pressAll 0 1000 [KeyDown; KeyDown; KeyEnter] (hide (started 2 thirdHidden))
      = Some m1
      ∧ pressAll 0 1000 [KeyDown; KeyDown; KeyEnter] (started 2 thirdHidden)
        = Some m2
      ∧ quiet m1 = quiet m2
      ∧ quiet (show m1) = quiet m2.
Proof.
  assert (HS : Shown (started 2 thirdHidden)) by shown_started.
  split; [exact HS|].
  destruct (navigation_while_hidden 0 1000 [KeyDown; KeyDown; KeyEnter]
              (started 2 thirdHidden) HS)
    as (m1 & m2 & H1 & H2 & _ & _ & H3 & _ & _ & H4).
  exists m1, m2. auto.
Defined.

(** X7. Edit mode is only ever on over an [ItemInput], an [ItemList] or an
    [ItemProgress].  From a state the display can show, outside edit mode,
    any sequence of keys runs to a state whose redraw is defined; if that
    state is in edit mode it has such a node under its cursor, and [back()]
    then only ends the edit: it runs, redraw included, edit mode goes off,
    and the active table, the cursor and the window stay as they are, in a
    sub-menu too. *)
Theorem edit_mode_on_editable (MIN_PROGRESS MAX_PROGRESS : Z)
    (keys : list Key) (m : LcdMenu) :
  Shown m → isEditModeEnabled m = false →
  ∃ m', pressAll MIN_PROGRESS MAX_PROGRESS keys m = Some m' ∧ redraws m'
        ∧ (isEditModeEnabled m' = true →
           (∃ it, itemAt m' (cursorPosition m') = Some it
                  ∧ isEditable it = true)
           ∧ ∀ editCancelled,
               ∃ m'', back editCancelled m' = Some m'' ∧ redraws m''
                      ∧ isEditModeEnabled m'' = false
                      ∧ currentMenuTable m'' = currentMenuTable m'
                      ∧ currentMenuSize m'' = currentMenuSize m'
                      ∧ cursorPosition m'' = cursorPosition m'
                      ∧ top m'' = top m' ∧ bottom m'' = bottom m').
Proof.
  intros HS He0.
  destruct (Shown_pressAll MIN_PROGRESS MAX_PROGRESS keys m HS)
    as (m' & Hrun & HS').
  exists m'. split; [exact Hrun|]. split; [exact (Shown_redraws _ HS')|].
  intros He.
  destruct (edit_on_editable_nav MIN_PROGRESS MAX_PROGRESS keys m m' He0 Hrun He)
    as [Hit Hback].
  split; [exact Hit|]. intros c0.
  destruct (Hback c0) as (m'' & Hrun'' & Hrest).
  destruct (Shown_back c0 m' HS') as (m2 & Hrun2 & HS2).
  assert (m2 = m'') by congruence. subst m2.
  exists m''. split; [exact Hrun''|].
  split; [exact (Shown_redraws _ HS2) | exact Hrest].
Qed.

Lemma edit_mode_on_editable_witness :
  (Shown (listMenu colours) ∧ isEditModeEnabled (listMenu colours) = false)
  ∧ ∃ m', pressAll 0 1000 [KeyDown; KeyEnter; KeyRight; KeyUp] (listMenu colours)
          = Some m'
          ∧ redraws m'
          ∧ isEditModeEnabled m' = true
          ∧ (∃ it, itemAt m' (cursorPosition m') = Some it
                   ∧ isEditable it = true).
Proof.
  split; [split; [exact Shown_colours | reflexivity]|].
  destruct (edit_mode_on_editable 0 1000 [KeyDown; KeyEnter; KeyRight; KeyUp]
              (listMenu colours) Shown_colours eq_refl)
    as (m' & Hrun & Hdraw & Hedit).
  exists m'. split; [exact Hrun|]. split; [exact Hdraw|].
  assert (He : isEditModeEnabled m' = true).
  { vm_compute in Hrun. injection Hrun as <-. reflexivity. }
  split; [exact He | exact (proj1 (Hedit He))].
Defined.

(** X8. On a state the display can show, [enter()] on an [ItemToggle] flips
    [isOn], calls the callback (when there is one) with the new state and
    redraws; a second [enter()] brings the toggle, and with it every table,
    back: after both calls the controller differs from the one before only
    by the calls recorded, first with the flipped state, then with the
    original one.  Both redraws are defined. *)
Theorem toggle_twice (m : LcdMenu) (it : MenuItem) (on cb : bool) :
  Shown m →
  itemAt m (cursorPosition m) = Some it → kind it = KToggle on cb →
  let fired v := if cb then [EvToggle v] else [] in
  let redrawn := if enableUpdate m then [EvUpdate] else [] in
  ∃ m1 m2,
    enter m = Some m1 ∧ redraws m1
    ∧ itemAt m1 (cursorPosition m1)
      = Some (mkItem (hidden it) (KToggle (negb on) cb))
    ∧ events m1 = events m ++ fired (negb on) ++ redrawn
    ∧ enter m1 = Some m2 ∧ redraws m2
    ∧ m2 = emit (fired (negb on) ++ redrawn ++ fired on ++ redrawn) m.
Proof.
  intros HS Hit Hk fired redrawn.
  pose proof (toggle_twice_nav m it on cb Hit Hk) as Hnav. cbv zeta in Hnav.
  destruct Hnav as (m1 & Henter & Hat1 & Hev1 & Henter2).
  destruct (Shown_enter m HS) as (m1' & Henter' & HS1).
  assert (m1' = m1) by congruence. subst m1'.
  destruct (Shown_enter m1 HS1) as (m2 & Henter2' & HS2).
  exists m1, m2. split; [exact Henter|].
  split; [exact (Shown_redraws _ HS1)|]. split; [exact Hat1|].
  split; [exact Hev1|]. split; [exact Henter2'|].
  split; [exact (Shown_redraws _ HS2)|].
  rewrite Henter2 in Henter2'. injection Henter2' as <-. reflexivity.
Qed.

Definition toggleMenu : LcdMenu :=
  started 2 [rootHeader; mkItem false (KToggle false true); endOfMenu].

Lemma toggle_twice_witness :
  (Shown toggleMenu
   ∧ itemAt toggleMenu (cursorPosition toggleMenu)
     = Some (mkItem false (KToggle false true)))
  ∧ ∃ m1 m2,
      enter toggleMenu = Some m1 ∧ redraws m1
      ∧ itemAt m1 (cursorPosition m1) = Some (mkItem false (KToggle true true))
      ∧ enter m1 = Some m2 ∧ redraws m2
      ∧ m2 = emit [EvToggle true; EvUpdate; EvToggle false; EvUpdate] toggleMenu.
Proof.
  assert (HS : Shown toggleMenu) by (unfold toggleMenu; shown_started).
  split; [split; [exact HS | reflexivity]|].
  pose proof (toggle_twice toggleMenu (mkItem false (KToggle false true))
                false true HS eq_refl eq_refl) as H.
  cbv zeta in H. destruct H as (m1 & m2 & H1 & D1 & H2 & _ & H3 & D2 & H4).
  exists m1, m2. auto 8.
Defined.

(** X9. The way back from a sub-menu does not depend on what [up()] and
    [down()] did inside it.  From a state the display can show, in browsing
    mode, with the cursor on a link to a sub-menu: [enter()], then any
    sequence of [up()] and [down()], then [back()] run, with every redraw
    defined, to a state in which the parent is the active table again, with
    the cursor position and the window it had before [enter()]; no node
    other than the parent's header has been written. *)
Theorem submenu_navigate_back (m : LcdMenu) (lnk : MenuItem) (child : TableId)
    (inner : list Input) (editCancelled : bool) :
  Shown m → isEditModeEnabled m = false →
  itemAt m (cursorPosition m) = Some lnk → kind lnk = KSubMenu (Some child) →
  forallb isMove inner = true →
  ∃ m1 m2 m3,
    enter m = Some m1 ∧ redraws m1
    ∧ run inner m1 = Some m2 ∧ redraws m2
    ∧ back editCancelled m2 = Some m3 ∧ redraws m3
    ∧ currentMenuTable m3 = currentMenuTable m
    ∧ currentMenuSize m3 = currentMenuSize m
    ∧ cursorPosition m3 = cursorPosition m
    ∧ top m3 = top m
    ∧ bottom m3 = bottom m
    ∧ isEditModeEnabled m3 = false
    ∧ (∀ i, i ≠ 0 → itemAt m3 i = itemAt m i).
Proof.
  intros HS Hbrowse Hat Hk Hmoves.
  destruct (navigate_back_nav m lnk child inner editCancelled (proj1 HS)
              Hbrowse Hat Hk Hmoves) as (m3 & Hrun & Hrest).
  destruct (Shown_enter m HS) as (m1 & Henter & HS1).
  destruct (Shown_run inner m1 HS1) as (m2 & Hinner & HS2).
  destruct (Shown_back editCancelled m2 HS2) as (m3' & Hback & HS3).
  assert (m3' = m3).
  { revert Hrun. cbn [run step]. rewrite Henter. cbn [mbind option_bind].
    rewrite run_app, Hinner. cbn [mbind option_bind run step].
    rewrite Hback. cbn [mbind option_bind]. congruence. }
  subst m3'.
  exists m1, m2, m3. split; [exact Henter|].
  split; [exact (Shown_redraws _ HS1)|]. split; [exact Hinner|].
  split; [exact (Shown_redraws _ HS2)|]. split; [exact Hback|].
  split; [exact (Shown_redraws _ HS3) | exact Hrest].
Qed.

Lemma submenu_navigate_back_witness :
  (Shown onLink ∧ isEditModeEnabled onLink = false
   ∧ itemAt onLink (cursorPosition onLink) = Some (subMenuLink 1%nat))
  ∧ ∃ m1 m2 m3,
      enter onLink = Some m1
      ∧ run [InDown; InDown; InUp] m1 = Some m2 ∧ redraws m2
      ∧ back false m2 = Some m3 ∧ redraws m3
      ∧ (currentMenuTable m3, cursorPosition m3, top m3, bottom m3)
        = (0%nat, 3, 2, 3).
Proof.
  split; [split; [exact Shown_onLink | split; reflexivity]|].
  destruct (submenu_navigate_back onLink (subMenuLink 1%nat) 1%nat
              [InDown; InDown; InUp] false Shown_onLink eq_refl eq_refl eq_refl
              eq_refl)
    as (m1 & m2 & m3 & H1 & _ & H2 & D2 & H3 & D3 & H4 & _ & H5 & H6 & H7 & _).
  exists m1, m2, m3. split; [exact H1|]. split; [exact H2|].
  split; [exact D2|]. split; [exact H3|]. split; [exact D3|].
  rewrite H4, H5, H6, H7. reflexivity.
Defined.

(** X10. After the constructor and [setupLcdWithMenu] on a display of 2 to
    255 rows, with a well-formed store of tables in which every list holds
    at least one item and has its indices within its items, every end
    marker is visible, every table is short enough for [top + maxRows] to
    stay below 256, and the root table starts with a visible entry: the
    cursor is on entry 1 with the window [1, maxRows], and every sequence of
    the six keys runs to the end.  No call reads outside a table, divides by
    zero or loops for ever, in the navigation code or in the redraw; after
    the last call the cursor is on an entry that is not hidden, with
    [top <= cursorPosition] and [bottom = top + maxRows - 1]. *)
Theorem keys_safe_after_setup (MIN_PROGRESS MAX_PROGRESS rows : Z)
    (tables : list Table) (root : TableId) (tbl : Table) (hdr : MenuItem)
    (keys : list Key) :
  2 <= rows <= 255 → wfStore tables → listsInRange tables →
  drawable rows tables →
  tables !! root = Some tbl → tbl !! 0%nat = Some hdr →
  getType hdr ≠ MENU_ITEM_SUB_MENU_HEADER ∨ getSubMenu hdr = None →
  visibleAt tbl 1 → 3 <= Z.of_nat (length tbl) →
  ∃ m0 m',
    setupLcdWithMenu root (LcdMenu_new rows tables) = Some m0
    ∧ redraws m0
    ∧ (cursorPosition m0, top m0, bottom m0) = (1, 1, rows)
    ∧ pressAll MIN_PROGRESS MAX_PROGRESS keys m0 = Some m'
    ∧ redraws m'
    ∧ onVisibleEntry m'
    ∧ top m' <= cursorPosition m'
    ∧ bottom m' = top m' + maxRows m' - 1.
Proof.
  intros Hrows Hstore Hlists Hdraw Hroot H0 Hnone Hv1 Hlen.
  destruct (Shown_setup rows tables root tbl hdr Hrows Hstore Hlists Hdraw
              Hroot H0 Hnone Hv1 Hlen) as (m0 & Hsetup & HS0 & Hpos).
  destruct (Shown_pressAll MIN_PROGRESS MAX_PROGRESS keys m0 HS0)
    as (m' & Hrun & HS').
  destruct (Inv_cursor m' (proj1 HS')) as (H1 & H2 & H3).
  exists m0, m'. split; [exact Hsetup|].
  split; [exact (Shown_redraws _ HS0)|]. split; [exact Hpos|].
  split; [exact Hrun|]. split; [exact (Shown_redraws _ HS')|].
  split; [exact H3|]. split; [exact H1|].
  rewrite H2. apply wrap8_small.
  destruct HS' as (HI & Hr & Hd & _).
  destruct (Inv_navOn m' HI) as (tbl' & (Hcur & _) & (Ht & Hc & _)).
  destruct (Hd _ tbl' Hcur) as [_ Hfit]. lia.
Qed.

Lemma keys_safe_after_setup_witness :
  ∃ m0 m',
    setupLcdWithMenu 0%nat (LcdMenu_new 2 [mixedRoot; settings]) = Some m0
    ∧ pressAll 0 1000
        [KeyEnter; KeyRight; KeyLeft; KeyLeft; KeyBack false; KeyDown; KeyEnter;
         KeyRight; KeyBack true; KeyDown; KeyEnter; KeyDown; KeyUp; KeyUp;
         KeyBack false; KeyUp] m0 = Some m'
    ∧ redraws m'
    ∧ onVisibleEntry m'.
Proof.
  destruct (keys_safe_after_setup 0 1000 2 [mixedRoot; settings] 0%nat mixedRoot
              rootHeader
              [KeyEnter; KeyRight; KeyLeft; KeyLeft; KeyBack false; KeyDown;
               KeyEnter; KeyRight; KeyBack true; KeyDown; KeyEnter; KeyDown;
               KeyUp; KeyUp; KeyBack false; KeyUp])
    as (m0 & m' & H0 & _ & _ & H1 & H2 & H3 & _);
    [lia | apply mixed_wfStore | apply mixed_listsInRange | apply mixed_drawable
    | reflexivity | reflexivity | left; discriminate
    | eexists; split; reflexivity | simpl; lia |].
  exists m0, m'. auto.
Defined.
